(** * WV-Networking: wire codec, transport, actor registry, replication and RPC

    A shallow embedding of the C++ sources under [src/] and [include/wvnet/]
    and the properties established about them.

    Conventions.
    - A [uintN_t]/[intN_t] is a [Z]; the wrap-around of casts and increments
      is written out where the source performs it.
    - A byte buffer ([std::vector<uint8_t>], raw memory) is a [list byte];
      multi-byte scalars are stored little-endian with [le_split] and
      [le_combine] (the sources [memcpy] host-order objects and assume
      little-endian, homogeneous peers).
    - [size_t] positions are [nat]; a [float]/[double] that only travels
      through [memcpy] is represented by its IEEE bit pattern.
    - [std::string] is [string] (a sequence of 8-bit characters).
    - [std::unordered_map]/[std::map] are [gmap]s; [std::vector]/[std::queue]
      are lists in insertion order. The order in which a
      [std::unordered_map] is iterated is unspecified; where the sources
      iterate over one, the order of [map_to_list] stands for it, and no
      statement depends on that order.
    - Objects referred to through raw pointers (connections, actors) live in
      a store indexed by an abstract address, so that aliasing is kept.
    - User code reached through [std::function] callbacks and virtual hooks
      is not part of the sources: a call of it is recorded as an event, and
      the per-frame hook of an actor is a parameter that may ask the World
      to destroy actors.
    - An operation that dereferences a pointer to a removed object or leaves
      the storage of an object has no defined result; it returns [None].
    - A replicated property of kind [String] is bound to a [std::string]
      object. Where that object keeps its characters is decided by the
      standard library, not by these sources, so the access to such a
      property through its raw pointer has no result here either
      ([None]); the statements about replicated properties say that they
      leave the kind out.
    - Console logging ([WVNET_LOG*]) has no effect on any state and is left
      out. *)

From Stdlib Require Import ZArith List Lia String Bool.
From coqutil Require Import Byte Word.LittleEndianList.
From stdpp Require Import base option list gmap strings.
Import ListNotations.

Local Open Scope Z_scope.

(** ** Core.h: constants *)

Definition PACKET_MAGIC : Z := 0x57564E45.
Definition DEFAULT_SERVER_PORT : Z := 7777.
Definition DEFAULT_MAX_CONNECTIONS : Z := 64.
Definition MAX_PACKET_SIZE : nat := 1024.

Module NetworkMode.
Inductive t := Standalone | Server | Client.
End NetworkMode.

(** ** Machine integers *)

(** [static_cast<uintN_t>]: reduction modulo [2^N]. *)
Definition wrap (bits : Z) (z : Z) : Z := z mod 2 ^ bits.

(** Value of an [N]-bit two's complement object read as [intN_t]. *)
Definition to_signed (bits : Z) (z : Z) : Z :=
  if z <? 2 ^ (bits - 1) then z else z - 2 ^ bits.

Definition in_unsigned (bits : Z) (z : Z) : Prop := 0 <= z < 2 ^ bits.
Definition in_signed (bits : Z) (z : Z) : Prop :=
  - 2 ^ (bits - 1) <= z < 2 ^ (bits - 1).

(** [memcmp(a, b, n) == 0] on two byte sequences of the same length. *)
Fixpoint bytes_eqb (a b : list byte) : bool :=
  match a, b with
  | [], [] => true
  | x :: a', y :: b' => Byte.eqb x y && bytes_eqb a' b'
  | _, _ => false
  end.

(** glm value types, component-wise; each component is the bit pattern of a
    [float]. *)
Record vec3 := Vec3 { v_x : Z; v_y : Z; v_z : Z }.
Record quat := Quat { q_w : Z; q_x : Z; q_y : Z; q_z : Z }.

(** ** BitStream.h / BitStream.cpp *)

Module BitStream.

Record t := mk {
  m_buffer : list byte;
  m_writePos : nat;
  m_readPos : nat
}.

(** [BitStream()] and [BitStream(size_t)]: capacity is reserved, the
    vector stays empty. *)
Definition create : t := mk [] 0 0.

(** [BitStream(const uint8_t* data, size_t size)], [data] being the [size]
    bytes handed in. *)
Definition of_data (data : list byte) : t := mk data (length data) 0.

Definition GetData (s : t) : list byte := m_buffer s.
Definition GetSize (s : t) : nat := m_writePos s.
Definition GetReadPos (s : t) : nat := m_readPos s.
Definition GetBytesRemaining (s : t) : nat := (m_writePos s - m_readPos s)%nat.

(** The bytes that have been written: [GetData()[0 .. GetSize())]. *)
Definition contents (s : t) : list byte := firstn (m_writePos s) (m_buffer s).

(** [CanRead(bytes)]: [m_readPos + bytes <= m_writePos]. The byte count
    may come from the wire, so it is compared as an integer. *)
Definition CanRead (s : t) (bytes : Z) : bool :=
  Z.of_nat (m_readPos s) + bytes <=? Z.of_nat (m_writePos s).

(** [EnsureCapacity]: [resize] value-initialises the new tail. *)
Definition EnsureCapacity (s : t) (additionalBytes : nat) : t :=
  let requiredSize := (m_writePos s + additionalBytes)%nat in
  if (length (m_buffer s) <? requiredSize)%nat
  then mk (m_buffer s ++ repeat Byte.x00 (requiredSize - length (m_buffer s)))
          (m_writePos s) (m_readPos s)
  else s.

(** [Write(data, size)]: [memcpy] at the write position. *)
Definition Write (s : t) (data : list byte) : t :=
  let s1 := EnsureCapacity s (length data) in
  mk (firstn (m_writePos s1) (m_buffer s1) ++ data
        ++ skipn (m_writePos s1 + length data) (m_buffer s1))
     (m_writePos s1 + length data)
     (m_readPos s1).

Definition WriteUInt8 (s : t) (value : Z) : t := Write s (le_split 1 value).
Definition WriteInt8 (s : t) (value : Z) : t := Write s (le_split 1 value).
Definition WriteBool (s : t) (value : bool) : t :=
  WriteUInt8 s (if value then 1 else 0).
Definition WriteInt16 (s : t) (value : Z) : t := Write s (le_split 2 value).
Definition WriteUInt16 (s : t) (value : Z) : t := Write s (le_split 2 value).
Definition WriteInt32 (s : t) (value : Z) : t := Write s (le_split 4 value).
Definition WriteUInt32 (s : t) (value : Z) : t := Write s (le_split 4 value).
Definition WriteInt64 (s : t) (value : Z) : t := Write s (le_split 8 value).
Definition WriteUInt64 (s : t) (value : Z) : t := Write s (le_split 8 value).
Definition WriteFloat (s : t) (value : Z) : t := Write s (le_split 4 value).
Definition WriteDouble (s : t) (value : Z) : t := Write s (le_split 8 value).

Definition WriteString (s : t) (value : string) : t :=
  let length := wrap 32 (Z.of_nat (String.length value)) in
  let s1 := WriteUInt32 s length in
  if 0 <? length
  then Write s1 (firstn (Z.to_nat length) (list_byte_of_string value))
  else s1.

Definition WriteVector3 (s : t) (value : vec3) : t :=
  WriteFloat (WriteFloat (WriteFloat s (v_x value)) (v_y value)) (v_z value).

Definition WriteQuaternion (s : t) (value : quat) : t :=
  WriteFloat (WriteFloat (WriteFloat (WriteFloat s (q_w value))
    (q_x value)) (q_y value)) (q_z value).

(** [Read(data, size)]: [None] stands for the [false] return, which leaves
    both the destination and the stream untouched. *)
Definition Read (s : t) (size : nat) : option (list byte) * t :=
  if CanRead s (Z.of_nat size)
  then (Some (firstn size (skipn (m_readPos s) (m_buffer s))),
        mk (m_buffer s) (m_writePos s) (m_readPos s + size))
  else (None, s).

(** A scalar read: the local is zero-initialised and keeps that value when
    [Read] fails. *)
Definition read_scalar (s : t) (size : nat) : Z * t :=
  match Read s size with
  | (Some bs, s') => (le_combine bs, s')
  | (None, s') => (0, s')
  end.

Definition ReadUInt8 (s : t) : Z * t := read_scalar s 1.
Definition ReadInt8 (s : t) : Z * t :=
  let '(v, s') := read_scalar s 1 in (to_signed 8 v, s').
Definition ReadBool (s : t) : bool * t :=
  let '(v, s') := ReadUInt8 s in (negb (v =? 0), s').
Definition ReadUInt16 (s : t) : Z * t := read_scalar s 2.
Definition ReadInt16 (s : t) : Z * t :=
  let '(v, s') := read_scalar s 2 in (to_signed 16 v, s').
Definition ReadUInt32 (s : t) : Z * t := read_scalar s 4.
Definition ReadInt32 (s : t) : Z * t :=
  let '(v, s') := read_scalar s 4 in (to_signed 32 v, s').
Definition ReadUInt64 (s : t) : Z * t := read_scalar s 8.
Definition ReadInt64 (s : t) : Z * t :=
  let '(v, s') := read_scalar s 8 in (to_signed 64 v, s').
Definition ReadFloat (s : t) : Z * t := read_scalar s 4.
Definition ReadDouble (s : t) : Z * t := read_scalar s 8.

Definition ReadString (s : t) : string * t :=
  let '(length, s1) := ReadUInt32 s in
  if length =? 0 then (EmptyString, s1)
  else if negb (CanRead s1 length) then (EmptyString, s1)
  else
    match Read s1 (Z.to_nat length) with
    | (Some bs, s2) => (string_of_list_byte bs, s2)
    | (None, s2) => (string_of_list_byte (repeat Byte.x00 (Z.to_nat length)), s2)
    end.

Definition ReadVector3 (s : t) : vec3 * t :=
  let '(x, s1) := ReadFloat s in
  let '(y, s2) := ReadFloat s1 in
  let '(z, s3) := ReadFloat s2 in
  (Vec3 x y z, s3).

Definition ReadQuaternion (s : t) : quat * t :=
  let '(w, s1) := ReadFloat s in
  let '(x, s2) := ReadFloat s1 in
  let '(y, s3) := ReadFloat s2 in
  let '(z, s4) := ReadFloat s3 in
  (Quat w x y z, s4).

Definition Clear (s : t) : t := mk (m_buffer s) 0 0.
Definition ResetReadPos (s : t) : t := mk (m_buffer s) (m_writePos s) 0.

(** Class invariant kept by every member function: the cursor positions
    lie inside the vector. *)
Definition wf (s : t) : Prop :=
  (m_readPos s <= m_writePos s)%nat /\ (m_writePos s <= length (m_buffer s))%nat.

(** The bytes written and not yet read. *)
Definition unread (s : t) : list byte := skipn (m_readPos s) (contents s).

(** [holds s l]: [s] is a valid stream whose unread bytes are [l]. *)
Definition holds (s : t) (l : list byte) : Prop := wf s /\ unread s = l.

(** The stream [s] after [n] more bytes have been consumed. *)
Definition advance (s : t) (n : nat) : t :=
  mk (m_buffer s) (m_writePos s) (m_readPos s + n).

End BitStream.

(** ** Packet.h / Packet.cpp *)

(** [enum class PacketType : uint16_t]. A header carries the raw [uint16_t];
    [GetType] is a [static_cast] and so may yield a value that names no
    enumerator. *)
Module PacketType.
Definition ConnectionRequest : Z := 0.
Definition ConnectionAccept : Z := 1.
Definition ConnectionDenied : Z := 2.
Definition Disconnect : Z := 3.
Definition Acknowledgement : Z := 10.
Definition Heartbeat : Z := 11.
Definition ActorSpawn : Z := 20.
Definition ActorDestroy : Z := 21.
Definition ActorReplication : Z := 22.
Definition RPCServer : Z := 30.
Definition RPCClient : Z := 31.
Definition RPCMulticast : Z := 32.
Definition TimeSync : Z := 100.
End PacketType.

Module PacketHeader.

Record t := mk {
  magic : Z;
  sequence : Z;
  packetType : Z;
  payloadSize : Z
}.

(** [PacketHeader()] *)
Definition create : t := mk PACKET_MAGIC 0 0 0.

Definition Serialize (h : t) (stream : BitStream.t) : BitStream.t :=
  let s1 := BitStream.WriteUInt32 stream (magic h) in
  let s2 := BitStream.WriteUInt32 s1 (sequence h) in
  let s3 := BitStream.WriteUInt16 s2 (packetType h) in
  BitStream.WriteUInt16 s3 (payloadSize h).

(** The four fields are assigned before the magic number is compared. *)
Definition Deserialize (stream : BitStream.t) : bool * t * BitStream.t :=
  let '(m, s1) := BitStream.ReadUInt32 stream in
  let '(q, s2) := BitStream.ReadUInt32 s1 in
  let '(k, s3) := BitStream.ReadUInt16 s2 in
  let '(n, s4) := BitStream.ReadUInt16 s3 in
  (m =? PACKET_MAGIC, mk m q k n, s4).

Definition GetSize : nat := 12.

End PacketHeader.

Module Packet.

Record t := mk {
  m_header : PacketHeader.t;
  m_payload : BitStream.t
}.

(** [Packet()] *)
Definition create : t :=
  mk (PacketHeader.mk PACKET_MAGIC 0 0 0) BitStream.create.

Definition SetType (p : t) (type : Z) : t :=
  mk (PacketHeader.mk (PacketHeader.magic (m_header p))
        (PacketHeader.sequence (m_header p)) type
        (PacketHeader.payloadSize (m_header p)))
     (m_payload p).

(** [Packet(PacketType)] *)
Definition of_type (type : Z) : t := SetType create type.

Definition GetType (p : t) : Z := PacketHeader.packetType (m_header p).

Definition SetSequence (p : t) (sequence : Z) : t :=
  mk (PacketHeader.mk (PacketHeader.magic (m_header p)) sequence
        (PacketHeader.packetType (m_header p))
        (PacketHeader.payloadSize (m_header p)))
     (m_payload p).

Definition GetSequence (p : t) : Z := PacketHeader.sequence (m_header p).

Definition with_payload (p : t) (payload : BitStream.t) : t :=
  mk (m_header p) payload.

(** [Serialize] first stores the payload size in the header of the packet
    itself (through [const_cast]), so the packet is returned too. *)
Definition Serialize (p : t) (outStream : BitStream.t) : t * BitStream.t :=
  let h := PacketHeader.mk (PacketHeader.magic (m_header p))
             (PacketHeader.sequence (m_header p))
             (PacketHeader.packetType (m_header p))
             (wrap 16 (Z.of_nat (BitStream.GetSize (m_payload p)))) in
  let s1 := PacketHeader.Serialize h outStream in
  let s2 := if (0 <? BitStream.GetSize (m_payload p))%nat
            then BitStream.Write s1 (BitStream.contents (m_payload p))
            else s1 in
  (mk h (m_payload p), s2).

(** [Deserialize] works on the packet in place: the header is overwritten
    first, the payload only on the success path with a non-empty
    payload. *)
Definition Deserialize (p : t) (inStream : BitStream.t)
  : bool * t * BitStream.t :=
  let '(ok, h, s1) := PacketHeader.Deserialize inStream in
  let p1 := mk h (m_payload p) in
  if negb ok then (false, p1, s1)
  else if 0 <? PacketHeader.payloadSize h then
    if negb (BitStream.CanRead s1 (PacketHeader.payloadSize h))
    then (false, p1, s1)
    else
      let n := Z.to_nat (PacketHeader.payloadSize h) in
      let '(r, s2) := BitStream.Read s1 n in
      let payloadData := match r with
                         | Some bs => bs
                         | None => repeat Byte.x00 n
                         end in
      (true, mk h (BitStream.of_data payloadData), s2)
  else (true, p1, s1).

(** [Packet::Write<T>] for [uint32_t]; the other instances forward to the
    payload's writer of the same name. *)
Definition WriteU32 (p : t) (value : Z) : t :=
  with_payload p (BitStream.WriteUInt32 (m_payload p) value).

(** A packet whose fields fit their wire types: the magic number is the
    constant, sequence and kind fit 32 and 16 bits, the payload is a valid
    stream whose size fits the 16-bit size field. *)
Definition well_formed (p : t) : Prop :=
  PacketHeader.magic (m_header p) = PACKET_MAGIC /\
  in_unsigned 32 (PacketHeader.sequence (m_header p)) /\
  in_unsigned 16 (PacketHeader.packetType (m_header p)) /\
  BitStream.wf (m_payload p) /\
  Z.of_nat (BitStream.GetSize (m_payload p)) < 2 ^ 16.

(** The wire image of a packet: header fields, then the payload bytes. *)
Definition wire_bytes (p : t) : list byte :=
  le_split 4 (PacketHeader.magic (m_header p))
  ++ le_split 4 (PacketHeader.sequence (m_header p))
  ++ le_split 2 (PacketHeader.packetType (m_header p))
  ++ le_split 2 (wrap 16 (Z.of_nat (BitStream.GetSize (m_payload p))))
  ++ BitStream.contents (m_payload p).

End Packet.

(** ** The kinds of primitive values of the codec

    [PropertyType] (Actor.h) enumerates them; [Unnamed n] is a value
    obtained by casting a byte that names no enumerator. *)

Inductive PropertyType :=
  | PBool | PInt8 | PUInt8 | PInt16 | PUInt16 | PInt32 | PUInt32
  | PInt64 | PUInt64 | PFloat | PDouble | PVector3 | PQuaternion
  | PString | PCustom | PUnnamed (n : Z).

Definition PropertyType_to_Z (t : PropertyType) : Z :=
  match t with
  | PBool => 0 | PInt8 => 1 | PUInt8 => 2 | PInt16 => 3 | PUInt16 => 4
  | PInt32 => 5 | PUInt32 => 6 | PInt64 => 7 | PUInt64 => 8 | PFloat => 9
  | PDouble => 10 | PVector3 => 11 | PQuaternion => 12 | PString => 13
  | PCustom => 14 | PUnnamed n => n
  end.

Definition PropertyType_of_Z (n : Z) : PropertyType :=
  match n with
  | 0 => PBool | 1 => PInt8 | 2 => PUInt8 | 3 => PInt16 | 4 => PUInt16
  | 5 => PInt32 | 6 => PUInt32 | 7 => PInt64 | 8 => PUInt64 | 9 => PFloat
  | 10 => PDouble | 11 => PVector3 | 12 => PQuaternion | 13 => PString
  | 14 => PCustom | _ => PUnnamed n
  end.

(** A value of one of the supported primitive kinds, as handed to
    [Packet::Write<T>] and the [BitStream] writers. *)
Inductive Prim :=
  | VBool (b : bool)
  | VInt8 (z : Z) | VUInt8 (z : Z)
  | VInt16 (z : Z) | VUInt16 (z : Z)
  | VInt32 (z : Z) | VUInt32 (z : Z)
  | VInt64 (z : Z) | VUInt64 (z : Z)
  | VFloat (bits : Z) | VDouble (bits : Z)
  | VString (s : string)
  | VVector3 (v : vec3)
  | VQuaternion (q : quat).

Definition kind_of (v : Prim) : PropertyType :=
  match v with
  | VBool _ => PBool | VInt8 _ => PInt8 | VUInt8 _ => PUInt8
  | VInt16 _ => PInt16 | VUInt16 _ => PUInt16
  | VInt32 _ => PInt32 | VUInt32 _ => PUInt32
  | VInt64 _ => PInt64 | VUInt64 _ => PUInt64
  | VFloat _ => PFloat | VDouble _ => PDouble
  | VString _ => PString | VVector3 _ => PVector3
  | VQuaternion _ => PQuaternion
  end.

(** The value is representable in its C++ type. A string is in range
    when its length fits the [uint32_t] prefix. *)
Definition in_range (v : Prim) : Prop :=
  match v with
  | VBool _ => True
  | VInt8 z => in_signed 8 z | VUInt8 z => in_unsigned 8 z
  | VInt16 z => in_signed 16 z | VUInt16 z => in_unsigned 16 z
  | VInt32 z => in_signed 32 z | VUInt32 z => in_unsigned 32 z
  | VInt64 z => in_signed 64 z | VUInt64 z => in_unsigned 64 z
  | VFloat z => in_unsigned 32 z | VDouble z => in_unsigned 64 z
  | VString s => Z.of_nat (String.length s) < 2 ^ 32
  | VVector3 v =>
      in_unsigned 32 (v_x v) /\ in_unsigned 32 (v_y v) /\ in_unsigned 32 (v_z v)
  | VQuaternion q =>
      in_unsigned 32 (q_w q) /\ in_unsigned 32 (q_x q) /\
      in_unsigned 32 (q_y q) /\ in_unsigned 32 (q_z q)
  end.

(** The type dispatch of [Packet::Write<T>]. *)
Definition write_prim (s : BitStream.t) (v : Prim) : BitStream.t :=
  match v with
  | VBool b => BitStream.WriteBool s b
  | VInt8 z => BitStream.WriteInt8 s z
  | VUInt8 z => BitStream.WriteUInt8 s z
  | VInt16 z => BitStream.WriteInt16 s z
  | VUInt16 z => BitStream.WriteUInt16 s z
  | VInt32 z => BitStream.WriteInt32 s z
  | VUInt32 z => BitStream.WriteUInt32 s z
  | VInt64 z => BitStream.WriteInt64 s z
  | VUInt64 z => BitStream.WriteUInt64 s z
  | VFloat z => BitStream.WriteFloat s z
  | VDouble z => BitStream.WriteDouble s z
  | VString x => BitStream.WriteString s x
  | VVector3 x => BitStream.WriteVector3 s x
  | VQuaternion x => BitStream.WriteQuaternion s x
  end.

(** The reader of the same name for each kind; [None] for the kinds that
    have no reader. *)
Definition read_prim (s : BitStream.t) (k : PropertyType)
  : option Prim * BitStream.t :=
  match k with
  | PBool => let '(b, s') := BitStream.ReadBool s in (Some (VBool b), s')
  | PInt8 => let '(z, s') := BitStream.ReadInt8 s in (Some (VInt8 z), s')
  | PUInt8 => let '(z, s') := BitStream.ReadUInt8 s in (Some (VUInt8 z), s')
  | PInt16 => let '(z, s') := BitStream.ReadInt16 s in (Some (VInt16 z), s')
  | PUInt16 => let '(z, s') := BitStream.ReadUInt16 s in (Some (VUInt16 z), s')
  | PInt32 => let '(z, s') := BitStream.ReadInt32 s in (Some (VInt32 z), s')
  | PUInt32 => let '(z, s') := BitStream.ReadUInt32 s in (Some (VUInt32 z), s')
  | PInt64 => let '(z, s') := BitStream.ReadInt64 s in (Some (VInt64 z), s')
  | PUInt64 => let '(z, s') := BitStream.ReadUInt64 s in (Some (VUInt64 z), s')
  | PFloat => let '(z, s') := BitStream.ReadFloat s in (Some (VFloat z), s')
  | PDouble => let '(z, s') := BitStream.ReadDouble s in (Some (VDouble z), s')
  | PString => let '(x, s') := BitStream.ReadString s in (Some (VString x), s')
  | PVector3 => let '(x, s') := BitStream.ReadVector3 s in (Some (VVector3 x), s')
  | PQuaternion =>
      let '(x, s') := BitStream.ReadQuaternion s in (Some (VQuaternion x), s')
  | PCustom | PUnnamed _ => (None, s)
  end.

(** ** Values the transport computes with but never inspects *)

(** A [float] that takes part in arithmetic (clocks, round-trip time) is
    kept as the expression that computes it; no rounding behaviour is
    assumed. *)
Inductive float32 :=
  | FLit (text : string)
  | FAdd (a b : float32)
  | FSub (a b : float32)
  | FMul (a b : float32).

(** [WVSocketAddress]: compared by host and port. *)
Record Address := mkAddress { host : Z; port : Z }.

#[global] Instance Address_eq_dec : EqDecision Address.
Proof. solve_decision. Defined.

(** ** NetConnection.h / NetConnection.cpp *)

Inductive ConnectionState := Connecting | Connected | Disconnecting | Disconnected.

Module NetConnection.

Record Stats := mkStats {
  packetsSent : Z;
  packetsReceived : Z;
  bytesSent : Z;
  bytesReceived : Z;
  packetsLost : Z
}.

(** The opaque [m_userData] pointer is never read and is left out. *)
Record t := mk {
  m_address : Address;
  m_state : ConnectionState;
  m_outgoingSequence : Z;
  m_incomingSequence : Z;
  m_reliableBuffer : gmap Z Packet.t;
  m_outgoingQueue : list Packet.t;
  m_roundTripTime : float32;
  m_lastSendTime : float32;
  m_lastReceiveTime : float32;
  m_currentTime : float32;
  m_stats : Stats
}.

(** [NetConnection(address)] *)
Definition create (address : Address) : t :=
  mk address Connecting 0 0 ∅ []
     (FLit "0.0f") (FLit "0.0f") (FLit "0.0f") (FLit "0.0f")
     (mkStats 0 0 0 0 0).

Definition SetState (c : t) (state : ConnectionState) : t :=
  mk (m_address c) state (m_outgoingSequence c) (m_incomingSequence c)
     (m_reliableBuffer c) (m_outgoingQueue c) (m_roundTripTime c)
     (m_lastSendTime c) (m_lastReceiveTime c) (m_currentTime c) (m_stats c).

(** [SendPacket]: stamp with [m_outgoingSequence++], push on the outgoing
    queue, and keep a copy under the sequence when reliable. *)
Definition SendPacket (c : t) (packet : Packet.t) (reliable : bool) : t :=
  let seq := m_outgoingSequence c in
  let outPacket := Packet.SetSequence packet seq in
  mk (m_address c) (m_state c) (wrap 32 (seq + 1)) (m_incomingSequence c)
     (if reliable
      then <[Packet.GetSequence outPacket := outPacket]> (m_reliableBuffer c)
      else m_reliableBuffer c)
     (m_outgoingQueue c ++ [outPacket])
     (m_roundTripTime c) (m_lastSendTime c) (m_lastReceiveTime c)
     (m_currentTime c) (m_stats c).

(** The packet [SendAcknowledgement] builds. *)
Definition ack_packet (sequence : Z) : Packet.t :=
  Packet.WriteU32 (Packet.of_type PacketType.Acknowledgement) sequence.

Definition SendAcknowledgement (c : t) (sequence : Z) : t :=
  SendPacket c (ack_packet sequence) false.

(** [ProcessAcknowledgement] reads from the payload of the packet it is
    given, so the packet is returned with its read cursor moved. *)
Definition ProcessAcknowledgement (c : t) (packet : Packet.t) : t * Packet.t :=
  let '(ackedSequence, payload') := BitStream.ReadUInt32 (Packet.m_payload packet) in
  let packet' := Packet.with_payload packet payload' in
  match m_reliableBuffer c !! ackedSequence with
  | Some _ =>
      let rtt := FSub (m_currentTime c) (m_lastSendTime c) in
      (mk (m_address c) (m_state c) (m_outgoingSequence c)
          (m_incomingSequence c)
          (delete ackedSequence (m_reliableBuffer c))
          (m_outgoingQueue c)
          (FAdd (FMul (m_roundTripTime c) (FLit "0.9f")) (FMul rtt (FLit "0.1f")))
          (m_lastSendTime c) (m_lastReceiveTime c) (m_currentTime c)
          (m_stats c),
       packet')
  | None => (c, packet')
  end.

Definition ReceivePacket (c : t) (packet : Packet.t) : t * Packet.t :=
  let st := m_stats c in
  let sequence := Packet.GetSequence packet in
  let c1 :=
    mk (m_address c) (m_state c) (m_outgoingSequence c)
       (if m_incomingSequence c <? sequence then sequence
        else m_incomingSequence c)
       (m_reliableBuffer c) (m_outgoingQueue c) (m_roundTripTime c)
       (m_lastSendTime c) (m_currentTime c) (m_currentTime c)
       (mkStats (packetsSent st) (wrap 64 (packetsReceived st + 1))
          (bytesSent st) (bytesReceived st) (packetsLost st)) in
  let type := Packet.GetType packet in
  let c2 :=
    if negb (type =? PacketType.Acknowledgement)
       && negb (type =? PacketType.Heartbeat)
    then SendAcknowledgement c1 sequence
    else c1 in
  if type =? PacketType.Acknowledgement
  then ProcessAcknowledgement c2 packet
  else (c2, packet).

(** [Tick]: the connection's clock. *)
Definition Tick (c : t) (deltaTime : float32) : t :=
  mk (m_address c) (m_state c) (m_outgoingSequence c) (m_incomingSequence c)
     (m_reliableBuffer c) (m_outgoingQueue c) (m_roundTripTime c)
     (m_lastSendTime c) (m_lastReceiveTime c)
     (FAdd (m_currentTime c) deltaTime) (m_stats c).

End NetConnection.

(** ** NetDriver.h / NetDriver.cpp *)

Module NetDriver.

(** The address of a [NetConnection] object; [m_connections] owns the
    objects, [m_connectionList] and [m_serverConnection] alias them. *)
Abbreviation conn_ptr := nat.

(** What the driver does to the outside: the three user callbacks and raw
    datagrams handed to the socket. *)
Inductive Event :=
  | OnConnection (c : conn_ptr)
  | OnDisconnection (c : conn_ptr)
  | OnPacket (c : conn_ptr) (packet : Packet.t)
  | SendTo (data : list byte) (dest : Address).

Record t := mk {
  m_mode : NetworkMode.t;
  m_maxConnections : Z;
  m_connections : list (conn_ptr * NetConnection.t);
  m_connectionList : list conn_ptr;
  m_serverConnection : option conn_ptr;
  (** whether the [std::function] holds a callable *)
  m_onConnection : bool;
  m_onDisconnection : bool;
  m_onPacket : bool;
  (** the next address the allocator hands out *)
  next_conn : conn_ptr
}.

(** [NetDriver()] *)
Definition create : t :=
  mk NetworkMode.Standalone DEFAULT_MAX_CONNECTIONS [] [] None false false false 0%nat.

Definition IsServer (d : t) : bool :=
  match m_mode d with NetworkMode.Server => true | _ => false end.
Definition IsClient (d : t) : bool :=
  match m_mode d with NetworkMode.Client => true | _ => false end.

Definition with_connections (d : t)
    (cs : list (conn_ptr * NetConnection.t)) (cl : list conn_ptr)
    (sc : option conn_ptr) (next : conn_ptr) : t :=
  mk (m_mode d) (m_maxConnections d) cs cl sc
     (m_onConnection d) (m_onDisconnection d) (m_onPacket d) next.

(** [FindConnection]: the first owned connection with that peer address. *)
Fixpoint find_by_address (cs : list (conn_ptr * NetConnection.t))
    (address : Address) : option conn_ptr :=
  match cs with
  | [] => None
  | (p, c) :: rest =>
      if bool_decide (NetConnection.m_address c = address) then Some p
      else find_by_address rest address
  end.

Definition FindConnection (d : t) (address : Address) : option conn_ptr :=
  find_by_address (m_connections d) address.

(** Access through a [NetConnection*]. *)
Definition deref (d : t) (p : conn_ptr) : option NetConnection.t :=
  snd <$> List.find (fun e => Nat.eqb (fst e) p) (m_connections d).

Definition update (d : t) (p : conn_ptr)
    (f : NetConnection.t -> NetConnection.t) : t :=
  with_connections d
    (map (fun e => if Nat.eqb (fst e) p then (fst e, f (snd e)) else e)
       (m_connections d))
    (m_connectionList d) (m_serverConnection d) (next_conn d).

Definition CreateConnection (d : t) (address : Address) : t * conn_ptr :=
  let rawPtr := next_conn d in
  (with_connections d
     (m_connections d ++ [(rawPtr, NetConnection.create address)])
     (m_connectionList d ++ [rawPtr])
     (m_serverConnection d) (S rawPtr),
   rawPtr).

Definition RemoveConnection (d : t) (connection : conn_ptr) : t :=
  with_connections d
    (List.filter (fun e => negb (Nat.eqb (fst e) connection)) (m_connections d))
    (List.filter (fun p => negb (Nat.eqb p connection)) (m_connectionList d))
    (match m_serverConnection d with
     | Some s => if Nat.eqb connection s then None else Some s
     | None => None
     end)
    (next_conn d).

(** [SendPacket(connection, packet, reliable)] on a non-null pointer. *)
Definition SendPacket (d : t) (connection : conn_ptr)
    (packet : Packet.t) (reliable : bool) : t :=
  update d connection (fun c => NetConnection.SendPacket c packet reliable).

Definition callback (set : bool) (e : Event) : list Event :=
  if set then [e] else [].

Definition HandleConnectionRequest (d : t) (from : Address)
    (packet : Packet.t) : t * list Event :=
  match FindConnection d from with
  | Some _ => (d, [])
  | None =>
      if m_maxConnections d <=? Z.of_nat (length (m_connections d))
      then
        let deniedPacket := Packet.of_type PacketType.ConnectionDenied in
        let stream := snd (Packet.Serialize deniedPacket BitStream.create) in
        (d, [SendTo (BitStream.contents stream) from])
      else
        let '(d1, newConnection) := CreateConnection d from in
        let d2 := update d1 newConnection
                    (fun c => NetConnection.SetState c Connected) in
        let acceptPacket := Packet.of_type PacketType.ConnectionAccept in
        let d3 := SendPacket d2 newConnection acceptPacket true in
        (d3, callback (m_onConnection d3) (OnConnection newConnection))
  end.

Definition HandleDisconnect (d : t) (connection : conn_ptr)
    (packet : Packet.t) : t * list Event :=
  (RemoveConnection d connection,
   callback (m_onDisconnection d) (OnDisconnection connection)).

(** The body of the receive loop for one datagram of [bytesReceived > 0]
    bytes from [from]. *)
Definition receive_datagram (d : t) (from : Address) (buffer : list byte)
  : t * list Event :=
  let stream := BitStream.of_data buffer in
  let '(ok, packet, _) := Packet.Deserialize Packet.create stream in
  if negb ok then (d, [])
  else
    let connection := FindConnection d from in
    let type := Packet.GetType packet in
    if type =? PacketType.ConnectionRequest then
      if IsServer d then HandleConnectionRequest d from packet else (d, [])
    else if type =? PacketType.ConnectionAccept then
      match IsClient d, m_serverConnection d with
      | true, Some s =>
          (update d s (fun c => NetConnection.SetState c Connected),
           callback (m_onConnection d) (OnConnection s))
      | _, _ => (d, [])
      end
    else if type =? PacketType.Disconnect then
      match connection with
      | Some c => HandleDisconnect d c packet
      | None => (d, [])
      end
    else
      match connection with
      | Some p =>
          match deref d p with
          | Some c =>
              let '(c', packet') := NetConnection.ReceivePacket c packet in
              (update d p (fun _ => c'),
               callback (m_onPacket d) (OnPacket p packet'))
          | None => (d, [])
          end
      | None => (d, [])
      end.

(** [ReceivePackets]: at most [budget] datagrams are taken from the
    socket; an empty socket or a datagram of length zero ends the loop.
    The receive buffer has [MAX_PACKET_SIZE * 2] bytes; a longer datagram
    is cut to the buffer, as [recvfrom] does on POSIX systems. The length
    received is not compared with [MAX_PACKET_SIZE]. *)
Fixpoint receive_loop (budget : nat) (d : t)
    (socket : list (Address * list byte))
  : t * list Event * list (Address * list byte) :=
  match budget with
  | O => (d, [], socket)
  | S budget' =>
      match socket with
      | [] => (d, [], [])
      | (from, data) :: rest =>
          let buffer := firstn (MAX_PACKET_SIZE * 2) data in
          if (length buffer =? 0)%nat then (d, [], rest)
          else
            let '(d1, ev1) := receive_datagram d from buffer in
            let '(d2, ev2, rest') := receive_loop budget' d1 rest in
            (d2, ev1 ++ ev2, rest')
      end
  end.

(** Addresses handed out so far lie below the allocator's next one: a new
    connection never aliases an existing one. *)
Definition fresh (d : t) : Prop :=
  Forall (fun e => (fst e < next_conn d)%nat) (m_connections d).

(** The connection the server holds for a peer it has just accepted:
    state [Connected], with the [ConnectionAccept] packet stamped with
    sequence 0, queued for sending and retained as reliable. *)
Definition accepted (from : Address) : NetConnection.t :=
  let acceptPacket :=
    Packet.SetSequence (Packet.of_type PacketType.ConnectionAccept) 0 in
  NetConnection.mk from Connected 1 0 (<[0 := acceptPacket]> ∅) [acceptPacket]
    (FLit "0.0f") (FLit "0.0f") (FLit "0.0f") (FLit "0.0f")
    (NetConnection.mkStats 0 0 0 0 0).

Definition ReceivePackets (d : t) (socket : list (Address * list byte))
  : t * list Event * list (Address * list byte) :=
  receive_loop 100 d socket.

End NetDriver.

(** ** Actor.h / Actor.cpp *)

(** Raw object memory. A replicated property is bound to an address inside
    its actor; the actor's storage is a byte array and the address an
    offset into it. An access that leaves the storage is undefined
    behaviour and yields [None]. *)
Module Memory.

Definition load (mem : list byte) (addr size : nat) : option (list byte) :=
  if (addr + size <=? length mem)%nat
  then Some (firstn size (skipn addr mem))
  else None.

Definition store (mem : list byte) (addr : nat) (data : list byte)
  : option (list byte) :=
  if (addr + length data <=? length mem)%nat
  then Some (firstn addr mem ++ data ++ skipn (addr + length data) mem)
  else None.

End Memory.

Module ReplicatedProperty.

Record t := mk {
  name : string;
  type : PropertyType;
  dataPtr : option nat;
  size : nat;
  lastValue : list byte;
  dirty : bool
}.

(** [ReplicatedProperty(n, t, ptr, sz)]: [lastValue.resize(sz)] fills the
    cache with zero bytes. *)
Definition create (n : string) (ty : PropertyType) (ptr : option nat)
    (sz : nat) : t :=
  mk n ty ptr sz (repeat Byte.x00 sz) true.

(** [HasChanged]: [memcmp] of the property's memory against the cache. *)
Definition HasChanged (p : t) (mem : list byte) : option bool :=
  match dataPtr p with
  | None => Some true
  | Some addr =>
      if (length (lastValue p) =? 0)%nat then Some true
      else
        match Memory.load mem addr (size p) with
        | Some cur => Some (negb (bytes_eqb cur (firstn (size p) (lastValue p))))
        | None => None
        end
  end.

Definition UpdateLastValue (p : t) (mem : list byte) : option t :=
  match dataPtr p with
  | None => Some p
  | Some addr =>
      if (length (lastValue p) =? 0)%nat then Some p
      else
        match Memory.load mem addr (size p) with
        | Some cur =>
            Some (mk (name p) (type p) (dataPtr p) (size p)
                    (cur ++ skipn (size p) (lastValue p)) false)
        | None => None
        end
  end.

(** The object representation a value of each kind is stored with.
    [glm::quat] keeps its components in the order x, y, z, w. The
    representation of a [std::string] object is not modelled. *)
Definition representation (v : Prim) : option (list byte) :=
  match v with
  | VBool b => Some (le_split 1 (if b then 1 else 0))
  | VInt8 z | VUInt8 z => Some (le_split 1 z)
  | VInt16 z | VUInt16 z => Some (le_split 2 z)
  | VInt32 z | VUInt32 z | VFloat z => Some (le_split 4 z)
  | VInt64 z | VUInt64 z | VDouble z => Some (le_split 8 z)
  | VVector3 v => Some (le_split 4 (v_x v) ++ le_split 4 (v_y v) ++ le_split 4 (v_z v))
  | VQuaternion q =>
      Some (le_split 4 (q_x q) ++ le_split 4 (q_y q)
              ++ le_split 4 (q_z q) ++ le_split 4 (q_w q))
  | VString _ => None
  end.

(** [*static_cast<T*>(dataPtr)] read as a value of kind [t]. *)
Definition load_value (mem : list byte) (addr : nat) (ty : PropertyType)
  : option Prim :=
  let scalar n := le_combine <$> Memory.load mem addr n in
  match ty with
  | PBool => (fun z => VBool (negb (z =? 0))) <$> scalar 1%nat
  | PInt8 => (fun z => VInt8 (to_signed 8 z)) <$> scalar 1%nat
  | PUInt8 => VUInt8 <$> scalar 1%nat
  | PInt16 => (fun z => VInt16 (to_signed 16 z)) <$> scalar 2%nat
  | PUInt16 => VUInt16 <$> scalar 2%nat
  | PInt32 => (fun z => VInt32 (to_signed 32 z)) <$> scalar 4%nat
  | PUInt32 => VUInt32 <$> scalar 4%nat
  | PInt64 => (fun z => VInt64 (to_signed 64 z)) <$> scalar 8%nat
  | PUInt64 => VUInt64 <$> scalar 8%nat
  | PFloat => VFloat <$> scalar 4%nat
  | PDouble => VDouble <$> scalar 8%nat
  | PVector3 =>
      (fun bs => VVector3 (Vec3 (le_combine (firstn 4 bs))
                             (le_combine (firstn 4 (skipn 4 bs)))
                             (le_combine (firstn 4 (skipn 8 bs)))))
        <$> Memory.load mem addr 12
  | PQuaternion =>
      (fun bs => VQuaternion (Quat (le_combine (firstn 4 (skipn 12 bs)))
                                (le_combine (firstn 4 bs))
                                (le_combine (firstn 4 (skipn 4 bs)))
                                (le_combine (firstn 4 (skipn 8 bs)))))
        <$> Memory.load mem addr 16
  | PString | PCustom | PUnnamed _ => None
  end.

(** [Serialize]: name, kind byte, then the current value. The kinds
    without a case in the [switch] write nothing after the kind byte.
    For the kind [String] the source writes the characters of the
    [std::string] object the pointer refers to; the storage bytes do not
    tell them, and the result is left undefined. *)
Definition Serialize (p : t) (mem : list byte) (stream : BitStream.t)
  : option BitStream.t :=
  match dataPtr p with
  | None => Some stream
  | Some addr =>
      let s1 := BitStream.WriteString stream (name p) in
      let s2 := BitStream.WriteUInt8 s1 (wrap 8 (PropertyType_to_Z (type p))) in
      match type p with
      | PCustom | PUnnamed _ => Some s2
      | PString => None
      | ty => write_prim s2 <$> load_value mem addr ty
      end
  end.

(** [Deserialize]: reads a name and a kind byte from the stream into the
    property itself, then a value of that kind into the property's
    memory, then refreshes the cache. For the kind [String] the source
    assigns the string read to the [std::string] object; what that does
    to the storage bytes is left undefined, as in [Serialize]. *)
Definition Deserialize (p : t) (mem : list byte) (stream : BitStream.t)
  : option (t * list byte * BitStream.t) :=
  match dataPtr p with
  | None => Some (p, mem, stream)
  | Some addr =>
      let '(n, s1) := BitStream.ReadString stream in
      let '(k, s2) := BitStream.ReadUInt8 s1 in
      let p1 := mk n (PropertyType_of_Z k) (dataPtr p) (size p)
                  (lastValue p) (dirty p) in
      match type p1 with
      | PCustom | PUnnamed _ =>
          p2 ← UpdateLastValue p1 mem; Some (p2, mem, s2)
      | PString => None
      | ty =>
          match read_prim s2 ty with
          | (Some v, s3) =>
              bytes ← representation v;
              mem' ← Memory.store mem addr bytes;
              p2 ← UpdateLastValue p1 mem';
              Some (p2, mem', s3)
          | (None, _) => None
          end
      end
  end.

End ReplicatedProperty.

Module Actor.

Record t := mk {
  m_netId : Z;
  m_replicates : bool;
  (** whether [m_world] points to the World *)
  m_world : bool;
  m_position : vec3;
  m_rotation : quat;
  m_scale : vec3;
  m_replicatedProperties : gmap string ReplicatedProperty.t;
  (** what the virtual [GetTypeName] returns *)
  typeName : string;
  (** the bytes of the object that hold the registered properties *)
  storage : list byte
}.

(** Bit patterns of [0.0f] and [1.0f]. *)
Definition f0 : Z := 0.
Definition f1 : Z := 0x3F800000.

(** [Actor()] for a class called [typeName] whose replicated fields
    occupy [storage]. *)
Definition create (typeName : string) (storage : list byte) : t :=
  mk 0 false false (Vec3 f0 f0 f0) (Quat f1 f0 f0 f0) (Vec3 f1 f1 f1) ∅
     typeName storage.

Definition SetNetId (a : t) (netId : Z) : t :=
  mk netId (m_replicates a) (m_world a) (m_position a) (m_rotation a)
     (m_scale a) (m_replicatedProperties a) (typeName a) (storage a).

Definition SetReplicates (a : t) (replicates : bool) : t :=
  mk (m_netId a) replicates (m_world a) (m_position a) (m_rotation a)
     (m_scale a) (m_replicatedProperties a) (typeName a) (storage a).

Definition SetWorld (a : t) (world : bool) : t :=
  mk (m_netId a) (m_replicates a) world (m_position a) (m_rotation a)
     (m_scale a) (m_replicatedProperties a) (typeName a) (storage a).

Definition SetPosition (a : t) (pos : vec3) : t :=
  mk (m_netId a) (m_replicates a) (m_world a) pos (m_rotation a)
     (m_scale a) (m_replicatedProperties a) (typeName a) (storage a).

Definition SetRotation (a : t) (rot : quat) : t :=
  mk (m_netId a) (m_replicates a) (m_world a) (m_position a) rot
     (m_scale a) (m_replicatedProperties a) (typeName a) (storage a).

Definition with_properties (a : t)
    (props : gmap string ReplicatedProperty.t) (mem : list byte) : t :=
  mk (m_netId a) (m_replicates a) (m_world a) (m_position a) (m_rotation a)
     (m_scale a) props (typeName a) mem.

Definition IsNetworked (a : t) : bool :=
  m_replicates a && negb (m_netId a =? 0).

Definition RegisterReplicatedProperty (a : t) (name : string)
    (ptr : option nat) (type : PropertyType) (size : nat) : t :=
  with_properties a
    (<[name := ReplicatedProperty.create name type ptr size]>
       (m_replicatedProperties a))
    (storage a).

(** [sizeof(T)] for the kinds [RegisterProperty<T>] resolves to (for
    [std::string], the 64-bit libstdc++ value). *)
Definition sizeof (ty : PropertyType) : nat :=
  match ty with
  | PBool | PInt8 | PUInt8 => 1
  | PInt16 | PUInt16 => 2
  | PInt32 | PUInt32 | PFloat => 4
  | PInt64 | PUInt64 | PDouble => 8
  | PVector3 => 12
  | PQuaternion => 16
  | PString => 32
  | PCustom | PUnnamed _ => 0
  end.

(** [RegisterProperty<T>(name, ptr)] *)
Definition RegisterProperty (a : t) (name : string) (ptr : nat)
    (type : PropertyType) : t :=
  RegisterReplicatedProperty a name (Some ptr) type (sizeof type).

End Actor.

(** ** World.h / World.cpp *)

Module World.

(** The address of an [Actor] object. [m_actors] owns the objects; the
    iteration list, the id-map and the pending list alias them. *)
Abbreviation actor_ptr := nat.

(** Calls of the virtual hooks of an actor, in program order. *)
Inductive Event :=
  | OnSpawn (a : actor_ptr)
  | OnDestroy (a : actor_ptr)
  | OnTick (a : actor_ptr)
  | OnReplicated (a : actor_ptr).

Record t := mk {
  m_actors : list (actor_ptr * Actor.t);
  m_actorList : list actor_ptr;
  m_actorsByNetId : gmap Z actor_ptr;
  (** an [ActorFactory] is represented by the actor it constructs, [None]
      when it returns a null pointer *)
  m_actorFactories : gmap string (option Actor.t);
  m_nextNetId : Z;
  m_pendingDestroy : list actor_ptr;
  (** the next address the allocator hands out *)
  next_actor : actor_ptr
}.

(** [World()] *)
Definition create : t := mk [] [] ∅ ∅ 1 [] 0%nat.

Definition deref (w : t) (a : actor_ptr) : option Actor.t :=
  snd <$> List.find (fun e => Nat.eqb (fst e) a) (m_actors w).

Definition update (w : t) (a : actor_ptr) (f : Actor.t -> Actor.t) : t :=
  mk (map (fun e => if Nat.eqb (fst e) a then (fst e, f (snd e)) else e)
        (m_actors w))
     (m_actorList w) (m_actorsByNetId w) (m_actorFactories w)
     (m_nextNetId w) (m_pendingDestroy w) (next_actor w).

Definition GetActorByNetId (w : t) (netId : Z) : option actor_ptr :=
  m_actorsByNetId w !! netId.

(** [SpawnActor(std::unique_ptr<Actor>)]: the id comes from
    [GenerateNetId], which returns [m_nextNetId++]. *)
Definition SpawnActor (w : t) (actor : option Actor.t)
  : t * option actor_ptr * list Event :=
  match actor with
  | None => (w, None, [])
  | Some a =>
      let netId := m_nextNetId w in
      let a1 := Actor.SetWorld (Actor.SetNetId a netId) true in
      let rawPtr := next_actor w in
      (mk (m_actors w ++ [(rawPtr, a1)])
          (m_actorList w ++ [rawPtr])
          (<[Actor.m_netId a1 := rawPtr]> (m_actorsByNetId w))
          (m_actorFactories w)
          (wrap 32 (netId + 1))
          (m_pendingDestroy w)
          (S rawPtr),
       Some rawPtr, [OnSpawn rawPtr])
  end.

Definition RegisterActorType (w : t) (typeName : string)
    (factory : option Actor.t) : t :=
  mk (m_actors w) (m_actorList w) (m_actorsByNetId w)
     (<[typeName := factory]> (m_actorFactories w))
     (m_nextNetId w) (m_pendingDestroy w) (next_actor w).

Definition SpawnActorByType (w : t) (typeName : string)
  : t * option actor_ptr * list Event :=
  match m_actorFactories w !! typeName with
  | None => (w, None, [])
  | Some factory => SpawnActor w factory
  end.

(** [DestroyActor]: the actor is appended to the pending list unless the
    pointer is null or already there. *)
Definition DestroyActor (w : t) (actor : option actor_ptr) : t :=
  match actor with
  | None => w
  | Some a =>
      if existsb (Nat.eqb a) (m_pendingDestroy w) then w
      else mk (m_actors w) (m_actorList w) (m_actorsByNetId w)
              (m_actorFactories w) (m_nextNetId w)
              (m_pendingDestroy w ++ [a]) (next_actor w)
  end.

Definition DestroyActorById (w : t) (netId : Z) : t :=
  match GetActorByNetId w netId with
  | Some a => DestroyActor w (Some a)
  | None => w
  end.

(** What the per-frame hook of an actor may ask of the World. *)
Inductive Call :=
  | CallDestroyActor (actor : option actor_ptr)
  | CallDestroyActorById (netId : Z).

Definition perform (w : t) (c : Call) : t :=
  match c with
  | CallDestroyActor a => DestroyActor w a
  | CallDestroyActorById netId => DestroyActorById w netId
  end.

(** The actor a call asks to have destroyed, if any. *)
Definition requested (w : t) (c : Call) : option actor_ptr :=
  match c with
  | CallDestroyActor a => a
  | CallDestroyActorById netId => GetActorByNetId w netId
  end.

(** The virtual [Actor::Tick(deltaTime)] of the actor at an address: it
    sees the World and issues calls on it. *)
Definition TickHook := float32 -> actor_ptr -> t -> list Call.

(** First loop of [Tick]: the hook of every actor of the iteration list,
    in order. *)
Fixpoint tick_actors (hook : TickHook) (deltaTime : float32)
    (actors : list actor_ptr) (w : t) : t * list Event :=
  match actors with
  | [] => (w, [])
  | a :: rest =>
      let w1 := fold_left perform (hook deltaTime a w) w in
      let '(w2, ev) := tick_actors hook deltaTime rest w1 in
      (w2, OnTick a :: ev)
  end.

(** One round of the second loop: the destroy hook, then removal from the
    id-map (under the id the actor holds now), the iteration list and the
    owned actors. An address that is not owned cannot be dereferenced. *)
Definition destroy_one (w : t) (a : actor_ptr) : option t :=
  match deref w a with
  | None => None
  | Some actor =>
      Some (mk (List.filter (fun e => negb (Nat.eqb (fst e) a)) (m_actors w))
               (List.filter (fun p => negb (Nat.eqb p a)) (m_actorList w))
               (delete (Actor.m_netId actor) (m_actorsByNetId w))
               (m_actorFactories w) (m_nextNetId w)
               (m_pendingDestroy w) (next_actor w))
  end.

Fixpoint destroy_pending (pending : list actor_ptr) (w : t)
  : option (t * list Event) :=
  match pending with
  | [] => Some (w, [])
  | a :: rest =>
      match destroy_one w a with
      | None => None
      | Some w1 =>
          match destroy_pending rest w1 with
          | None => None
          | Some (w2, ev) => Some (w2, OnDestroy a :: ev)
          end
      end
  end.

Definition clear_pending (w : t) : t :=
  mk (m_actors w) (m_actorList w) (m_actorsByNetId w) (m_actorFactories w)
     (m_nextNetId w) [] (next_actor w).

(** [Tick(deltaTime)] *)
Definition Tick (hook : TickHook) (deltaTime : float32) (w : t)
  : option (t * list Event) :=
  let '(w1, ev1) := tick_actors hook deltaTime (m_actorList w) w in
  match destroy_pending (m_pendingDestroy w1) w1 with
  | None => None
  | Some (w2, ev2) => Some (clear_pending w2, ev1 ++ ev2)
  end.

(** [Clear] *)
Definition Clear (w : t) : t * list Event :=
  (mk [] [] ∅ (m_actorFactories w) 1 [] (next_actor w),
   map (fun e => OnDestroy (fst e)) (m_actors w)).

(** The NetIds held by the live actors. *)
Definition live_ids (w : t) : list Z :=
  map (fun e => Actor.m_netId (snd e)) (m_actors w).

(** NetId uniqueness: no two live actors hold the same NetId. *)
Definition unique_ids (w : t) : Prop := NoDup (live_ids w).

Definition is_live (w : t) (a : actor_ptr) : Prop :=
  In a (map fst (m_actors w)).

(** The id-map agrees with the actors: an entry [id -> a] means that [a]
    is live and holds [id]. *)
Definition idmap_consistent (w : t) : Prop :=
  forall id a, m_actorsByNetId w !! id = Some a ->
    exists actor, deref w a = Some actor /\ Actor.m_netId actor = id.

(** State of a World between two operations: the pending list has no
    duplicates and holds live actors only. *)
Definition pending_ok (w : t) : Prop :=
  NoDup (m_pendingDestroy w) /\ Forall (is_live w) (m_pendingDestroy w).

(** A hook that hands [DestroyActor] only addresses of live actors (or
    null), in any World with the same owned actors as [w]. *)
Definition destroys_live_only (hook : TickHook) (w : t) : Prop :=
  forall deltaTime a w' p,
    map fst (m_actors w') = map fst (m_actors w) ->
    In (CallDestroyActor (Some p)) (hook deltaTime a w') ->
    is_live w p.

(** Addresses handed out so far lie below the allocator's next one. *)
Definition fresh (w : t) : Prop :=
  Forall (fun e => (fst e < next_actor w)%nat) (m_actors w).

(** The invariant of a World that is only changed through its own
    operations. *)
Definition valid (w : t) : Prop :=
  fresh w /\ idmap_consistent w /\ pending_ok w.

(** [w'] has the same owned actors, iteration list and id-map as [w]. *)
Definition same_actors (w w' : t) : Prop :=
  m_actors w' = m_actors w /\
  m_actorList w' = m_actorList w /\
  m_actorsByNetId w' = m_actorsByNetId w.

(** What holds of the World all through the first loop of a [Tick] that
    started in [w0]. *)
Definition tick_invariant (w0 w : t) : Prop :=
  same_actors w0 w /\
  NoDup (m_pendingDestroy w) /\
  Forall (is_live w0) (m_pendingDestroy w).

End World.

(** ** ReplicationManager.h / ReplicationManager.cpp *)

Module ReplicationManager.

(** [GetReplicatedProperties]: the registered properties in the iteration
    order of the map. For a [std::unordered_map] that order is
    unspecified; [map_to_list] fixes one. *)
Definition GetReplicatedProperties (a : Actor.t)
  : list (string * ReplicatedProperty.t) :=
  map_to_list (Actor.m_replicatedProperties a).

(** First loop of [SendActorUpdate]: whether some property has changed. *)
Fixpoint any_changed (props : list (string * ReplicatedProperty.t))
    (mem : list byte) : option bool :=
  match props with
  | [] => Some false
  | (_, prop) :: rest =>
      ch ← ReplicatedProperty.HasChanged prop mem;
      if ch : bool then Some true else any_changed rest mem
  end.

(** Second loop: the number of properties for which [HasChanged] holds. *)
Fixpoint count_changed (props : list (string * ReplicatedProperty.t))
    (mem : list byte) : option Z :=
  match props with
  | [] => Some 0
  | (_, prop) :: rest =>
      ch ← ReplicatedProperty.HasChanged prop mem;
      n ← count_changed rest mem;
      Some (if ch : bool then wrap 32 (n + 1) else n)
  end.

(** Third loop of [SendActorUpdate]: every changed property is written to
    the payload and its cache refreshed. *)
Fixpoint serialize_changed (props : list (string * ReplicatedProperty.t))
    (a : Actor.t) (payload : BitStream.t) : option (Actor.t * BitStream.t) :=
  match props with
  | [] => Some (a, payload)
  | (key, prop) :: rest =>
      ch ← ReplicatedProperty.HasChanged prop (Actor.storage a);
      if ch : bool then
        payload' ← ReplicatedProperty.Serialize prop (Actor.storage a) payload;
        prop' ← ReplicatedProperty.UpdateLastValue prop (Actor.storage a);
        serialize_changed rest
          (Actor.with_properties a
             (<[key := prop']> (Actor.m_replicatedProperties a))
             (Actor.storage a))
          payload'
      else serialize_changed rest a payload
  end.

(** [SendActorUpdate], up to the hand-over to [NetDriver::SendPacket]: the
    actor with refreshed caches and the packet to send reliably, if any. *)
Definition SendActorUpdate (a : Actor.t) : option (Actor.t * option Packet.t) :=
  let properties := GetReplicatedProperties a in
  hasChanges ← any_changed properties (Actor.storage a);
  if negb hasChanges then Some (a, None)
  else
    changedCount ← count_changed properties (Actor.storage a);
    let packet := Packet.of_type PacketType.ActorReplication in
    let packet := Packet.WriteU32 packet (Actor.m_netId a) in
    let packet := Packet.WriteU32 packet changedCount in
    r ← serialize_changed properties a (Packet.m_payload packet);
    Some (fst r, Some (Packet.with_payload packet (snd r))).

(** [SendActorSpawn]: the packet it builds. *)
Definition spawn_packet (a : Actor.t) : Packet.t :=
  let packet := Packet.of_type PacketType.ActorSpawn in
  let packet := Packet.WriteU32 packet (Actor.m_netId a) in
  Packet.with_payload packet
    (BitStream.WriteQuaternion
       (BitStream.WriteVector3
          (BitStream.WriteString (Packet.m_payload packet) (Actor.typeName a))
          (Actor.m_position a))
       (Actor.m_rotation a)).

(** [HandleActorSpawn]: the actor is spawned through the World, which
    gives it an id of its own and enters it in the id-map under that id;
    then the id from the wire is stored in the actor. *)
Definition HandleActorSpawn (w : World.t) (packet : Packet.t)
  : World.t * list World.Event :=
  let '(netId, s1) := BitStream.ReadUInt32 (Packet.m_payload packet) in
  let '(typeName, s2) := BitStream.ReadString s1 in
  let '(position, s3) := BitStream.ReadVector3 s2 in
  let '(rotation, _) := BitStream.ReadQuaternion s3 in
  let '(w1, actor, ev) := World.SpawnActorByType w typeName in
  match actor with
  | Some a =>
      (World.update w1 a (fun x =>
         Actor.SetReplicates
           (Actor.SetRotation
              (Actor.SetPosition (Actor.SetNetId x netId) position)
              rotation)
           true),
       ev)
  | None => (w1, ev)
  end.

Definition HandleActorDestroy (w : World.t) (packet : Packet.t) : World.t :=
  let '(netId, _) := BitStream.ReadUInt32 (Packet.m_payload packet) in
  World.DestroyActorById w netId.

(** The rewind of [HandleActorUpdate]: [n] calls of [ReadUInt8]. *)
Definition skip_bytes (n : nat) (s : BitStream.t) : BitStream.t :=
  Nat.iter n (fun s => snd (BitStream.ReadUInt8 s)) s.

(** The property loop of [HandleActorUpdate]. When the loop body runs the
    read position is at least 8, so [readPos - 1] does not wrap. *)
Fixpoint update_loop (propertyCount : nat) (a : Actor.t) (s : BitStream.t)
  : option (Actor.t * BitStream.t) :=
  match propertyCount with
  | O => Some (a, s)
  | S remaining =>
      let '(propName, s1) := BitStream.ReadString s in
      let '(propType, s2) := BitStream.ReadUInt8 s1 in
      match Actor.m_replicatedProperties a !! propName with
      | Some prop =>
          let readPos := BitStream.GetReadPos s2 in
          let s3 := BitStream.ResetReadPos s2 in
          let s4 := skip_bytes (readPos - 1) s3 in
          match ReplicatedProperty.Deserialize prop (Actor.storage a) s4 with
          | Some (prop', mem', s5) =>
              update_loop remaining
                (Actor.with_properties a
                   (<[propName := prop']> (Actor.m_replicatedProperties a))
                   mem')
                s5
          | None => None
          end
      | None => update_loop remaining a s2
      end
  end.

Definition HandleActorUpdate (w : World.t) (packet : Packet.t)
  : option (World.t * list World.Event) :=
  let '(netId, s1) := BitStream.ReadUInt32 (Packet.m_payload packet) in
  let '(propertyCount, s2) := BitStream.ReadUInt32 s1 in
  match World.GetActorByNetId w netId with
  | None => Some (w, [])
  | Some actor =>
      a ← World.deref w actor;
      r ← update_loop (Z.to_nat propertyCount) a s2;
      Some (World.update w actor (fun _ => fst r), [World.OnReplicated actor])
  end.

(** [ProcessActorReplication] *)
Definition ProcessActorReplication (w : World.t) (packet : Packet.t)
  : option (World.t * list World.Event) :=
  let type := Packet.GetType packet in
  if type =? PacketType.ActorSpawn then Some (HandleActorSpawn w packet)
  else if type =? PacketType.ActorDestroy
  then Some (HandleActorDestroy w packet, [])
  else if type =? PacketType.ActorReplication then HandleActorUpdate w packet
  else Some (w, []).

End ReplicationManager.

(** ** RPCManager.h / RPCManager.cpp *)

Module RPCType.
Inductive t := Server | Client | Multicast.
End RPCType.

Module RPCManager.

(** An [RPCHandler] is identified by a number; calling it is recorded as
    an [Invocation]. *)
Record RPCMetadata := mkMetadata {
  name : string;
  type : RPCType.t;
  handler : nat
}.

Record Invocation := mkInvocation {
  called : nat;
  on_actor : World.actor_ptr;
  params : BitStream.t
}.

Definition RegisterRPC (registry : gmap string RPCMetadata)
    (functionName : string) (type : RPCType.t) (handler : nat)
  : gmap string RPCMetadata :=
  <[functionName := mkMetadata functionName type handler]> registry.

Definition expectedPacketType (t : RPCType.t) : Z :=
  match t with
  | RPCType.Server => PacketType.RPCServer
  | RPCType.Client => PacketType.RPCClient
  | RPCType.Multicast => PacketType.RPCMulticast
  end.

(** [ProcessRPC]: [Some] invocation when the handler is called, [None]
    when the packet is dropped. *)
Definition ProcessRPC (w : World.t) (m_rpcRegistry : gmap string RPCMetadata)
    (packet : Packet.t) : option Invocation :=
  let '(actorNetId, s1) := BitStream.ReadUInt32 (Packet.m_payload packet) in
  let '(functionName, s2) := BitStream.ReadString s1 in
  match World.GetActorByNetId w actorNetId with
  | None => None
  | Some actor =>
      match m_rpcRegistry !! functionName with
      | None => None
      | Some metadata =>
          if negb (Packet.GetType packet =? expectedPacketType (type metadata))
          then None
          else
            Some (mkInvocation (handler metadata) actor
                    (BitStream.of_data
                       (firstn (BitStream.GetBytesRemaining s2)
                          (skipn (BitStream.GetReadPos s2)
                             (BitStream.GetData s2)))))
      end
  end.

(** [SendRPC]: the packet it builds. *)
Definition rpc_packet (packetType : Z) (actorNetId : Z)
    (functionName : string) (params : BitStream.t) : Packet.t :=
  let packet := Packet.WriteU32 (Packet.of_type packetType) actorNetId in
  let payload := BitStream.WriteString (Packet.m_payload packet) functionName in
  Packet.with_payload packet
    (if (0 <? BitStream.GetSize params)%nat
     then BitStream.Write payload (BitStream.contents params)
     else payload).

End RPCManager.

(** ** platform/Socket.h: the socket as the transport uses it *)

(** [WVSocket::SendTo] returns -1 on an invalid socket and the result of
    [sendto] otherwise. What [sendto] returns is up to the system: the
    results of the calls still to come are part of the socket's state, and
    a call beyond them reports would-block. Destination addresses held by
    connections come from [recvfrom] or from a successful address parse
    and are valid. *)
Module Socket.

Record t := mk {
  IsValid : bool;
  sendto : list Z
}.

Definition SendTo (s : t) (data : list byte) (dest : Address) : Z * t :=
  if negb (IsValid s) then (-1, s)
  else
    match sendto s with
    | [] => (-1, s)
    | bytesSent :: later => (bytesSent, mk (IsValid s) later)
    end.

(** [Close] *)
Definition Close (s : t) : t := mk false (sendto s).

End Socket.

(** ** NetConnection.cpp: flushing and timing *)

Module NetConnectionIO.

(** The loop of [FlushOutgoing] over the outgoing queue: the front packet
    is serialised in place and handed to the socket; a positive result
    pops it and updates the counters and the send time, anything else ends
    the loop. Yields the queue left, the counters, the send time, the
    socket and the datagrams transmitted. *)
Fixpoint flush_loop (queue : list Packet.t) (stats : NetConnection.Stats)
    (lastSendTime currentTime : float32) (address : Address) (socket : Socket.t)
  : list Packet.t * NetConnection.Stats * float32 * Socket.t
    * list (list byte * Address) :=
  match queue with
  | [] => ([], stats, lastSendTime, socket, [])
  | packet :: rest =>
      let '(packet', stream) := Packet.Serialize packet BitStream.create in
      let '(bytesSent, socket') :=
        Socket.SendTo socket (BitStream.contents stream) address in
      if 0 <? bytesSent then
        let stats' :=
          NetConnection.mkStats
            (wrap 64 (NetConnection.packetsSent stats + 1))
            (NetConnection.packetsReceived stats)
            (wrap 64 (NetConnection.bytesSent stats + bytesSent))
            (NetConnection.bytesReceived stats)
            (NetConnection.packetsLost stats) in
        let '(q, st, ls, so, sent) :=
          flush_loop rest stats' currentTime currentTime address socket' in
        (q, st, ls, so, (BitStream.contents stream, address) :: sent)
      else (packet' :: rest, stats, lastSendTime, socket', [])
  end.

Definition FlushOutgoing (c : NetConnection.t) (socket : Socket.t)
  : NetConnection.t * Socket.t * list (list byte * Address) :=
  if negb (Socket.IsValid socket) then (c, socket, [])
  else
    let '(q, st, ls, so, sent) :=
      flush_loop (NetConnection.m_outgoingQueue c) (NetConnection.m_stats c)
        (NetConnection.m_lastSendTime c) (NetConnection.m_currentTime c)
        (NetConnection.m_address c) socket in
    (NetConnection.mk (NetConnection.m_address c) (NetConnection.m_state c)
       (NetConnection.m_outgoingSequence c) (NetConnection.m_incomingSequence c)
       (NetConnection.m_reliableBuffer c) q (NetConnection.m_roundTripTime c)
       ls (NetConnection.m_lastReceiveTime c) (NetConnection.m_currentTime c) st,
     so, sent).

Definition GetTimeSinceLastReceive (c : NetConnection.t) : float32 :=
  FSub (NetConnection.m_currentTime c) (NetConnection.m_lastReceiveTime c).

(** [IsTimedOut(timeout)]; [gt] is the comparison [>] on [float]. *)
Definition IsTimedOut (gt : float32 -> float32 -> bool) (c : NetConnection.t)
    (timeout : float32) : bool :=
  gt (GetTimeSinceLastReceive c) timeout.

(** Sending a list of packets one after the other. *)
Definition send_all (c : NetConnection.t) (packets : list Packet.t)
    (reliable : bool) : NetConnection.t :=
  fold_left (fun c p => NetConnection.SendPacket c p reliable) packets c.

End NetConnectionIO.

(** ** NetDriver.cpp: client connect, disconnect, broadcast, timeouts, tick *)

Module NetDriverOps.

Definition with_mode (d : NetDriver.t) (mode : NetworkMode.t) : NetDriver.t :=
  NetDriver.mk mode (NetDriver.m_maxConnections d) (NetDriver.m_connections d)
    (NetDriver.m_connectionList d) (NetDriver.m_serverConnection d)
    (NetDriver.m_onConnection d) (NetDriver.m_onDisconnection d)
    (NetDriver.m_onPacket d) (NetDriver.next_conn d).

(** [ConnectToServer]; [serverAddr] is [None] when the address text does
    not parse. A connection is created without looking for an existing one. *)
Definition ConnectToServer (d : NetDriver.t) (serverAddr : option Address)
  : NetDriver.t * bool :=
  match NetDriver.m_mode d with
  | NetworkMode.Client =>
      match serverAddr with
      | None => (d, false)
      | Some address =>
          let '(d1, p) := NetDriver.CreateConnection d address in
          let d2 := NetDriver.with_connections d1 (NetDriver.m_connections d1)
                      (NetDriver.m_connectionList d1) (Some p)
                      (NetDriver.next_conn d1) in
          (NetDriver.SendPacket d2 p
             (Packet.of_type PacketType.ConnectionRequest) true,
           true)
      end
  | _ => (d, false)
  end.

(** [DisconnectClient] *)
Definition DisconnectClient (d : NetDriver.t)
    (connection : option NetDriver.conn_ptr)
  : NetDriver.t * list NetDriver.Event :=
  match connection with
  | None => (d, [])
  | Some p =>
      let d1 := NetDriver.SendPacket d p
                  (Packet.of_type PacketType.Disconnect) false in
      let d2 := NetDriver.update d1 p
                  (fun c => NetConnection.SetState c Disconnected) in
      (NetDriver.RemoveConnection d2 p,
       NetDriver.callback (NetDriver.m_onDisconnection d2)
         (NetDriver.OnDisconnection p))
  end.

(** [BroadcastPacket]: over the pointer list, to connections in state
    [Connected]. The pointers of the list are owned connections; one that
    is not would be dereferenced by the source and is passed over here. *)
Definition BroadcastPacket (d : NetDriver.t) (packet : Packet.t)
    (reliable : bool) : NetDriver.t :=
  fold_left
    (fun d p =>
       match NetDriver.deref d p with
       | Some c =>
           match NetConnection.m_state c with
           | Connected => NetDriver.SendPacket d p packet reliable
           | _ => d
           end
       | None => d
       end)
    (NetDriver.m_connectionList d) d.

(** [m_connectionTimeout], set once in the constructor. *)
Definition m_connectionTimeout : float32 := FLit "30.0f".

(** [CheckTimeouts]: the timed-out connections are collected first, then
    each is disconnected. *)
Definition CheckTimeouts (gt : float32 -> float32 -> bool) (d : NetDriver.t)
  : NetDriver.t * list NetDriver.Event :=
  if negb (NetDriver.IsServer d) then (d, [])
  else
    let timedOut :=
      List.filter
        (fun p =>
           match NetDriver.deref d p with
           | Some c => NetConnectionIO.IsTimedOut gt c m_connectionTimeout
           | None => false
           end)
        (NetDriver.m_connectionList d) in
    fold_left
      (fun '(d, ev) p =>
         let '(d', ev') := DisconnectClient d (Some p) in (d', ev ++ ev'))
      timedOut (d, []).

(** [FlushOutgoingPackets]: every owned connection, in order, on the one
    socket. *)
Fixpoint flush_connections (cs : list (NetDriver.conn_ptr * NetConnection.t))
    (socket : Socket.t)
  : list (NetDriver.conn_ptr * NetConnection.t) * Socket.t
    * list (list byte * Address) :=
  match cs with
  | [] => ([], socket, [])
  | (p, c) :: rest =>
      let '(c', socket', sent) := NetConnectionIO.FlushOutgoing c socket in
      let '(rest', socket'', sent') := flush_connections rest socket' in
      ((p, c') :: rest', socket'', sent ++ sent')
  end.

Definition FlushOutgoingPackets (d : NetDriver.t) (socket : Socket.t)
  : NetDriver.t * Socket.t * list (list byte * Address) :=
  let '(cs, socket', sent) :=
    flush_connections (NetDriver.m_connections d) socket in
  (NetDriver.with_connections d cs (NetDriver.m_connectionList d)
     (NetDriver.m_serverConnection d) (NetDriver.next_conn d),
   socket', sent).

Definition tick_connections (d : NetDriver.t) (deltaTime : float32)
  : NetDriver.t :=
  NetDriver.with_connections d
    (map (fun e => (fst e, NetConnection.Tick (snd e) deltaTime))
       (NetDriver.m_connections d))
    (NetDriver.m_connectionList d) (NetDriver.m_serverConnection d)
    (NetDriver.next_conn d).

(** [Tick]: receive, advance the clocks, flush, sweep timeouts. [incoming]
    are the datagrams waiting at the socket. *)
Definition Tick (gt : float32 -> float32 -> bool) (d : NetDriver.t)
    (deltaTime : float32) (socket : Socket.t)
    (incoming : list (Address * list byte))
  : NetDriver.t * Socket.t * list NetDriver.Event
    * list (list byte * Address) * list (Address * list byte) :=
  if negb (Socket.IsValid socket) then (d, socket, [], [], incoming)
  else
    let '(d1, ev1, incoming') := NetDriver.ReceivePackets d incoming in
    let d2 := tick_connections d1 deltaTime in
    let '(d3, socket', sent) := FlushOutgoingPackets d2 socket in
    let '(d4, ev2) := CheckTimeouts gt d3 in
    (d4, socket', ev1 ++ ev2, sent, incoming').

(** [Shutdown]: a [Disconnect] packet is queued on every connected
    connection, then all connections are dropped and the socket closed. *)
Definition Shutdown (d : NetDriver.t) (socket : Socket.t)
  : NetDriver.t * Socket.t :=
  let d1 :=
    fold_left
      (fun d e =>
         match NetDriver.deref d (fst e) with
         | Some c =>
             match NetConnection.m_state c with
             | Connected =>
                 NetDriver.SendPacket d (fst e)
                   (Packet.of_type PacketType.Disconnect) false
             | _ => d
             end
         | None => d
         end)
      (NetDriver.m_connections d) d in
  (with_mode
     (NetDriver.with_connections d1 [] [] None (NetDriver.next_conn d1))
     NetworkMode.Standalone,
   Socket.Close socket).

(** The owned connections lie at pairwise different addresses of memory
    and the pointer list names exactly them, in order. *)
Definition well_formed (d : NetDriver.t) : Prop :=
  NoDup (map fst (NetDriver.m_connections d)) /\
  NetDriver.m_connectionList d = map fst (NetDriver.m_connections d).

End NetDriverOps.

(** ** Notions used to state the properties *)

(** The kinds read with one [Read] call. *)
Definition is_scalar (k : PropertyType) : bool :=
  match k with
  | PBool | PInt8 | PUInt8 | PInt16 | PUInt16 | PInt32 | PUInt32
  | PInt64 | PUInt64 | PFloat | PDouble => true
  | _ => false
  end.

(** The value a reader's zero-initialised local holds. *)
Definition zero_value (k : PropertyType) : option Prim :=
  match k with
  | PBool => Some (VBool false)
  | PInt8 => Some (VInt8 0) | PUInt8 => Some (VUInt8 0)
  | PInt16 => Some (VInt16 0) | PUInt16 => Some (VUInt16 0)
  | PInt32 => Some (VInt32 0) | PUInt32 => Some (VUInt32 0)
  | PInt64 => Some (VInt64 0) | PUInt64 => Some (VUInt64 0)
  | PFloat => Some (VFloat 0) | PDouble => Some (VDouble 0)
  | _ => None
  end.

(** The packet [Packet::Deserialize] makes of the wire image of [p] when it
    works on the packet object [q]: the payload of [q] stays when [p] has
    no payload bytes. *)
Definition received (p q : Packet.t) : Packet.t :=
  Packet.mk
    (PacketHeader.mk PACKET_MAGIC
       (PacketHeader.sequence (Packet.m_header p))
       (PacketHeader.packetType (Packet.m_header p))
       (Z.of_nat (BitStream.GetSize (Packet.m_payload p))))
    (if (0 <? BitStream.GetSize (Packet.m_payload p))%nat
     then BitStream.of_data (BitStream.contents (Packet.m_payload p))
     else Packet.m_payload q).

(** The packets of a list as [SendPacket] stamps them, one after the
    other, from sequence [s] on. *)
Fixpoint stamp (s : Z) (packets : list Packet.t) : list Packet.t :=
  match packets with
  | [] => []
  | p :: rest => Packet.SetSequence p s :: stamp (wrap 32 (s + 1)) rest
  end.

(** How many of the first [n] calls of [sendto] succeed in a row. *)
Fixpoint accepted_count (results : list Z) (n : nat) : nat :=
  match n, results with
  | S n', r :: later => if 0 <? r then S (accepted_count later n') else 0
  | _, _ => 0
  end.

(** What the receive loop makes of the datagram a packet is sent as: the
    packet is serialised as [FlushOutgoing] does, the datagram is cut to
    the receive buffer of [ReceivePackets] ([MAX_PACKET_SIZE * 2] bytes)
    and deserialised into a fresh packet object. [arrives] tells whether
    [Packet::Deserialize] accepts it, so that the loop goes on with the
    packet; [over_the_wire] is the packet object afterwards. *)
Definition transport (p : Packet.t) : bool * Packet.t * BitStream.t :=
  Packet.Deserialize Packet.create
    (BitStream.of_data
       (firstn (MAX_PACKET_SIZE * 2)
          (BitStream.contents (snd (Packet.Serialize p BitStream.create))))).

Definition arrives (p : Packet.t) : bool := fst (fst (transport p)).

Definition over_the_wire (p : Packet.t) : Packet.t := snd (fst (transport p)).

(** A packet whose datagram fits the receive buffer. *)
Definition fits_buffer (p : Packet.t) : Prop :=
  (12 + BitStream.GetSize (Packet.m_payload p) <= MAX_PACKET_SIZE * 2)%nat.

(** ** Messages of several fields *)

(** The bytes a value occupies on the wire. *)
Definition encode (v : Prim) : list byte :=
  match v with
  | VBool b => le_split 1 (if b then 1 else 0)
  | VInt8 z | VUInt8 z => le_split 1 z
  | VInt16 z | VUInt16 z => le_split 2 z
  | VInt32 z | VUInt32 z | VFloat z => le_split 4 z
  | VInt64 z | VUInt64 z | VDouble z => le_split 8 z
  | VString x =>
      le_split 4 (Z.of_nat (String.length x)) ++ list_byte_of_string x
  | VVector3 v => le_split 4 (v_x v) ++ le_split 4 (v_y v) ++ le_split 4 (v_z v)
  | VQuaternion q =>
      le_split 4 (q_w q) ++ le_split 4 (q_x q)
        ++ le_split 4 (q_y q) ++ le_split 4 (q_z q)
  end.

(** Writing the fields of a message one after the other, and reading
    fields of given kinds one after the other. *)
Definition write_all (s : BitStream.t) (fields : list Prim) : BitStream.t :=
  fold_left write_prim fields s.

Fixpoint read_all (s : BitStream.t) (kinds : list PropertyType)
  : list (option Prim) * BitStream.t :=
  match kinds with
  | [] => ([], s)
  | k :: rest =>
      let '(v, s1) := read_prim s k in
      let '(vs, s2) := read_all s1 rest in
      (v :: vs, s2)
  end.

(** ** Change tracking *)

(** A property whose changes [HasChanged] can tell: it is bound to memory
    and its cache has the size of the property, which is not zero. *)
Definition tracked (p : ReplicatedProperty.t) : bool :=
  match ReplicatedProperty.dataPtr p with
  | Some _ =>
      negb (ReplicatedProperty.size p =? 0)%nat
      && (length (ReplicatedProperty.lastValue p)
          =? ReplicatedProperty.size p)%nat
  | None => false
  end.

(** ** Broadcast, receive batches and destroy messages *)

(** What [BroadcastPacket] does to one owned connection. *)
Definition broadcast_entry (packet : Packet.t) (reliable : bool)
    (e : NetDriver.conn_ptr * NetConnection.t)
  : NetDriver.conn_ptr * NetConnection.t :=
  (fst e,
   match NetConnection.m_state (snd e) with
   | Connected => NetConnection.SendPacket (snd e) packet reliable
   | _ => snd e
   end).

(** The datagrams of a list handled one after the other, each cut to the
    receive buffer. *)
Fixpoint receive_all (d : NetDriver.t) (datagrams : list (Address * list byte))
  : NetDriver.t * list NetDriver.Event :=
  match datagrams with
  | [] => (d, [])
  | (from, data) :: rest =>
      let '(d1, ev1) :=
        NetDriver.receive_datagram d from (firstn (MAX_PACKET_SIZE * 2) data) in
      let '(d2, ev2) := receive_all d1 rest in
      (d2, ev1 ++ ev2)
  end.

(** [SendActorDestroy]: the packet it builds. *)
Definition destroy_packet (actorNetId : Z) : Packet.t :=
  Packet.WriteU32 (Packet.of_type PacketType.ActorDestroy) actorNetId.

(** The state of a driver between two operations: the owned connections
    lie at distinct addresses below the allocator's next one and the
    pointer list names exactly them. *)
Definition sound_driver (d : NetDriver.t) : Prop :=
  NetDriverOps.well_formed d /\ NetDriver.fresh d.

(** ** A World driven through its own operations *)

Module WorldOps.

(** The public operations of [World] that change it. *)
Inductive Op :=
  | Spawn (actor : option Actor.t)
  | SpawnByType (typeName : string)
  | Register (typeName : string) (factory : option Actor.t)
  | Destroy (actor : option World.actor_ptr)
  | DestroyById (netId : Z)
  | Tick (hook : World.TickHook) (deltaTime : float32)
  | Clear.

Definition step (w : World.t) (op : Op) : option World.t :=
  match op with
  | Spawn actor => Some (fst (fst (World.SpawnActor w actor)))
  | SpawnByType typeName =>
      Some (fst (fst (World.SpawnActorByType w typeName)))
  | Register typeName factory =>
      Some (World.RegisterActorType w typeName factory)
  | Destroy actor => Some (World.DestroyActor w actor)
  | DestroyById netId => Some (World.DestroyActorById w netId)
  | Tick hook deltaTime => fst <$> World.Tick hook deltaTime w
  | Clear => Some (fst (World.Clear w))
  end.

(** What the caller has to respect: the id counter does not wrap on a
    spawn, [DestroyActor] gets the address of a live actor (or null), and
    the tick hooks hand [DestroyActor] live actors only. *)
Definition allowed (w : World.t) (op : Op) : Prop :=
  match op with
  | Spawn _ | SpawnByType _ => World.m_nextNetId w + 1 < 2 ^ 32
  | Destroy (Some a) => World.is_live w a
  | Tick hook _ => World.destroys_live_only hook w
  | _ => True
  end.

(** The Worlds that arise from [World()] by allowed operations. *)
Inductive reachable : World.t -> Prop :=
  | reach_create : reachable World.create
  | reach_step (w : World.t) (op : Op) (w' : World.t) :
      reachable w -> allowed w op -> step w op = Some w' -> reachable w'.

(** Every owned actor is entered in the id-map under the id it holds. *)
Definition complete (w : World.t) : Prop :=
  forall p a, In (p, a) (World.m_actors w) ->
    World.m_actorsByNetId w !! Actor.m_netId a = Some p.

(** What the operations maintain besides [World.valid]. *)
Definition ids_ok (w : World.t) : Prop :=
  World.unique_ids w /\
  Forall (fun id => id < World.m_nextNetId w) (World.live_ids w) /\
  0 <= World.m_nextNetId w /\
  complete w /\
  World.m_actorList w = map fst (World.m_actors w).

End WorldOps.

(** ** ReplicationManager.h / ReplicationManager.cpp: the server side *)

Module ReplicationServer.

(** [ActorReplicationState]; [lastReplicationTime] and
    [lastPropertyValues] are never read or written after construction
    and are left out. *)
Record ActorReplicationState := mkState {
  actorNetId : Z;
  spawned : bool
}.

(** [m_tickRate] and [m_relevancyDistance] are only stored and are left
    out. *)
Record t := mk {
  m_replicatedActors : list World.actor_ptr;
  m_replicationInterval : float32;
  m_timeSinceLastReplication : float32;
  m_connectionStates :
    gmap NetDriver.conn_ptr (gmap Z ActorReplicationState)
}.

(** [ReplicationManager()] *)
Definition create : t :=
  mk [] (FLit "1.0f / DEFAULT_TICK_RATE") (FLit "0.0f") ∅.

Definition with_actors (rm : t) (actors : list World.actor_ptr) : t :=
  mk actors (m_replicationInterval rm) (m_timeSinceLastReplication rm)
     (m_connectionStates rm).

Definition with_states (rm : t)
    (states : gmap NetDriver.conn_ptr (gmap Z ActorReplicationState)) : t :=
  mk (m_replicatedActors rm) (m_replicationInterval rm)
     (m_timeSinceLastReplication rm) states.

Definition with_time (rm : t) (time : float32) : t :=
  mk (m_replicatedActors rm) (m_replicationInterval rm) time
     (m_connectionStates rm).

(** [RegisterActor]; reading [GetReplicates] through a pointer that is
    not owned by the World is undefined. *)
Definition RegisterActor (rm : t) (w : World.t)
    (actor : option World.actor_ptr) : option t :=
  match actor with
  | None => Some rm
  | Some p =>
      a ← World.deref w p;
      if negb (Actor.m_replicates a) then Some rm
      else if existsb (Nat.eqb p) (m_replicatedActors rm) then Some rm
      else Some (with_actors rm (m_replicatedActors rm ++ [p]))
  end.

(** [UnregisterActor] *)
Definition UnregisterActor (rm : t) (actor : option World.actor_ptr) : t :=
  match actor with
  | None => rm
  | Some p =>
      with_actors rm
        (List.filter (fun q => negb (Nat.eqb q p)) (m_replicatedActors rm))
  end.

(** [GetOrCreateReplicationState]: [m_connectionStates[connection]]
    creates the inner map when the connection has none; a state that is
    found is returned as it is, a new one starts unspawned. *)
Definition GetOrCreateReplicationState (rm : t)
    (connection : NetDriver.conn_ptr) (actorNetId : Z)
  : t * ActorReplicationState :=
  let actorStates := default ∅ (m_connectionStates rm !! connection) in
  match actorStates !! actorNetId with
  | Some state => (rm, state)
  | None =>
      let state := mkState actorNetId false in
      (with_states rm
         (<[connection := <[actorNetId := state]> actorStates]>
            (m_connectionStates rm)),
       state)
  end.

(** [state->spawned = true] on the state of [actorNetId] for
    [connection]. *)
Definition set_spawned (rm : t) (connection : NetDriver.conn_ptr)
    (actorNetId : Z) : t :=
  let actorStates := default ∅ (m_connectionStates rm !! connection) in
  match actorStates !! actorNetId with
  | Some state =>
      with_states rm
        (<[connection :=
             <[actorNetId := mkState (ReplicationServer.actorNetId state) true]>
               actorStates]>
           (m_connectionStates rm))
  | None => rm
  end.

(** The loop of [ReplicateActors] for a non-null connection and driver.
    Every actor is relevant. The packets handed to
    [NetDriver::SendPacket(connection, packet, true)] are collected in
    order. A registered pointer that the World no longer owns cannot be
    dereferenced. *)
Fixpoint replicate_loop (actors : list World.actor_ptr) (rm : t)
    (w : World.t) (connection : NetDriver.conn_ptr)
  : option (t * World.t * list Packet.t) :=
  match actors with
  | [] => Some (rm, w, [])
  | actor :: rest =>
      a ← World.deref w actor;
      let '(rm1, state) :=
        GetOrCreateReplicationState rm connection (Actor.m_netId a) in
      let '(rm2, spawn) :=
        if negb (spawned state)
        then (set_spawned rm1 connection (Actor.m_netId a),
              [ReplicationManager.spawn_packet a])
        else (rm1, []) in
      r ← ReplicationManager.SendActorUpdate a;
      let w1 := World.update w actor (fun _ => fst r) in
      let update := match snd r with Some p => [p] | None => [] end in
      r' ← replicate_loop rest rm2 w1 connection;
      Some (fst (fst r'), snd (fst r'), spawn ++ update ++ snd r')
  end.

Definition ReplicateActors (rm : t) (w : World.t)
    (connection : NetDriver.conn_ptr)
  : option (t * World.t * list Packet.t) :=
  replicate_loop (m_replicatedActors rm) rm w connection.

(** The loop of [Tick] over the driver's pointer list: a pass for every
    connection in state [Connected]. Each packet is recorded with the
    connection it is sent on. *)
Fixpoint replicate_connections (connections : list NetDriver.conn_ptr)
    (rm : t) (w : World.t) (d : NetDriver.t)
  : option (t * World.t * list (NetDriver.conn_ptr * Packet.t)) :=
  match connections with
  | [] => Some (rm, w, [])
  | c :: rest =>
      connection ← NetDriver.deref d c;
      match NetConnection.m_state connection with
      | Connected =>
          r ← ReplicateActors rm w c;
          r' ← replicate_connections rest (fst (fst r)) (snd (fst r)) d;
          Some (fst (fst r'), snd (fst r'),
                map (fun p => (c, p)) (snd r) ++ snd r')
      | _ => replicate_connections rest rm w d
      end
  end.

(** [Tick(deltaTime, netDriver)] for a non-null driver; [ge] is the
    comparison [>=] on [float]. *)
Definition Tick (ge : float32 -> float32 -> bool) (rm : t) (w : World.t)
    (d : NetDriver.t) (deltaTime : float32)
  : option (t * World.t * list (NetDriver.conn_ptr * Packet.t)) :=
  if negb (NetDriver.IsServer d) then Some (rm, w, [])
  else
    let rm1 := with_time rm (FAdd (m_timeSinceLastReplication rm) deltaTime) in
    if ge (m_timeSinceLastReplication rm1) (m_replicationInterval rm1) then
      r ← replicate_connections (NetDriver.m_connectionList d) rm1 w d;
      Some (with_time (fst (fst r)) (FLit "0.0f"), snd (fst r), snd r)
    else Some (rm1, w, []).

(** An actor whose caches equal its memory: [SendActorUpdate] builds no
    packet for it and leaves it as it is. *)
Definition clean (a : Actor.t) : Prop :=
  ReplicationManager.SendActorUpdate a = Some (a, None).

(** All registered properties of the actor are tracked. *)
Definition all_tracked (a : Actor.t) : Prop :=
  forall k p, Actor.m_replicatedProperties a !! k = Some p -> tracked p = true.

(** A property [SendActorUpdate] can read and tell the changes of: it is
    tracked, its kind is not [String], and the memory it is bound to
    lies inside the actor's storage, for its registered size as well as
    for the size of a value of its kind. *)
Definition replicable_property (mem : list byte)
    (p : ReplicatedProperty.t) : Prop :=
  tracked p = true /\
  ReplicatedProperty.type p <> PString /\
  forall addr, ReplicatedProperty.dataPtr p = Some addr ->
    (addr + ReplicatedProperty.size p <= length mem)%nat /\
    (addr + Actor.sizeof (ReplicatedProperty.type p) <= length mem)%nat.

(** An actor all of whose registered properties are such. *)
Definition replicable (a : Actor.t) : Prop :=
  forall k p, Actor.m_replicatedProperties a !! k = Some p ->
              replicable_property (Actor.storage a) p.


End ReplicationServer.

(** ** Concrete inputs used by the examples below *)

Module Scenario.

(** A packet object that has been used before: kind [Disconnect],
    sequence 1, four payload bytes. *)
Definition used_packet : Packet.t :=
  Packet.WriteU32 (Packet.SetSequence (Packet.of_type PacketType.Disconnect) 1) 5.

(** A datagram whose header declares 100 payload bytes but which carries
    only three. *)
Definition short_datagram : list byte :=
  le_split 4 PACKET_MAGIC ++ le_split 4 9
    ++ le_split 2 PacketType.ActorReplication ++ le_split 2 100
    ++ [Byte.x01; Byte.x02; Byte.x03].

Definition server_addr : Address := mkAddress 0x7F000001 7777.
Definition peer_addr : Address := mkAddress 0x7F000001 50000.
Definition other_addr : Address := mkAddress 0x7F000001 50001.

(** A client driver right after [ConnectToServer]: one connection in
    state [Connecting] with the reliable [ConnectionRequest] queued. *)
Definition client : NetDriver.t :=
  let d0 := NetDriver.mk NetworkMode.Client DEFAULT_MAX_CONNECTIONS [] [] None
              true true true 0%nat in
  let '(d1, p) := NetDriver.CreateConnection d0 server_addr in
  let d2 := NetDriver.with_connections d1 (NetDriver.m_connections d1)
              (NetDriver.m_connectionList d1) (Some p) (NetDriver.next_conn d1) in
  NetDriver.SendPacket d2 p (Packet.of_type PacketType.ConnectionRequest) true.

(** The bytes of a packet of the given kind, sequence and payload. *)
Definition datagram (type sequence : Z) (payload : list byte) : list byte :=
  BitStream.contents (snd (Packet.Serialize
    (Packet.with_payload (Packet.SetSequence (Packet.of_type type) sequence)
       (BitStream.of_data payload))
    BitStream.create)).

(** A server driver with room for [maxConnections] peers and none yet. *)
Definition server (maxConnections : Z) : NetDriver.t :=
  NetDriver.mk NetworkMode.Server maxConnections [] [] None true true true 0%nat.

(** The server after [peer_addr] has connected. *)
Definition server_with_peer (maxConnections : Z) : NetDriver.t :=
  fst (NetDriver.receive_datagram (server maxConnections) peer_addr
         (datagram PacketType.ConnectionRequest 0 [])).

(** A 1500-byte datagram with the right magic number: a
    [ConnectionRequest] header followed by 1488 payload bytes. *)
Definition oversize_datagram : list byte :=
  datagram PacketType.ConnectionRequest 0 (repeat Byte.x00 1488).

(** A 1500-byte datagram with the right magic number whose declared
    payload size (2000) exceeds the 1488 bytes that follow. *)
Definition oversize_short_datagram : list byte :=
  le_split 4 PACKET_MAGIC ++ le_split 4 0
    ++ le_split 2 PacketType.ActorReplication ++ le_split 2 2000
    ++ repeat Byte.x00 1488.

(** The sample [PlayerActor]: one [int32_t Health] at offset 0. *)
Definition PlayerActor (health : Z) : Actor.t :=
  Actor.RegisterProperty (Actor.create "PlayerActor" (le_split 4 health))
    "Health" 0 PInt32.

(** The server's player after spawning (NetId 1) with [Health = 57]. *)
Definition server_player : Actor.t :=
  Actor.SetReplicates (Actor.SetWorld (Actor.SetNetId (PlayerActor 57) 1) true) true.

(** A client World that knows the type; its factory constructs the player
    with [Health = 100]. *)
Definition client_world0 : World.t :=
  World.RegisterActorType World.create "PlayerActor" (Some (PlayerActor 100)).

(** The client World after the [ActorSpawn] packet for the server's
    player. *)
Definition client_world : World.t :=
  fst (ReplicationManager.HandleActorSpawn client_world0
         (ReplicationManager.spawn_packet server_player)).

(** The [ActorReplication] packet the server builds for its player. *)
Definition health_update : option Packet.t :=
  r ← ReplicationManager.SendActorUpdate server_player; snd r.

(** The [ActorSpawn] packet for a [PlayerActor] that holds [netId] on the
    server. *)
Definition spawn (netId : Z) : Packet.t :=
  ReplicationManager.spawn_packet (Actor.SetNetId (PlayerActor 100) netId).

(** The client World after the spawn packet for NetId 5 has arrived
    twice. *)
Definition client_twice : World.t :=
  fst (ReplicationManager.HandleActorSpawn
         (fst (ReplicationManager.HandleActorSpawn client_world0 (spawn 5)))
         (spawn 5)).

(** A server replicates two players that hold the NetIds 2 and 3 (NetId 1
    went to an actor that does not replicate). The client World after the
    first spawn packet, at the moment the [OnSpawn] hook of the second
    player runs, and after the second spawn packet. *)
Definition client_after_2 : World.t :=
  fst (ReplicationManager.HandleActorSpawn client_world0 (spawn 2)).

Definition client_during_3 : World.t :=
  fst (fst (World.SpawnActorByType client_after_2 "PlayerActor")).

Definition client_after_3 : World.t :=
  fst (ReplicationManager.HandleActorSpawn client_after_2 (spawn 3)).

(** A tick hook that does nothing. *)
Definition idle : World.TickHook := fun _ _ _ => [].

(** A tick hook by which every actor destroys the actor at address 0,
    once directly and once by its NetId 1. *)
Definition destroy_first : World.TickHook :=
  fun _ _ _ => [World.CallDestroyActor (Some 0%nat);
                World.CallDestroyActorById 1].

(** A server World with two spawned players (NetIds 1 and 2). *)
Definition two_players : World.t :=
  fst (fst (World.SpawnActor
    (fst (fst (World.SpawnActor World.create (Some (PlayerActor 100)))))
    (Some (PlayerActor 80)))).

(** An RPC registry with [Fire] declared as a [Server] call (handler 7)
    and [Notify] declared as a [Client] call (handler 8). *)
Definition registry : gmap string RPCManager.RPCMetadata :=
  RPCManager.RegisterRPC
    (RPCManager.RegisterRPC ∅ "Fire" RPCType.Server 7)
    "Notify" RPCType.Client 8.

(** The clocks of the examples run in whole seconds, on which [float]
    arithmetic is exact: the value of a clock expression, and the
    comparison [>] on such values. *)
Fixpoint seconds (f : float32) : Z :=
  match f with
  | FLit text =>
      if String.eqb text "45.0f" then 45
      else if String.eqb text "30.0f" then 30
      else 0
  | FAdd a b => seconds a + seconds b
  | FSub a b => seconds a - seconds b
  | FMul a b => seconds a * seconds b
  end.

Definition gt (a b : float32) : bool := seconds b <? seconds a.

(** A server with two peers, 45 seconds after both connected; the second
    peer has just sent a heartbeat. *)
Definition quiet_server : NetDriver.t :=
  let s1 := server_with_peer 2 in
  let s2 := fst (NetDriver.receive_datagram s1 other_addr
                   (datagram PacketType.ConnectionRequest 0 [])) in
  let s3 := NetDriverOps.tick_connections s2 (FLit "45.0f") in
  fst (NetDriver.receive_datagram s3 other_addr
         (datagram PacketType.Heartbeat 1 [])).

(** A server World that holds one replicating player with
    [Health = 57], and a replication manager with that player registered. *)
Definition server_world : World.t :=
  fst (fst (World.SpawnActor World.create
              (Some (Actor.SetReplicates (PlayerActor 57) true)))).

Definition manager : ReplicationServer.t :=
  match ReplicationServer.RegisterActor ReplicationServer.create server_world
          (Some 0%nat) with
  | Some rm => rm
  | None => ReplicationServer.create
  end.


End Scenario.

(** * Properties *)

(** ** Machine integers and byte strings *)

Lemma bytes_eqb_eq (a b : list byte) : bytes_eqb a b = true <-> a = b.
Proof.
  revert b; induction a as [|x a IH]; intros [|y b]; simpl; try easy.
  rewrite andb_true_iff, IH. split.
  - intros [H ->]. apply Byte.byte_dec_bl in H. now subst.
  - intros [= -> ->]. split; [now apply Byte.byte_dec_lb|reflexivity].
Qed.

Lemma bytes_eqb_refl (a : list byte) : bytes_eqb a a = true.
Proof. now apply bytes_eqb_eq. Qed.

Lemma le_roundtrip_unsigned (n : nat) (z : Z) :
  in_unsigned (Z.of_nat n * 8) z -> le_combine (le_split n z) = z.
Proof.
  intros H. rewrite le_combine_split. now apply Z.mod_small.
Qed.

Lemma to_signed_wrap (bits z : Z) :
  0 < bits -> in_signed bits z -> to_signed bits (z mod 2 ^ bits) = z.
Proof.
  unfold in_signed, to_signed. intros Hb [Hlo Hhi].
  assert (Hp : 2 ^ bits = 2 * 2 ^ (bits - 1)).
  { rewrite <- Z.pow_succ_r by lia. f_equal. lia. }
  assert (0 < 2 ^ (bits - 1)) by (apply Z.pow_pos_nonneg; lia).
  destruct (Z_lt_le_dec z 0) as [Hneg|Hpos].
  - replace (z mod 2 ^ bits) with (z + 2 ^ bits).
    + destruct (Z.ltb_spec (z + 2 ^ bits) (2 ^ (bits - 1))); lia.
    + symmetry. rewrite <- (Z_mod_plus_full z 1 (2 ^ bits)).
      rewrite Z.mul_1_l. apply Z.mod_small. lia.
  - rewrite Z.mod_small by lia.
    destruct (Z.ltb_spec z (2 ^ (bits - 1))); lia.
Qed.

Lemma le_roundtrip_signed (n : nat) (z : Z) :
  (0 < n)%nat -> in_signed (Z.of_nat n * 8) z ->
  to_signed (Z.of_nat n * 8) (le_combine (le_split n z)) = z.
Proof.
  intros Hn H. rewrite le_combine_split. apply to_signed_wrap; [lia|exact H].
Qed.

Lemma length_list_byte_of_string (s : string) :
  length (list_byte_of_string s) = String.length s.
Proof.
  unfold list_byte_of_string. rewrite length_map.
  induction s as [|c s IH]; simpl; [reflexivity|now rewrite IH].
Qed.

(** ** BitStream: what a write appends is what the reads consume *)

Module BitStreamFacts.
Import BitStream.

Lemma EnsureCapacity_spec (s : t) (n : nat) :
  m_writePos (EnsureCapacity s n) = m_writePos s /\
  m_readPos (EnsureCapacity s n) = m_readPos s /\
  (m_writePos s + n <= length (m_buffer (EnsureCapacity s n)))%nat /\
  firstn (length (m_buffer s)) (m_buffer (EnsureCapacity s n)) = m_buffer s.
Proof.
  unfold EnsureCapacity.
  destruct (Nat.ltb_spec (length (m_buffer s)) (m_writePos s + n)); simpl.
  - repeat split; [|now rewrite take_app_length].
    rewrite length_app, repeat_length. lia.
  - repeat split; [lia|apply firstn_all].
Qed.

Lemma Write_positions (s : t) (d : list byte) :
  m_writePos (Write s d) = (m_writePos s + length d)%nat /\
  m_readPos (Write s d) = m_readPos s.
Proof.
  destruct (EnsureCapacity_spec s (length d)) as (Hw & Hr & _).
  unfold Write; simpl. now rewrite Hw, Hr.
Qed.

Lemma Write_contents (s : t) (d : list byte) :
  contents (Write s d)
  = firstn (m_writePos s) (m_buffer (EnsureCapacity s (length d))) ++ d /\
  (m_writePos (Write s d) <= length (m_buffer (Write s d)))%nat.
Proof.
  destruct (EnsureCapacity_spec s (length d)) as (Hw & Hr & Hlen & _).
  unfold contents, Write; simpl. rewrite Hw.
  set (b1 := m_buffer (EnsureCapacity s (length d))) in *.
  assert (Hl : length (firstn (m_writePos s) b1) = m_writePos s)
    by (rewrite length_take; lia).
  split.
  - rewrite app_assoc.
    rewrite take_app_le by (rewrite length_app; lia).
    rewrite take_ge by (rewrite length_app; lia). reflexivity.
  - rewrite !length_app, Hl. lia.
Qed.

(** A write on a stream that has been read to its end leaves exactly the
    written bytes to be read. *)
Lemma Write_fresh (s : t) (d : list byte) :
  m_readPos s = m_writePos s -> holds (Write s d) d.
Proof.
  intros Hrw.
  destruct (Write_positions s d) as [Hw Hr].
  destruct (Write_contents s d) as [Hc Hlen].
  destruct (EnsureCapacity_spec s (length d)) as (_ & _ & Hcap & _).
  split; [split; [lia|exact Hlen]|].
  unfold unread. rewrite Hc, Hr, Hrw.
  rewrite drop_app_length'; [reflexivity|].
  rewrite length_take. lia.
Qed.

Lemma Write_holds (s : t) (l d : list byte) :
  holds s l -> holds (Write s d) (l ++ d).
Proof.
  intros [[Hrw Hwl] Hu].
  destruct (Write_positions s d) as [Hw Hr].
  destruct (Write_contents s d) as [Hc Hlen].
  destruct (EnsureCapacity_spec s (length d)) as (_ & _ & _ & Hpre).
  split; [split; [lia|exact Hlen]|].
  unfold unread in *. rewrite Hc, Hr.
  assert (Hb : firstn (m_writePos s) (m_buffer (EnsureCapacity s (length d)))
               = contents s).
  { unfold contents.
    transitivity (firstn (m_writePos s) (firstn (length (m_buffer s))
                    (m_buffer (EnsureCapacity s (length d)))));
      [|now rewrite Hpre].
    rewrite take_take. f_equal. lia. }
  rewrite Hb, drop_app_le by (unfold contents; rewrite length_take; lia).
  now rewrite Hu.
Qed.

Lemma Read_holds (s : t) (d l : list byte) :
  holds s (d ++ l) ->
  Read s (length d) = (Some d, advance s (length d)) /\
  holds (advance s (length d)) l.
Proof.
  intros [[Hrw Hwl] Hu]. unfold unread, contents in Hu.
  assert (Hlen : (m_writePos s - m_readPos s = length d + length l)%nat).
  { rewrite <- length_app, <- Hu, length_drop, length_take. lia. }
  split.
  - unfold Read, CanRead.
    destruct (Z.leb_spec (Z.of_nat (m_readPos s) + Z.of_nat (length d))
                (Z.of_nat (m_writePos s))); [|lia].
    unfold advance. do 2 f_equal.
    replace (m_writePos s)
      with (m_readPos s + (m_writePos s - m_readPos s))%nat in Hu by lia.
    rewrite <- take_drop_commute in Hu.
    apply (f_equal (firstn (length d))) in Hu.
    rewrite take_take, take_app_length in Hu.
    rewrite Nat.min_l in Hu by lia. exact Hu.
  - split; [unfold wf, advance; simpl; lia|].
    unfold unread, contents, advance; simpl.
    rewrite <- drop_drop, Hu. apply drop_app_length.
Qed.

Lemma read_scalar_holds (s : t) (n : nat) (z : Z) (l : list byte) :
  holds s (le_split n z ++ l) ->
  read_scalar s n = (z mod 2 ^ (Z.of_nat n * 8), advance s n) /\
  holds (advance s n) l.
Proof.
  intros H. apply Read_holds in H. rewrite length_le_split in H.
  destruct H as [HR Hh]. split; [|exact Hh].
  unfold read_scalar. rewrite HR. now rewrite le_combine_split.
Qed.

End BitStreamFacts.

Module PrimFacts.
Import BitStream BitStreamFacts.

Lemma holds_nil (s : t) : holds s [] -> m_readPos s = m_writePos s.
Proof.
  intros [[Hrw Hwl] Hu]. unfold unread, contents in Hu.
  apply (f_equal (@length byte)) in Hu.
  rewrite length_drop, length_take in Hu. simpl in Hu. lia.
Qed.

Lemma Read_Some_CanRead (s s' : t) (n : nat) (bs : list byte) :
  Read s n = (Some bs, s') -> CanRead s (Z.of_nat n) = true.
Proof. unfold Read. destruct (CanRead s (Z.of_nat n)); congruence. Qed.

(** One scalar, written on a consumed stream and read back. *)
Lemma scalar_roundtrip (s : t) (n : nat) (z : Z) :
  m_readPos s = m_writePos s ->
  read_scalar (Write s (le_split n z)) n
  = (z mod 2 ^ (Z.of_nat n * 8), advance (Write s (le_split n z)) n) /\
  m_readPos (advance (Write s (le_split n z)) n)
  = m_writePos (advance (Write s (le_split n z)) n).
Proof.
  intros H. apply (Write_fresh s (le_split n z)) in H.
  set (S := Write s (le_split n z)) in *.
  rewrite <- (app_nil_r (le_split n z)) in H.
  apply read_scalar_holds in H. destruct H as [HR Hh].
  split; [exact HR|now apply holds_nil].
Qed.

Ltac scalar_case s n z H :=
  destruct (scalar_roundtrip s n z H) as [HR Hpos];
  cbn [read_prim write_prim kind_of];
  unfold ReadBool, ReadInt8, ReadUInt8, ReadInt16, ReadUInt16, ReadInt32,
    ReadUInt32, ReadInt64, ReadUInt64, ReadFloat, ReadDouble,
    WriteBool, WriteInt8, WriteUInt8, WriteInt16, WriteUInt16, WriteInt32,
    WriteUInt32, WriteInt64, WriteUInt64, WriteFloat, WriteDouble;
  rewrite HR; cbn [fst snd]; split; [|exact Hpos].

Lemma unsigned_small (n : nat) (z : Z) :
  in_unsigned (Z.of_nat n * 8) z -> z mod 2 ^ (Z.of_nat n * 8) = z.
Proof. intros H. now apply Z.mod_small. Qed.

Lemma signed_small (n : nat) (z : Z) :
  (0 < n)%nat -> in_signed (Z.of_nat n * 8) z ->
  to_signed (Z.of_nat n * 8) (z mod 2 ^ (Z.of_nat n * 8)) = z.
Proof. intros Hn H. apply to_signed_wrap; [lia|exact H]. Qed.

Lemma Vector3_roundtrip (s : t) (v : vec3) :
  m_readPos s = m_writePos s -> in_range (VVector3 v) ->
  fst (ReadVector3 (WriteVector3 s v)) = v /\
  m_readPos (snd (ReadVector3 (WriteVector3 s v)))
  = m_writePos (snd (ReadVector3 (WriteVector3 s v))).
Proof.
  intros H (Hx & Hy & Hz). destruct v as [x y z]; simpl in Hx, Hy, Hz.
  unfold WriteVector3, WriteFloat; cbn [v_x v_y v_z].
  apply (Write_fresh s (le_split 4 x)) in H.
  apply (Write_holds _ _ (le_split 4 y)) in H.
  apply (Write_holds _ _ (le_split 4 z)) in H.
  set (S := Write _ (le_split 4 z)) in *.
  rewrite <- app_assoc in H.
  rewrite <- (app_nil_r (le_split 4 z)) in H.
  unfold ReadVector3, ReadFloat.
  destruct (read_scalar_holds _ _ _ _ H) as [R1 H1]. rewrite R1.
  destruct (read_scalar_holds _ _ _ _ H1) as [R2 H2]. rewrite R2.
  destruct (read_scalar_holds _ _ _ _ H2) as [R3 H3]. rewrite R3.
  cbn [fst snd]. split; [|now apply holds_nil].
  rewrite !(unsigned_small 4) by assumption. reflexivity.
Qed.

Lemma Quaternion_roundtrip (s : t) (q : quat) :
  m_readPos s = m_writePos s -> in_range (VQuaternion q) ->
  fst (ReadQuaternion (WriteQuaternion s q)) = q /\
  m_readPos (snd (ReadQuaternion (WriteQuaternion s q)))
  = m_writePos (snd (ReadQuaternion (WriteQuaternion s q))).
Proof.
  intros H (Hw & Hx & Hy & Hz).
  destruct q as [w x y z]; simpl in Hw, Hx, Hy, Hz.
  unfold WriteQuaternion, WriteFloat; cbn [q_w q_x q_y q_z].
  apply (Write_fresh s (le_split 4 w)) in H.
  apply (Write_holds _ _ (le_split 4 x)) in H.
  apply (Write_holds _ _ (le_split 4 y)) in H.
  apply (Write_holds _ _ (le_split 4 z)) in H.
  set (S := Write _ (le_split 4 z)) in *.
  rewrite <- !app_assoc in H.
  rewrite <- (app_nil_r (le_split 4 z)) in H.
  unfold ReadQuaternion, ReadFloat.
  destruct (read_scalar_holds _ _ _ _ H) as [R1 H1]. rewrite R1.
  destruct (read_scalar_holds _ _ _ _ H1) as [R2 H2]. rewrite R2.
  destruct (read_scalar_holds _ _ _ _ H2) as [R3 H3]. rewrite R3.
  destruct (read_scalar_holds _ _ _ _ H3) as [R4 H4]. rewrite R4.
  cbn [fst snd]. split; [|now apply holds_nil].
  rewrite !(unsigned_small 4) by assumption. reflexivity.
Qed.

Lemma String_roundtrip (s : t) (x : string) :
  m_readPos s = m_writePos s -> in_range (VString x) ->
  fst (ReadString (WriteString s x)) = x /\
  m_readPos (snd (ReadString (WriteString s x)))
  = m_writePos (snd (ReadString (WriteString s x))).
Proof.
  intros H Hr. simpl in Hr.
  unfold WriteString, WriteUInt32, wrap.
  rewrite Z.mod_small by lia.
  apply (Write_fresh s (le_split 4 (Z.of_nat (String.length x)))) in H.
  destruct (Z.ltb_spec 0 (Z.of_nat (String.length x))) as [Hpos|Hzero].
  - rewrite (take_ge (list_byte_of_string x))
      by (rewrite length_list_byte_of_string; lia).
    apply (Write_holds _ _ (list_byte_of_string x)) in H.
    set (S := Write _ (list_byte_of_string x)) in *.
    unfold ReadString, ReadUInt32.
    destruct (read_scalar_holds _ _ _ _ H) as [R1 H1]. rewrite R1.
    change (Z.of_nat 4 * 8) with 32. rewrite Z.mod_small by lia.
    destruct (Z.eqb_spec (Z.of_nat (String.length x)) 0); [lia|].
    rewrite <- (app_nil_r (list_byte_of_string x)) in H1.
    destruct (Read_holds _ _ _ H1) as [R2 H2].
    rewrite length_list_byte_of_string in R2.
    rewrite (Read_Some_CanRead _ _ _ _ R2), Nat2Z.id, R2.
    cbn [negb fst snd].
    split; [apply string_of_list_byte_of_string|].
    apply holds_nil. now rewrite length_list_byte_of_string in H2.
  - assert (Hx : x = EmptyString) by (destruct x; simpl in *; [easy|lia]).
    subst x. simpl String.length in *. change (Z.of_nat 0) with 0 in *.
    set (S := Write s (le_split 4 0)) in *.
    rewrite <- (app_nil_r (le_split 4 0)) in H.
    unfold ReadString, ReadUInt32.
    destruct (read_scalar_holds _ _ _ _ H) as [R1 H1]. rewrite R1.
    cbn [fst snd]. split; [reflexivity|now apply holds_nil].
Qed.

End PrimFacts.

(** ** Packet: serialisation and in-place deserialisation *)

Module PacketFacts.
Import BitStream BitStreamFacts PrimFacts.

Lemma of_data_holds (l : list byte) : holds (of_data l) l.
Proof.
  unfold holds, wf, unread, contents, of_data; simpl.
  split; [lia|]. now rewrite drop_0, firstn_all.
Qed.

Lemma contents_of_data (l : list byte) : contents (of_data l) = l.
Proof. unfold contents, of_data; simpl. apply firstn_all. Qed.

Lemma length_contents (s : t) :
  wf s -> length (contents s) = m_writePos s.
Proof. intros [_ H]. unfold contents. rewrite length_take. lia. Qed.

(** [Serialize] appends the wire image of the packet. *)
Lemma Serialize_holds (p : Packet.t) (o : t) :
  m_readPos o = m_writePos o ->
  holds (snd (Packet.Serialize p o)) (Packet.wire_bytes p).
Proof.
  intros H. unfold Packet.Serialize, PacketHeader.Serialize, Packet.wire_bytes.
  cbn [snd PacketHeader.magic PacketHeader.sequence PacketHeader.packetType
         PacketHeader.payloadSize].
  unfold WriteUInt32, WriteUInt16.
  apply (Write_fresh o (le_split 4 (PacketHeader.magic (Packet.m_header p)))) in H.
  apply (Write_holds _ _
           (le_split 4 (PacketHeader.sequence (Packet.m_header p)))) in H.
  apply (Write_holds _ _
           (le_split 2 (PacketHeader.packetType (Packet.m_header p)))) in H.
  apply (Write_holds _ _
           (le_split 2 (wrap 16 (Z.of_nat (GetSize (Packet.m_payload p)))))) in H.
  rewrite <- !app_assoc in H.
  destruct (Nat.ltb_spec 0 (GetSize (Packet.m_payload p))) as [Hpos|Hzero].
  - apply (Write_holds _ _ (contents (Packet.m_payload p))) in H.
    now rewrite <- !app_assoc in H.
  - unfold contents. unfold GetSize in Hzero.
    replace (m_writePos (Packet.m_payload p)) with 0%nat by lia.
    simpl firstn. now rewrite app_nil_r.
Qed.

(** Reading the four header fields off a stream that starts with them. *)
Lemma Header_Deserialize_holds (i : t) (m q k n : Z) (l : list byte) :
  holds i (le_split 4 m ++ le_split 4 q ++ le_split 2 k ++ le_split 2 n ++ l) ->
  PacketHeader.Deserialize i
  = (m mod 2 ^ 32 =? PACKET_MAGIC,
     PacketHeader.mk (m mod 2 ^ 32) (q mod 2 ^ 32) (k mod 2 ^ 16) (n mod 2 ^ 16),
     advance i 12) /\
  holds (advance i 12) l.
Proof.
  intros H. unfold PacketHeader.Deserialize, ReadUInt32, ReadUInt16.
  destruct (read_scalar_holds _ _ _ _ H) as [R1 H1]. rewrite R1.
  destruct (read_scalar_holds _ _ _ _ H1) as [R2 H2]. rewrite R2.
  destruct (read_scalar_holds _ _ _ _ H2) as [R3 H3]. rewrite R3.
  destruct (read_scalar_holds _ _ _ _ H3) as [R4 H4]. rewrite R4.
  assert (Ha : advance (advance (advance (advance i 4) 4) 2) 2 = advance i 12).
  { unfold advance; simpl. f_equal. lia. }
  rewrite Ha in *. split; [reflexivity|exact H4].
Qed.

(** Deserialising the wire image of a well-formed packet into any packet
    object. *)
Lemma Deserialize_wire (p q : Packet.t) (i : t) :
  Packet.well_formed p ->
  holds i (Packet.wire_bytes p) ->
  fst (Packet.Deserialize q i)
  = (true,
     Packet.mk
       (PacketHeader.mk PACKET_MAGIC
          (PacketHeader.sequence (Packet.m_header p))
          (PacketHeader.packetType (Packet.m_header p))
          (Z.of_nat (GetSize (Packet.m_payload p))))
       (if (0 <? GetSize (Packet.m_payload p))%nat
        then of_data (contents (Packet.m_payload p))
        else Packet.m_payload q)).
Proof.
  intros (Hm & Hq & Hk & Hwf & Hn) H. unfold Packet.wire_bytes in H.
  destruct (Header_Deserialize_holds _ _ _ _ _ _ H) as [HD Hrest].
  unfold Packet.Deserialize. rewrite HD.
  unfold wrap.
  rewrite (Z.mod_small (Z.of_nat (GetSize (Packet.m_payload p)))) by lia.
  rewrite (Z.mod_small (Z.of_nat (GetSize (Packet.m_payload p)))) by lia.
  rewrite (Z.mod_small (PacketHeader.sequence _)) by exact Hq.
  rewrite (Z.mod_small (PacketHeader.packetType _)) by exact Hk.
  rewrite Hm. change (PACKET_MAGIC mod 2 ^ 32) with PACKET_MAGIC.
  rewrite Z.eqb_refl. cbn [negb PacketHeader.payloadSize].
  destruct (Z.ltb_spec 0 (Z.of_nat (GetSize (Packet.m_payload p))));
    destruct (Nat.ltb_spec 0 (GetSize (Packet.m_payload p))); try lia;
    [|reflexivity].
  rewrite <- (app_nil_r (contents _)) in Hrest.
  destruct (Read_holds _ _ _ Hrest) as [R _].
  rewrite (length_contents _ Hwf) in R. fold (GetSize (Packet.m_payload p)) in R.
  rewrite (Read_Some_CanRead _ _ _ _ R), Nat2Z.id, R. reflexivity.
Qed.

End PacketFacts.

(** ** Wire round trip *)

(** C3. Wire round-trip. For every value [v] of a supported primitive kind
    (bool, signed and unsigned 8/16/32/64-bit integers, 32/64-bit floats,
    string, vec3, quat) that is representable in its type, reading that kind
    from a [BitStream] immediately after writing [v] (the stream holding no
    unread bytes before the write) yields [v] and consumes exactly what was
    written. For every well-formed packet [P], [Packet::Deserialize] applied
    to the bytes produced by [Packet::Serialize] succeeds and reproduces the
    sequence, kind, payload size and payload bytes of [P]. *)
Theorem wire_round_trip (s : BitStream.t) (v : Prim) (P : Packet.t) :
  BitStream.m_readPos s = BitStream.m_writePos s ->
  in_range v ->
  Packet.well_formed P ->
  (fst (read_prim (write_prim s v) (kind_of v)) = Some v /\
   BitStream.m_readPos (snd (read_prim (write_prim s v) (kind_of v)))
   = BitStream.m_writePos (snd (read_prim (write_prim s v) (kind_of v)))) /\
  (let wire := BitStream.contents (snd (Packet.Serialize P BitStream.create)) in
   let r := fst (Packet.Deserialize Packet.create (BitStream.of_data wire)) in
   fst r = true /\
   Packet.GetSequence (snd r) = Packet.GetSequence P /\
   Packet.GetType (snd r) = Packet.GetType P /\
   PacketHeader.payloadSize (Packet.m_header (snd r))
   = Z.of_nat (BitStream.GetSize (Packet.m_payload P)) /\
   BitStream.GetSize (Packet.m_payload (snd r))
   = BitStream.GetSize (Packet.m_payload P) /\
   BitStream.contents (Packet.m_payload (snd r))
   = BitStream.contents (Packet.m_payload P)).
Proof.
  intros Hs Hv HP. split.
  - destruct v as [b|z|z|z|z|z|z|z|z|z|z|x|x|x].
    + PrimFacts.scalar_case s 1%nat (if b then 1 else 0) Hs.
      destruct b; reflexivity.
    + PrimFacts.scalar_case s 1%nat z Hs.
      now rewrite (PrimFacts.signed_small 1) by (lia || exact Hv).
    + PrimFacts.scalar_case s 1%nat z Hs.
      now rewrite (PrimFacts.unsigned_small 1) by exact Hv.
    + PrimFacts.scalar_case s 2%nat z Hs.
      now rewrite (PrimFacts.signed_small 2) by (lia || exact Hv).
    + PrimFacts.scalar_case s 2%nat z Hs.
      now rewrite (PrimFacts.unsigned_small 2) by exact Hv.
    + PrimFacts.scalar_case s 4%nat z Hs.
      now rewrite (PrimFacts.signed_small 4) by (lia || exact Hv).
    + PrimFacts.scalar_case s 4%nat z Hs.
      now rewrite (PrimFacts.unsigned_small 4) by exact Hv.
    + PrimFacts.scalar_case s 8%nat z Hs.
      now rewrite (PrimFacts.signed_small 8) by (lia || exact Hv).
    + PrimFacts.scalar_case s 8%nat z Hs.
      now rewrite (PrimFacts.unsigned_small 8) by exact Hv.
    + PrimFacts.scalar_case s 4%nat z Hs.
      now rewrite (PrimFacts.unsigned_small 4) by exact Hv.
    + PrimFacts.scalar_case s 8%nat z Hs.
      now rewrite (PrimFacts.unsigned_small 8) by exact Hv.
    + destruct (PrimFacts.String_roundtrip s x Hs Hv) as [Hval Hpos].
      cbn [read_prim write_prim kind_of].
      destruct (BitStream.ReadString (BitStream.WriteString s x)) as [y s'].
      cbn [fst snd] in *. now subst.
    + destruct (PrimFacts.Vector3_roundtrip s x Hs Hv) as [Hval Hpos].
      cbn [read_prim write_prim kind_of].
      destruct (BitStream.ReadVector3 (BitStream.WriteVector3 s x)) as [y s'].
      cbn [fst snd] in *. now subst.
    + destruct (PrimFacts.Quaternion_roundtrip s x Hs Hv) as [Hval Hpos].
      cbn [read_prim write_prim kind_of].
      destruct (BitStream.ReadQuaternion (BitStream.WriteQuaternion s x))
        as [y s'].
      cbn [fst snd] in *. now subst.
  - intros wire r.
    assert (Hout : BitStream.holds (snd (Packet.Serialize P BitStream.create))
                     (Packet.wire_bytes P))
      by (apply PacketFacts.Serialize_holds; reflexivity).
    assert (Hwire : wire = Packet.wire_bytes P).
    { destruct Hout as [_ Hu]. unfold BitStream.unread in Hu.
      destruct (BitStreamFacts.Write_positions BitStream.create []) as [_ _].
      assert (Hr0 : BitStream.m_readPos
                      (snd (Packet.Serialize P BitStream.create)) = 0%nat).
      { unfold Packet.Serialize, PacketHeader.Serialize; cbn [snd].
        destruct (0 <? BitStream.GetSize (Packet.m_payload P))%nat;
          unfold BitStream.WriteUInt32, BitStream.WriteUInt16;
          repeat (rewrite (proj2 (BitStreamFacts.Write_positions _ _)));
          reflexivity. }
      rewrite Hr0, drop_0 in Hu. exact Hu. }
    pose proof (PacketFacts.Deserialize_wire P Packet.create
                  (BitStream.of_data wire) HP) as HD.
    rewrite Hwire in HD at 1.
    specialize (HD (PacketFacts.of_data_holds _)).
    subst r. rewrite HD. cbn [fst snd Packet.GetSequence Packet.GetType
      Packet.m_header Packet.m_payload PacketHeader.sequence
      PacketHeader.packetType PacketHeader.payloadSize].
    repeat split.
    + destruct (Nat.ltb_spec 0 (BitStream.GetSize (Packet.m_payload P))).
      * unfold BitStream.GetSize at 1, BitStream.of_data; simpl.
        destruct HP as (_ & _ & _ & Hwf & _).
        now apply PacketFacts.length_contents.
      * unfold BitStream.GetSize in *. simpl. lia.
    + destruct (Nat.ltb_spec 0 (BitStream.GetSize (Packet.m_payload P))).
      * apply PacketFacts.contents_of_data.
      * unfold BitStream.contents, BitStream.GetSize in *. simpl.
        replace (BitStream.m_writePos (Packet.m_payload P)) with 0%nat by lia.
        reflexivity.
Qed.

(** An instance: the string ["Health"] and an [ActorDestroy] packet with
    sequence 7 carrying the id 42. *)
Lemma wire_round_trip_witness :
  fst (read_prim (write_prim BitStream.create (VString "Health"))
         PString) = Some (VString "Health") /\
  Packet.GetSequence
    (snd (fst (Packet.Deserialize Packet.create
       (BitStream.of_data (BitStream.contents (snd (Packet.Serialize
          (Packet.WriteU32 (Packet.SetSequence
             (Packet.of_type PacketType.ActorDestroy) 7) 42)
          BitStream.create))))))) = 7.
Proof.
  pose proof (wire_round_trip BitStream.create (VString "Health")
    (Packet.WriteU32 (Packet.SetSequence
       (Packet.of_type PacketType.ActorDestroy) 7) 42)) as H.
  destruct H as [[Hv _] (_ & Hq & _)].
  - reflexivity.
  - simpl. lia.
  - unfold Packet.well_formed, in_unsigned, BitStream.wf.
    repeat split; vm_compute; (reflexivity || congruence || lia).
  - split; [exact Hv|exact Hq].
Defined.

(** ** Failure of [Packet::Deserialize] *)

(** C10. Packet deserialization is not atomic on error. When
    [Packet::Deserialize] fails because the payload size declared in a
    header with the right magic number exceeds the bytes remaining in the
    input stream, it returns [false] and leaves the packet with the header
    fields parsed from the input and with its previous payload. *)
Theorem Deserialize_not_atomic
    (p : Packet.t) (inStream : BitStream.t)
    (h : PacketHeader.t) (s1 : BitStream.t) :
  PacketHeader.Deserialize inStream = (true, h, s1) ->
  Z.of_nat (BitStream.GetBytesRemaining s1) < PacketHeader.payloadSize h ->
  Packet.Deserialize p inStream
  = (false, Packet.mk h (Packet.m_payload p), s1).
Proof.
  intros HD Hshort. unfold Packet.Deserialize. rewrite HD. cbn [negb].
  unfold BitStream.GetBytesRemaining in Hshort.
  destruct (Z.ltb_spec 0 (PacketHeader.payloadSize h)); [|lia].
  unfold BitStream.CanRead.
  destruct (Z.leb_spec (Z.of_nat (BitStream.m_readPos s1)
              + PacketHeader.payloadSize h)
              (Z.of_nat (BitStream.m_writePos s1))); [lia|reflexivity].
Qed.

(** An instance: a packet object used before receives a datagram that
    declares 100 payload bytes and carries three. *)
Lemma Deserialize_not_atomic_witness :
  Packet.Deserialize Scenario.used_packet
    (BitStream.of_data Scenario.short_datagram)
  = (false,
     Packet.mk (PacketHeader.mk PACKET_MAGIC 9 PacketType.ActorReplication 100)
       (Packet.m_payload Scenario.used_packet),
     BitStream.advance (BitStream.of_data Scenario.short_datagram) 12).
Proof.
  apply Deserialize_not_atomic; vm_compute; reflexivity.
Defined.

(** ** Connections: acknowledgement of received packets *)

Module NetConnectionFacts.
Import NetConnection.

(** The acknowledgement packet carries the sequence as four payload
    bytes. *)
Lemma ack_packet_payload (sequence : Z) :
  BitStream.contents (Packet.m_payload (ack_packet sequence))
  = le_split 4 sequence /\
  Packet.GetType (ack_packet sequence) = PacketType.Acknowledgement.
Proof. split; reflexivity. Qed.

Lemma ack_payload_reads_back (sequence : Z) :
  in_unsigned 32 sequence ->
  fst (BitStream.ReadUInt32 (Packet.m_payload (ack_packet sequence))) = sequence.
Proof.
  intros H. unfold ack_packet, Packet.WriteU32, Packet.with_payload.
  cbn [Packet.m_payload]. unfold BitStream.ReadUInt32, BitStream.WriteUInt32.
  destruct (PrimFacts.scalar_roundtrip BitStream.create 4 sequence eq_refl)
    as [HR _].
  change (Packet.m_payload (Packet.of_type PacketType.Acknowledgement))
    with BitStream.create.
  rewrite HR. cbn [fst]. now apply Z.mod_small.
Qed.

(** [ReceivePacket] on a packet that is neither an acknowledgement nor a
    heartbeat queues one unreliable acknowledgement of its sequence. *)
Lemma ReceivePacket_acks (c : t) (packet : Packet.t) :
  Packet.GetType packet <> PacketType.Acknowledgement ->
  Packet.GetType packet <> PacketType.Heartbeat ->
  m_outgoingQueue (fst (ReceivePacket c packet))
  = m_outgoingQueue c
      ++ [Packet.SetSequence (ack_packet (Packet.GetSequence packet))
            (m_outgoingSequence c)] /\
  m_reliableBuffer (fst (ReceivePacket c packet)) = m_reliableBuffer c /\
  snd (ReceivePacket c packet) = packet.
Proof.
  intros Ha Hh. unfold ReceivePacket.
  destruct (Z.eqb_spec (Packet.GetType packet) PacketType.Acknowledgement);
    [contradiction|].
  destruct (Z.eqb_spec (Packet.GetType packet) PacketType.Heartbeat);
    [contradiction|].
  repeat split.
Qed.

(** Acknowledgements and heartbeats are not acknowledged. *)
Lemma ReceivePacket_no_ack (c : t) (packet : Packet.t) :
  Packet.GetType packet = PacketType.Acknowledgement \/
  Packet.GetType packet = PacketType.Heartbeat ->
  m_outgoingQueue (fst (ReceivePacket c packet)) = m_outgoingQueue c.
Proof.
  intros [H|H]; unfold ReceivePacket; rewrite H; cbn [Z.eqb negb andb].
  - unfold ProcessAcknowledgement.
    destruct (BitStream.ReadUInt32 (Packet.m_payload packet)) as [a pl].
    now destruct (_ !! a).
  - reflexivity.
Qed.

End NetConnectionFacts.

(** ** Driver: dispatch of received datagrams *)

Module NetDriverFacts.
Import NetDriver.

Lemma deref_update (d : t) (p : conn_ptr)
    (f : NetConnection.t -> NetConnection.t) :
  deref (update d p f) p = f <$> deref d p.
Proof.
  unfold deref, update, with_connections; cbn [m_connections].
  induction (m_connections d) as [|[q c] cs IH]; [reflexivity|].
  cbn [map List.find fst snd].
  destruct (Nat.eqb_spec q p) as [->|Hne]; cbn [fst snd].
  - rewrite Nat.eqb_refl. reflexivity.
  - destruct (Nat.eqb_spec q p); [contradiction|]. exact IH.
Qed.

(** The pointer [FindConnection] returns can be dereferenced. *)
Lemma FindConnection_deref (d : t) (address : Address) (p : conn_ptr) :
  FindConnection d address = Some p -> exists c, deref d p = Some c.
Proof.
  unfold FindConnection, deref.
  induction (m_connections d) as [|[q c] cs IH]; [discriminate|].
  cbn [find_by_address List.find fst].
  destruct (Nat.eqb_spec q p) as [->|Hne].
  - intros _. now exists c.
  - destruct (bool_decide _); [congruence|exact IH].
Qed.

(** A datagram that [Packet::Deserialize] rejects has no effect. *)
Lemma receive_datagram_rejected (d : t) (from : Address) (buffer : list byte) :
  fst (fst (Packet.Deserialize Packet.create (BitStream.of_data buffer))) = false ->
  receive_datagram d from buffer = (d, []).
Proof.
  intros H. unfold receive_datagram.
  destruct (Packet.Deserialize Packet.create (BitStream.of_data buffer))
    as [[ok packet] rest].
  cbn [fst] in H. now subst ok.
Qed.

End NetDriverFacts.

(** C2 (as amended). For every datagram that deserializes to a packet whose
    kind is none of [ConnectionRequest], [ConnectionAccept], [Disconnect],
    [Acknowledgement], [Heartbeat] and whose sender has a connection at the
    driver, the driver appends to the outgoing queue of that connection an
    [Acknowledgement] packet, not retained as reliable, whose payload is the
    sequence number of the received packet as a [u32]. *)
Theorem received_packet_acknowledged
    (d : NetDriver.t) (from : Address) (buffer : list byte)
    (packet : Packet.t) (rest : BitStream.t) (p : NetDriver.conn_ptr) :
  Packet.Deserialize Packet.create (BitStream.of_data buffer)
  = (true, packet, rest) ->
  Packet.GetType packet <> PacketType.ConnectionRequest ->
  Packet.GetType packet <> PacketType.ConnectionAccept ->
  Packet.GetType packet <> PacketType.Disconnect ->
  Packet.GetType packet <> PacketType.Acknowledgement ->
  Packet.GetType packet <> PacketType.Heartbeat ->
  NetDriver.FindConnection d from = Some p ->
  exists c c' ack,
    NetDriver.deref d p = Some c /\
    NetDriver.deref (fst (NetDriver.receive_datagram d from buffer)) p = Some c' /\
    NetConnection.m_outgoingQueue c' = NetConnection.m_outgoingQueue c ++ [ack] /\
    NetConnection.m_reliableBuffer c' = NetConnection.m_reliableBuffer c /\
    Packet.GetType ack = PacketType.Acknowledgement /\
    Packet.GetSequence ack = NetConnection.m_outgoingSequence c /\
    BitStream.contents (Packet.m_payload ack)
    = le_split 4 (Packet.GetSequence packet).
Proof.
  intros HD Hreq Hacc Hdis Hack Hhb Hfind.
  destruct (NetDriverFacts.FindConnection_deref d from p Hfind) as [c Hderef].
  unfold NetDriver.receive_datagram. rewrite HD. cbn [negb].
  destruct (Z.eqb_spec (Packet.GetType packet) PacketType.ConnectionRequest);
    [contradiction|].
  destruct (Z.eqb_spec (Packet.GetType packet) PacketType.ConnectionAccept);
    [contradiction|].
  destruct (Z.eqb_spec (Packet.GetType packet) PacketType.Disconnect);
    [contradiction|].
  rewrite Hfind, Hderef.
  destruct (NetConnectionFacts.ReceivePacket_acks c packet Hack Hhb)
    as (Hq & Hb & _).
  destruct (NetConnection.ReceivePacket c packet) as [c' packet'].
  cbn [fst snd] in *.
  exists c, c', (Packet.SetSequence
                   (NetConnection.ack_packet (Packet.GetSequence packet))
                   (NetConnection.m_outgoingSequence c)).
  rewrite NetDriverFacts.deref_update, Hderef.
  repeat split; assumption.
Qed.

(** An instance: a server with one connected peer receives an
    [ActorDestroy] packet with sequence 5 from that peer. *)
Lemma received_packet_acknowledged_witness :
  exists c' ack,
    NetDriver.deref
      (fst (NetDriver.receive_datagram (Scenario.server_with_peer 4)
              Scenario.peer_addr
              (Scenario.datagram PacketType.ActorDestroy 5 (le_split 4 1))))
      0%nat = Some c' /\
    Packet.GetType ack = PacketType.Acknowledgement /\
    BitStream.contents (Packet.m_payload ack) = le_split 4 5 /\
    In ack (NetConnection.m_outgoingQueue c').
Proof.
  destruct (received_packet_acknowledged (Scenario.server_with_peer 4)
    Scenario.peer_addr
    (Scenario.datagram PacketType.ActorDestroy 5 (le_split 4 1))
    (Packet.mk (PacketHeader.mk PACKET_MAGIC 5 PacketType.ActorDestroy 4)
       (BitStream.of_data (le_split 4 1)))
    (BitStream.advance
       (BitStream.of_data
          (Scenario.datagram PacketType.ActorDestroy 5 (le_split 4 1))) 16)
    0%nat)
    as (c & c' & ack & _ & H1 & H2 & _ & H4 & _ & H6);
    try (vm_compute; congruence).
  exists c', ack. repeat split; try assumption.
  rewrite H2. apply in_or_app. right. now left.
Defined.

(** C2, as stated, fails on the handshake kinds and on unknown peers: a
    client that receives [ConnectionAccept] from its server queues no
    acknowledgement, and a server that receives an [ActorDestroy] packet
    from a peer without a connection keeps no state to queue one on. *)
Lemma acknowledgement_counterexample :
  (let d' := fst (NetDriver.receive_datagram Scenario.client Scenario.server_addr
                    (Scenario.datagram PacketType.ConnectionAccept 0 [])) in
   PacketType.ConnectionAccept <> PacketType.Acknowledgement /\
   PacketType.ConnectionAccept <> PacketType.Heartbeat /\
   map (fun e => map Packet.GetType (NetConnection.m_outgoingQueue (snd e)))
     (NetDriver.m_connections d') = [[PacketType.ConnectionRequest]] /\
   map (fun e => NetConnection.m_state (snd e)) (NetDriver.m_connections d')
   = [Connected]) /\
  (let d' := fst (NetDriver.receive_datagram (Scenario.server_with_peer 4)
                    Scenario.other_addr
                    (Scenario.datagram PacketType.ActorDestroy 5 (le_split 4 1))) in
   d' = Scenario.server_with_peer 4).
Proof.
  split; [|reflexivity].
  cbv zeta. repeat split; try discriminate; vm_compute; reflexivity.
Qed.

(** C4 (as amended). The receive loop performs no check of the datagram
    length against [MAX_PACKET_SIZE]; a received datagram of any length, in
    particular one longer than 1024 bytes and carrying the right magic
    number, is dropped without processing when [Packet::Deserialize]
    rejects the bytes that fit the receive buffer: no connection is
    created, no connection is changed and no callback runs. *)
Theorem rejected_datagram_dropped
    (d : NetDriver.t) (from : Address) (data : list byte) :
  fst (fst (Packet.Deserialize Packet.create
              (BitStream.of_data (firstn (MAX_PACKET_SIZE * 2) data)))) = false ->
  NetDriver.ReceivePackets d [(from, data)] = (d, [], []).
Proof.
  intros H. unfold NetDriver.ReceivePackets.
  change 100%nat with (S 99). cbn [NetDriver.receive_loop].
  destruct (length (firstn (MAX_PACKET_SIZE * 2) data) =? 0)%nat; [reflexivity|].
  rewrite (NetDriverFacts.receive_datagram_rejected _ _ _ H).
  reflexivity.
Qed.

(** An instance: 1500 bytes with the right magic number and a declared
    payload size of 2000, sent to a server with one connected peer. *)
Lemma rejected_datagram_dropped_witness :
  (MAX_PACKET_SIZE < length Scenario.oversize_short_datagram)%nat /\
  NetDriver.ReceivePackets (Scenario.server_with_peer 4)
    [(Scenario.other_addr, Scenario.oversize_short_datagram)]
  = (Scenario.server_with_peer 4, [], []).
Proof.
  split; [vm_compute; lia|].
  apply rejected_datagram_dropped. vm_compute. reflexivity.
Defined.

(** C4, as stated, fails: a 1500-byte datagram with the right magic number
    that is a [ConnectionRequest] makes a server create a connection, queue
    a [ConnectionAccept] on it and run the on-connect callback. *)
Lemma oversize_datagram_counterexample :
  length Scenario.oversize_datagram = 1500%nat /\
  firstn 4 Scenario.oversize_datagram = le_split 4 PACKET_MAGIC /\
  NetDriver.m_connections (Scenario.server 4) = [] /\
  let r := NetDriver.ReceivePackets (Scenario.server 4)
             [(Scenario.peer_addr, Scenario.oversize_datagram)] in
  map (fun e => (fst e, NetConnection.m_address (snd e),
                 NetConnection.m_state (snd e),
                 map Packet.GetType (NetConnection.m_outgoingQueue (snd e))))
    (NetDriver.m_connections (fst (fst r)))
  = [(0%nat, Scenario.peer_addr, Connected, [PacketType.ConnectionAccept])] /\
  snd (fst r) = [NetDriver.OnConnection 0%nat].
Proof. repeat split; vm_compute; reflexivity. Qed.

(** ** Driver: connection requests *)

Module HandshakeFacts.
Import NetDriver.

Lemma update_fresh_entries (cs : list (conn_ptr * NetConnection.t))
    (p : conn_ptr) (f : NetConnection.t -> NetConnection.t) :
  Forall (fun e => (fst e < p)%nat) cs ->
  map (fun e => if Nat.eqb (fst e) p then (fst e, f (snd e)) else e) cs = cs.
Proof.
  induction 1 as [|[q c] cs Hq _ IH]; [reflexivity|].
  cbn [map fst snd] in *. rewrite IH.
  destruct (Nat.eqb_spec q p); [lia|reflexivity].
Qed.

Lemma fresh_update (d : t) (p : conn_ptr) f : fresh d -> fresh (update d p f).
Proof.
  unfold fresh, update, with_connections; cbn [m_connections next_conn].
  intros H. rewrite List.Forall_forall in *. intros e He.
  apply List.in_map_iff in He. destruct He as ([q c] & <- & Hin).
  specialize (H _ Hin). cbn [fst snd] in *.
  now destruct (Nat.eqb q p).
Qed.

Lemma fresh_CreateConnection (d : t) (a : Address) :
  fresh d -> fresh (fst (CreateConnection d a)).
Proof.
  unfold fresh, CreateConnection, with_connections;
    cbn [fst m_connections next_conn].
  intros H. rewrite List.Forall_forall in *. intros e He.
  apply List.in_app_iff in He. destruct He as [He|[<-|[]]].
  - specialize (H _ He). lia.
  - cbn [fst]. lia.
Qed.

Lemma fresh_RemoveConnection (d : t) (p : conn_ptr) :
  fresh d -> fresh (RemoveConnection d p).
Proof.
  unfold fresh, RemoveConnection, with_connections;
    cbn [m_connections next_conn].
  intros H. rewrite List.Forall_forall in *. intros e He.
  apply List.filter_In in He. now apply H.
Qed.

(** What [HandleConnectionRequest] does for an unknown peer below the
    connection limit. *)
Lemma HandleConnectionRequest_accept (d : t) (from : Address) (packet : Packet.t) :
  fresh d ->
  FindConnection d from = None ->
  Z.of_nat (length (m_connections d)) < m_maxConnections d ->
  HandleConnectionRequest d from packet
  = (with_connections d
       (m_connections d ++ [(next_conn d, accepted from)])
       (m_connectionList d ++ [next_conn d])
       (m_serverConnection d) (S (next_conn d)),
     callback (m_onConnection d) (OnConnection (next_conn d))).
Proof.
  intros Hfresh Hfind Hroom. unfold HandleConnectionRequest.
  rewrite Hfind.
  destruct (Z.leb_spec (m_maxConnections d) (Z.of_nat (length (m_connections d))));
    [lia|].
  unfold CreateConnection, SendPacket, update, with_connections.
  cbn [m_connections m_connectionList m_serverConnection next_conn
         m_mode m_maxConnections m_onConnection m_onDisconnection m_onPacket].
  rewrite !map_app.
  rewrite (update_fresh_entries _ _
             (fun c => NetConnection.SetState c Connected) Hfresh).
  rewrite (update_fresh_entries _ _
             (fun c => NetConnection.SendPacket c
                         (Packet.of_type PacketType.ConnectionAccept) true)
             Hfresh).
  cbn [map fst snd]. rewrite Nat.eqb_refl. cbn [fst snd].
  rewrite Nat.eqb_refl. reflexivity.
Qed.

(** Every datagram leaves the allocator ahead of the connections. *)
Lemma fresh_receive_datagram (d : t) (from : Address) (buffer : list byte) :
  fresh d -> fresh (fst (receive_datagram d from buffer)).
Proof.
  intros H. unfold receive_datagram.
  destruct (Packet.Deserialize Packet.create (BitStream.of_data buffer))
    as [[ok packet] rest].
  destruct ok; cbn [negb]; [|exact H].
  destruct (Packet.GetType packet =? PacketType.ConnectionRequest).
  { destruct (IsServer d); [|exact H].
    unfold HandleConnectionRequest.
    destruct (FindConnection d from); [exact H|].
    destruct (_ <=? _); [exact H|]. cbn [fst].
    now apply fresh_update, fresh_update, fresh_CreateConnection. }
  destruct (Packet.GetType packet =? PacketType.ConnectionAccept).
  { destruct (IsClient d), (m_serverConnection d); try exact H.
    now apply fresh_update. }
  destruct (Packet.GetType packet =? PacketType.Disconnect).
  { destruct (FindConnection d from); [|exact H].
    now apply fresh_RemoveConnection. }
  destruct (FindConnection d from) as [p|]; [|exact H].
  destruct (deref d p) as [c|]; [|exact H].
  destruct (NetConnection.ReceivePacket c packet) as [c' packet'].
  now apply fresh_update.
Qed.

End HandshakeFacts.

(** C8. Capacity refusal is state-preserving. When a server receives a
    [ConnectionRequest]: from a peer it already has a connection for, the
    request is ignored; from an unknown peer while the number of
    connections is at or above the limit, the raw bytes of a
    [ConnectionDenied] packet are sent to the peer and the driver is
    unchanged; from an unknown peer otherwise, one connection is created for
    the peer, directly in state [Connected], with a [ConnectionAccept]
    packet queued and retained as reliable, and the on-connect callback is
    invoked with it. *)
Theorem connection_request_handling
    (d : NetDriver.t) (from : Address) (buffer : list byte)
    (packet : Packet.t) (rest : BitStream.t) :
  NetDriver.IsServer d = true ->
  NetDriver.fresh d ->
  Packet.Deserialize Packet.create (BitStream.of_data buffer)
  = (true, packet, rest) ->
  Packet.GetType packet = PacketType.ConnectionRequest ->
  (NetDriver.FindConnection d from <> None ->
   NetDriver.receive_datagram d from buffer = (d, [])) /\
  (NetDriver.FindConnection d from = None ->
   NetDriver.m_maxConnections d <= Z.of_nat (length (NetDriver.m_connections d)) ->
   NetDriver.receive_datagram d from buffer
   = (d, [NetDriver.SendTo
            (Packet.wire_bytes (Packet.of_type PacketType.ConnectionDenied))
            from])) /\
  (NetDriver.FindConnection d from = None ->
   Z.of_nat (length (NetDriver.m_connections d)) < NetDriver.m_maxConnections d ->
   NetDriver.receive_datagram d from buffer
   = (NetDriver.with_connections d
        (NetDriver.m_connections d
           ++ [(NetDriver.next_conn d, NetDriver.accepted from)])
        (NetDriver.m_connectionList d ++ [NetDriver.next_conn d])
        (NetDriver.m_serverConnection d) (S (NetDriver.next_conn d)),
      if NetDriver.m_onConnection d
      then [NetDriver.OnConnection (NetDriver.next_conn d)] else [])).
Proof.
  intros Hsrv Hfresh HD Hty.
  assert (Hrecv : NetDriver.receive_datagram d from buffer
                  = NetDriver.HandleConnectionRequest d from packet).
  { unfold NetDriver.receive_datagram. rewrite HD, Hty, Hsrv. reflexivity. }
  rewrite Hrecv. repeat split.
  - intros Hknown. unfold NetDriver.HandleConnectionRequest.
    destruct (NetDriver.FindConnection d from); [reflexivity|contradiction].
  - intros Hnone Hfull. unfold NetDriver.HandleConnectionRequest.
    rewrite Hnone.
    destruct (Z.leb_spec (NetDriver.m_maxConnections d)
                (Z.of_nat (length (NetDriver.m_connections d)))); [|lia].
    reflexivity.
  - intros Hnone Hroom.
    now rewrite HandshakeFacts.HandleConnectionRequest_accept.
Qed.

(** An instance: a server limited to one connection that already serves
    [peer_addr] receives a request from [other_addr]; the same request with
    a limit of four; and a repeated request from [peer_addr]. *)
Lemma connection_request_handling_witness :
  NetDriver.receive_datagram (Scenario.server_with_peer 1) Scenario.other_addr
    (Scenario.datagram PacketType.ConnectionRequest 0 [])
  = (Scenario.server_with_peer 1,
     [NetDriver.SendTo
        (Packet.wire_bytes (Packet.of_type PacketType.ConnectionDenied))
        Scenario.other_addr]) /\
  map fst (NetDriver.m_connections
    (fst (NetDriver.receive_datagram (Scenario.server_with_peer 4)
            Scenario.other_addr
            (Scenario.datagram PacketType.ConnectionRequest 0 []))))
  = [0%nat; 1%nat] /\
  NetDriver.receive_datagram (Scenario.server_with_peer 4) Scenario.peer_addr
    (Scenario.datagram PacketType.ConnectionRequest 0 [])
  = (Scenario.server_with_peer 4, []).
Proof.
  pose (pkt := Packet.mk
                 (PacketHeader.mk PACKET_MAGIC 0 PacketType.ConnectionRequest 0)
                 BitStream.create).
  pose (rest := BitStream.advance
                  (BitStream.of_data
                     (Scenario.datagram PacketType.ConnectionRequest 0 [])) 12).
  assert (Hfresh : forall n, NetDriver.fresh (Scenario.server_with_peer n)).
  { intros n. unfold Scenario.server_with_peer.
    assert (Hf0 : NetDriver.fresh (Scenario.server n)) by constructor.
    assert (HD : NetDriver.receive_datagram (Scenario.server n) Scenario.peer_addr
                   (Scenario.datagram PacketType.ConnectionRequest 0 [])
                 = NetDriver.HandleConnectionRequest (Scenario.server n)
                     Scenario.peer_addr pkt) by reflexivity.
    rewrite HD. unfold NetDriver.HandleConnectionRequest.
    cbn [NetDriver.FindConnection Scenario.server NetDriver.m_connections
           NetDriver.find_by_address].
    destruct (_ <=? _); [exact Hf0|].
    cbn [fst]. apply HandshakeFacts.fresh_update, HandshakeFacts.fresh_update.
    now apply HandshakeFacts.fresh_CreateConnection. }
  assert (HD : Packet.Deserialize Packet.create
                 (BitStream.of_data
                    (Scenario.datagram PacketType.ConnectionRequest 0 []))
               = (true, pkt, rest)) by (vm_compute; reflexivity).
  destruct (connection_request_handling (Scenario.server_with_peer 1)
              Scenario.other_addr _ pkt rest eq_refl (Hfresh 1) HD eq_refl)
    as (_ & Hdeny & _).
  destruct (connection_request_handling (Scenario.server_with_peer 4)
              Scenario.other_addr _ pkt rest eq_refl (Hfresh 4) HD eq_refl)
    as (_ & _ & Haccept).
  destruct (connection_request_handling (Scenario.server_with_peer 4)
              Scenario.peer_addr _ pkt rest eq_refl (Hfresh 4) HD eq_refl)
    as (Hknown & _ & _).
  split; [|split].
  - apply Hdeny; [reflexivity|vm_compute; congruence].
  - rewrite Haccept; reflexivity.
  - apply Hknown. vm_compute. congruence.
Defined.

(** ** RPC dispatch *)

(** The checks of [ProcessRPC], on any World. When [ProcessRPC] invokes a
    handler, the id-map of the World has an entry for the NetId read from
    the packet, the function name read from the packet resolves to a
    registered handler, which is the one invoked, and the kind of the
    packet is the one that belongs to the declared RPC kind of the
    handler. In particular a packet of kind [RPCServer] that names a
    handler registered as [Client] or [Multicast] invokes nothing. *)
Lemma rpc_kind_safety
    (w : World.t) (registry : gmap string RPCManager.RPCMetadata)
    (packet : Packet.t) :
  (forall inv, RPCManager.ProcessRPC w registry packet = Some inv ->
     let r1 := BitStream.ReadUInt32 (Packet.m_payload packet) in
     let r2 := BitStream.ReadString (snd r1) in
     exists metadata,
       World.GetActorByNetId w (fst r1) = Some (RPCManager.on_actor inv) /\
       registry !! fst r2 = Some metadata /\
       RPCManager.called inv = RPCManager.handler metadata /\
       Packet.GetType packet
       = RPCManager.expectedPacketType (RPCManager.type metadata)) /\
  (forall metadata,
     registry !! fst (BitStream.ReadString
                        (snd (BitStream.ReadUInt32 (Packet.m_payload packet))))
     = Some metadata ->
     Packet.GetType packet = PacketType.RPCServer ->
     RPCManager.type metadata = RPCType.Client \/
     RPCManager.type metadata = RPCType.Multicast ->
     RPCManager.ProcessRPC w registry packet = None).
Proof.
  split.
  - intros inv H r1 r2. subst r1 r2. unfold RPCManager.ProcessRPC in H.
    destruct (BitStream.ReadUInt32 (Packet.m_payload packet)) as [actorNetId s1].
    cbn [fst snd].
    destruct (BitStream.ReadString s1) as [functionName s2]. cbn [fst].
    destruct (World.GetActorByNetId w actorNetId) as [actor|]; [|discriminate].
    destruct (registry !! functionName) as [metadata|]; [|discriminate].
    destruct (Z.eqb_spec (Packet.GetType packet)
                (RPCManager.expectedPacketType (RPCManager.type metadata)));
      [|discriminate].
    cbn [negb] in H. injection H as <-. now exists metadata.
  - intros metadata Hreg Hty Hkind. unfold RPCManager.ProcessRPC.
    destruct (BitStream.ReadUInt32 (Packet.m_payload packet)) as [actorNetId s1].
    cbn [fst snd] in Hreg.
    destruct (BitStream.ReadString s1) as [functionName s2]. cbn [fst] in Hreg.
    destruct (World.GetActorByNetId w actorNetId); [|reflexivity].
    rewrite Hreg, Hty.
    destruct Hkind as [-> | ->]; reflexivity.
Qed.

(** An instance: on a World with two players, an [RPCServer] packet naming
    [Fire] (declared [Server]) on actor 1 invokes handler 7, and an
    [RPCServer] packet naming [Notify] (declared [Client]) is dropped. *)
Lemma rpc_kind_safety_witness :
  (exists metadata,
     Scenario.registry !! "Fire"%string = Some metadata /\
     RPCManager.handler metadata = 7%nat /\
     PacketType.RPCServer
     = RPCManager.expectedPacketType (RPCManager.type metadata)) /\
  RPCManager.ProcessRPC Scenario.two_players Scenario.registry
    (RPCManager.rpc_packet PacketType.RPCServer 1 "Notify" BitStream.create)
  = None.
Proof.
  pose (fire := RPCManager.rpc_packet PacketType.RPCServer 1 "Fire"
                  (BitStream.WriteUInt8 BitStream.create 3)).
  pose (notify := RPCManager.rpc_packet PacketType.RPCServer 1 "Notify"
                    BitStream.create).
  split.
  - destruct (proj1 (rpc_kind_safety Scenario.two_players Scenario.registry fire)
                (RPCManager.mkInvocation 7 0
                   (BitStream.of_data [Byte.x03])) eq_refl)
      as (metadata & _ & Hreg & Hcalled & Hty).
    exists metadata. repeat split; [exact Hreg|now symmetry|exact Hty].
  - apply (proj2 (rpc_kind_safety Scenario.two_players Scenario.registry notify)
             (RPCManager.mkMetadata "Notify" RPCType.Client 8));
      [reflexivity|reflexivity|now left].
Defined.

(** Where the id-map is consistent with the owned actors, as the World's
    own operations keep it, the actor a handler is invoked on is live and
    holds the NetId of the packet. *)
Lemma rpc_on_live_actor
    (w : World.t) (registry : gmap string RPCManager.RPCMetadata)
    (packet : Packet.t) (inv : RPCManager.Invocation) :
  World.idmap_consistent w ->
  RPCManager.ProcessRPC w registry packet = Some inv ->
  exists actor,
    World.deref w (RPCManager.on_actor inv) = Some actor /\
    Actor.m_netId actor
    = fst (BitStream.ReadUInt32 (Packet.m_payload packet)).
Proof.
  intros Hc H. unfold RPCManager.ProcessRPC in H.
  destruct (BitStream.ReadUInt32 (Packet.m_payload packet)) as [actorNetId s1].
  destruct (BitStream.ReadString s1) as [functionName s2].
  destruct (World.GetActorByNetId w actorNetId) as [actor|] eqn:Hg;
    [|discriminate].
  destruct (registry !! functionName) as [metadata|]; [|discriminate].
  destruct (negb _); [discriminate|]. injection H as <-.
  cbn [RPCManager.on_actor fst]. exact (Hc actorNetId actor Hg).
Qed.

(** C6. RPC kind safety: the handler is to be invoked only if the NetId
    resolves to a live actor. [ProcessRPC] takes whatever address
    [GetActorByNetId] returns and only compares it with null, and on a
    client the id-map goes stale through [HandleActorSpawn], which stores
    the NetId from the wire in an actor that the id-map holds under the
    id the client's own counter gave it (the defect behind C5).

    A client World receives the [ActorSpawn] packet for NetId 2: the new
    actor, at address 0, holds NetId 2 and is entered under key 1, so
    that NetId 2 resolves to nothing. The actor is destroyed; the
    destroy pass of the next [Tick] runs its hook, removes it from the
    owned set and erases key 2 from the id-map, which leaves key 1 in
    place. A [RPCClient] packet for NetId 1 that names [Notify], taken
    from its datagram, then makes [ProcessRPC] invoke handler 8 on
    address 0, which no longer holds an actor. *)
Theorem rpc_reaches_destroyed_actor :
  let w := Scenario.client_after_2 in
  let notify :=
    Packet.SetSequence
      (RPCManager.rpc_packet PacketType.RPCClient 1 "Notify" BitStream.create)
      4 in
  (Actor.m_netId <$> World.deref w 0%nat) = Some 2 /\
  World.GetActorByNetId w 2 = None /\
  World.GetActorByNetId w 1 = Some 0%nat /\
  exists w',
    World.Tick Scenario.idle (FLit "0.016f")
      (World.DestroyActor w (Some 0%nat))
    = Some (w', [World.OnTick 0%nat; World.OnDestroy 0%nat]) /\
    World.m_actors w' = [] /\
    World.deref w' 0%nat = None /\
    World.GetActorByNetId w' 1 = Some 0%nat /\
    RPCManager.ProcessRPC w' Scenario.registry
      (snd (fst (Packet.Deserialize Packet.create
                   (BitStream.of_data (Packet.wire_bytes notify)))))
    = Some (RPCManager.mkInvocation 8 0%nat (BitStream.of_data [])).
Proof.
  cbv zeta.
  split; [reflexivity|]. split; [reflexivity|]. split; [reflexivity|].
  destruct (World.Tick Scenario.idle (FLit "0.016f")
              (World.DestroyActor Scenario.client_after_2 (Some 0%nat)))
    as [[w' ev]|] eqn:E; vm_compute in E; [|discriminate].
  injection E as <- <-. eexists. split; [reflexivity|].
  repeat split; vm_compute; reflexivity.
Qed.

(** ** Replicated properties: change detection after registration *)

Module PropertyFacts.

Lemma bytes_eqb_neq (a b : list byte) : a <> b -> bytes_eqb a b = false.
Proof.
  intros H. destruct (bytes_eqb a b) eqn:E; [|reflexivity].
  apply bytes_eqb_eq in E. contradiction.
Qed.

Lemma load_length (mem : list byte) (addr size : nat) (bs : list byte) :
  Memory.load mem addr size = Some bs -> length bs = size.
Proof.
  unfold Memory.load.
  destruct (Nat.leb_spec (addr + size) (length mem)); [|discriminate].
  intros [= <-]. rewrite length_take, length_drop. lia.
Qed.

End PropertyFacts.

(** C7 (as amended). Immediately after registration the cached last-value
    of a replicated property has length equal to the size of the property
    and consists of zero bytes, and the dirty flag is set; [HasChanged]
    returns true when the size is zero, when the data pointer is null, and
    when the bytes of the property in memory are not all zero. *)
Theorem registered_property_changed
    (a : Actor.t) (name : string) (ptr : option nat)
    (type : PropertyType) (size : nat) :
  exists p,
    Actor.m_replicatedProperties
      (Actor.RegisterReplicatedProperty a name ptr type size) !! name = Some p /\
    length (ReplicatedProperty.lastValue p) = size /\
    ReplicatedProperty.lastValue p = repeat Byte.x00 size /\
    ReplicatedProperty.dirty p = true /\
    (size = 0%nat \/ ptr = None ->
     ReplicatedProperty.HasChanged p (Actor.storage a) = Some true) /\
    (forall addr cur,
       ptr = Some addr ->
       Memory.load (Actor.storage a) addr size = Some cur ->
       cur <> repeat Byte.x00 size ->
       ReplicatedProperty.HasChanged p (Actor.storage a) = Some true).
Proof.
  exists (ReplicatedProperty.create name type ptr size).
  unfold Actor.RegisterReplicatedProperty, Actor.with_properties.
  cbn [Actor.m_replicatedProperties].
  rewrite lookup_insert_eq.
  unfold ReplicatedProperty.create, ReplicatedProperty.HasChanged.
  cbn [ReplicatedProperty.lastValue ReplicatedProperty.dirty
         ReplicatedProperty.dataPtr ReplicatedProperty.size].
  rewrite repeat_length.
  repeat split.
  - intros [-> | ->]; [|reflexivity].
    destruct ptr; reflexivity.
  - intros addr cur -> Hload Hne.
    destruct (Nat.eqb_spec size 0); [reflexivity|].
    rewrite Hload, firstn_all2 by (rewrite repeat_length; lia).
    now rewrite PropertyFacts.bytes_eqb_neq.
Qed.

(** An instance: a player constructed with [Health = 100]. *)
Lemma registered_property_changed_witness :
  exists p,
    Actor.m_replicatedProperties (Scenario.PlayerActor 100) !! "Health"%string
    = Some p /\
    ReplicatedProperty.HasChanged p (le_split 4 100) = Some true.
Proof.
  destruct (registered_property_changed
              (Actor.create "PlayerActor" (le_split 4 100))
              "Health" (Some 0%nat) PInt32 4)
    as (p & Hp & _ & _ & _ & _ & Hchanged).
  exists p. split; [exact Hp|].
  apply (Hchanged 0%nat (le_split 4 100)); [reflexivity|reflexivity|].
  vm_compute. congruence.
Defined.

(** C7, as stated, fails: a property whose memory holds zero bytes at
    registration, such as an [int32_t] that is 0, compares equal to the
    zero-filled cache, and [HasChanged] returns false although nothing has
    been replicated yet. *)
Lemma zero_property_counterexample :
  exists p,
    Actor.m_replicatedProperties (Scenario.PlayerActor 0) !! "Health"%string
    = Some p /\
    ReplicatedProperty.dirty p = true /\
    ReplicatedProperty.HasChanged p (Actor.storage (Scenario.PlayerActor 0))
    = Some false.
Proof.
  exists (ReplicatedProperty.create "Health" PInt32 (Some 0%nat) 4).
  repeat split.
Qed.

(** ** Replication, receive side *)

Module ReplicationFacts.

(** The sender writes, per property, the name, the kind byte and the
    value, in that order. *)
Lemma Serialize_order (p : ReplicatedProperty.t) (mem : list byte)
    (stream : BitStream.t) (addr : nat) (v : Prim) :
  ReplicatedProperty.dataPtr p = Some addr ->
  ReplicatedProperty.type p = kind_of v ->
  kind_of v <> PString ->
  ReplicatedProperty.load_value mem addr (kind_of v) = Some v ->
  ReplicatedProperty.Serialize p mem stream
  = Some (write_prim
            (BitStream.WriteUInt8
               (BitStream.WriteString stream (ReplicatedProperty.name p))
               (wrap 8 (PropertyType_to_Z (kind_of v))))
            v).
Proof.
  intros Hptr Hty Hns Hload. unfold ReplicatedProperty.Serialize.
  rewrite Hptr, Hty.
  destruct v; cbn [kind_of] in *; try congruence; now rewrite Hload.
Qed.

(** The rewind of [HandleActorUpdate] leaves the read position on the
    kind byte, one byte before where it was. *)
Lemma skip_bytes_position (n : nat) (s : BitStream.t) :
  (BitStream.m_readPos s + n <= BitStream.m_writePos s)%nat ->
  ReplicationManager.skip_bytes n s = BitStream.advance s n.
Proof.
  revert s. induction n as [|n IH]; intros s H.
  - unfold BitStream.advance. destruct s; simpl. f_equal. lia.
  - change (ReplicationManager.skip_bytes (S n) s)
      with (snd (BitStream.ReadUInt8 (ReplicationManager.skip_bytes n s))).
    rewrite IH by lia.
    unfold BitStream.ReadUInt8, BitStream.read_scalar, BitStream.Read,
      BitStream.CanRead, BitStream.advance.
    cbn [BitStream.m_readPos BitStream.m_writePos BitStream.m_buffer].
    destruct (Z.leb_spec (Z.of_nat (BitStream.m_readPos s + n) + Z.of_nat 1)
                (Z.of_nat (BitStream.m_writePos s))); [|lia].
    cbn [snd]. f_equal. lia.
Qed.

End ReplicationFacts.

(** [ReplicatedProperty::Deserialize] decodes the property when the stream
    stands at the name, where the sender's [Serialize] started: applied to
    the server's packet with the cursor behind the NetId and the count, it
    stores 57 in the client's [Health]. *)
Lemma Deserialize_at_name :
  exists packet p,
    Scenario.health_update = Some packet /\
    Actor.m_replicatedProperties (Scenario.PlayerActor 100) !! "Health"%string
    = Some p /\
    ReplicatedProperty.Deserialize p (le_split 4 100)
      (BitStream.advance (Packet.m_payload packet) 8)
    = Some (ReplicatedProperty.mk "Health" PInt32 (Some 0%nat) 4
              (le_split 4 57) false,
            le_split 4 57,
            BitStream.advance (Packet.m_payload packet) 23).
Proof.
  destruct Scenario.health_update as [packet|] eqn:E;
    vm_compute in E; [|discriminate].
  injection E as <-. eexists. eexists.
  split; [reflexivity|]. split; [reflexivity|].
  vm_compute. reflexivity.
Qed.

(** C1 at its failing input. The server's player holds [Health = 57]; the
    [ActorReplication] packet the server builds carries, after the NetId and
    the count, the name ["Health"], the kind byte 5 and the four value
    bytes. Applied to the client's player (NetId 1, [Health = 100]),
    [HandleActorUpdate] rewinds to the kind byte and lets
    [ReplicatedProperty::Deserialize] read a name and a kind again from
    there: the property ends up renamed to the empty string, retyped as
    [Bool], and the client's [Health] is 0, not 57. *)
Theorem actor_update_misdecoded :
  exists packet w',
    Scenario.health_update = Some packet /\
    BitStream.contents (Packet.m_payload packet)
    = le_split 4 1 ++ le_split 4 1
        ++ le_split 4 6 ++ list_byte_of_string "Health"
        ++ le_split 1 5 ++ le_split 4 57 /\
    World.GetActorByNetId Scenario.client_world 1 = Some 0%nat /\
    ReplicationManager.HandleActorUpdate Scenario.client_world packet
    = Some (w', [World.OnReplicated 0%nat]) /\
    (Actor.storage <$> World.deref w' 0%nat) = Some (le_split 4 0) /\
    le_split 4 0 <> le_split 4 57 /\
    (Actor.m_replicatedProperties <$> World.deref w' 0%nat)
    = Some {[ "Health"%string :=
                ReplicatedProperty.mk "" PBool (Some 0%nat) 4 (le_split 4 0) false ]}.
Proof.
  destruct Scenario.health_update as [packet|] eqn:E;
    [|vm_compute in E; discriminate].
  destruct (ReplicationManager.HandleActorUpdate Scenario.client_world packet)
    as [[w' ev]|] eqn:E';
    vm_compute in E; injection E as <-;
    [|vm_compute in E'; discriminate].
  exists (Packet.mk
            (PacketHeader.mk PACKET_MAGIC 0 PacketType.ActorReplication 0)
            (BitStream.mk
               (le_split 4 1 ++ le_split 4 1 ++ le_split 4 6
                  ++ list_byte_of_string "Health" ++ le_split 1 5 ++ le_split 4 57)
               23 0)), w'.
  split; [reflexivity|]. split; [reflexivity|]. split; [reflexivity|].
  vm_compute in E'. injection E' as <- <-.
  split; [reflexivity|]. split; [reflexivity|].
  split; [vm_compute; congruence|reflexivity].
Qed.

(** ** NetId uniqueness *)

Module WorldFacts.
Import World.

(** The server-side path: [SpawnActor] hands out an id above every id in
    use, so uniqueness is kept for as long as the counter does not
    wrap. *)
Lemma SpawnActor_unique (w : t) (a : Actor.t) :
  unique_ids w ->
  Forall (fun id => id < m_nextNetId w) (live_ids w) ->
  m_nextNetId w + 1 < 2 ^ 32 ->
  0 <= m_nextNetId w ->
  let w' := fst (fst (SpawnActor w (Some a))) in
  unique_ids w' /\
  Forall (fun id => id < m_nextNetId w') (live_ids w') /\
  live_ids w' = live_ids w ++ [m_nextNetId w].
Proof.
  intros Hu Hlt Hwrap Hpos w'. subst w'.
  unfold unique_ids, live_ids, SpawnActor in *.
  cbn [fst m_actors m_nextNetId]. rewrite map_app. cbn [map snd Actor.m_netId
    Actor.SetWorld Actor.SetNetId].
  unfold wrap. rewrite Z.mod_small by lia.
  rewrite List.Forall_forall in Hlt.
  repeat split.
  - apply NoDup_app. repeat split; [exact Hu| |apply NoDup_singleton].
    intros id Hin Hin'. apply list_elem_of_In in Hin, Hin'.
    destruct Hin' as [<-|[]].
    specialize (Hlt _ Hin). lia.
  - apply List.Forall_forall. intros id Hin.
    apply List.in_app_iff in Hin. destruct Hin as [Hin|[<-|[]]].
    + specialize (Hlt _ Hin). lia.
    + lia.
Qed.

End WorldFacts.

(** C5 at its failing inputs. [HandleActorSpawn] stores the id from the
    wire in the actor after [SpawnActor] has given it an id from the
    client's own counter and entered it in the id-map under that id; it
    neither looks for a holder of the wire id nor re-keys the id-map.

    - A client World that receives the same [ActorSpawn] packet (NetId 5)
      twice holds two live actors with NetId 5, and NetId 5 resolves to no
      actor. Once the first of the two is destroyed, the destroy pass
      erases key 5; NetId 5 is still held by a live actor and key 1 still
      maps to the removed one.
    - A client World that receives the spawn packets for NetIds 2 and 3, in
      that order and once each, holds two live actors with NetId 2 while
      the [OnSpawn] hook of the second runs; afterwards NetId 2 resolves to
      the actor that holds NetId 3. *)
Theorem duplicate_spawn_breaks_uniqueness :
  World.unique_ids Scenario.client_world0 /\
  (World.live_ids Scenario.client_twice = [5; 5] /\
   ~ World.unique_ids Scenario.client_twice /\
   World.GetActorByNetId Scenario.client_twice 5 = None /\
   World.GetActorByNetId Scenario.client_twice 1 = Some 0%nat /\
   World.GetActorByNetId Scenario.client_twice 2 = Some 1%nat /\
   exists w',
     World.Tick Scenario.idle (FLit "0.016f")
       (World.DestroyActor Scenario.client_twice (Some 0%nat))
     = Some (w', [World.OnTick 0%nat; World.OnTick 1%nat; World.OnDestroy 0%nat]) /\
     World.live_ids w' = [5] /\
     World.GetActorByNetId w' 1 = Some 0%nat /\
     World.deref w' 0%nat = None) /\
  (World.live_ids Scenario.client_after_2 = [2] /\
   World.live_ids Scenario.client_during_3 = [2; 2] /\
   ~ World.unique_ids Scenario.client_during_3 /\
   World.live_ids Scenario.client_after_3 = [2; 3] /\
   World.GetActorByNetId Scenario.client_after_3 2 = Some 1%nat /\
   (Actor.m_netId <$> World.deref Scenario.client_after_3 1%nat) = Some 3).
Proof.
  assert (Hdup : forall x : Z, ~ NoDup [x; x]).
  { intros x H. apply NoDup_cons in H. destruct H as [H _].
    apply H. now left. }
  split; [constructor|]. split.
  - assert (Hids : World.live_ids Scenario.client_twice = [5; 5])
      by (vm_compute; reflexivity).
    split; [exact Hids|].
    split; [unfold World.unique_ids; rewrite Hids; apply Hdup|].
    split; [reflexivity|]. split; [reflexivity|]. split; [reflexivity|].
    destruct (World.Tick Scenario.idle (FLit "0.016f")
                (World.DestroyActor Scenario.client_twice (Some 0%nat)))
      as [[w' ev]|] eqn:E; vm_compute in E; [|discriminate].
    injection E as <- <-. eexists. split; [reflexivity|].
    repeat split.
  - assert (E : World.live_ids Scenario.client_during_3 = [2; 2])
      by (vm_compute; reflexivity).
    split; [reflexivity|]. split; [exact E|].
    split; [unfold World.unique_ids; rewrite E; apply Hdup|].
    repeat split.
Qed.

(** ** Deferred destruction *)

Module TickFacts.
Import World.

Lemma existsb_eqb_In (a : nat) (l : list nat) :
  existsb (Nat.eqb a) l = true <-> In a l.
Proof.
  rewrite existsb_exists. split.
  - intros (x & Hx & E). apply Nat.eqb_eq in E. now subst.
  - intros H. exists a. split; [exact H|apply Nat.eqb_refl].
Qed.

(** [DestroyActor] changes the pending list only. *)
Lemma DestroyActor_frame (w : t) (a : option actor_ptr) :
  m_actors (DestroyActor w a) = m_actors w /\
  m_actorList (DestroyActor w a) = m_actorList w /\
  m_actorsByNetId (DestroyActor w a) = m_actorsByNetId w.
Proof.
  destruct a as [a|]; cbn [DestroyActor]; [|easy].
  now destruct (existsb (Nat.eqb a) (m_pendingDestroy w)).
Qed.

Lemma DestroyActor_pending (w : t) (a : actor_ptr) :
  m_pendingDestroy (DestroyActor w (Some a))
  = if existsb (Nat.eqb a) (m_pendingDestroy w)
    then m_pendingDestroy w else m_pendingDestroy w ++ [a].
Proof.
  cbn [DestroyActor]. now destruct (existsb (Nat.eqb a) (m_pendingDestroy w)).
Qed.

Lemma DestroyActor_In (w : t) (a : actor_ptr) :
  In a (m_pendingDestroy (DestroyActor w (Some a))).
Proof.
  rewrite DestroyActor_pending.
  destruct (existsb (Nat.eqb a) (m_pendingDestroy w)) eqn:E.
  - now apply existsb_eqb_In.
  - apply in_or_app. right. now left.
Qed.

Lemma DestroyActor_mono (w : t) (a : option actor_ptr) (b : actor_ptr) :
  In b (m_pendingDestroy w) -> In b (m_pendingDestroy (DestroyActor w a)).
Proof.
  destruct a as [a|]; [|easy]. rewrite DestroyActor_pending.
  destruct (existsb (Nat.eqb a) (m_pendingDestroy w)); [easy|].
  intros H. apply in_or_app. now left.
Qed.

Lemma DestroyActor_inv (w : t) (a : option actor_ptr) (b : actor_ptr) :
  In b (m_pendingDestroy (DestroyActor w a)) ->
  In b (m_pendingDestroy w) \/ a = Some b.
Proof.
  destruct a as [a|]; [|now left]. rewrite DestroyActor_pending.
  destruct (existsb (Nat.eqb a) (m_pendingDestroy w)); [now left|].
  intros H. apply in_app_or in H. destruct H as [H|[->|[]]]; auto.
Qed.

Lemma DestroyActor_idempotent (w : t) (a : option actor_ptr) :
  DestroyActor (DestroyActor w a) a = DestroyActor w a.
Proof.
  destruct a as [a|]; [|reflexivity].
  pose proof (DestroyActor_In w a) as H.
  apply existsb_eqb_In in H.
  unfold DestroyActor at 1. now rewrite H.
Qed.

Lemma DestroyActor_NoDup (w : t) (a : option actor_ptr) :
  NoDup (m_pendingDestroy w) -> NoDup (m_pendingDestroy (DestroyActor w a)).
Proof.
  destruct a as [a|]; [|easy]. rewrite DestroyActor_pending.
  destruct (existsb (Nat.eqb a) (m_pendingDestroy w)) eqn:E; [easy|].
  intros H. apply NoDup_app. repeat split; [exact H| |apply NoDup_singleton].
  intros x Hx Hx'. apply list_elem_of_In in Hx, Hx'.
  destruct Hx' as [<-|[]].
  apply existsb_eqb_In in Hx. congruence.
Qed.

Lemma perform_requested (w : t) (c : Call) :
  perform w c = DestroyActor w (requested w c).
Proof.
  destruct c as [a|id]; [reflexivity|].
  cbn [perform requested]. unfold DestroyActorById.
  now destruct (GetActorByNetId w id).
Qed.

Lemma deref_Some_live (w : t) (a : actor_ptr) (x : Actor.t) :
  deref w a = Some x -> is_live w a.
Proof.
  unfold deref, is_live. intros H.
  destruct (List.find _ (m_actors w)) as [[q y]|] eqn:E; [|discriminate].
  apply List.find_some in E. destruct E as [Hin Heq].
  apply Nat.eqb_eq in Heq. cbn [fst] in Heq. subst q.
  apply List.in_map_iff. now exists (a, y).
Qed.

Lemma live_deref (w : t) (a : actor_ptr) :
  is_live w a -> exists x, deref w a = Some x.
Proof.
  unfold deref, is_live. intros H.
  apply List.in_map_iff in H. destruct H as ([q y] & <- & Hin).
  cbn [fst].
  destruct (List.find (fun e => Nat.eqb (fst e) q) (m_actors w)) as [e|] eqn:E.
  - exists (snd e). reflexivity.
  - exfalso. apply (List.find_none _ _ E) in Hin.
    cbn [fst] in Hin. now rewrite Nat.eqb_refl in Hin.
Qed.

Lemma same_actors_refl (w : t) : same_actors w w.
Proof. now repeat split. Qed.

Lemma same_actors_trans (w1 w2 w3 : t) :
  same_actors w1 w2 -> same_actors w2 w3 -> same_actors w1 w3.
Proof.
  intros (A & B & C) (A' & B' & C'). repeat split; congruence.
Qed.

Lemma same_actors_live (w w' : t) (a : actor_ptr) :
  same_actors w w' -> (is_live w' a <-> is_live w a).
Proof. intros (A & _). unfold is_live. now rewrite A. Qed.

Lemma same_actors_consistent (w w' : t) :
  same_actors w w' -> idmap_consistent w -> idmap_consistent w'.
Proof.
  intros (A & _ & C) H id a Hl. unfold deref. rewrite A.
  rewrite C in Hl. exact (H id a Hl).
Qed.

Lemma same_actors_requested (w w' : t) (c : Call) :
  same_actors w w' -> requested w' c = requested w c.
Proof.
  intros (_ & _ & C). destruct c as [q|id]; [reflexivity|].
  cbn [requested]. unfold GetActorByNetId. now rewrite C.
Qed.

Lemma requested_live (hook : TickHook) (w0 w : t) (dt : float32)
    (a : actor_ptr) (c : Call) (p : actor_ptr) :
  destroys_live_only hook w0 -> idmap_consistent w0 ->
  same_actors w0 w ->
  In c (hook dt a w) -> requested w0 c = Some p -> is_live w0 p.
Proof.
  intros Hhook Hcons Hsame Hin Hreq. destruct c as [q|id]; cbn in Hreq.
  - subst q. apply (Hhook dt a w p); [|exact Hin].
    destruct Hsame as (A & _). now rewrite A.
  - destruct (Hcons _ _ Hreq) as (x & Hx & _).
    now apply deref_Some_live in Hx.
Qed.

(** The calls of one hook, performed in order. *)
Lemma fold_perform (hook : TickHook) (w0 w : t) (dt : float32) (a : actor_ptr) :
  destroys_live_only hook w0 -> idmap_consistent w0 -> same_actors w0 w ->
  forall (cs : list Call) (wi : t),
    (forall c, In c cs -> In c (hook dt a w)) ->
    tick_invariant w0 wi ->
    tick_invariant w0 (fold_left perform cs wi) /\
    (forall b, In b (m_pendingDestroy wi) ->
               In b (m_pendingDestroy (fold_left perform cs wi))) /\
    (forall c p, In c cs -> requested w0 c = Some p ->
                 In p (m_pendingDestroy (fold_left perform cs wi))).
Proof.
  intros Hhook Hcons Hsame.
  induction cs as [|c cs IH]; intros wi Hsub (Hs & Hnd & Hlive).
  - cbn [fold_left].
    split; [exact (conj Hs (conj Hnd Hlive))|].
    split; [easy|intros c p []].
  - cbn [fold_left].
    assert (Hreq : requested wi c = requested w0 c)
      by now apply same_actors_requested.
    assert (Hinv : tick_invariant w0 (perform wi c)).
    { rewrite perform_requested, Hreq.
      destruct (DestroyActor_frame wi (requested w0 c)) as (A & B & C).
      destruct Hs as (A' & B' & C').
      split; [repeat split; congruence|].
      split; [now apply DestroyActor_NoDup|].
      apply List.Forall_forall. intros b Hb.
      apply DestroyActor_inv in Hb. destruct Hb as [Hb|Hb].
      - rewrite List.Forall_forall in Hlive. now apply Hlive.
      - apply (requested_live hook w0 w dt a c); auto.
        apply Hsub. now left. }
    destruct (IH (perform wi c) (fun c' H => Hsub c' (or_intror H)) Hinv)
      as (I1 & I2 & I3).
    split; [exact I1|]. split.
    + intros b Hb. apply I2. rewrite perform_requested.
      now apply DestroyActor_mono.
    + intros c' p [<-|Hin] Hp.
      * apply I2. rewrite perform_requested, Hreq, Hp.
        apply DestroyActor_In.
      * now apply (I3 c').
Qed.

Lemma tick_actors_app (hook : TickHook) (dt : float32)
    (l1 l2 : list actor_ptr) (w : t) :
  tick_actors hook dt (l1 ++ l2) w
  = (fst (tick_actors hook dt l2 (fst (tick_actors hook dt l1 w))),
     snd (tick_actors hook dt l1 w)
       ++ snd (tick_actors hook dt l2 (fst (tick_actors hook dt l1 w)))).
Proof.
  revert w. induction l1 as [|a l1 IH]; intros w.
  - cbn [app tick_actors fst snd]. now destruct (tick_actors hook dt l2 w).
  - cbn [app tick_actors]. rewrite IH.
    destruct (tick_actors hook dt l1 _) as [w1 e1]. cbn [fst snd].
    now destruct (tick_actors hook dt l2 w1).
Qed.

(** The first loop of [Tick]: every hook runs, in list order; the owned
    actors, the iteration list and the id-map are untouched; the pending
    list only grows, without duplicates, by the actors whose destruction
    was asked for. *)
Lemma tick_actors_spec (hook : TickHook) (dt : float32) (w0 : t) :
  destroys_live_only hook w0 -> idmap_consistent w0 ->
  forall (actors : list actor_ptr) (w : t),
    tick_invariant w0 w ->
    snd (tick_actors hook dt actors w) = map OnTick actors /\
    tick_invariant w0 (fst (tick_actors hook dt actors w)) /\
    (forall b, In b (m_pendingDestroy w) ->
       In b (m_pendingDestroy (fst (tick_actors hook dt actors w)))) /\
    (forall pre a post c p,
       actors = pre ++ a :: post ->
       In c (hook dt a (fst (tick_actors hook dt pre w))) ->
       requested w0 c = Some p ->
       In p (m_pendingDestroy (fst (tick_actors hook dt actors w)))).
Proof.
  intros Hhook Hcons.
  induction actors as [|a actors IH]; intros w Hinv.
  - cbn [tick_actors fst snd map].
    split; [reflexivity|]. split; [exact Hinv|]. split; [easy|].
    intros [|] ? ? ? ? H; discriminate H.
  - cbn [tick_actors].
    destruct (fold_perform hook w0 w dt a Hhook Hcons (proj1 Hinv)
                (hook dt a w) w (fun c H => H) Hinv) as (F1 & F2 & F3).
    destruct (IH _ F1) as (I1 & I2 & I3 & I4).
    destruct (tick_actors hook dt actors (fold_left perform (hook dt a w) w))
      as [w2 ev] eqn:E.
    cbn [fst snd map] in *.
    split; [now rewrite I1|]. split; [exact I2|]. split.
    + intros b Hb. now apply I3, F2.
    + intros [|a' pre] x post c p Heq Hin Hp.
      * cbn [app] in Heq. injection Heq as <- <-.
        cbn [tick_actors fst] in Hin. apply I3. now apply (F3 c).
      * cbn [app] in Heq. injection Heq as <- ->.
        cbn [tick_actors] in Hin.
        destruct (tick_actors hook dt pre (fold_left perform (hook dt a w) w))
          as [w3 ev3] eqn:E3.
        cbn [fst] in Hin.
        apply (I4 pre x post c p eq_refl); [|exact Hp].
        now rewrite E3.
Qed.

Lemma find_filter_other (l : list (actor_ptr * Actor.t)) (a b : actor_ptr) :
  b <> a ->
  List.find (fun e => Nat.eqb (fst e) b)
    (List.filter (fun e => negb (Nat.eqb (fst e) a)) l)
  = List.find (fun e => Nat.eqb (fst e) b) l.
Proof.
  intros Hne. induction l as [|[q x] l IH]; [reflexivity|].
  cbn [List.filter List.find fst].
  destruct (Nat.eqb_spec q a) as [->|Hqa]; cbn [negb].
  - destruct (Nat.eqb_spec a b); [congruence|exact IH].
  - cbn [List.find fst]. now rewrite IH.
Qed.

(** One round of the second loop. *)
Lemma destroy_one_spec (w : t) (a : actor_ptr) :
  is_live w a -> idmap_consistent w ->
  exists w',
    destroy_one w a = Some w' /\
    (forall b, is_live w' b <-> is_live w b /\ b <> a) /\
    (forall b, In b (m_actorList w') <-> In b (m_actorList w) /\ b <> a) /\
    (forall b, b <> a -> deref w' b = deref w b) /\
    idmap_consistent w' /\
    (forall id b, m_actorsByNetId w' !! id = Some b ->
                  m_actorsByNetId w !! id = Some b).
Proof.
  intros Hlive Hcons. destruct (live_deref w a Hlive) as [x Hx].
  unfold destroy_one. rewrite Hx. eexists. split; [reflexivity|].
  assert (Hderef : forall b, b <> a ->
            deref (mk (List.filter (fun e => negb (Nat.eqb (fst e) a)) (m_actors w))
                     (List.filter (fun p => negb (Nat.eqb p a)) (m_actorList w))
                     (delete (Actor.m_netId x) (m_actorsByNetId w))
                     (m_actorFactories w) (m_nextNetId w)
                     (m_pendingDestroy w) (next_actor w)) b
            = deref w b).
  { intros b Hb. unfold deref; cbn [m_actors].
    now rewrite find_filter_other. }
  split; [|split; [|split; [exact Hderef|split]]].
  - intros b. unfold is_live; cbn [m_actors].
    rewrite !List.in_map_iff. split.
    + intros ([q y] & <- & Hin). apply List.filter_In in Hin.
      destruct Hin as [Hin Hq]. cbn [fst] in *.
      split; [now exists (q, y)|].
      destruct (Nat.eqb_spec q a); [discriminate|assumption].
    + intros [([q y] & <- & Hin) Hne]. cbn [fst] in *.
      exists (q, y). split; [reflexivity|].
      apply List.filter_In. split; [exact Hin|]. cbn [fst].
      now destruct (Nat.eqb_spec q a).
  - intros b. cbn [m_actorList]. rewrite List.filter_In.
    destruct (Nat.eqb_spec b a); cbn [negb]; intuition congruence.
  - intros id b Hl. cbn [m_actorsByNetId] in Hl.
    apply lookup_delete_Some in Hl. destruct Hl as [Hid Hl].
    destruct (Hcons _ _ Hl) as (y & Hy & Hny).
    assert (b <> a) by (intros ->; congruence).
    exists y. split; [now rewrite Hderef|exact Hny].
  - intros id b Hl. cbn [m_actorsByNetId] in Hl.
    apply lookup_delete_Some in Hl. now destruct Hl.
Qed.

(** The second loop of [Tick] over a pending list without duplicates
    that holds live actors only. *)
Lemma destroy_pending_spec (l : list actor_ptr) :
  forall w : t,
    NoDup l -> Forall (is_live w) l -> idmap_consistent w ->
    exists w2,
      destroy_pending l w = Some (w2, map OnDestroy l) /\
      (forall b, is_live w2 b <-> is_live w b /\ ~ In b l) /\
      (forall b, In b (m_actorList w2) <-> In b (m_actorList w) /\ ~ In b l) /\
      (forall b, ~ In b l -> deref w2 b = deref w b) /\
      idmap_consistent w2 /\
      (forall id b, m_actorsByNetId w2 !! id = Some b ->
                    m_actorsByNetId w !! id = Some b).
Proof.
  induction l as [|a l IH]; intros w Hnd Hlive Hcons.
  - exists w. cbn [destroy_pending map]. split; [reflexivity|].
    repeat split; try tauto; try exact Hcons.
  - apply NoDup_cons in Hnd. destruct Hnd as [Hnotin Hnd].
    apply List.Forall_cons_iff in Hlive. destruct Hlive as [Ha Hl].
    destruct (destroy_one_spec w a Ha Hcons)
      as (w1 & E1 & L1 & A1 & D1 & C1 & M1).
    assert (Hl1 : Forall (is_live w1) l).
    { apply List.Forall_forall. intros b Hb. apply L1.
      rewrite List.Forall_forall in Hl. split; [now apply Hl|].
      intros ->. apply Hnotin. now apply list_elem_of_In. }
    destruct (IH w1 Hnd Hl1 C1) as (w2 & E2 & L2 & A2 & D2 & C2 & M2).
    exists w2. cbn [destroy_pending map]. rewrite E1, E2.
    split; [reflexivity|].
    split; [|split; [|split; [|split; [exact C2|]]]].
    + intros b. rewrite L2, L1. cbn [In]. intuition congruence.
    + intros b. rewrite A2, A1. cbn [In]. intuition congruence.
    + intros b Hb. cbn [In] in Hb.
      rewrite D2 by tauto. apply D1. intros ->. tauto.
    + intros id b Hb. now apply M1, M2.
Qed.

Lemma not_live_deref (w : t) (a : actor_ptr) :
  ~ is_live w a -> deref w a = None.
Proof.
  intros H. destruct (deref w a) as [x|] eqn:E; [|reflexivity].
  apply deref_Some_live in E. contradiction.
Qed.

End TickFacts.

Module WorldInvariant.
Import World TickFacts.

Lemma valid_create : valid create.
Proof.
  split; [constructor|]. split.
  - intros id a H. unfold create in H; cbn in H.
    now rewrite lookup_empty in H.
  - split; constructor.
Qed.

Lemma find_app_fresh (l : list (actor_ptr * Actor.t)) (p : actor_ptr)
    (x : Actor.t) (b : actor_ptr) :
  Forall (fun e => (fst e < p)%nat) l ->
  List.find (fun e => Nat.eqb (fst e) b) (l ++ [(p, x)])
  = if Nat.eqb p b then Some (p, x)
    else List.find (fun e => Nat.eqb (fst e) b) l.
Proof.
  induction 1 as [|[q y] l Hq _ IH]; cbn [app List.find fst] in *.
  - now destruct (Nat.eqb p b).
  - destruct (Nat.eqb_spec q b) as [->|Hne].
    + destruct (Nat.eqb_spec p b); [lia|reflexivity].
    + exact IH.
Qed.

(** [SpawnActor] keeps the invariant. *)
Lemma valid_SpawnActor (w : t) (a : Actor.t) :
  valid w -> valid (fst (fst (SpawnActor w (Some a)))).
Proof.
  intros (Hf & Hc & Hnd & Hlive). unfold SpawnActor. cbn [fst].
  assert (Hderef : forall b,
    deref (mk (m_actors w ++ [(next_actor w,
                 Actor.SetWorld (Actor.SetNetId a (m_nextNetId w)) true)])
             (m_actorList w ++ [next_actor w])
             (<[Actor.m_netId (Actor.SetWorld (Actor.SetNetId a (m_nextNetId w)) true)
                := next_actor w]> (m_actorsByNetId w))
             (m_actorFactories w) (wrap 32 (m_nextNetId w + 1))
             (m_pendingDestroy w) (S (next_actor w))) b
    = if Nat.eqb (next_actor w) b
      then Some (Actor.SetWorld (Actor.SetNetId a (m_nextNetId w)) true)
      else deref w b).
  { intros b. unfold deref; cbn [m_actors].
    rewrite (find_app_fresh _ _ _ _ Hf).
    now destruct (Nat.eqb (next_actor w) b). }
  split; [|split; [|split]].
  - unfold fresh in *; cbn [m_actors next_actor].
    rewrite List.Forall_forall in *. intros e He.
    apply List.in_app_iff in He. destruct He as [He|[<-|[]]].
    + specialize (Hf _ He). lia.
    + cbn [fst]. lia.
  - intros id b Hl. cbn [m_actorsByNetId] in Hl. rewrite Hderef.
    apply lookup_insert_Some in Hl. destruct Hl as [[<- <-]|[Hne Hl]].
    + rewrite Nat.eqb_refl. now eexists.
    + destruct (Hc _ _ Hl) as (y & Hy & Hid).
      destruct (Nat.eqb_spec (next_actor w) b) as [<-|_]; [|now exists y].
      apply deref_Some_live in Hy. unfold is_live in Hy.
      apply List.in_map_iff in Hy. destruct Hy as (e & He & Hin).
      unfold fresh in Hf. rewrite List.Forall_forall in Hf.
      specialize (Hf _ Hin). lia.
  - exact Hnd.
  - cbn [m_pendingDestroy]. eapply List.Forall_impl; [|exact Hlive].
    intros b Hb. unfold is_live in *; cbn [m_actors].
    rewrite map_app. apply List.in_app_iff. now left.
Qed.

(** [DestroyActor] of a live actor, and [DestroyActorById], keep the
    invariant. *)
Lemma valid_perform (w : t) (c : Call) :
  valid w ->
  (forall p, requested w c = Some p -> is_live w p) ->
  valid (perform w c).
Proof.
  intros (Hf & Hc & Hnd & Hlive) Hreq. rewrite perform_requested.
  destruct (DestroyActor_frame w (requested w c)) as (A & B & C).
  assert (Hnext : next_actor (DestroyActor w (requested w c)) = next_actor w).
  { destruct (requested w c) as [p|]; [|reflexivity]. cbn [DestroyActor].
    now destruct (existsb _ _). }
  split; [|split; [|split]].
  - unfold fresh. now rewrite A, Hnext.
  - apply (same_actors_consistent w); [now repeat split|exact Hc].
  - now apply DestroyActor_NoDup.
  - apply List.Forall_forall. intros b Hb. unfold is_live. rewrite A.
    apply DestroyActor_inv in Hb. destruct Hb as [Hb|Hb].
    + rewrite List.Forall_forall in Hlive. now apply Hlive.
    + now apply Hreq.
Qed.

Lemma destroy_pending_next (l : list actor_ptr) :
  forall (w w2 : t) (ev : list Event),
    destroy_pending l w = Some (w2, ev) ->
    next_actor w2 = next_actor w /\ m_pendingDestroy w2 = m_pendingDestroy w.
Proof.
  induction l as [|a l IH]; intros w w2 ev H; cbn [destroy_pending] in H.
  - now injection H as <- <-.
  - unfold destroy_one in H. destruct (deref w a) as [x|]; [|discriminate].
    destruct (destroy_pending l _) as [[w3 ev3]|] eqn:E; [|discriminate].
    injection H as <- <-. now apply IH in E.
Qed.

Lemma perform_next (w : t) (c : Call) : next_actor (perform w c) = next_actor w.
Proof.
  rewrite perform_requested.
  destruct (requested w c) as [p|]; [|reflexivity]. cbn [DestroyActor].
  now destruct (existsb _ _).
Qed.

Lemma fold_perform_next (cs : list Call) :
  forall w : t, next_actor (fold_left perform cs w) = next_actor w.
Proof.
  induction cs as [|c cs IH]; intros w; [reflexivity|].
  cbn [fold_left]. now rewrite IH, perform_next.
Qed.

Lemma tick_actors_next (hook : TickHook) (dt : float32) (l : list actor_ptr) :
  forall w : t, next_actor (fst (tick_actors hook dt l w)) = next_actor w.
Proof.
  induction l as [|a l IH]; intros w; [reflexivity|].
  cbn [tick_actors]. specialize (IH (fold_left perform (hook dt a w) w)).
  destruct (tick_actors hook dt l _) as [w2 ev]. cbn [fst] in *.
  now rewrite IH, fold_perform_next.
Qed.

(** [Tick] keeps the invariant. *)
Lemma valid_Tick (hook : TickHook) (dt : float32) (w w2 : t) (ev : list Event) :
  valid w -> destroys_live_only hook w ->
  Tick hook dt w = Some (w2, ev) -> valid w2.
Proof.
  intros (Hf & Hc & Hnd & Hlive) Hhook HT. unfold Tick in HT.
  assert (Hinv : tick_invariant w w)
    by (split; [apply same_actors_refl|now split]).
  destruct (tick_actors_spec hook dt w Hhook Hc (m_actorList w) w Hinv)
    as (_ & (Hsame & Hnd1 & Hlive1) & _).
  destruct (tick_actors hook dt (m_actorList w) w) as [w1 ev1] eqn:E1.
  cbn [fst] in *.
  assert (Hnext1 : next_actor w1 = next_actor w).
  { pose proof (tick_actors_next hook dt (m_actorList w) w) as Hn.
    now rewrite E1 in Hn. }
  assert (Hlive1' : Forall (is_live w1) (m_pendingDestroy w1)).
  { eapply List.Forall_impl; [|exact Hlive1].
    intros b. now apply same_actors_live. }
  destruct (destroy_pending_spec (m_pendingDestroy w1) w1 Hnd1 Hlive1'
              (same_actors_consistent _ _ Hsame Hc))
    as (w3 & E3 & L3 & _ & D3 & C3 & _).
  rewrite E3 in HT. injection HT as <- <-.
  destruct (destroy_pending_next _ _ _ _ E3) as [Hnext3 _].
  split; [|split; [|split]].
  - unfold fresh. cbn [clear_pending m_actors next_actor].
    apply List.Forall_forall. intros [q x] Hin. cbn [fst].
    assert (Hq : is_live w3 q).
    { unfold is_live. apply List.in_map_iff. now exists (q, x). }
    apply L3 in Hq. destruct Hq as [Hq _].
    apply (same_actors_live _ _ q Hsame) in Hq.
    unfold is_live in Hq. apply List.in_map_iff in Hq.
    destruct Hq as (e & <- & He). unfold fresh in Hf.
    rewrite List.Forall_forall in Hf. specialize (Hf _ He). lia.
  - intros id b Hid. exact (C3 id b Hid).
  - constructor.
  - constructor.
Qed.

End WorldInvariant.

(** Deferred destruction in a World that satisfies its invariant, with
    per-frame hooks that ask for the destruction of live actors only:
    a call of destroy, directly or by id, changes nothing but the pending
    list, to which it adds the actor unless it is already there, and doing
    it again changes nothing; [Tick] runs the hooks of all actors of the
    iteration list in order, during which the owned set, the iteration
    list and the id-map stay as they were and every actor whose
    destruction is asked for ends up exactly once in the pending list;
    only then the destroy hooks of the pending actors run, and afterwards
    each of them is gone from the id-map, the iteration list and the owned
    set, while every other actor is still there. *)
Lemma deferred_destruction
    (hook : World.TickHook) (deltaTime : float32) (w : World.t) :
  World.valid w ->
  World.destroys_live_only hook w ->
  (forall c : World.Call,
     World.same_actors w (World.perform w c) /\
     World.perform (World.perform w c) c = World.perform w c /\
     NoDup (World.m_pendingDestroy (World.perform w c)) /\
     (forall a, World.requested w c = Some a ->
                In a (World.m_pendingDestroy (World.perform w c)))) /\
  exists w1 w2,
    World.tick_actors hook deltaTime (World.m_actorList w) w
    = (w1, map World.OnTick (World.m_actorList w)) /\
    World.same_actors w w1 /\
    NoDup (World.m_pendingDestroy w1) /\
    (forall b, In b (World.m_pendingDestroy w) ->
               In b (World.m_pendingDestroy w1)) /\
    (forall pre a post c p,
       World.m_actorList w = pre ++ a :: post ->
       In c (hook deltaTime a (fst (World.tick_actors hook deltaTime pre w))) ->
       World.requested w c = Some p ->
       In p (World.m_pendingDestroy w1)) /\
    World.Tick hook deltaTime w
    = Some (w2, map World.OnTick (World.m_actorList w)
                  ++ map World.OnDestroy (World.m_pendingDestroy w1)) /\
    World.m_pendingDestroy w2 = [] /\
    (forall a, In a (World.m_pendingDestroy w1) ->
       ~ In a (World.m_actorList w2) /\
       World.deref w2 a = None /\
       forall id, World.m_actorsByNetId w2 !! id <> Some a) /\
    (forall b, ~ In b (World.m_pendingDestroy w1) ->
       World.deref w2 b = World.deref w b /\
       (In b (World.m_actorList w2) <-> In b (World.m_actorList w))).
Proof.
  intros (Hf & Hc & Hnd & Hlive) Hhook. split.
  - intros c. rewrite !TickFacts.perform_requested.
    destruct (TickFacts.DestroyActor_frame w (World.requested w c))
      as (A & B & C).
    assert (Hsame : World.same_actors w
                      (World.DestroyActor w (World.requested w c)))
      by now repeat split.
    split; [exact Hsame|].
    rewrite (TickFacts.same_actors_requested _ _ c Hsame).
    split; [apply TickFacts.DestroyActor_idempotent|].
    split; [now apply TickFacts.DestroyActor_NoDup|].
    intros a ->. apply TickFacts.DestroyActor_In.
  - assert (Hinv : World.tick_invariant w w)
      by (split; [apply TickFacts.same_actors_refl|now split]).
    destruct (TickFacts.tick_actors_spec hook deltaTime w Hhook Hc
                (World.m_actorList w) w Hinv) as (T1 & T2 & T3 & T4).
    destruct (World.tick_actors hook deltaTime (World.m_actorList w) w)
      as [w1 ev1] eqn:E1.
    cbn [fst snd] in *. subst ev1.
    destruct T2 as (Hsame & Hnd1 & Hlive1).
    assert (Hlive1' : Forall (World.is_live w1) (World.m_pendingDestroy w1)).
    { eapply List.Forall_impl; [|exact Hlive1].
      intros b. now apply TickFacts.same_actors_live. }
    destruct (TickFacts.destroy_pending_spec (World.m_pendingDestroy w1) w1
                Hnd1 Hlive1' (TickFacts.same_actors_consistent _ _ Hsame Hc))
      as (w2 & E2 & L2 & A2 & D2 & C2 & M2).
    exists w1, (World.clear_pending w2).
    split; [reflexivity|]. split; [exact Hsame|]. split; [exact Hnd1|].
    split; [exact T3|]. split; [exact T4|].
    split; [unfold World.Tick; now rewrite E1, E2|].
    split; [reflexivity|].
    destruct Hsame as (SA & SL & SM).
    split.
    + intros a Ha.
      assert (Hdead : ~ World.is_live w2 a) by (rewrite L2; tauto).
      split; [cbn [World.clear_pending World.m_actorList]; rewrite A2; tauto|].
      split; [now apply TickFacts.not_live_deref in Hdead|].
      intros id Hid. cbn [World.clear_pending World.m_actorsByNetId] in Hid.
      destruct (C2 _ _ Hid) as (x & Hx & _).
      apply TickFacts.deref_Some_live in Hx. contradiction.
    + intros b Hb.
      split.
      * transitivity (World.deref w2 b); [reflexivity|].
        rewrite (D2 b Hb). unfold World.deref. now rewrite SA.
      * cbn [World.clear_pending World.m_actorList].
        rewrite A2, SL. tauto.
Qed.

(** An instance: a World with two players whose hooks each destroy the
    first player, directly and by its NetId. Both hooks run, then the first
    player's destroy hook runs once and the player is gone. *)
Lemma deferred_destruction_witness :
  exists w2,
    World.Tick Scenario.destroy_first (FLit "0.016f") Scenario.two_players
    = Some (w2, [World.OnTick 0%nat; World.OnTick 1%nat; World.OnDestroy 0%nat]) /\
    World.deref w2 0%nat = None /\
    World.m_actorList w2 = [1%nat].
Proof.
  assert (Hvalid : World.valid Scenario.two_players).
  { unfold Scenario.two_players.
    apply WorldInvariant.valid_SpawnActor, WorldInvariant.valid_SpawnActor,
      WorldInvariant.valid_create. }
  assert (Hhook : World.destroys_live_only Scenario.destroy_first
                    Scenario.two_players).
  { intros dt a w' p _ [H|[H|[]]]; [|discriminate].
    injection H as <-. now left. }
  destruct (deferred_destruction Scenario.destroy_first (FLit "0.016f")
              Scenario.two_players Hvalid Hhook)
    as (_ & w1 & w2 & E1 & _ & _ & _ & _ & ET & _ & Hgone & _).
  assert (Hp : World.m_pendingDestroy w1 = [0%nat]).
  { vm_compute in E1. now injection E1 as <-. }
  rewrite Hp in *.
  exists w2. split; [exact ET|].
  split; [apply (Hgone 0%nat); now left|].
  vm_compute in ET. now injection ET as <-.
Defined.

(** C9. Deferred destruction: after the tick hooks the destroyed actor is
    to be removed from the id-map, the iteration list and the owned set.
    The destroy pass of [Tick] erases the id-map entry under the NetId
    the actor holds at that moment, which is the key it was entered
    under only as long as nobody has called [SetNetId] on it; on a
    client [HandleActorSpawn] does (the defect behind C5).

    A client World receives the [ActorSpawn] packet for NetId 2: the new
    actor, at address 0, holds NetId 2 and is entered in the id-map
    under key 1. Destroying it by its id does nothing, since NetId 2
    resolves to no actor. Destroying it directly puts it on the pending
    list; the next [Tick] runs its tick hook and then its destroy hook
    and removes it from the owned set and the iteration list, and the
    id-map still maps key 1 to its address. *)
Theorem destroyed_actor_stays_in_id_map :
  let w := Scenario.client_after_2 in
  World.m_actorList w = [0%nat] /\
  (Actor.m_netId <$> World.deref w 0%nat) = Some 2 /\
  World.m_actorsByNetId w !! 1 = Some 0%nat /\
  World.m_actorsByNetId w !! 2 = None /\
  World.DestroyActorById w 2 = w /\
  exists w',
    World.Tick Scenario.idle (FLit "0.016f")
      (World.DestroyActor w (Some 0%nat))
    = Some (w', [World.OnTick 0%nat; World.OnDestroy 0%nat]) /\
    World.m_actors w' = [] /\
    World.m_actorList w' = [] /\
    World.m_actorsByNetId w' !! 1 = Some 0%nat.
Proof.
  cbv zeta.
  split; [reflexivity|]. split; [reflexivity|]. split; [reflexivity|].
  split; [reflexivity|]. split; [reflexivity|].
  destruct (World.Tick Scenario.idle (FLit "0.016f")
              (World.DestroyActor Scenario.client_after_2 (Some 0%nat)))
    as [[w' ev]|] eqn:E; vm_compute in E; [|discriminate].
  injection E as <- <-. eexists. split; [reflexivity|].
  repeat split.
Qed.


(** * Further properties of the wire codec *)

Module CodecFacts.
Import BitStream BitStreamFacts PrimFacts.

Lemma read_scalar_short (s : t) (n : nat) :
  (GetBytesRemaining s < n)%nat -> read_scalar s n = (0, s).
Proof.
  intros H. unfold read_scalar, Read, CanRead, GetBytesRemaining in *.
  destruct (Z.leb_spec (Z.of_nat (m_readPos s) + Z.of_nat n)
              (Z.of_nat (m_writePos s))); [lia|reflexivity].
Qed.

Lemma wf_Write (s : t) (d : list byte) : wf s -> wf (Write s d).
Proof.
  intros [Hrw Hwl].
  destruct (Write_positions s d) as [Hw Hr].
  destruct (Write_contents s d) as [_ Hlen].
  split; [lia|exact Hlen].
Qed.

Lemma contents_Write (s : t) (d : list byte) :
  wf s -> contents (Write s d) = contents s ++ d.
Proof.
  intros Hwf.
  assert (H : holds s (unread s)) by (split; [exact Hwf|reflexivity]).
  destruct (Write_contents s d) as [Hc _].
  destruct (EnsureCapacity_spec s (length d)) as (_ & _ & _ & Hpre).
  rewrite Hc. f_equal. unfold contents.
  transitivity (firstn (m_writePos s) (firstn (length (m_buffer s))
                  (m_buffer (EnsureCapacity s (length d)))));
    [|now rewrite Hpre].
  rewrite take_take. f_equal. destruct Hwf. lia.
Qed.

Lemma holds_unread (s : t) : wf s -> holds s (unread s).
Proof. intros H. now split. Qed.

Lemma holds_length (s : t) (l : list byte) :
  holds s l -> length l = GetBytesRemaining s.
Proof.
  intros [[Hrw Hwl] <-]. unfold unread, contents, GetBytesRemaining.
  rewrite length_drop, length_take. lia.
Qed.

Lemma holds_advance_wf (s : t) (l : list byte) : holds s l -> wf s.
Proof. now intros [H _]. Qed.

End CodecFacts.

(** X1. Reading past the end. When fewer bytes remain unread than a scalar
    kind takes, its reader returns the zero value of the kind and leaves
    the stream, read position included, as it was. *)
Theorem short_read_returns_zero (s : BitStream.t) (k : PropertyType) :
  is_scalar k = true ->
  (BitStream.GetBytesRemaining s < Actor.sizeof k)%nat ->
  read_prim s k = (zero_value k, s).
Proof.
  intros Hk Hshort.
  destruct k; try discriminate Hk; cbn [Actor.sizeof] in Hshort;
    cbn [read_prim zero_value];
    unfold BitStream.ReadBool, BitStream.ReadInt8, BitStream.ReadUInt8,
      BitStream.ReadInt16, BitStream.ReadUInt16, BitStream.ReadInt32,
      BitStream.ReadUInt32, BitStream.ReadInt64, BitStream.ReadUInt64,
      BitStream.ReadFloat, BitStream.ReadDouble;
    rewrite (CodecFacts.read_scalar_short s _ Hshort); reflexivity.
Qed.

(** An instance: reading an [int32_t] from a stream of three bytes. *)
Lemma short_read_returns_zero_witness :
  read_prim (BitStream.of_data [Byte.x01; Byte.x02; Byte.x03]) PInt32
  = (Some (VInt32 0), BitStream.of_data [Byte.x01; Byte.x02; Byte.x03]).
Proof.
  apply (short_read_returns_zero
           (BitStream.of_data [Byte.x01; Byte.x02; Byte.x03]) PInt32);
    [reflexivity|vm_compute; lia].
Defined.

(** X2. A string whose declared length exceeds what is left. When the
    stream holds a length prefix [n] followed by fewer than [n] bytes,
    [ReadString] returns the empty string and has consumed the four prefix
    bytes only: the bytes behind the prefix stay unread. *)
Theorem short_string_consumes_prefix
    (s : BitStream.t) (n : Z) (rest : list byte) :
  BitStream.holds s (le_split 4 n ++ rest) ->
  in_unsigned 32 n ->
  Z.of_nat (length rest) < n ->
  BitStream.ReadString s = (EmptyString, BitStream.advance s 4) /\
  BitStream.holds (BitStream.advance s 4) rest.
Proof.
  intros H Hn Hshort.
  destruct (BitStreamFacts.read_scalar_holds _ _ _ _ H) as [HR Hrest].
  unfold BitStream.ReadString, BitStream.ReadUInt32. rewrite HR.
  change (Z.of_nat 4 * 8) with 32. rewrite Z.mod_small by exact Hn.
  split; [|exact Hrest].
  destruct (Z.eqb_spec n 0); [reflexivity|].
  pose proof (CodecFacts.holds_length _ _ Hrest) as Hlen.
  unfold BitStream.CanRead, BitStream.GetBytesRemaining in *.
  destruct Hrest as [[Hrw _] _].
  destruct (Z.leb_spec
              (Z.of_nat (BitStream.m_readPos (BitStream.advance s 4)) + n)
              (Z.of_nat (BitStream.m_writePos (BitStream.advance s 4))));
    [lia|reflexivity].
Qed.

(** An instance: a prefix of 6 followed by the three bytes of ["Hea"]. *)
Lemma short_string_consumes_prefix_witness :
  BitStream.ReadString
    (BitStream.of_data (le_split 4 6 ++ list_byte_of_string "Hea"))
  = (EmptyString,
     BitStream.advance
       (BitStream.of_data (le_split 4 6 ++ list_byte_of_string "Hea")) 4).
Proof.
  apply (short_string_consumes_prefix _ 6 (list_byte_of_string "Hea")).
  - apply PacketFacts.of_data_holds.
  - unfold in_unsigned. lia.
  - simpl. lia.
Defined.

(** X3. The writer appends. On a valid stream a write leaves the bytes
    written before in place, adds the new ones behind them, keeps the read
    position and keeps the stream valid; after [Clear] the vector still
    holds the old bytes, yet a write yields the new bytes only. *)
Theorem write_appends (s : BitStream.t) (d : list byte) :
  BitStream.wf s ->
  BitStream.contents (BitStream.Write s d) = BitStream.contents s ++ d /\
  BitStream.m_readPos (BitStream.Write s d) = BitStream.m_readPos s /\
  BitStream.wf (BitStream.Write s d) /\
  BitStream.contents (BitStream.Write (BitStream.Clear s) d) = d /\
  BitStream.wf (BitStream.Write (BitStream.Clear s) d).
Proof.
  intros Hwf.
  assert (Hc : BitStream.wf (BitStream.Clear s)).
  { destruct Hwf. split; simpl; lia. }
  split; [now apply CodecFacts.contents_Write|].
  split; [apply BitStreamFacts.Write_positions|].
  split; [now apply CodecFacts.wf_Write|].
  split; [|now apply CodecFacts.wf_Write].
  now rewrite CodecFacts.contents_Write.
Qed.

(** An instance: a stream that holds two bytes, one of them read. *)
Lemma write_appends_witness :
  BitStream.contents
    (BitStream.Write (BitStream.mk [Byte.x01; Byte.x02] 2 1) [Byte.x03])
  = [Byte.x01; Byte.x02; Byte.x03].
Proof.
  apply (write_appends (BitStream.mk [Byte.x01; Byte.x02] 2 1) [Byte.x03]).
  split; simpl; lia.
Defined.

Module PacketMore.
Import BitStream BitStreamFacts PrimFacts PacketFacts CodecFacts.

(** The first scalar of a datagram of at least [n] bytes. *)
Lemma read_scalar_of_data (data : list byte) (n : nat) :
  (n <= length data)%nat ->
  read_scalar (of_data data) n
  = (le_combine (firstn n data), advance (of_data data) n).
Proof.
  intros Hn.
  assert (H : holds (of_data data) (firstn n data ++ skipn n data))
    by (rewrite firstn_skipn; apply of_data_holds).
  destruct (Read_holds _ _ _ H) as [HR _].
  rewrite length_take, Nat.min_l in HR by exact Hn.
  unfold read_scalar. now rewrite HR.
Qed.

(** [Serialize] on a valid stream appends the wire image. *)
Lemma Serialize_appends (p : Packet.t) (o : t) (l : list byte) :
  holds o l -> holds (snd (Packet.Serialize p o)) (l ++ Packet.wire_bytes p).
Proof.
  intros H. unfold Packet.Serialize, PacketHeader.Serialize, Packet.wire_bytes.
  cbn [snd PacketHeader.magic PacketHeader.sequence PacketHeader.packetType
         PacketHeader.payloadSize].
  unfold WriteUInt32, WriteUInt16.
  apply (Write_holds _ _ (le_split 4 (PacketHeader.magic (Packet.m_header p)))) in H.
  apply (Write_holds _ _
           (le_split 4 (PacketHeader.sequence (Packet.m_header p)))) in H.
  apply (Write_holds _ _
           (le_split 2 (PacketHeader.packetType (Packet.m_header p)))) in H.
  apply (Write_holds _ _
           (le_split 2 (wrap 16 (Z.of_nat (GetSize (Packet.m_payload p)))))) in H.
  destruct (Nat.ltb_spec 0 (GetSize (Packet.m_payload p))) as [Hpos|Hzero].
  - apply (Write_holds _ _ (contents (Packet.m_payload p))) in H.
    now rewrite <- !app_assoc in *.
  - unfold contents. unfold GetSize in Hzero.
    replace (m_writePos (Packet.m_payload p)) with 0%nat by lia.
    simpl firstn. rewrite app_nil_r. now rewrite <- !app_assoc in *.
Qed.

(** Deserialising a wire image that is followed by further bytes. *)
Lemma Deserialize_wire_rest (p q : Packet.t) (i : t) (rest : list byte) :
  Packet.well_formed p ->
  holds i (Packet.wire_bytes p ++ rest) ->
  Packet.Deserialize q i
  = (true, received p q, advance i (12 + GetSize (Packet.m_payload p))) /\
  holds (advance i (12 + GetSize (Packet.m_payload p))) rest.
Proof.
  intros (Hm & Hq & Hk & Hwf & Hn) H. unfold Packet.wire_bytes in H.
  rewrite <- !app_assoc in H.
  destruct (Header_Deserialize_holds _ _ _ _ _ _ H) as [HD Hrest].
  unfold Packet.Deserialize, received. rewrite HD.
  unfold wrap.
  rewrite (Z.mod_small (Z.of_nat (GetSize (Packet.m_payload p)))) in * by lia.
  rewrite (Z.mod_small (Z.of_nat (GetSize (Packet.m_payload p)))) by lia.
  rewrite (Z.mod_small (PacketHeader.sequence _)) by exact Hq.
  rewrite (Z.mod_small (PacketHeader.packetType _)) by exact Hk.
  rewrite Hm. change (PACKET_MAGIC mod 2 ^ 32) with PACKET_MAGIC.
  rewrite Z.eqb_refl. cbn [negb PacketHeader.payloadSize].
  destruct (Z.ltb_spec 0 (Z.of_nat (GetSize (Packet.m_payload p))));
    destruct (Nat.ltb_spec 0 (GetSize (Packet.m_payload p))); try lia.
  - destruct (Read_holds _ _ _ Hrest) as [R Hrest'].
    rewrite (length_contents _ Hwf) in R, Hrest'.
    fold (GetSize (Packet.m_payload p)) in R, Hrest'.
    rewrite (Read_Some_CanRead _ _ _ _ R), Nat2Z.id, R. cbn [negb].
    assert (Ha : advance (advance i 12) (GetSize (Packet.m_payload p))
                 = advance i (12 + GetSize (Packet.m_payload p))).
    { unfold advance; simpl. f_equal. lia. }
    rewrite Ha in *. split; [reflexivity|exact Hrest'].
  - assert (Hz : GetSize (Packet.m_payload p) = 0%nat) by lia.
    rewrite Hz, Nat.add_0_r in *. split; [reflexivity|].
    unfold contents in Hrest. unfold GetSize in Hz. rewrite Hz in Hrest.
    exact Hrest.
Qed.

Lemma wire_bytes_received (p q : Packet.t) :
  Packet.well_formed p ->
  GetSize (Packet.m_payload q) = 0%nat ->
  Packet.wire_bytes (received p q) = Packet.wire_bytes p.
Proof.
  intros (Hm & _ & _ & Hwf & Hn) Hq. unfold Packet.wire_bytes, received.
  cbn [Packet.m_header Packet.m_payload PacketHeader.magic
         PacketHeader.sequence PacketHeader.packetType]. rewrite Hm.
  destruct (Nat.ltb_spec 0 (GetSize (Packet.m_payload p))).
  - rewrite contents_of_data. unfold GetSize at 1, of_data; cbn [m_writePos].
    rewrite (length_contents _ Hwf). reflexivity.
  - assert (Hz : GetSize (Packet.m_payload p) = 0%nat) by lia.
    rewrite Hq, Hz. unfold contents. unfold GetSize in Hq, Hz.
    now rewrite Hq, Hz.
Qed.

End PacketMore.

(** X4. Magic gate. A datagram whose first four bytes are not the magic
    number, or that has fewer than four bytes, fails [Packet::Deserialize],
    whatever follows and whatever packet object receives it. *)
Theorem magic_gate (q : Packet.t) (data : list byte) :
  firstn 4 data <> le_split 4 PACKET_MAGIC ->
  fst (fst (Packet.Deserialize q (BitStream.of_data data))) = false.
Proof.
  intros Hne. unfold Packet.Deserialize, PacketHeader.Deserialize.
  assert (Hm : fst (BitStream.ReadUInt32 (BitStream.of_data data))
               <> PACKET_MAGIC).
  { unfold BitStream.ReadUInt32.
    destruct (Nat.le_gt_cases 4 (length data)) as [Hlen|Hlen].
    - rewrite PacketMore.read_scalar_of_data by exact Hlen. cbn [fst].
      intros E. apply Hne.
      rewrite <- E. symmetry. apply split_le_combine'.
      rewrite length_take. lia.
    - rewrite CodecFacts.read_scalar_short; [easy|].
      unfold BitStream.GetBytesRemaining, BitStream.of_data; simpl. lia. }
  destruct (BitStream.ReadUInt32 (BitStream.of_data data)) as [m s1].
  destruct (BitStream.ReadUInt32 s1) as [sq s2].
  destruct (BitStream.ReadUInt16 s2) as [k s3].
  destruct (BitStream.ReadUInt16 s3) as [n s4].
  cbn [fst] in Hm.
  destruct (Z.eqb_spec m PACKET_MAGIC); [contradiction|reflexivity].
Qed.

(** An instance: the sixteen bytes of an otherwise correct packet whose
    first byte is off by one. *)
Lemma magic_gate_witness :
  fst (fst (Packet.Deserialize Packet.create
              (BitStream.of_data
                 (Byte.x46 :: skipn 1 (Scenario.datagram PacketType.ActorDestroy
                                         5 (le_split 4 1)))))) = false.
Proof.
  apply magic_gate. vm_compute. congruence.
Defined.

(** X5. Packets back to back. Two well-formed packets serialised one after
    the other into one stream are deserialised, each into a fresh packet
    object, in that order: each deserialisation consumes the twelve header
    bytes and the payload of its packet and nothing else, and reproduces
    the wire image of the packet. *)
Theorem packets_back_to_back (P1 P2 : Packet.t) :
  Packet.well_formed P1 ->
  Packet.well_formed P2 ->
  let s := snd (Packet.Serialize P2 (snd (Packet.Serialize P1 BitStream.create))) in
  let r1 := Packet.Deserialize Packet.create s in
  let r2 := Packet.Deserialize Packet.create (snd r1) in
  fst (fst r1) = true /\
  Packet.wire_bytes (snd (fst r1)) = Packet.wire_bytes P1 /\
  BitStream.GetReadPos (snd r1)
  = (12 + BitStream.GetSize (Packet.m_payload P1))%nat /\
  fst (fst r2) = true /\
  Packet.wire_bytes (snd (fst r2)) = Packet.wire_bytes P2 /\
  BitStream.GetBytesRemaining (snd r2) = 0%nat.
Proof.
  intros H1 H2 s r1 r2.
  assert (Hs : BitStream.holds s (Packet.wire_bytes P1 ++ Packet.wire_bytes P2)).
  { subst s. apply PacketMore.Serialize_appends.
    apply (PacketMore.Serialize_appends P1 BitStream.create []).
    split; [split; simpl; lia|reflexivity]. }
  assert (Hr0 : BitStream.m_readPos s = 0%nat).
  { subst s. unfold Packet.Serialize, PacketHeader.Serialize; cbn [snd].
    destruct (0 <? BitStream.GetSize (Packet.m_payload P1))%nat,
             (0 <? BitStream.GetSize (Packet.m_payload P2))%nat;
      unfold BitStream.WriteUInt32, BitStream.WriteUInt16;
      repeat (rewrite (proj2 (BitStreamFacts.Write_positions _ _)));
      reflexivity. }
  destruct (PacketMore.Deserialize_wire_rest P1 Packet.create s _ H1 Hs)
    as [E1 Hs1].
  subst r2 r1. rewrite E1. cbn [fst snd].
  rewrite <- (app_nil_r (Packet.wire_bytes P2)) in Hs1.
  destruct (PacketMore.Deserialize_wire_rest P2 Packet.create _ _ H2 Hs1)
    as [E2 Hs2].
  rewrite E2. cbn [fst snd].
  split; [reflexivity|].
  split; [now apply PacketMore.wire_bytes_received|].
  split; [unfold BitStream.GetReadPos, BitStream.advance; simpl; lia|].
  split; [reflexivity|].
  split; [now apply PacketMore.wire_bytes_received|].
  apply CodecFacts.holds_length in Hs2. now rewrite <- Hs2.
Qed.

(** An instance: an [ActorDestroy] packet followed by a [Heartbeat]. *)
Lemma packets_back_to_back_witness :
  let s := snd (Packet.Serialize (Packet.of_type PacketType.Heartbeat)
             (snd (Packet.Serialize
                (Packet.WriteU32 (Packet.of_type PacketType.ActorDestroy) 42)
                BitStream.create))) in
  Packet.wire_bytes (snd (fst (Packet.Deserialize Packet.create
    (snd (Packet.Deserialize Packet.create s)))))
  = Packet.wire_bytes (Packet.of_type PacketType.Heartbeat).
Proof.
  intros s.
  destruct (packets_back_to_back
              (Packet.WriteU32 (Packet.of_type PacketType.ActorDestroy) 42)
              (Packet.of_type PacketType.Heartbeat))
    as (_ & _ & _ & _ & Hw & _).
  - unfold Packet.well_formed, in_unsigned, BitStream.wf.
    repeat split; vm_compute; (reflexivity || congruence || lia).
  - unfold Packet.well_formed, in_unsigned, BitStream.wf.
    repeat split; vm_compute; (reflexivity || congruence || lia).
  - exact Hw.
Defined.

(** X6. An empty payload leaves the old one. When the wire image of a
    well-formed packet without payload bytes is deserialised into a packet
    object that has been used before, the call succeeds, consumes twelve
    bytes whatever follows them, and the object keeps the payload it had:
    its header says zero payload bytes while its payload stream still holds
    the earlier ones. *)
Theorem empty_payload_keeps_old
    (p q : Packet.t) (i : BitStream.t) (rest : list byte) :
  Packet.well_formed p ->
  BitStream.GetSize (Packet.m_payload p) = 0%nat ->
  BitStream.holds i (Packet.wire_bytes p ++ rest) ->
  Packet.Deserialize q i
  = (true,
     Packet.mk
       (PacketHeader.mk PACKET_MAGIC (Packet.GetSequence p) (Packet.GetType p) 0)
       (Packet.m_payload q),
     BitStream.advance i 12).
Proof.
  intros Hwf Hz H.
  destruct (PacketMore.Deserialize_wire_rest p q i rest Hwf H) as [E _].
  rewrite E. unfold received. rewrite Hz. reflexivity.
Qed.

(** An instance: a heartbeat with three trailing bytes is received by a
    packet object that held four payload bytes. *)
Lemma empty_payload_keeps_old_witness :
  BitStream.contents (Packet.m_payload (snd (fst
    (Packet.Deserialize Scenario.used_packet
       (BitStream.of_data
          (Packet.wire_bytes (Packet.of_type PacketType.Heartbeat)
             ++ [Byte.x01; Byte.x02; Byte.x03]))))))
  = le_split 4 5.
Proof.
  rewrite (empty_payload_keeps_old (Packet.of_type PacketType.Heartbeat)
             Scenario.used_packet _ [Byte.x01; Byte.x02; Byte.x03]).
  - reflexivity.
  - unfold Packet.well_formed, in_unsigned, BitStream.wf.
    repeat split; vm_compute; (reflexivity || congruence || lia).
  - reflexivity.
  - apply PacketFacts.of_data_holds.
Defined.

(** * Further properties of connections *)

Module ConnectionMore.
Import NetConnection.

Lemma SendPacket_fields (c : t) (p : Packet.t) (reliable : bool) :
  m_outgoingQueue (SendPacket c p reliable)
  = m_outgoingQueue c ++ [Packet.SetSequence p (m_outgoingSequence c)] /\
  m_outgoingSequence (SendPacket c p reliable)
  = wrap 32 (m_outgoingSequence c + 1) /\
  m_reliableBuffer (SendPacket c p reliable)
  = (if reliable
     then <[m_outgoingSequence c := Packet.SetSequence p (m_outgoingSequence c)]>
            (m_reliableBuffer c)
     else m_reliableBuffer c).
Proof. repeat split. Qed.

Lemma send_all_spec (packets : list Packet.t) (reliable : bool) :
  forall c : t,
    m_outgoingQueue (NetConnectionIO.send_all c packets reliable)
    = m_outgoingQueue c ++ stamp (m_outgoingSequence c) packets /\
    m_outgoingSequence (NetConnectionIO.send_all c packets reliable)
    = wrap 32 (m_outgoingSequence c + Z.of_nat (length packets)) \/
    packets = [] /\ NetConnectionIO.send_all c packets reliable = c.
Proof.
  induction packets as [|p rest IH]; intros c; [now right|left].
  unfold NetConnectionIO.send_all in *. cbn [fold_left stamp].
  destruct (IH (SendPacket c p reliable)) as [[Hq Hs]|[-> ->]].
  - rewrite Hq, Hs. cbn [SendPacket m_outgoingQueue m_outgoingSequence].
    rewrite <- app_assoc. split; [reflexivity|].
    unfold wrap. rewrite Zplus_mod_idemp_l. f_equal.
    cbn [length]. lia.
  - cbn [fold_left stamp length]. split; [reflexivity|].
    cbn [SendPacket m_outgoingSequence]. reflexivity.
Qed.

Lemma nth_error_stamp (packets : list Packet.t) :
  forall (s : Z) (i : nat) (p : Packet.t),
    0 <= s -> s + Z.of_nat i < 2 ^ 32 ->
    nth_error packets i = Some p ->
    nth_error (stamp s packets) i = Some (Packet.SetSequence p (s + Z.of_nat i)).
Proof.
  induction packets as [|q rest IH]; intros s i p Hs Hi Hn.
  - destruct i; discriminate.
  - destruct i as [|i]; cbn [nth_error stamp] in *.
    + injection Hn as ->. now rewrite Z.add_0_r.
    + assert (Hw : wrap 32 (s + 1) = s + 1)
        by (apply Z.mod_small; lia).
      rewrite Hw, (IH (s + 1) i p) by (lia || assumption).
      do 2 f_equal. lia.
Qed.

End ConnectionMore.

(** X7. Sequence numbering. Packets sent one after the other on a
    connection are appended to the outgoing queue in that order; the packet
    at position [i] carries the sequence number [s + i], where [s] is the
    connection's counter before, for as long as that stays below [2^32];
    afterwards the counter is [s] plus the number of packets, modulo
    [2^32]. On a new connection the n-th packet has sequence n-1. *)
Theorem sequence_numbering
    (c : NetConnection.t) (packets : list Packet.t) (reliable : bool) :
  in_unsigned 32 (NetConnection.m_outgoingSequence c) ->
  let s := NetConnection.m_outgoingSequence c in
  let c' := NetConnectionIO.send_all c packets reliable in
  NetConnection.m_outgoingQueue c'
  = NetConnection.m_outgoingQueue c ++ stamp s packets /\
  length (stamp s packets) = length packets /\
  (forall i p, nth_error packets i = Some p ->
     s + Z.of_nat i < 2 ^ 32 ->
     nth_error (stamp s packets) i = Some (Packet.SetSequence p (s + Z.of_nat i))) /\
  NetConnection.m_outgoingSequence c' = wrap 32 (s + Z.of_nat (length packets)).
Proof.
  intros [Hs0 Hs1] s c'. subst s c'.
  assert (Hlen : forall l z, length (stamp z l) = length l).
  { induction l as [|q l IH]; intros z; cbn [stamp length]; [reflexivity|].
    now rewrite IH. }
  destruct (ConnectionMore.send_all_spec packets reliable c)
    as [[Hq Hc]|[-> ->]].
  - split; [exact Hq|]. split; [apply Hlen|]. split; [|exact Hc].
    intros i p Hn Hi. now apply ConnectionMore.nth_error_stamp.
  - cbn [stamp length]. rewrite app_nil_r, Z.add_0_r.
    split; [reflexivity|]. split; [reflexivity|].
    split; [intros [|] ? H; discriminate H|].
    unfold wrap. symmetry. apply Z.mod_small. lia.
Qed.

(** An instance: three packets on a new connection get 0, 1, 2. *)
Lemma sequence_numbering_witness :
  map Packet.GetSequence
    (NetConnection.m_outgoingQueue
       (NetConnectionIO.send_all (NetConnection.create Scenario.peer_addr)
          [Packet.of_type PacketType.Heartbeat;
           Packet.of_type PacketType.ActorDestroy;
           Packet.of_type PacketType.Heartbeat] false))
  = [0; 1; 2].
Proof.
  destruct (sequence_numbering (NetConnection.create Scenario.peer_addr)
              [Packet.of_type PacketType.Heartbeat;
               Packet.of_type PacketType.ActorDestroy;
               Packet.of_type PacketType.Heartbeat] false) as (Hq & _).
  - unfold in_unsigned. simpl. lia.
  - rewrite Hq. reflexivity.
Defined.
Module WireFacts.
Import BitStream.

Lemma Serialize_readPos (p : Packet.t) (o : t) :
  m_readPos (snd (Packet.Serialize p o)) = m_readPos o.
Proof.
  unfold Packet.Serialize, PacketHeader.Serialize; cbn [snd].
  destruct (0 <? GetSize (Packet.m_payload p))%nat;
    unfold WriteUInt32, WriteUInt16;
    repeat (rewrite (proj2 (BitStreamFacts.Write_positions _ _)));
    reflexivity.
Qed.

Lemma Serialize_contents (p : Packet.t) :
  contents (snd (Packet.Serialize p create)) = Packet.wire_bytes p.
Proof.
  assert (H : holds (snd (Packet.Serialize p create)) ([] ++ Packet.wire_bytes p)).
  { apply PacketMore.Serialize_appends. split; [split; simpl; lia|reflexivity]. }
  destruct H as [_ Hu]. unfold unread in Hu.
  rewrite Serialize_readPos in Hu. exact Hu.
Qed.

Lemma wire_length (p : Packet.t) :
  wf (Packet.m_payload p) ->
  length (Packet.wire_bytes p) = (12 + GetSize (Packet.m_payload p))%nat.
Proof.
  intros Hwf. unfold Packet.wire_bytes.
  rewrite !length_app, !length_le_split, (PacketFacts.length_contents _ Hwf).
  reflexivity.
Qed.

(** A datagram that fits the receive buffer is not cut. *)
Lemma buffer_fits (p : Packet.t) :
  wf (Packet.m_payload p) -> fits_buffer p ->
  firstn (MAX_PACKET_SIZE * 2) (Packet.wire_bytes p) = Packet.wire_bytes p.
Proof.
  intros Hwf Hfit. apply firstn_all2. rewrite (wire_length p Hwf). exact Hfit.
Qed.

(** What the receive loop makes of a well-formed packet that fits its
    buffer. *)
Lemma transport_fits (p : Packet.t) :
  Packet.well_formed p -> fits_buffer p ->
  exists rest, transport p = (true, received p Packet.create, rest).
Proof.
  intros Hwf Hfit. unfold transport. rewrite Serialize_contents.
  rewrite (buffer_fits p (proj1 (proj2 (proj2 (proj2 Hwf)))) Hfit).
  assert (H : holds (of_data (Packet.wire_bytes p)) (Packet.wire_bytes p ++ []))
    by (rewrite app_nil_r; apply PacketFacts.of_data_holds).
  destruct (PacketMore.Deserialize_wire_rest p Packet.create _ _ Hwf H) as [E _].
  eexists. exact E.
Qed.

Lemma over_the_wire_received (p : Packet.t) :
  Packet.well_formed p -> fits_buffer p ->
  over_the_wire p = received p Packet.create.
Proof.
  intros Hwf Hfit. unfold over_the_wire.
  destruct (transport_fits p Hwf Hfit) as [rest ->]. reflexivity.
Qed.

Lemma arrives_fits (p : Packet.t) :
  Packet.well_formed p -> fits_buffer p -> arrives p = true.
Proof.
  intros Hwf Hfit. unfold arrives.
  destruct (transport_fits p Hwf Hfit) as [rest ->]. reflexivity.
Qed.

(** The datagram of a well-formed packet that does not fit the receive
    buffer is cut, and [Packet::Deserialize] rejects what is left: the
    header announces more payload bytes than the buffer holds. *)
Lemma cut_datagram_rejected (p q : Packet.t) :
  Packet.well_formed p -> ~ fits_buffer p ->
  fst (fst (Packet.Deserialize q
              (of_data (firstn (MAX_PACKET_SIZE * 2) (Packet.wire_bytes p)))))
  = false.
Proof.
  intros (Hm & Hq & Hk & Hwf & Hn) Hbig. unfold fits_buffer in Hbig.
  assert (Hlen : length (contents (Packet.m_payload p))
                 = GetSize (Packet.m_payload p))
    by now apply PacketFacts.length_contents.
  set (n := GetSize (Packet.m_payload p)) in *.
  assert (Hcut : firstn (MAX_PACKET_SIZE * 2) (Packet.wire_bytes p)
                 = le_split 4 (PacketHeader.magic (Packet.m_header p))
                   ++ le_split 4 (PacketHeader.sequence (Packet.m_header p))
                   ++ le_split 2 (PacketHeader.packetType (Packet.m_header p))
                   ++ le_split 2 (wrap 16 (Z.of_nat n))
                   ++ firstn (MAX_PACKET_SIZE * 2 - 12)
                        (contents (Packet.m_payload p))).
  { unfold Packet.wire_bytes. fold n.
    rewrite !firstn_app, !length_le_split.
    rewrite !(firstn_all2 (le_split _ _)) by (rewrite length_le_split; simpl; lia).
    reflexivity. }
  rewrite Hcut.
  pose proof (PacketFacts.of_data_holds
                (le_split 4 (PacketHeader.magic (Packet.m_header p))
                   ++ le_split 4 (PacketHeader.sequence (Packet.m_header p))
                   ++ le_split 2 (PacketHeader.packetType (Packet.m_header p))
                   ++ le_split 2 (wrap 16 (Z.of_nat n))
                   ++ firstn (MAX_PACKET_SIZE * 2 - 12)
                        (contents (Packet.m_payload p)))) as H.
  destruct (PacketFacts.Header_Deserialize_holds _ _ _ _ _ _ H) as [HD Hrest].
  unfold Packet.Deserialize. rewrite HD.
  rewrite Hm. change (PACKET_MAGIC mod 2 ^ 32 =? PACKET_MAGIC) with true.
  cbn [negb PacketHeader.payloadSize]. unfold wrap.
  rewrite Z.mod_mod by lia. rewrite (Z.mod_small (Z.of_nat n)) by lia.
  destruct (Z.ltb_spec 0 (Z.of_nat n)); [|unfold MAX_PACKET_SIZE in Hbig; lia].
  match goal with
  | |- context [CanRead ?s ?k] => destruct (CanRead s k) eqn:Hcr
  end; [|reflexivity].
  exfalso. unfold CanRead in Hcr. apply Z.leb_le in Hcr.
  cbn [advance of_data m_readPos m_writePos] in Hcr.
  rewrite !length_app, !length_le_split, length_firstn, Hlen in Hcr.
  unfold MAX_PACKET_SIZE in *. lia.
Qed.

Lemma arrives_oversize (p : Packet.t) :
  Packet.well_formed p -> ~ fits_buffer p -> arrives p = false.
Proof.
  intros Hwf Hbig. unfold arrives, transport. rewrite Serialize_contents.
  now apply cut_datagram_rejected.
Qed.

Lemma received_header (p q : Packet.t) :
  Packet.GetType (received p q) = Packet.GetType p /\
  Packet.GetSequence (received p q) = Packet.GetSequence p.
Proof. split; reflexivity. Qed.

Lemma well_formed_SetSequence (p : Packet.t) (s : Z) :
  Packet.well_formed p -> in_unsigned 32 s ->
  Packet.well_formed (Packet.SetSequence p s).
Proof.
  intros (Hm & _ & Hk & Hwf & Hn) Hs. repeat split; try assumption;
    try apply Hk; try apply Hwf; apply Hs.
Qed.

Lemma well_formed_ack (s : Z) : Packet.well_formed (NetConnection.ack_packet s).
Proof.
  unfold Packet.well_formed, NetConnection.ack_packet, Packet.WriteU32,
    Packet.with_payload.
  cbn [Packet.m_header Packet.m_payload].
  change (Packet.m_header (Packet.of_type PacketType.Acknowledgement))
    with (PacketHeader.mk PACKET_MAGIC 0 PacketType.Acknowledgement 0).
  change (Packet.m_payload (Packet.of_type PacketType.Acknowledgement))
    with create.
  cbn [PacketHeader.magic PacketHeader.sequence PacketHeader.packetType].
  split; [reflexivity|]. split; [unfold in_unsigned; lia|].
  split; [unfold in_unsigned, PacketType.Acknowledgement; lia|].
  unfold WriteUInt32.
  split; [apply CodecFacts.wf_Write; split; simpl; lia|].
  unfold GetSize. rewrite (proj1 (BitStreamFacts.Write_positions _ _)).
  rewrite length_le_split. simpl. lia.
Qed.

End WireFacts.


Module FlushFacts.

Lemma flush_loop_spec (q : list Packet.t) :
  forall (st : NetConnection.Stats) (ls ct : float32) (addr : Address)
         (results : list Z),
    let k := accepted_count results (length q) in
    let r := NetConnectionIO.flush_loop q st ls ct addr (Socket.mk true results) in
    fst (fst (fst (fst r)))
    = match skipn k q with
      | [] => []
      | p :: rest => fst (Packet.Serialize p BitStream.create) :: rest
      end /\
    snd r = map (fun p => (Packet.wire_bytes p, addr)) (firstn k q) /\
    snd (fst (fst r)) = (if (k =? 0)%nat then ls else ct) /\
    snd (fst r) = Socket.mk true (skipn (if (k <? length q)%nat then S k else k) results).
Proof.
  induction q as [|p rest IH]; intros st ls ct addr results.
  - cbn. destruct results; repeat split; reflexivity.
  - cbn [NetConnectionIO.flush_loop length].
    pose proof (WireFacts.Serialize_contents p) as Hc.
    destruct (Packet.Serialize p BitStream.create) as [p' stream] eqn:ES.
    cbn [snd fst] in *.
    unfold Socket.SendTo. cbn [Socket.IsValid Socket.sendto negb].
    destruct results as [|b later].
    + cbn [accepted_count skipn firstn map fst snd Nat.eqb Z.ltb Z.compare].
      rewrite ES. repeat split; reflexivity.
    + cbn [accepted_count]. destruct (0 <? b) eqn:Eb.
      * specialize (IH
          (NetConnection.mkStats
             (wrap 64 (NetConnection.packetsSent st + 1))
             (NetConnection.packetsReceived st)
             (wrap 64 (NetConnection.bytesSent st + b))
             (NetConnection.bytesReceived st)
             (NetConnection.packetsLost st)) ct ct addr later).
        cbn zeta in IH.
        destruct (NetConnectionIO.flush_loop rest _ ct ct addr (Socket.mk true later))
          as [[[[q' st'] ls'] so'] sent'].
        cbn [fst snd] in *.
        destruct IH as (Hq & Hs & Hl & Hso).
        cbn [skipn firstn map Nat.eqb].
        split; [exact Hq|]. split; [now rewrite Hc, Hs|].
        split; [rewrite Hl; now destruct (_ =? 0)%nat|].
        rewrite Hso. change (S (accepted_count later (length rest)) <? S (length rest))%nat
          with (accepted_count later (length rest) <? length rest)%nat.
        destruct (_ <? _)%nat; reflexivity.
      * cbn [skipn firstn map fst snd Nat.eqb]. rewrite ES.
        repeat split; reflexivity.
Qed.

Lemma accepted_count_le (results : list Z) :
  forall n, (accepted_count results n <= n)%nat.
Proof.
  induction results as [|b later IH]; intros [|n]; cbn; try lia.
  destruct (0 <? b); [specialize (IH n)|]; lia.
Qed.

End FlushFacts.

(** X9. [FlushOutgoing] transmits in queue order and loses nothing. With a
    valid socket whose next [sendto] calls return [results], the first [k]
    queued packets are transmitted, in order, each as its wire image to the
    connection's address, where [k] counts the leading positive results
    (at most the queue length); the rest of the queue stays in order, its
    front packet (the one whose transmission failed) with its header's
    payload size brought up to date. The retained reliable packets, the
    sequence counter and the state are not touched: only an
    acknowledgement ever removes a retained packet. *)
Theorem flush_in_order (c : NetConnection.t) (results : list Z) :
  let socket := Socket.mk true results in
  let q := NetConnection.m_outgoingQueue c in
  let k := accepted_count results (length q) in
  let r := NetConnectionIO.FlushOutgoing c socket in
  let c' := fst (fst r) in
  (k <= length q)%nat /\
  snd r = map (fun p => (Packet.wire_bytes p, NetConnection.m_address c))
            (firstn k q) /\
  NetConnection.m_outgoingQueue c'
  = match skipn k q with
    | [] => []
    | p :: rest => fst (Packet.Serialize p BitStream.create) :: rest
    end /\
  NetConnection.m_reliableBuffer c' = NetConnection.m_reliableBuffer c /\
  NetConnection.m_outgoingSequence c' = NetConnection.m_outgoingSequence c /\
  NetConnection.m_state c' = NetConnection.m_state c /\
  NetConnection.m_lastSendTime c'
  = (if (k =? 0)%nat then NetConnection.m_lastSendTime c
     else NetConnection.m_currentTime c).
Proof.
  intros socket q k r c'.
  split; [apply FlushFacts.accepted_count_le|].
  subst c' r. unfold NetConnectionIO.FlushOutgoing.
  subst socket. cbn [Socket.IsValid negb].
  pose proof (FlushFacts.flush_loop_spec (NetConnection.m_outgoingQueue c)
                (NetConnection.m_stats c) (NetConnection.m_lastSendTime c)
                (NetConnection.m_currentTime c) (NetConnection.m_address c)
                results) as H.
  cbn zeta in H.
  destruct (NetConnectionIO.flush_loop _ _ _ _ _ _)
    as [[[[q' st'] ls'] so'] sent'].
  cbn [fst snd] in *. destruct H as (Hq & Hs & Hl & _).
  cbn [NetConnection.m_outgoingQueue NetConnection.m_reliableBuffer
       NetConnection.m_outgoingSequence NetConnection.m_state
       NetConnection.m_lastSendTime].
  subst q k. repeat split; assumption.
Qed.

Module DriverMore.
Import NetDriver.

(** The datagram of a well-formed packet deserialises. *)
Lemma Deserialize_of_wire (p : Packet.t) :
  Packet.well_formed p ->
  exists rest,
    Packet.Deserialize Packet.create (BitStream.of_data (Packet.wire_bytes p))
    = (true, received p Packet.create, rest).
Proof.
  intros Hwf.
  assert (H : BitStream.holds (BitStream.of_data (Packet.wire_bytes p))
                (Packet.wire_bytes p ++ []))
    by (rewrite app_nil_r; apply PacketFacts.of_data_holds).
  destruct (PacketMore.Deserialize_wire_rest p Packet.create _ _ Hwf H) as [E _].
  eexists. exact E.
Qed.

(** Flushing a connection with one queued packet on a socket that takes it. *)
Lemma FlushOutgoing_one (c : NetConnection.t) (P : Packet.t) (b : Z)
    (rs : list Z) :
  NetConnection.m_outgoingQueue c = [P] -> 0 < b ->
  let r := NetConnectionIO.FlushOutgoing c (Socket.mk true (b :: rs)) in
  snd r = [(Packet.wire_bytes P, NetConnection.m_address c)] /\
  snd (fst r) = Socket.mk true rs /\
  NetConnection.m_outgoingQueue (fst (fst r)) = [] /\
  NetConnection.m_reliableBuffer (fst (fst r)) = NetConnection.m_reliableBuffer c /\
  NetConnection.m_state (fst (fst r)) = NetConnection.m_state c /\
  NetConnection.m_address (fst (fst r)) = NetConnection.m_address c.
Proof.
  intros Hq Hb r. subst r. unfold NetConnectionIO.FlushOutgoing.
  cbn [Socket.IsValid negb]. rewrite Hq.
  cbn [NetConnectionIO.flush_loop].
  pose proof (WireFacts.Serialize_contents P) as Hc.
  destruct (Packet.Serialize P BitStream.create) as [P' stream].
  cbn [snd] in Hc. unfold Socket.SendTo. cbn [Socket.IsValid Socket.sendto negb].
  destruct (Z.ltb_spec 0 b); [|lia].
  cbn [fst snd NetConnection.m_outgoingQueue NetConnection.m_reliableBuffer
       NetConnection.m_state NetConnection.m_address].
  rewrite Hc. repeat split; reflexivity.
Qed.

(** The driver right after a successful [ConnectToServer] on a client
    without connections. *)
Lemma ConnectToServer_first (d : t) (address : Address) :
  m_mode d = NetworkMode.Client -> m_connections d = [] ->
  NetDriverOps.ConnectToServer d (Some address)
  = (with_connections d
       [(next_conn d,
         NetConnection.SendPacket (NetConnection.create address)
           (Packet.of_type PacketType.ConnectionRequest) true)]
       (m_connectionList d ++ [next_conn d]) (Some (next_conn d))
       (S (next_conn d)),
     true).
Proof.
  intros Hm Hc. unfold NetDriverOps.ConnectToServer. rewrite Hm.
  unfold CreateConnection, SendPacket, update, with_connections.
  cbn [m_connections m_connectionList m_serverConnection next_conn
         m_mode m_maxConnections m_onConnection m_onDisconnection m_onPacket].
  rewrite Hc. cbn [app map fst snd]. rewrite Nat.eqb_refl. reflexivity.
Qed.

Lemma well_formed_of_type (type sequence : Z) :
  in_unsigned 16 type -> in_unsigned 32 sequence ->
  Packet.well_formed (Packet.SetSequence (Packet.of_type type) sequence).
Proof.
  intros Ht Hs. unfold Packet.well_formed.
  split; [reflexivity|]. split; [exact Hs|]. split; [exact Ht|].
  split; [split; simpl; lia|]. simpl. lia.
Qed.

Lemma FlushOutgoingPackets_single (d : t) (p : conn_ptr)
    (c : NetConnection.t) (socket : Socket.t) :
  m_connections d = [(p, c)] ->
  NetDriverOps.FlushOutgoingPackets d socket
  = (with_connections d
       [(p, fst (fst (NetConnectionIO.FlushOutgoing c socket)))]
       (m_connectionList d) (m_serverConnection d) (next_conn d),
     snd (fst (NetConnectionIO.FlushOutgoing c socket)),
     snd (NetConnectionIO.FlushOutgoing c socket)).
Proof.
  intros H. unfold NetDriverOps.FlushOutgoingPackets. rewrite H.
  cbn [NetDriverOps.flush_connections].
  destruct (NetConnectionIO.FlushOutgoing c socket) as [[c' so] sent].
  cbn [fst snd]. now rewrite app_nil_r.
Qed.

(** A [ConnectionRequest] datagram at a server without connections. *)
Lemma receive_first_request (sv : t) (from : Address) (P : Packet.t) :
  Packet.well_formed P ->
  Packet.GetType P = PacketType.ConnectionRequest ->
  IsServer sv = true -> m_connections sv = [] -> 0 < m_maxConnections sv ->
  receive_datagram sv from (Packet.wire_bytes P)
  = (with_connections sv [(next_conn sv, accepted from)]
       (m_connectionList sv ++ [next_conn sv]) (m_serverConnection sv)
       (S (next_conn sv)),
     callback (m_onConnection sv) (OnConnection (next_conn sv))).
Proof.
  intros HP Ht Hserver Hsv Hroom. unfold receive_datagram.
  destruct (Deserialize_of_wire P HP) as [rest ->]. cbn [negb].
  change (Packet.GetType (received P Packet.create)) with (Packet.GetType P).
  rewrite Ht, Z.eqb_refl, Hserver.
  rewrite HandshakeFacts.HandleConnectionRequest_accept.
  - now rewrite Hsv.
  - unfold fresh. rewrite Hsv. constructor.
  - unfold FindConnection. now rewrite Hsv.
  - rewrite Hsv. simpl. lia.
Qed.

(** A [ConnectionAccept] datagram, whoever sent it. *)
Lemma receive_ConnectionAccept (d : t) (from : Address) (P : Packet.t) :
  Packet.well_formed P ->
  Packet.GetType P = PacketType.ConnectionAccept ->
  receive_datagram d from (Packet.wire_bytes P)
  = match IsClient d, m_serverConnection d with
    | true, Some s =>
        (update d s (fun c => NetConnection.SetState c Connected),
         callback (m_onConnection d) (OnConnection s))
    | _, _ => (d, [])
    end.
Proof.
  intros HP Ht. unfold receive_datagram.
  destruct (Deserialize_of_wire P HP) as [rest ->]. cbn [negb].
  change (Packet.GetType (received P Packet.create)) with (Packet.GetType P).
  rewrite Ht.
  change (PacketType.ConnectionAccept =? PacketType.ConnectionRequest)
    with false.
  now rewrite Z.eqb_refl.
Qed.

End DriverMore.

(** X10. The connection handshake, end to end. A client without
    connections calls [ConnectToServer]; its next flush transmits exactly
    one datagram, the [ConnectionRequest] with sequence 0, to the server's
    address. A server without connections and with room for one receives
    it from the client's address: it creates a connection in state
    [Connected] and runs its on-connect callback; its next flush transmits
    exactly the [ConnectionAccept] with sequence 0 to the client. When
    that arrives the client's server connection is [Connected] and its
    on-connect callback runs. Neither handshake packet is acknowledged:
    both outgoing queues are empty afterwards, and each side still retains
    its handshake packet as an unacknowledged reliable packet. *)
Theorem handshake (cl sv : NetDriver.t) (server_address client_address : Address)
    (b1 b2 : Z) (rc rs : list Z) :
  NetDriver.m_mode cl = NetworkMode.Client ->
  NetDriver.m_connections cl = [] ->
  NetDriver.IsServer sv = true ->
  NetDriver.m_connections sv = [] ->
  0 < NetDriver.m_maxConnections sv ->
  0 < b1 -> 0 < b2 ->
  let request :=
    Packet.SetSequence (Packet.of_type PacketType.ConnectionRequest) 0 in
  let accept :=
    Packet.SetSequence (Packet.of_type PacketType.ConnectionAccept) 0 in
  let connecting := NetDriverOps.ConnectToServer cl (Some server_address) in
  let client_flush :=
    NetDriverOps.FlushOutgoingPackets (fst connecting)
      (Socket.mk true (b1 :: rc)) in
  let at_server :=
    NetDriver.receive_datagram sv client_address (Packet.wire_bytes request) in
  let server_flush :=
    NetDriverOps.FlushOutgoingPackets (fst at_server)
      (Socket.mk true (b2 :: rs)) in
  let at_client :=
    NetDriver.receive_datagram (fst (fst client_flush)) server_address
      (Packet.wire_bytes accept) in
  snd connecting = true /\
  snd client_flush = [(Packet.wire_bytes request, server_address)] /\
  snd at_server
  = NetDriver.callback (NetDriver.m_onConnection sv)
      (NetDriver.OnConnection (NetDriver.next_conn sv)) /\
  snd server_flush = [(Packet.wire_bytes accept, client_address)] /\
  snd at_client
  = NetDriver.callback (NetDriver.m_onConnection cl)
      (NetDriver.OnConnection (NetDriver.next_conn cl)) /\
  (exists c,
     NetDriver.deref (fst at_client) (NetDriver.next_conn cl) = Some c /\
     NetDriver.m_serverConnection (fst at_client)
     = Some (NetDriver.next_conn cl) /\
     NetConnection.m_address c = server_address /\
     NetConnection.m_state c = Connected /\
     NetConnection.m_outgoingQueue c = [] /\
     NetConnection.m_reliableBuffer c = <[0 := request]> ∅) /\
  (exists c,
     NetDriver.m_connections (fst (fst server_flush))
     = [(NetDriver.next_conn sv, c)] /\
     NetConnection.m_address c = client_address /\
     NetConnection.m_state c = Connected /\
     NetConnection.m_outgoingQueue c = [] /\
     NetConnection.m_reliableBuffer c = <[0 := accept]> ∅).
Proof.
  intros Hmode Hcl Hserver Hsv Hroom Hb1 Hb2 request accept.
  assert (Hreq : Packet.well_formed request)
    by (apply DriverMore.well_formed_of_type; unfold in_unsigned;
        split; vm_compute; (reflexivity || congruence)).
  assert (Hacc : Packet.well_formed accept)
    by (apply DriverMore.well_formed_of_type; unfold in_unsigned;
        split; vm_compute; (reflexivity || congruence)).
  cbv zeta.
  rewrite (DriverMore.ConnectToServer_first cl server_address Hmode Hcl).
  cbn [fst snd].
  set (c1 := NetConnection.SendPacket (NetConnection.create server_address)
               (Packet.of_type PacketType.ConnectionRequest) true).
  rewrite (DriverMore.FlushOutgoingPackets_single _ (NetDriver.next_conn cl) c1)
    by reflexivity.
  rewrite (DriverMore.receive_first_request sv client_address request Hreq
             eq_refl Hserver Hsv Hroom).
  cbn [fst snd].
  rewrite (DriverMore.FlushOutgoingPackets_single _ (NetDriver.next_conn sv)
             (NetDriver.accepted client_address)) by reflexivity.
  rewrite (DriverMore.receive_ConnectionAccept _ server_address accept Hacc
             eq_refl).
  unfold NetDriver.IsClient.
  cbn [fst snd NetDriver.with_connections NetDriver.m_mode
       NetDriver.m_serverConnection NetDriver.m_onConnection
       NetDriver.m_connections].
  rewrite Hmode. cbn [fst snd].
  destruct (DriverMore.FlushOutgoing_one c1 request b1 rc eq_refl Hb1)
    as (F1s & _ & F1q & F1b & F1st & F1a).
  destruct (DriverMore.FlushOutgoing_one (NetDriver.accepted client_address)
              accept b2 rs eq_refl Hb2)
    as (F2s & _ & F2q & F2b & F2st & F2a).
  split; [reflexivity|]. split; [exact F1s|]. split; [reflexivity|].
  split; [exact F2s|]. split; [reflexivity|].
  split.
  - eexists. rewrite NetDriverFacts.deref_update.
    unfold NetDriver.deref, NetDriver.update.
    cbn [NetDriver.with_connections NetDriver.m_connections
         NetDriver.m_serverConnection List.find fst snd].
    rewrite Nat.eqb_refl. cbn [fmap option_fmap option_map snd].
    split; [reflexivity|]. split; [reflexivity|].
    cbn [NetConnection.SetState NetConnection.m_address NetConnection.m_state
         NetConnection.m_outgoingQueue NetConnection.m_reliableBuffer].
    rewrite F1a, F1q, F1b. repeat split; reflexivity.
  - eexists. split; [reflexivity|].
    rewrite F2a, F2q, F2b, F2st. repeat split; reflexivity.
Qed.

(** An instance: a new client and a server with room for two peers. *)
Lemma handshake_witness :
  snd (NetDriverOps.FlushOutgoingPackets
         (fst (NetDriver.receive_datagram (Scenario.server 2) Scenario.peer_addr
                 (Packet.wire_bytes
                    (Packet.SetSequence
                       (Packet.of_type PacketType.ConnectionRequest) 0))))
         (Socket.mk true [12]))
  = [(Packet.wire_bytes
        (Packet.SetSequence (Packet.of_type PacketType.ConnectionAccept) 0),
      Scenario.peer_addr)].
Proof.
  destruct (handshake
              (NetDriver.mk NetworkMode.Client DEFAULT_MAX_CONNECTIONS [] []
                 None true true true 0%nat)
              (Scenario.server 2) Scenario.server_addr Scenario.peer_addr
              12 12 [] [])
    as (_ & _ & _ & H & _).
  - reflexivity.
  - reflexivity.
  - reflexivity.
  - reflexivity.
  - simpl. lia.
  - lia.
  - lia.
  - exact H.
Defined.

(** X11. A client does not check who sent a [ConnectionAccept]. Let a
    datagram hold a well-formed packet of kind [ConnectionAccept], with
    any sender address, sequence number and payload. [ReceivePackets]
    takes it from the socket. When it fits the receive buffer of
    [MAX_PACKET_SIZE * 2] bytes, a client that has a server connection
    puts that connection in state [Connected] (whatever its state was)
    and runs its on-connect callback; nothing else about the connection
    changes: no acknowledgement is queued and the packet is not counted
    as received. A driver that is not a client, or a client without a
    server connection, ignores the datagram. When the datagram is
    longer than the receive buffer, it is cut, fails to deserialise and
    is ignored by every driver. *)
Theorem accept_from_any_sender
    (d : NetDriver.t) (from : Address) (P : Packet.t) :
  Packet.well_formed P ->
  Packet.GetType P = PacketType.ConnectionAccept ->
  let r := NetDriver.ReceivePackets d [(from, Packet.wire_bytes P)] in
  snd r = [] /\
  (fits_buffer P ->
   (forall s,
      NetDriver.IsClient d = true ->
      NetDriver.m_serverConnection d = Some s ->
      snd (fst r) = NetDriver.callback (NetDriver.m_onConnection d)
                      (NetDriver.OnConnection s) /\
      NetDriver.deref (fst (fst r)) s
      = (fun c => NetConnection.SetState c Connected) <$> NetDriver.deref d s /\
      NetDriver.m_connectionList (fst (fst r)) = NetDriver.m_connectionList d /\
      map fst (NetDriver.m_connections (fst (fst r)))
      = map fst (NetDriver.m_connections d)) /\
   (NetDriver.IsClient d = false \/ NetDriver.m_serverConnection d = None ->
    fst r = (d, []))) /\
  (~ fits_buffer P -> fst r = (d, [])).
Proof.
  intros HP Ht r.
  assert (Hwf : BitStream.wf (Packet.m_payload P)) by apply HP.
  assert (Hlen : length (Packet.wire_bytes P)
                 = (12 + BitStream.GetSize (Packet.m_payload P))%nat)
    by now apply WireFacts.wire_length.
  assert (Hloop : r = (let '(d1, ev1) :=
                         NetDriver.receive_datagram d from
                           (firstn (MAX_PACKET_SIZE * 2) (Packet.wire_bytes P)) in
                       (d1, ev1 ++ [], []))).
  { subst r. unfold NetDriver.ReceivePackets.
    change 100%nat with (S 99). cbn [NetDriver.receive_loop].
    destruct (Nat.eqb_spec
                (length (firstn (MAX_PACKET_SIZE * 2) (Packet.wire_bytes P))) 0)
      as [E|_].
    - rewrite length_firstn, Hlen in E. unfold MAX_PACKET_SIZE in E. lia.
    - now destruct (NetDriver.receive_datagram d from _). }
  rewrite Hloop. clear Hloop r. split.
  { now destruct (NetDriver.receive_datagram d from _). }
  split.
  - intros Hfit. rewrite (WireFacts.buffer_fits P Hwf Hfit).
    rewrite (DriverMore.receive_ConnectionAccept d from P HP Ht).
    split.
    + intros s Hc Hs. rewrite Hc, Hs. cbn [fst snd]. rewrite app_nil_r.
      split; [reflexivity|].
      split; [apply NetDriverFacts.deref_update|].
      split; [reflexivity|].
      unfold NetDriver.update, NetDriver.with_connections.
      cbn [NetDriver.m_connections]. rewrite map_map.
      apply map_ext. intros [q c]. cbn [fst snd].
      now destruct (Nat.eqb q s).
    + intros [Hc|Hs].
      * now rewrite Hc.
      * rewrite Hs. now destruct (NetDriver.IsClient d).
  - intros Hbig.
    rewrite (NetDriverFacts.receive_datagram_rejected d from _
               (WireFacts.cut_datagram_rejected P Packet.create HP Hbig)).
    reflexivity.
Qed.

(** An instance: the connecting client of the example takes an accept
    that comes from an address other than the server's. *)
Lemma accept_from_any_sender_witness :
  NetConnection.m_state
    <$> NetDriver.deref
          (fst (fst (NetDriver.ReceivePackets Scenario.client
                       [(Scenario.other_addr,
                         Packet.wire_bytes
                           (Packet.SetSequence
                              (Packet.of_type PacketType.ConnectionAccept) 77))])))
          0%nat
  = Some Connected.
Proof.
  destruct (accept_from_any_sender Scenario.client Scenario.other_addr
              (Packet.SetSequence
                 (Packet.of_type PacketType.ConnectionAccept) 77))
    as (_ & H & _).
  - apply DriverMore.well_formed_of_type; unfold in_unsigned;
      split; vm_compute; (reflexivity || congruence).
  - reflexivity.
  - destruct H as [H _]; [unfold fits_buffer; vm_compute; lia|].
    destruct (H 0%nat eq_refl eq_refl) as (_ & Hd & _).
    rewrite Hd. reflexivity.
Defined.


Module TimeoutFacts.
Import NetDriver.

Lemma filter_update (cs : list (conn_ptr * NetConnection.t)) (p : conn_ptr)
    (f : NetConnection.t -> NetConnection.t) :
  List.filter (fun e => negb (Nat.eqb (fst e) p))
    (map (fun e => if Nat.eqb (fst e) p then (fst e, f (snd e)) else e) cs)
  = List.filter (fun e => negb (Nat.eqb (fst e) p)) cs.
Proof.
  induction cs as [|[q c] cs IH]; [reflexivity|].
  cbn [map List.filter fst snd].
  destruct (Nat.eqb q p) eqn:E; cbn [fst negb]; rewrite ?E; cbn [negb];
    now rewrite IH.
Qed.

Lemma RemoveConnection_update (d : t) (p : conn_ptr)
    (f : NetConnection.t -> NetConnection.t) :
  RemoveConnection (update d p f) p = RemoveConnection d p.
Proof.
  unfold RemoveConnection, update, with_connections.
  cbn [m_connections m_connectionList m_serverConnection next_conn
         m_mode m_maxConnections m_onConnection m_onDisconnection m_onPacket].
  now rewrite filter_update.
Qed.

Lemma DisconnectClient_spec (d : t) (p : conn_ptr) :
  NetDriverOps.DisconnectClient d (Some p)
  = (RemoveConnection d p,
     callback (m_onDisconnection d) (OnDisconnection p)).
Proof.
  unfold NetDriverOps.DisconnectClient, SendPacket.
  now rewrite !RemoveConnection_update.
Qed.

Lemma deref_RemoveConnection (d : t) (p q : conn_ptr) :
  deref (RemoveConnection d p) q = if Nat.eqb q p then None else deref d q.
Proof.
  unfold deref, RemoveConnection, with_connections; cbn [m_connections].
  induction (m_connections d) as [|[r c] cs IH].
  - now destruct (Nat.eqb q p).
  - cbn [List.filter List.find fst].
    destruct (Nat.eqb_spec r p) as [->|Hrp]; cbn [negb].
    + rewrite IH. destruct (Nat.eqb_spec q p) as [->|Hqp].
      * reflexivity.
      * destruct (Nat.eqb_spec p q); [congruence|reflexivity].
    + cbn [List.find fst]. destruct (Nat.eqb_spec r q) as [->|Hrq].
      * destruct (Nat.eqb_spec q p); [congruence|reflexivity].
      * exact IH.
Qed.

(** The sweep over the pointers collected beforehand. *)
Lemma sweep_spec (l : list conn_ptr) :
  forall (d : t) (ev : list Event),
    fold_left
      (fun '(d, ev) p =>
         let '(d', ev') := NetDriverOps.DisconnectClient d (Some p) in
         (d', ev ++ ev'))
      l (d, ev)
    = (fold_left RemoveConnection l d,
       ev ++ flat_map (fun p => callback (m_onDisconnection d) (OnDisconnection p)) l).
Proof.
  induction l as [|p l IH]; intros d ev; cbn [fold_left flat_map].
  - now rewrite app_nil_r.
  - rewrite DisconnectClient_spec, IH. now rewrite <- app_assoc.
Qed.

Lemma fold_RemoveConnection (l : list conn_ptr) :
  forall d : t,
    m_connections (fold_left RemoveConnection l d)
    = List.filter (fun e => negb (existsb (Nat.eqb (fst e)) l)) (m_connections d) /\
    m_connectionList (fold_left RemoveConnection l d)
    = List.filter (fun q => negb (existsb (Nat.eqb q) l)) (m_connectionList d).
Proof.
  induction l as [|p l IH]; intros d; cbn [fold_left existsb].
  - split; symmetry; apply List.forallb_filter_id; apply List.forallb_forall;
      reflexivity.
  - destruct (IH (RemoveConnection d p)) as [-> ->].
    unfold RemoveConnection, with_connections;
      cbn [m_connections m_connectionList].
    split.
    + induction (m_connections d) as [|[q c] cs IHc]; [reflexivity|].
      cbn [List.filter fst]. destruct (Nat.eqb q p); cbn [negb orb List.filter fst].
      * exact IHc.
      * destruct (existsb _ l); cbn [negb]; now rewrite IHc.
    + induction (m_connectionList d) as [|q cs IHc]; [reflexivity|].
      cbn [List.filter]. destruct (Nat.eqb q p); cbn [negb orb List.filter].
      * exact IHc.
      * destruct (existsb _ l); cbn [negb]; now rewrite IHc.
Qed.

Lemma filter_map_fst (P : conn_ptr -> bool)
    (cs : list (conn_ptr * NetConnection.t)) :
  List.filter P (map fst cs) = map fst (List.filter (fun e => P (fst e)) cs).
Proof.
  induction cs as [|e cs IH]; [reflexivity|].
  cbn [map List.filter]. destruct (P (fst e)); cbn [map]; now rewrite IH.
Qed.

(** Under distinct addresses every owned entry is what its pointer
    dereferences to. *)
Lemma deref_owned (d : t) (e : conn_ptr * NetConnection.t) :
  List.NoDup (map fst (m_connections d)) ->
  In e (m_connections d) -> deref d (fst e) = Some (snd e).
Proof.
  unfold deref. induction (m_connections d) as [|[q c] cs IH];
    intros Hnd Hin; [destruct Hin|].
  cbn [map fst] in Hnd. apply List.NoDup_cons_iff in Hnd.
  destruct Hnd as [Hq Hnd]. cbn [List.find fst].
  destruct Hin as [<-|Hin].
  - cbn [fst snd]. now rewrite Nat.eqb_refl.
  - destruct (Nat.eqb_spec q (fst e)) as [->|Hne].
    + exfalso. apply Hq. now apply List.in_map.
    + now apply IH.
Qed.

Lemma existsb_fst (cs : list (conn_ptr * NetConnection.t))
    (T : conn_ptr * NetConnection.t -> bool) (e : conn_ptr * NetConnection.t) :
  List.NoDup (map fst cs) -> In e cs ->
  existsb (Nat.eqb (fst e)) (map fst (List.filter T cs)) = T e.
Proof.
  intros Hnd Hin. destruct (T e) eqn:ET.
  - apply List.existsb_exists. exists (fst e). split; [|apply Nat.eqb_refl].
    apply List.in_map. apply List.filter_In. now split.
  - apply Bool.not_true_is_false. intros H.
    apply List.existsb_exists in H. destruct H as (q & Hq & Heq).
    apply Nat.eqb_eq in Heq. subst q.
    apply List.in_map_iff in Hq. destruct Hq as (e' & Hfst & He').
    apply List.filter_In in He'. destruct He' as [He' HT].
    assert (e' = e); [|congruence].
    clear ET HT. induction cs as [|x cs IH]; [destruct Hin|].
    cbn [map] in Hnd. apply List.NoDup_cons_iff in Hnd. destruct Hnd as [Hx Hnd].
    destruct Hin as [->|Hin], He' as [->|He']; try reflexivity.
    + exfalso. apply Hx. rewrite <- Hfst. now apply List.in_map.
    + exfalso. apply Hx. rewrite Hfst. now apply List.in_map.
    + now apply IH.
Qed.

End TimeoutFacts.

(** X12. [DisconnectClient] never notifies the peer. The call queues a
    [Disconnect] packet on the connection, marks it [Disconnected], runs
    the on-disconnect callback and destroys the connection before any
    flush: the driver afterwards is exactly what [RemoveConnection] alone
    gives, the pointer no longer dereferences, every other connection is
    as before, and the one effect towards the application is the
    callback. A null pointer does nothing. *)
Theorem disconnect_discards_farewell (d : NetDriver.t) (p : NetDriver.conn_ptr) :
  let r := NetDriverOps.DisconnectClient d (Some p) in
  fst r = NetDriver.RemoveConnection d p /\
  snd r = NetDriver.callback (NetDriver.m_onDisconnection d)
            (NetDriver.OnDisconnection p) /\
  NetDriver.deref (fst r) p = None /\
  (forall q, q <> p -> NetDriver.deref (fst r) q = NetDriver.deref d q) /\
  ~ In p (NetDriver.m_connectionList (fst r)) /\
  NetDriverOps.DisconnectClient d None = (d, []).
Proof.
  intros r. subst r. rewrite TimeoutFacts.DisconnectClient_spec. cbn [fst snd].
  split; [reflexivity|]. split; [reflexivity|].
  split; [rewrite TimeoutFacts.deref_RemoveConnection; now rewrite Nat.eqb_refl|].
  split.
  - intros q Hq. rewrite TimeoutFacts.deref_RemoveConnection.
    now destruct (Nat.eqb_spec q p).
  - split; [|reflexivity].
    unfold NetDriver.RemoveConnection, NetDriver.with_connections.
    cbn [NetDriver.m_connectionList]. intros H.
    apply List.filter_In in H. destruct H as [_ H].
    now rewrite Nat.eqb_refl in H.
Qed.

(** X13. The timeout sweep. On a server whose owned connections lie at
    distinct addresses and whose pointer list names exactly them,
    [CheckTimeouts] removes exactly the connections that have received
    nothing for more than the 30-second timeout and leaves the others as
    they are and in order; the pointer list again names exactly the owned
    connections; the on-disconnect callback runs once for each removed
    connection, in order. A driver that is not a server (a client with a
    silent server connection, say) does nothing. *)
Theorem timeout_sweep (gt : float32 -> float32 -> bool) (d : NetDriver.t) :
  NetDriverOps.well_formed d ->
  let timedOut e :=
    NetConnectionIO.IsTimedOut gt (snd e) NetDriverOps.m_connectionTimeout in
  let r := NetDriverOps.CheckTimeouts gt d in
  (NetDriver.IsServer d = true ->
   NetDriver.m_connections (fst r)
   = List.filter (fun e => negb (timedOut e)) (NetDriver.m_connections d) /\
   NetDriver.m_connectionList (fst r)
   = map fst (NetDriver.m_connections (fst r)) /\
   snd r
   = flat_map
       (fun e => NetDriver.callback (NetDriver.m_onDisconnection d)
                   (NetDriver.OnDisconnection (fst e)))
       (List.filter timedOut (NetDriver.m_connections d))) /\
  (NetDriver.IsServer d = false -> r = (d, [])).
Proof.
  intros [Hnd Hlist] timedOut r. apply NoDup_ListNoDup in Hnd.
  subst r. unfold NetDriverOps.CheckTimeouts.
  split; [|intros ->; reflexivity].
  intros ->. cbn [negb].
  assert (Hcollected :
    List.filter
      (fun p => match NetDriver.deref d p with
                | Some c => NetConnectionIO.IsTimedOut gt c
                              NetDriverOps.m_connectionTimeout
                | None => false
                end)
      (NetDriver.m_connectionList d)
    = map fst (List.filter timedOut (NetDriver.m_connections d))).
  { rewrite Hlist, TimeoutFacts.filter_map_fst. f_equal.
    apply List.filter_ext_in. intros e He.
    now rewrite (TimeoutFacts.deref_owned d e Hnd He). }
  rewrite Hcollected, TimeoutFacts.sweep_spec. cbn [fst snd app].
  destruct (TimeoutFacts.fold_RemoveConnection
              (map fst (List.filter timedOut (NetDriver.m_connections d))) d)
    as [Hc Hl].
  assert (Hkeep :
    List.filter
      (fun e => negb (existsb (Nat.eqb (fst e))
                        (map fst (List.filter timedOut (NetDriver.m_connections d)))))
      (NetDriver.m_connections d)
    = List.filter (fun e => negb (timedOut e)) (NetDriver.m_connections d)).
  { apply List.filter_ext_in. intros e He.
    now rewrite (TimeoutFacts.existsb_fst _ timedOut e Hnd He). }
  split; [now rewrite Hc|]. split.
  - rewrite Hl, Hc, Hkeep, Hlist, TimeoutFacts.filter_map_fst. f_equal.
    apply List.filter_ext_in. intros e He.
    now rewrite (TimeoutFacts.existsb_fst _ timedOut e Hnd He).
  - now rewrite flat_map_concat_map, map_map, <- flat_map_concat_map.
Qed.

(** An instance: of two peers connected for 45 seconds, the one that has
    been silent is removed and the one that sent a heartbeat stays. *)
Lemma timeout_sweep_witness :
  map (fun e => NetConnection.m_address (snd e))
    (NetDriver.m_connections
       (fst (NetDriverOps.CheckTimeouts Scenario.gt Scenario.quiet_server)))
  = [Scenario.other_addr].
Proof.
  destruct (timeout_sweep Scenario.gt Scenario.quiet_server) as [H _].
  - split; [|vm_compute; reflexivity].
    apply NoDup_ListNoDup. vm_compute.
    repeat constructor; cbn; intuition congruence.
  - destruct (H eq_refl) as [Hc _]. rewrite Hc. vm_compute. reflexivity.
Defined.

(** ** A World driven through its own operations *)

Module ReachFacts.
Import World WorldOps TickFacts WorldInvariant.

Lemma NoDup_map_filter {A B : Type} (f : A -> B) (P : A -> bool) (l : list A) :
  NoDup (map f l) -> NoDup (map f (List.filter P l)).
Proof.
  rewrite !NoDup_ListNoDup.
  induction l as [|x l IH]; cbn [map List.filter]; [easy|].
  intros H. apply List.NoDup_cons_iff in H. destruct H as [Hx Hl].
  destruct (P x); cbn [map]; [|now apply IH].
  apply List.NoDup_cons_iff. split; [|now apply IH].
  intros Hin. apply Hx. apply List.in_map_iff in Hin.
  destruct Hin as (y & Hy & Hin). apply List.filter_In in Hin.
  apply List.in_map_iff. exists y. tauto.
Qed.

Lemma filter_actors_map_fst (P : actor_ptr -> bool) (l : list (actor_ptr * Actor.t)) :
  List.filter P (map fst l) = map fst (List.filter (fun e => P (fst e)) l).
Proof.
  induction l as [|e l IH]; [reflexivity|].
  cbn [map List.filter]. destruct (P (fst e)); cbn [map]; now rewrite IH.
Qed.

Lemma deref_In (w : t) (p : actor_ptr) (a : Actor.t) :
  deref w p = Some a -> In (p, a) (m_actors w).
Proof.
  unfold deref. intros H.
  destruct (List.find _ (m_actors w)) as [[q y]|] eqn:E; [|discriminate].
  apply List.find_some in E. destruct E as [Hin Heq].
  apply Nat.eqb_eq in Heq. cbn [fst snd fmap option_fmap option_map] in *.
  injection H as <-. now subst q.
Qed.

(** One round of the destroy loop keeps the id bookkeeping. *)
Lemma destroy_one_ids (w w' : t) (a : actor_ptr) :
  destroy_one w a = Some w' ->
  fresh w -> ids_ok w ->
  fresh w' /\ ids_ok w' /\
  m_pendingDestroy w' = m_pendingDestroy w.
Proof.
  unfold destroy_one. destruct (deref w a) as [x|] eqn:Hx; [|discriminate].
  intros H. injection H as <-.
  intros Hf (Hu & Hb & Hn & Hc & Hl).
  split; [|split; [|reflexivity]].
  - unfold fresh in *. cbn [m_actors next_actor].
    rewrite List.Forall_forall in *. intros e He.
    apply List.filter_In in He. now apply Hf.
  - unfold ids_ok, unique_ids, live_ids, complete in *.
    cbn [m_actors m_actorList m_actorsByNetId m_nextNetId].
    split; [now apply NoDup_map_filter|].
    split.
    { rewrite List.Forall_forall in *. intros id Hid.
      apply Hb. apply List.in_map_iff in Hid.
      destruct Hid as (e & He & Hin). apply List.filter_In in Hin.
      apply List.in_map_iff. exists e. tauto. }
    split; [exact Hn|]. split.
    { intros p y Hin. apply List.filter_In in Hin.
      destruct Hin as [Hin Hp]. cbn [fst] in Hp.
      rewrite lookup_delete_ne; [now apply Hc|].
      intros Heq. apply deref_In in Hx. apply Hc in Hx.
      apply Hc in Hin. rewrite <- Heq in Hin.
      assert (p = a) by congruence. subst p.
      now rewrite Nat.eqb_refl in Hp. }
    rewrite Hl. apply filter_actors_map_fst.
Qed.

Lemma destroy_pending_ids (l : list actor_ptr) :
  forall (w w2 : t) (ev : list Event),
    destroy_pending l w = Some (w2, ev) ->
    fresh w -> ids_ok w -> fresh w2 /\ ids_ok w2.
Proof.
  induction l as [|a l IH]; intros w w2 ev H Hf Hi; cbn [destroy_pending] in H.
  - injection H as <- <-. now split.
  - destruct (destroy_one w a) as [w1|] eqn:E1; [|discriminate].
    destruct (destroy_pending l w1) as [[w3 ev3]|] eqn:E; [|discriminate].
    injection H as <- <-.
    destruct (destroy_one_ids _ _ _ E1 Hf Hi) as (Hf1 & Hi1 & _).
    exact (IH _ _ _ E Hf1 Hi1).
Qed.

Lemma ids_ok_same (w w' : t) :
  same_actors w w' -> m_nextNetId w' = m_nextNetId w ->
  ids_ok w -> ids_ok w'.
Proof.
  intros (A & B & C) N (Hu & Hb & Hn & Hc & Hl).
  unfold ids_ok, unique_ids, live_ids, complete in *.
  rewrite A, B, C, N. repeat split; assumption.
Qed.

Lemma perform_nextNetId (w : t) (c : Call) :
  m_nextNetId (perform w c) = m_nextNetId w.
Proof.
  rewrite perform_requested.
  destruct (requested w c) as [p|]; [|reflexivity]. cbn [DestroyActor].
  now destruct (existsb _ _).
Qed.

Lemma fold_perform_nextNetId (cs : list Call) :
  forall w : t, m_nextNetId (fold_left perform cs w) = m_nextNetId w.
Proof.
  induction cs as [|c cs IH]; intros w; [reflexivity|].
  cbn [fold_left]. now rewrite IH, perform_nextNetId.
Qed.

Lemma tick_actors_nextNetId (hook : TickHook) (dt : float32)
    (l : list actor_ptr) :
  forall w : t, m_nextNetId (fst (tick_actors hook dt l w)) = m_nextNetId w.
Proof.
  induction l as [|a l IH]; intros w; [reflexivity|].
  cbn [tick_actors]. specialize (IH (fold_left perform (hook dt a w) w)).
  destruct (tick_actors hook dt l _) as [w2 ev]. cbn [fst] in *.
  now rewrite IH, fold_perform_nextNetId.
Qed.

(** [Tick] returns: no pending pointer dangles. *)
Lemma Tick_returns (hook : TickHook) (dt : float32) (w : t) :
  valid w -> destroys_live_only hook w ->
  exists w2 ev, World.Tick hook dt w = Some (w2, ev).
Proof.
  intros (Hf & Hc & Hnd & Hlive) Hhook. unfold World.Tick.
  assert (Hinv : tick_invariant w w)
    by (split; [apply same_actors_refl|now split]).
  destruct (tick_actors_spec hook dt w Hhook Hc (m_actorList w) w Hinv)
    as (_ & (Hsame & Hnd1 & Hlive1) & _).
  destruct (tick_actors hook dt (m_actorList w) w) as [w1 ev1].
  cbn [fst] in *.
  assert (Hlive1' : Forall (is_live w1) (m_pendingDestroy w1)).
  { rewrite List.Forall_forall in *. intros b Hb.
    apply (same_actors_live w w1 b Hsame). now apply Hlive1. }
  destruct (destroy_pending_spec (m_pendingDestroy w1) w1 Hnd1 Hlive1'
              (same_actors_consistent w w1 Hsame Hc)) as (w2 & E & _).
  rewrite E. eauto.
Qed.

Lemma Tick_ids (hook : TickHook) (dt : float32) (w w2 : t) (ev : list Event) :
  valid w -> destroys_live_only hook w -> ids_ok w ->
  World.Tick hook dt w = Some (w2, ev) -> ids_ok w2.
Proof.
  intros (Hf & Hc & Hnd & Hlive) Hhook Hi HT. unfold World.Tick in HT.
  assert (Hinv : tick_invariant w w)
    by (split; [apply same_actors_refl|now split]).
  destruct (tick_actors_spec hook dt w Hhook Hc (m_actorList w) w Hinv)
    as (_ & (Hsame & _) & _).
  pose proof (tick_actors_nextNetId hook dt (m_actorList w) w) as Hn.
  pose proof (tick_actors_next hook dt (m_actorList w) w) as Hp.
  destruct (tick_actors hook dt (m_actorList w) w) as [w1 ev1].
  cbn [fst] in *.
  destruct (destroy_pending (m_pendingDestroy w1) w1) as [[w3 ev3]|] eqn:E;
    [|discriminate].
  injection HT as <- <-.
  assert (Hf1 : fresh w1).
  { unfold fresh. destruct Hsame as (A & _). now rewrite A, Hp. }
  destruct (destroy_pending_ids _ _ _ _ E Hf1 (ids_ok_same w w1 Hsame Hn Hi))
    as [_ Hi3].
  exact Hi3.
Qed.

Lemma SpawnActor_ids (w : t) (a : Actor.t) :
  fresh w -> ids_ok w -> m_nextNetId w + 1 < 2 ^ 32 ->
  ids_ok (fst (fst (SpawnActor w (Some a)))).
Proof.
  intros Hf (Hu & Hb & Hn & Hc & Hl) Hw.
  destruct (WorldFacts.SpawnActor_unique w a Hu Hb Hw Hn) as (U & B & L).
  split; [exact U|]. split; [exact B|].
  unfold SpawnActor, complete in *.
  cbn [fst m_actors m_actorList m_actorsByNetId m_nextNetId
       Actor.SetWorld Actor.SetNetId Actor.m_netId].
  split; [unfold wrap; apply Z.mod_pos_bound; lia|].
  split; [|rewrite Hl, map_app; reflexivity].
  intros p x Hin. apply List.in_app_iff in Hin.
  destruct Hin as [Hin|[Heq|[]]].
  - rewrite lookup_insert_ne; [now apply Hc|].
    rewrite List.Forall_forall in Hb.
    assert (Actor.m_netId x < m_nextNetId w); [|lia].
    apply Hb. unfold live_ids. apply List.in_map_iff. now exists (p, x).
  - injection Heq as <- <-. cbn [Actor.m_netId]. apply lookup_insert_eq.
Qed.

Lemma valid_RegisterActorType (w : t) (n : string) (f : option Actor.t) :
  valid w -> valid (RegisterActorType w n f).
Proof. intros H. exact H. Qed.

Lemma valid_Clear (w : t) : valid (fst (World.Clear w)).
Proof.
  split; [constructor|]. split.
  - intros id a H. cbn in H. now rewrite lookup_empty in H.
  - split; constructor.
Qed.

Lemma ids_ok_Clear (w : t) : ids_ok (fst (World.Clear w)).
Proof.
  unfold ids_ok, unique_ids, live_ids, complete. cbn.
  split; [constructor|]. split; [constructor|]. split; [lia|].
  split; [intros ? ? []|reflexivity].
Qed.

(** The invariant of the reachable Worlds. *)
Lemma reachable_invariant (w : t) : reachable w -> valid w /\ ids_ok w.
Proof.
  induction 1 as [|w op w' _ [Hv Hi] Hal Hstep].
  - split; [apply valid_create|].
    unfold ids_ok, unique_ids, live_ids, complete. cbn.
    split; [constructor|]. split; [constructor|]. split; [lia|].
    split; [intros ? ? []|reflexivity].
  - destruct op as [[a|]|n|n f|a|id|hook dt|]; cbn [step allowed] in *.
    + injection Hstep as <-. split; [now apply valid_SpawnActor|].
      apply SpawnActor_ids; [apply Hv|exact Hi|exact Hal].
    + injection Hstep as <-. now split.
    + injection Hstep as <-. unfold SpawnActorByType.
      destruct (m_actorFactories w !! n) as [[a|]|]; [|now split|now split].
      split; [now apply valid_SpawnActor|].
      apply SpawnActor_ids; [apply Hv|exact Hi|exact Hal].
    + injection Hstep as <-. split; [exact Hv|exact Hi].
    + injection Hstep as <-.
      change (DestroyActor w a) with (perform w (CallDestroyActor a)).
      split.
      * apply valid_perform; [exact Hv|].
        intros p Hp. cbn [requested] in Hp. now subst a.
      * apply (ids_ok_same w); [|apply perform_nextNetId|exact Hi].
        rewrite perform_requested. destruct (DestroyActor_frame w
          (requested w (CallDestroyActor a))) as (A & B & C).
        now repeat split.
    + injection Hstep as <-.
      change (DestroyActorById w id) with (perform w (CallDestroyActorById id)).
      split.
      * apply valid_perform; [exact Hv|].
        intros p Hp. cbn [requested] in Hp.
        destruct Hv as (_ & Hc & _). destruct (Hc _ _ Hp) as (x & Hx & _).
        now apply deref_Some_live in Hx.
      * apply (ids_ok_same w); [|apply perform_nextNetId|exact Hi].
        rewrite perform_requested. destruct (DestroyActor_frame w
          (requested w (CallDestroyActorById id))) as (A & B & C).
        now repeat split.
    + destruct (World.Tick hook dt w) as [[w2 ev]|] eqn:ET; [|discriminate].
      cbn in Hstep. injection Hstep as <-.
      split; [now apply (valid_Tick hook dt w w2 ev)|].
      now apply (Tick_ids hook dt w w2 ev).
    + injection Hstep as <-. split; [apply valid_Clear|apply ids_ok_Clear].
Qed.

Lemma destroy_pending_pointers (l : list actor_ptr) :
  forall (w w2 : t) (ev : list Event),
    destroy_pending l w = Some (w2, ev) ->
    NoDup (map fst (m_actors w)) -> NoDup (map fst (m_actors w2)).
Proof.
  induction l as [|a l IH]; intros w w2 ev H Hnd; cbn [destroy_pending] in H.
  - now injection H as <- <-.
  - unfold destroy_one in H. destruct (deref w a) as [x|]; [|discriminate].
    destruct (destroy_pending l _) as [[w3 ev3]|] eqn:E; [|discriminate].
    injection H as <- <-. apply (IH _ _ _ E). cbn [m_actors].
    now apply NoDup_map_filter.
Qed.

(** The live actors of a reachable World lie at distinct addresses. *)
Lemma reachable_pointers (w : t) :
  reachable w -> NoDup (map fst (m_actors w)).
Proof.
  induction 1 as [|w op w' Hr IH Hal Hstep]; [constructor|].
  destruct (reachable_invariant w Hr) as [Hv _].
  assert (Hspawn : forall a,
            NoDup (map fst (m_actors (fst (fst (SpawnActor w (Some a))))))).
  { intros a. unfold SpawnActor. cbn [fst m_actors]. rewrite map_app.
    cbn [map fst]. apply NoDup_app. split; [exact IH|].
    split; [|apply NoDup_singleton].
    intros x Hx Hx'. apply list_elem_of_In in Hx, Hx'.
    destruct Hx' as [<-|[]]. apply List.in_map_iff in Hx.
    destruct Hx as (e & He & Hin). destruct Hv as (Hf & _).
    unfold fresh in Hf. rewrite List.Forall_forall in Hf.
    specialize (Hf e Hin). lia. }
  destruct op as [[a|]|n|n f|a|nid|hook dt|]; cbn [step] in Hstep.
  - injection Hstep as <-. apply Hspawn.
  - injection Hstep as <-. exact IH.
  - injection Hstep as <-. unfold SpawnActorByType.
    destruct (m_actorFactories w !! n) as [[a|]|]; [apply Hspawn|exact IH..].
  - injection Hstep as <-. exact IH.
  - injection Hstep as <-.
    destruct (DestroyActor_frame w a) as (A & _). now rewrite A.
  - injection Hstep as <-.
    change (DestroyActorById w nid) with (perform w (CallDestroyActorById nid)).
    rewrite perform_requested.
    destruct (DestroyActor_frame w (requested w (CallDestroyActorById nid)))
      as (A & _).
    now rewrite A.
  - cbn [allowed] in Hal.
    destruct (World.Tick hook dt w) as [[w2 ev]|] eqn:ET; [|discriminate].
    cbn in Hstep. injection Hstep as <-. unfold World.Tick in ET.
    destruct Hv as (Hf & Hc & Hnd & Hlive).
    assert (Hinv : tick_invariant w w)
      by (split; [apply same_actors_refl|now split]).
    destruct (tick_actors_spec hook dt w Hal Hc (m_actorList w) w Hinv)
      as (_ & ((A & _) & _) & _).
    destruct (tick_actors hook dt (m_actorList w) w) as [w1 ev1].
    cbn [fst] in A.
    destruct (destroy_pending (m_pendingDestroy w1) w1) as [[w3 ev3]|] eqn:E;
      [|discriminate].
    injection ET as <- <-. cbn [clear_pending m_actors].
    apply (destroy_pending_pointers _ _ _ _ E). now rewrite A.
  - injection Hstep as <-. constructor.
Qed.

(** The World of the examples with two spawned players is reachable. *)
Lemma two_players_reachable : reachable Scenario.two_players.
Proof.
  apply (reach_step
           (fst (fst (SpawnActor create (Some (Scenario.PlayerActor 100)))))
           (Spawn (Some (Scenario.PlayerActor 80)))).
  - apply (reach_step create (Spawn (Some (Scenario.PlayerActor 100)))).
    + apply reach_create.
    + vm_compute. reflexivity.
    + reflexivity.
  - vm_compute. reflexivity.
  - reflexivity.
Qed.

End ReachFacts.

(** X14. NetIds on a World driven through its own operations. In every
    World that arises from the empty World by [SpawnActor],
    [SpawnActorByType], [RegisterActorType], [DestroyActor],
    [DestroyActorById], [Tick] and [Clear] (the id counter not wrapping on
    a spawn, [DestroyActor] and the tick hooks being handed live actors
    only): every further such operation returns, in particular [Tick]
    never dereferences a removed actor; no two live actors hold the same
    NetId; [GetActorByNetId id] returns an address exactly when the live
    actor at that address holds [id]; every id in use lies below the
    counter; the iteration list names exactly the owned actors, in
    order; and the owned actors lie at distinct addresses. *)
Theorem reachable_world_ids (w : World.t) :
  WorldOps.reachable w ->
  (forall op, WorldOps.allowed w op -> exists w', WorldOps.step w op = Some w') /\
  World.unique_ids w /\
  (forall id p,
     World.GetActorByNetId w id = Some p <->
     exists a, World.deref w p = Some a /\ Actor.m_netId a = id) /\
  Forall (fun id => id < World.m_nextNetId w) (World.live_ids w) /\
  World.m_actorList w = map fst (World.m_actors w) /\
  NoDup (map fst (World.m_actors w)).
Proof.
  intros Hr. destruct (ReachFacts.reachable_invariant w Hr)
    as [Hv (Hu & Hb & Hn & Hc & Hl)].
  split.
  - intros op Hal. destruct op; cbn [WorldOps.step]; eauto.
    destruct (ReachFacts.Tick_returns hook deltaTime w Hv Hal) as (w2 & ev & E).
    rewrite E. cbn. eauto.
  - split; [exact Hu|].
    split; [|split; [exact Hb|split;
      [exact Hl|now apply ReachFacts.reachable_pointers]]].
    intros id p. split.
    + intros H. destruct Hv as (_ & Hcons & _). exact (Hcons id p H).
    + intros (a & Ha & <-). apply Hc. now apply ReachFacts.deref_In.
Qed.

(** An instance: the World with two spawned players. *)
Lemma reachable_world_ids_witness :
  World.GetActorByNetId Scenario.two_players 2 = Some 1%nat.
Proof.
  pose proof ReachFacts.two_players_reachable as Hr.
  destruct (reachable_world_ids Scenario.two_players Hr) as (_ & _ & H & _).
  apply H. eexists. split; [vm_compute; reflexivity|reflexivity].
Defined.

(** ** Messages of several fields *)

Module FieldFacts.
Import BitStream BitStreamFacts PrimFacts.

Lemma write_prim_holds (s : t) (l : list byte) (v : Prim) :
  in_range v -> holds s l -> holds (write_prim s v) (l ++ encode v).
Proof.
  intros Hv H.
  destruct v as [b|z|z|z|z|z|z|z|z|z|z|x|[x y z]|[w x y z]];
    cbn [write_prim encode v_x v_y v_z q_w q_x q_y q_z];
    unfold WriteBool, WriteInt8, WriteUInt8, WriteInt16, WriteUInt16,
      WriteInt32, WriteUInt32, WriteInt64, WriteUInt64, WriteFloat,
      WriteDouble, WriteVector3, WriteQuaternion, WriteFloat;
    try (now apply Write_holds).
  - cbn [in_range] in Hv. unfold WriteString, WriteUInt32, wrap.
    rewrite Z.mod_small by lia.
    apply (Write_holds _ _ (le_split 4 (Z.of_nat (String.length x)))) in H.
    destruct (Z.ltb_spec 0 (Z.of_nat (String.length x))) as [Hpos|Hzero].
    + rewrite (take_ge (list_byte_of_string x))
        by (rewrite length_list_byte_of_string; lia).
      apply (Write_holds _ _ (list_byte_of_string x)) in H.
      now rewrite <- app_assoc in H.
    + assert (Hx : x = EmptyString) by (destruct x; simpl in *; [easy|lia]).
      subst x. cbn [list_byte_of_string String.length] in *.
      now rewrite app_nil_r.
  - apply (Write_holds _ _ (le_split 4 x)) in H.
    apply (Write_holds _ _ (le_split 4 y)) in H.
    apply (Write_holds _ _ (le_split 4 z)) in H.
    now rewrite <- !app_assoc in H.
  - apply (Write_holds _ _ (le_split 4 w)) in H.
    apply (Write_holds _ _ (le_split 4 x)) in H.
    apply (Write_holds _ _ (le_split 4 y)) in H.
    apply (Write_holds _ _ (le_split 4 z)) in H.
    now rewrite <- !app_assoc in H.
Qed.

Ltac read_scalar_case H n :=
  destruct (read_scalar_holds _ n _ _ H) as [HR Hh];
  cbn [read_prim kind_of];
  unfold ReadBool, ReadInt8, ReadUInt8, ReadInt16, ReadUInt16, ReadInt32,
    ReadUInt32, ReadInt64, ReadUInt64, ReadFloat, ReadDouble;
  rewrite HR; eexists; split; [|exact Hh].

Lemma ReadString_holds (s : t) (x : string) (l : list byte) :
  Z.of_nat (String.length x) < 2 ^ 32 ->
  holds s (encode (VString x) ++ l) ->
  exists s', ReadString s = (x, s') /\ holds s' l.
Proof.
  intros Hv H. cbn [encode] in H. rewrite <- app_assoc in H.
  unfold ReadString, ReadUInt32.
  destruct (read_scalar_holds _ _ _ _ H) as [R1 H1]. rewrite R1.
  change (Z.of_nat 4 * 8) with 32. rewrite Z.mod_small by lia.
  destruct (Z.eqb_spec (Z.of_nat (String.length x)) 0) as [Hz|Hnz].
  - assert (Hx : x = EmptyString) by (destruct x; simpl in *; [easy|lia]).
    subst x. eexists. split; [reflexivity|exact H1].
  - destruct (Read_holds _ _ _ H1) as [R2 H2].
    rewrite length_list_byte_of_string in R2, H2.
    rewrite (Read_Some_CanRead _ _ _ _ R2), Nat2Z.id, R2. cbn [negb].
    rewrite string_of_list_byte_of_string.
    eexists. split; [reflexivity|exact H2].
Qed.

Lemma ReadVector3_holds (s : t) (v : vec3) (l : list byte) :
  in_range (VVector3 v) ->
  holds s (encode (VVector3 v) ++ l) ->
  exists s', ReadVector3 s = (v, s') /\ holds s' l.
Proof.
  intros (Hx & Hy & Hz) H. destruct v as [x y z].
  cbn [encode v_x v_y v_z] in *. rewrite <- !app_assoc in H.
  unfold ReadVector3, ReadFloat.
  destruct (read_scalar_holds _ _ _ _ H) as [R1 H1]. rewrite R1.
  destruct (read_scalar_holds _ _ _ _ H1) as [R2 H2]. rewrite R2.
  destruct (read_scalar_holds _ _ _ _ H2) as [R3 H3]. rewrite R3.
  rewrite !(unsigned_small 4) by assumption.
  eexists. split; [reflexivity|exact H3].
Qed.

Lemma ReadQuaternion_holds (s : t) (q : quat) (l : list byte) :
  in_range (VQuaternion q) ->
  holds s (encode (VQuaternion q) ++ l) ->
  exists s', ReadQuaternion s = (q, s') /\ holds s' l.
Proof.
  intros (Hw & Hx & Hy & Hz) H. destruct q as [w x y z].
  cbn [encode q_w q_x q_y q_z] in *. rewrite <- !app_assoc in H.
  unfold ReadQuaternion, ReadFloat.
  destruct (read_scalar_holds _ _ _ _ H) as [R1 H1]. rewrite R1.
  destruct (read_scalar_holds _ _ _ _ H1) as [R2 H2]. rewrite R2.
  destruct (read_scalar_holds _ _ _ _ H2) as [R3 H3]. rewrite R3.
  destruct (read_scalar_holds _ _ _ _ H3) as [R4 H4]. rewrite R4.
  rewrite !(unsigned_small 4) by assumption.
  eexists. split; [reflexivity|exact H4].
Qed.

Lemma ReadUInt32_holds (s : t) (z : Z) (l : list byte) :
  in_unsigned 32 z -> holds s (le_split 4 z ++ l) ->
  ReadUInt32 s = (z, advance s 4) /\ holds (advance s 4) l.
Proof.
  intros Hz H. unfold ReadUInt32.
  destruct (read_scalar_holds _ _ _ _ H) as [R1 H1]. rewrite R1.
  now rewrite (unsigned_small 4) by exact Hz.
Qed.

(** Reading a value where its encoding starts. *)
Lemma read_prim_holds (s : t) (l : list byte) (v : Prim) :
  in_range v -> holds s (encode v ++ l) ->
  exists s', read_prim s (kind_of v) = (Some v, s') /\ holds s' l.
Proof.
  intros Hv H.
  destruct v as [b|z|z|z|z|z|z|z|z|z|z|x|x|x]; cbn [encode in_range] in *.
  - read_scalar_case H 1%nat. now destruct b.
  - read_scalar_case H 1%nat.
    now rewrite (signed_small 1) by (lia || exact Hv).
  - read_scalar_case H 1%nat.
    now rewrite (unsigned_small 1) by exact Hv.
  - read_scalar_case H 2%nat.
    now rewrite (signed_small 2) by (lia || exact Hv).
  - read_scalar_case H 2%nat.
    now rewrite (unsigned_small 2) by exact Hv.
  - read_scalar_case H 4%nat.
    now rewrite (signed_small 4) by (lia || exact Hv).
  - read_scalar_case H 4%nat.
    now rewrite (unsigned_small 4) by exact Hv.
  - read_scalar_case H 8%nat.
    now rewrite (signed_small 8) by (lia || exact Hv).
  - read_scalar_case H 8%nat.
    now rewrite (unsigned_small 8) by exact Hv.
  - read_scalar_case H 4%nat.
    now rewrite (unsigned_small 4) by exact Hv.
  - read_scalar_case H 8%nat.
    now rewrite (unsigned_small 8) by exact Hv.
  - destruct (ReadString_holds s x l Hv H) as (s' & E & Hs').
    cbn [read_prim kind_of]. rewrite E. eauto.
  - destruct (ReadVector3_holds s x l Hv H) as (s' & E & Hs').
    cbn [read_prim kind_of]. rewrite E. eauto.
  - destruct (ReadQuaternion_holds s x l Hv H) as (s' & E & Hs').
    cbn [read_prim kind_of]. rewrite E. eauto.
Qed.

Lemma write_all_holds (fields : list Prim) :
  forall (s : t) (l : list byte),
    Forall in_range fields -> holds s l ->
    holds (write_all s fields) (l ++ concat (map encode fields)).
Proof.
  induction fields as [|v fields IH]; intros s l Hr H; cbn [write_all fold_left map concat].
  - now rewrite app_nil_r.
  - apply List.Forall_cons_iff in Hr. destruct Hr as [Hv Hr].
    rewrite app_assoc. apply (IH _ _ Hr). now apply write_prim_holds.
Qed.

Lemma read_all_holds (fields : list Prim) :
  forall (s : t) (l : list byte),
    Forall in_range fields ->
    holds s (concat (map encode fields) ++ l) ->
    exists s', read_all s (map kind_of fields) = (map Some fields, s') /\
               holds s' l.
Proof.
  induction fields as [|v fields IH]; intros s l Hr H; cbn [read_all map concat] in *.
  - eauto.
  - apply List.Forall_cons_iff in Hr. destruct Hr as [Hv Hr].
    rewrite <- app_assoc in H.
    destruct (read_prim_holds _ _ _ Hv H) as (s1 & E1 & H1). rewrite E1.
    destruct (IH _ _ Hr H1) as (s2 & E2 & H2). rewrite E2. eauto.
Qed.

End FieldFacts.

(** X15. Messages of several fields. Values that are representable in
    their types, written one after the other on a valid stream, are
    appended to the unread bytes in their wire encoding; and wherever the
    unread bytes of a stream start with the encodings of such values,
    reading their kinds in the same order gives the values back, in
    order, and leaves exactly the bytes that follow. In particular a
    message written on an empty stream and read back with the same
    sequence of kinds is reproduced and the stream is consumed. *)
Theorem fields_round_trip
    (s r : BitStream.t) (l rest : list byte) (fields : list Prim) :
  Forall in_range fields ->
  BitStream.holds s l ->
  BitStream.holds r (concat (map encode fields) ++ rest) ->
  BitStream.holds (write_all s fields) (l ++ concat (map encode fields)) /\
  (exists r', read_all r (map kind_of fields) = (map Some fields, r') /\
              BitStream.holds r' rest) /\
  (exists e, read_all (write_all BitStream.create fields) (map kind_of fields)
             = (map Some fields, e) /\
             BitStream.GetBytesRemaining e = 0%nat).
Proof.
  intros Hr Hs Hrd.
  split; [now apply FieldFacts.write_all_holds|].
  split; [now apply FieldFacts.read_all_holds|].
  assert (Hc : BitStream.holds BitStream.create [])
    by (split; [split; simpl; lia|reflexivity]).
  pose proof (FieldFacts.write_all_holds fields _ _ Hr Hc) as Hw.
  cbn [app] in Hw. rewrite <- (app_nil_r (concat _)) in Hw.
  destruct (FieldFacts.read_all_holds fields _ _ Hr Hw) as (e & E & He).
  exists e. split; [exact E|].
  apply PrimFacts.holds_nil in He. unfold BitStream.GetBytesRemaining.
  rewrite He. lia.
Qed.

(** An instance: an id, a function name and a flag. *)
Lemma fields_round_trip_witness :
  fst (read_all
         (write_all BitStream.create [VUInt32 7; VString "Fire"; VBool true])
         [PUInt32; PString; PBool])
  = [Some (VUInt32 7); Some (VString "Fire"); Some (VBool true)].
Proof.
  destruct (fields_round_trip BitStream.create
              (BitStream.of_data
                 (concat (map encode [VUInt32 7; VString "Fire"; VBool true])
                    ++ [Byte.x01]))
              [] [Byte.x01] [VUInt32 7; VString "Fire"; VBool true])
    as (_ & _ & e & E & _).
  - repeat constructor; vm_compute; (reflexivity || congruence).
  - split; [split; simpl; lia|reflexivity].
  - apply PacketFacts.of_data_holds.
  - cbn [map kind_of] in E. rewrite E. reflexivity.
Defined.

(** ** Messages of the managers, sent and received *)

Module DeliveryFacts.
Import BitStream.

Lemma holds_readPos_0 (s : t) (l : list byte) :
  holds s l -> m_readPos s = 0%nat -> contents s = l /\ GetSize s = length l.
Proof.
  intros [Hwf Hu] H0. unfold unread in Hu. rewrite H0 in Hu.
  cbn [skipn] in Hu. split; [exact Hu|].
  unfold GetSize. rewrite <- Hu. symmetry.
  now apply PacketFacts.length_contents.
Qed.

(** A packet with a non-empty payload, after [SendPacket] has stamped it,
    as its receiver gets it when the datagram fits the receive buffer. *)
Lemma delivered (p : Packet.t) (sequence : Z) (bytes : list byte) :
  PacketHeader.magic (Packet.m_header p) = PACKET_MAGIC ->
  in_unsigned 16 (Packet.GetType p) -> in_unsigned 32 sequence ->
  holds (Packet.m_payload p) bytes ->
  m_readPos (Packet.m_payload p) = 0%nat ->
  (0 < length bytes)%nat -> (12 + length bytes <= MAX_PACKET_SIZE * 2)%nat ->
  Packet.m_payload (over_the_wire (Packet.SetSequence p sequence))
  = of_data bytes /\
  Packet.GetType (over_the_wire (Packet.SetSequence p sequence))
  = Packet.GetType p /\
  Packet.GetSequence (over_the_wire (Packet.SetSequence p sequence)) = sequence /\
  arrives (Packet.SetSequence p sequence) = true.
Proof.
  intros Hm Ht Hs Hh H0 Hpos Hfit.
  destruct (holds_readPos_0 _ _ Hh H0) as [Hc Hsz].
  assert (Hwf : Packet.well_formed (Packet.SetSequence p sequence)).
  { split; [exact Hm|]. split; [exact Hs|]. split; [exact Ht|].
    split; [apply Hh|]. cbn [Packet.SetSequence Packet.m_payload].
    rewrite Hsz. unfold MAX_PACKET_SIZE in Hfit. lia. }
  assert (Hbuf : fits_buffer (Packet.SetSequence p sequence)).
  { unfold fits_buffer. cbn [Packet.SetSequence Packet.m_payload].
    now rewrite Hsz. }
  rewrite (WireFacts.over_the_wire_received _ Hwf Hbuf).
  rewrite (WireFacts.arrives_fits _ Hwf Hbuf).
  unfold received. cbn [Packet.m_payload Packet.SetSequence Packet.m_header
    Packet.GetType Packet.GetSequence PacketHeader.packetType
    PacketHeader.sequence].
  rewrite Hsz, Hc.
  destruct (Nat.ltb_spec 0 (length bytes)); [|lia].
  repeat split; reflexivity.
Qed.

(** The same packet when its datagram is longer than the receive buffer:
    the receive loop drops it. *)
Lemma not_delivered (p : Packet.t) (sequence : Z) (bytes : list byte) :
  PacketHeader.magic (Packet.m_header p) = PACKET_MAGIC ->
  in_unsigned 16 (Packet.GetType p) -> in_unsigned 32 sequence ->
  holds (Packet.m_payload p) bytes ->
  m_readPos (Packet.m_payload p) = 0%nat ->
  Z.of_nat (length bytes) < 2 ^ 16 ->
  (MAX_PACKET_SIZE * 2 < 12 + length bytes)%nat ->
  arrives (Packet.SetSequence p sequence) = false.
Proof.
  intros Hm Ht Hs Hh H0 Hlt Hbig.
  destruct (holds_readPos_0 _ _ Hh H0) as [Hc Hsz].
  apply WireFacts.arrives_oversize.
  - split; [exact Hm|]. split; [exact Hs|]. split; [exact Ht|].
    split; [apply Hh|]. cbn [Packet.SetSequence Packet.m_payload].
    now rewrite Hsz.
  - unfold fits_buffer. cbn [Packet.SetSequence Packet.m_payload].
    rewrite Hsz. lia.
Qed.

Lemma holds_create : holds create [].
Proof. split; [split; simpl; lia|reflexivity]. Qed.

Lemma Write_readPos (s : t) (d : list byte) :
  m_readPos (Write s d) = m_readPos s.
Proof. apply (proj2 (BitStreamFacts.Write_positions s d)). Qed.

Lemma write_prim_readPos (s : t) (v : Prim) :
  m_readPos (write_prim s v) = m_readPos s.
Proof.
  destruct v; cbn [write_prim];
    unfold WriteBool, WriteInt8, WriteUInt8, WriteInt16, WriteUInt16,
      WriteInt32, WriteUInt32, WriteInt64, WriteUInt64, WriteFloat,
      WriteDouble, WriteVector3, WriteQuaternion, WriteFloat, WriteString,
      WriteUInt32;
    try destruct (0 <? _); rewrite ?Write_readPos; reflexivity.
Qed.

Lemma WriteString_readPos (s : t) (x : string) :
  m_readPos (WriteString s x) = m_readPos s.
Proof. exact (write_prim_readPos s (VString x)). Qed.

(** The unread bytes of a stream as [BitStream(data + readPos, remaining)]
    copies them. *)
Lemma remaining_bytes (s : t) (l : list byte) :
  holds s l ->
  firstn (GetBytesRemaining s) (skipn (GetReadPos s) (GetData s)) = l.
Proof.
  intros [[Hrw Hwl] Hu]. unfold unread, contents in Hu.
  unfold GetBytesRemaining, GetReadPos, GetData.
  rewrite <- Hu. symmetry. apply skipn_firstn_comm.
Qed.

End DeliveryFacts.

(** X16. A remote call, end to end. [SendRPC] builds a packet for an
    actor id, a function name and parameter bytes; [SendPacket] stamps
    it and [FlushOutgoing] serialises it into one datagram of 20 bytes
    plus the name and the parameter bytes. When that datagram fits the
    receive buffer of [MAX_PACKET_SIZE * 2] bytes, the receive loop
    accepts it, and [ProcessRPC], on a side where the id-map has an
    entry for the id and the name is registered with the kind the packet
    was sent as, calls the registered handler once, on the actor of that
    entry, with a parameter stream that holds exactly the parameter
    bytes of the caller, read position at the start. When the datagram
    is longer than the receive buffer it is cut, fails to deserialise
    and is dropped: the call is lost. *)
Theorem rpc_round_trip
    (w : World.t) (registry : gmap string RPCManager.RPCMetadata)
    (metadata : RPCManager.RPCMetadata) (actor : World.actor_ptr)
    (actorNetId sequence : Z) (functionName : string) (params : BitStream.t) :
  in_unsigned 32 actorNetId ->
  in_unsigned 32 sequence ->
  BitStream.wf params ->
  Z.of_nat (8 + String.length functionName + BitStream.GetSize params) < 2 ^ 16 ->
  World.GetActorByNetId w actorNetId = Some actor ->
  registry !! functionName = Some metadata ->
  let sent :=
    Packet.SetSequence
      (RPCManager.rpc_packet
         (RPCManager.expectedPacketType (RPCManager.type metadata))
         actorNetId functionName params)
      sequence in
  ((20 + String.length functionName + BitStream.GetSize params
    <= MAX_PACKET_SIZE * 2)%nat ->
   arrives sent = true /\
   RPCManager.ProcessRPC w registry (over_the_wire sent)
   = Some (RPCManager.mkInvocation (RPCManager.handler metadata) actor
             (BitStream.of_data (BitStream.contents params)))) /\
  ((MAX_PACKET_SIZE * 2
    < 20 + String.length functionName + BitStream.GetSize params)%nat ->
   arrives sent = false).
Proof.
  intros Hid Hseq Hwf Hsize Hactor Hreg sent. subst sent.
  set (ty := RPCManager.expectedPacketType (RPCManager.type metadata)).
  set (bytes := le_split 4 actorNetId ++ encode (VString functionName)
                  ++ BitStream.contents params).
  assert (Hlenp : length (BitStream.contents params) = BitStream.GetSize params)
    by now apply PacketFacts.length_contents.
  assert (Hlen : length bytes
                 = (8 + String.length functionName + BitStream.GetSize params)%nat).
  { subst bytes. cbn [encode]. rewrite !length_app, !length_le_split,
      length_list_byte_of_string, Hlenp. lia. }
  assert (Hname : in_range (VString functionName)) by (cbn; lia).
  assert (Hpl : BitStream.holds
                  (Packet.m_payload
                     (RPCManager.rpc_packet ty actorNetId functionName params))
                  bytes /\
                BitStream.m_readPos
                  (Packet.m_payload
                     (RPCManager.rpc_packet ty actorNetId functionName params))
                = 0%nat).
  { unfold RPCManager.rpc_packet, Packet.WriteU32.
    cbn [Packet.with_payload Packet.m_payload].
    change (Packet.m_payload (Packet.of_type ty)) with BitStream.create.
    pose proof (BitStreamFacts.Write_holds _ _ (le_split 4 actorNetId)
                  DeliveryFacts.holds_create) as H1.
    apply (FieldFacts.write_prim_holds _ _ (VString functionName) Hname) in H1.
    cbn [write_prim app] in H1. unfold BitStream.WriteUInt32 at 1.
    destruct (Nat.ltb_spec 0 (BitStream.GetSize params)) as [Hp|Hz].
    - split.
      + apply (BitStreamFacts.Write_holds _ _ (BitStream.contents params)) in H1.
        subst bytes. now rewrite <- app_assoc in H1.
      + rewrite DeliveryFacts.Write_readPos.
        rewrite DeliveryFacts.WriteString_readPos.
        unfold BitStream.WriteUInt32.
        now rewrite DeliveryFacts.Write_readPos.
    - split.
      + subst bytes. unfold BitStream.contents at 1.
        unfold BitStream.GetSize in Hz.
        replace (BitStream.m_writePos params) with 0%nat by lia.
        cbn [firstn]. now rewrite app_nil_r.
      + rewrite DeliveryFacts.WriteString_readPos.
        unfold BitStream.WriteUInt32.
        now rewrite DeliveryFacts.Write_readPos. }
  destruct Hpl as [Hh H0].
  assert (Hty : in_unsigned 16
                  (Packet.GetType
                     (RPCManager.rpc_packet ty actorNetId functionName params))).
  { subst ty. destruct (RPCManager.type metadata);
      split; vm_compute; (reflexivity || congruence). }
  split.
  - intros Hfit.
    destruct (DeliveryFacts.delivered
                (RPCManager.rpc_packet ty actorNetId functionName params)
                sequence bytes) as (Epl & Ety & _ & Harr);
      [reflexivity|exact Hty|exact Hseq|exact Hh|exact H0|lia|lia|].
    split; [exact Harr|].
    unfold RPCManager.ProcessRPC. rewrite Epl, Ety.
    pose proof (PacketFacts.of_data_holds bytes) as Hb. subst bytes.
    destruct (FieldFacts.ReadUInt32_holds _ _ _ Hid Hb) as [R1 H1]. rewrite R1.
    destruct (FieldFacts.ReadString_holds _ _ _ Hname H1) as (s2 & R2 & H2).
    rewrite R2, Hactor, Hreg.
    change (Packet.GetType
              (RPCManager.rpc_packet ty actorNetId functionName params)) with ty.
    subst ty. rewrite Z.eqb_refl. cbn [negb].
    now rewrite (DeliveryFacts.remaining_bytes _ _ H2).
  - intros Hbig.
    apply (DeliveryFacts.not_delivered
             (RPCManager.rpc_packet ty actorNetId functionName params)
             sequence bytes);
      [reflexivity|exact Hty|exact Hseq|exact Hh|exact H0|lia|lia].
Qed.

(** An instance: a client calls [Fire] on the player with NetId 1. *)
Lemma rpc_round_trip_witness :
  RPCManager.called
    <$> RPCManager.ProcessRPC Scenario.two_players Scenario.registry
          (over_the_wire
             (Packet.SetSequence
                (RPCManager.rpc_packet PacketType.RPCServer 1 "Fire"
                   (BitStream.WriteUInt8 BitStream.create 3))
                4))
  = Some 7%nat.
Proof.
  pose proof (rpc_round_trip Scenario.two_players Scenario.registry
                (RPCManager.mkMetadata "Fire" RPCType.Server 7) 0%nat 1 4
                "Fire" (BitStream.WriteUInt8 BitStream.create 3)) as H.
  cbn [RPCManager.expectedPacketType RPCManager.type] in H.
  destruct H as [H _].
  - split; vm_compute; (reflexivity || congruence).
  - split; vm_compute; (reflexivity || congruence).
  - split; vm_compute; lia.
  - vm_compute. reflexivity.
  - vm_compute. reflexivity.
  - vm_compute. reflexivity.
  - destruct H as [_ H].
    + vm_compute. lia.
    + rewrite H. reflexivity.
Defined.

Module SpawnFacts.
Import World.

Lemma actor_deref_update (w : t) (p q : actor_ptr) (f : Actor.t -> Actor.t) :
  deref (update w p f) q
  = if Nat.eqb q p then f <$> deref w q else deref w q.
Proof.
  unfold deref, update; cbn [m_actors].
  induction (m_actors w) as [|[r c] cs IH];
    [now destruct (Nat.eqb q p)|].
  cbn [map List.find fst snd].
  destruct (Nat.eqb_spec r p) as [->|Hrp]; cbn [List.find fst snd].
  - destruct (Nat.eqb_spec p q) as [->|Hpq].
    + now rewrite Nat.eqb_refl.
    + exact IH.
  - destruct (Nat.eqb_spec r q) as [->|Hrq].
    + now destruct (Nat.eqb_spec q p).
    + exact IH.
Qed.

Lemma deref_SpawnActor (w : t) (a : Actor.t) (q : actor_ptr) :
  fresh w ->
  deref (fst (fst (SpawnActor w (Some a)))) q
  = if Nat.eqb (next_actor w) q
    then Some (Actor.SetWorld (Actor.SetNetId a (m_nextNetId w)) true)
    else deref w q.
Proof.
  intros Hf. unfold SpawnActor, deref. cbn [fst m_actors].
  rewrite (WorldInvariant.find_app_fresh _ _ _ _ Hf).
  now destruct (Nat.eqb (next_actor w) q).
Qed.

End SpawnFacts.

(** X17. Spawning on the client, end to end. The [ActorSpawn] packet the
    server builds for an actor is stamped and serialised into one
    datagram of 48 bytes plus the type name. When that datagram fits the
    receive buffer of [MAX_PACKET_SIZE * 2] bytes, the receive loop
    accepts it and it makes [HandleActorSpawn], on a World that has a
    factory for the actor's type name, construct one actor from that
    factory and give it the NetId, the position and the rotation of the
    server's actor, with replication switched on; the spawn hook runs
    once and all other actors stay as they are. When no factory is
    registered for the name, or the factory returns null, the World is
    unchanged and no hook runs. When the datagram is longer than the
    receive buffer (a type name of more than 2000 characters) it is cut,
    fails to deserialise and is dropped. *)
Theorem spawn_round_trip (w : World.t) (a : Actor.t) (sequence : Z) :
  World.fresh w ->
  in_unsigned 32 (Actor.m_netId a) ->
  in_range (VVector3 (Actor.m_position a)) ->
  in_range (VQuaternion (Actor.m_rotation a)) ->
  in_unsigned 32 sequence ->
  Z.of_nat (36 + String.length (Actor.typeName a)) < 2 ^ 16 ->
  let sent :=
    Packet.SetSequence (ReplicationManager.spawn_packet a) sequence in
  let r := ReplicationManager.HandleActorSpawn w (over_the_wire sent) in
  ((48 + String.length (Actor.typeName a) <= MAX_PACKET_SIZE * 2)%nat ->
   arrives sent = true /\
   (forall made,
     World.m_actorFactories w !! Actor.typeName a = Some (Some made) ->
     snd r = [World.OnSpawn (World.next_actor w)] /\
     World.deref (fst r) (World.next_actor w)
     = Some (Actor.SetReplicates
               (Actor.SetRotation
                  (Actor.SetPosition
                     (Actor.SetNetId
                        (Actor.SetWorld
                           (Actor.SetNetId made (World.m_nextNetId w)) true)
                        (Actor.m_netId a))
                     (Actor.m_position a))
                  (Actor.m_rotation a))
               true) /\
     (forall q, q <> World.next_actor w ->
                World.deref (fst r) q = World.deref w q)) /\
   (World.m_actorFactories w !! Actor.typeName a = None \/
    World.m_actorFactories w !! Actor.typeName a = Some None ->
    r = (w, []))) /\
  ((MAX_PACKET_SIZE * 2 < 48 + String.length (Actor.typeName a))%nat ->
   arrives sent = false).
Proof.
  intros Hf Hid Hpos Hrot Hseq Hsize sent r. subst sent.
  set (bytes := le_split 4 (Actor.m_netId a)
                  ++ encode (VString (Actor.typeName a))
                  ++ encode (VVector3 (Actor.m_position a))
                  ++ encode (VQuaternion (Actor.m_rotation a))).
  assert (Hname : in_range (VString (Actor.typeName a))) by (cbn; lia).
  assert (Hlen : length bytes = (36 + String.length (Actor.typeName a))%nat).
  { subst bytes. cbn [encode]. rewrite !length_app, !length_le_split,
      length_list_byte_of_string. lia. }
  assert (Hh : BitStream.holds
                 (Packet.m_payload (ReplicationManager.spawn_packet a)) bytes).
  { unfold ReplicationManager.spawn_packet, Packet.WriteU32.
    cbn [Packet.with_payload Packet.m_payload].
    change (Packet.m_payload (Packet.of_type PacketType.ActorSpawn))
      with BitStream.create.
    pose proof (BitStreamFacts.Write_holds _ _ (le_split 4 (Actor.m_netId a))
                  DeliveryFacts.holds_create) as H1.
    apply (FieldFacts.write_prim_holds _ _ _ Hname) in H1.
    apply (FieldFacts.write_prim_holds _ _ _ Hpos) in H1.
    apply (FieldFacts.write_prim_holds _ _ _ Hrot) in H1.
    cbn [write_prim app] in H1. subst bytes.
    now rewrite <- !app_assoc in H1. }
  assert (H0 : BitStream.m_readPos
                 (Packet.m_payload (ReplicationManager.spawn_packet a)) = 0%nat).
  { unfold ReplicationManager.spawn_packet, Packet.WriteU32.
    cbn [Packet.with_payload Packet.m_payload].
    change (BitStream.WriteQuaternion ?s ?q) with (write_prim s (VQuaternion q)).
    rewrite DeliveryFacts.write_prim_readPos.
    change (BitStream.WriteVector3 ?s ?v) with (write_prim s (VVector3 v)).
    rewrite DeliveryFacts.write_prim_readPos.
    rewrite DeliveryFacts.WriteString_readPos.
    unfold BitStream.WriteUInt32. now rewrite DeliveryFacts.Write_readPos. }
  assert (Hty : in_unsigned 16
                  (Packet.GetType (ReplicationManager.spawn_packet a)))
    by (split; vm_compute; (reflexivity || congruence)).
  split;
    [|intros Hbig;
      apply (DeliveryFacts.not_delivered (ReplicationManager.spawn_packet a)
               sequence bytes);
      [reflexivity|exact Hty|exact Hseq|exact Hh|exact H0|lia|lia]].
  intros Hfit.
  destruct (DeliveryFacts.delivered (ReplicationManager.spawn_packet a)
              sequence bytes) as (Epl & _ & _ & Harr);
    [reflexivity|exact Hty|exact Hseq|exact Hh|exact H0|lia|lia|].
  split; [exact Harr|].
  subst r. unfold ReplicationManager.HandleActorSpawn. rewrite Epl.
  pose proof (PacketFacts.of_data_holds bytes) as Hb. subst bytes.
  destruct (FieldFacts.ReadUInt32_holds _ _ _ Hid Hb) as [R1 H1]. rewrite R1.
  destruct (FieldFacts.ReadString_holds _ _ _ Hname H1) as (s2 & R2 & H2).
  rewrite R2.
  rewrite <- (app_nil_r (encode (VQuaternion _))) in H2.
  rewrite app_assoc in H2. rewrite <- app_assoc in H2.
  destruct (FieldFacts.ReadVector3_holds _ _ _ Hpos H2) as (s3 & R3 & H3).
  rewrite R3.
  destruct (FieldFacts.ReadQuaternion_holds _ _ _ Hrot H3) as (s4 & R4 & H4).
  rewrite R4.
  unfold World.SpawnActorByType. split.
  - intros made Hfac. rewrite Hfac.
    pose proof (SpawnFacts.deref_SpawnActor w made) as Hd.
    unfold World.SpawnActor in *. cbn [fst snd] in *.
    split; [reflexivity|]. split.
    + rewrite SpawnFacts.actor_deref_update, Nat.eqb_refl, (Hd _ Hf), Nat.eqb_refl.
      reflexivity.
    + intros q Hq. rewrite SpawnFacts.actor_deref_update.
      destruct (Nat.eqb_spec q (World.next_actor w)); [contradiction|].
      rewrite (Hd _ Hf).
      now destruct (Nat.eqb_spec (World.next_actor w) q); [congruence|].
  - intros [Hfac|Hfac]; now rewrite Hfac.
Qed.

(** An instance: the server's player arrives at the client of the
    example. *)
Lemma spawn_round_trip_witness :
  Actor.m_netId
    <$> World.deref
          (fst (ReplicationManager.HandleActorSpawn Scenario.client_world0
                  (over_the_wire
                     (Packet.SetSequence
                        (ReplicationManager.spawn_packet Scenario.server_player)
                        3))))
          0%nat
  = Some 1.
Proof.
  destruct (spawn_round_trip Scenario.client_world0 Scenario.server_player 3)
    as [H _].
  - constructor.
  - split; vm_compute; (reflexivity || congruence).
  - repeat split; vm_compute; (reflexivity || congruence).
  - repeat split; vm_compute; (reflexivity || congruence).
  - split; vm_compute; (reflexivity || congruence).
  - vm_compute. reflexivity.
  - destruct H as (_ & H & _); [vm_compute; lia|].
    destruct (H (Scenario.PlayerActor 100) eq_refl) as (_ & Hd & _).
    change (World.next_actor Scenario.client_world0) with 0%nat in Hd.
    rewrite Hd. reflexivity.
Defined.

(** ** Change tracking *)

Module TrackingFacts.
Import ReplicationManager.

(** The cache of a tracked property after [UpdateLastValue] equals its
    memory. *)
Lemma UpdateLastValue_clean (p p' : ReplicatedProperty.t) (mem : list byte) :
  tracked p = true ->
  ReplicatedProperty.UpdateLastValue p mem = Some p' ->
  ReplicatedProperty.HasChanged p' mem = Some false /\ tracked p' = true.
Proof.
  unfold tracked, ReplicatedProperty.UpdateLastValue,
    ReplicatedProperty.HasChanged.
  destruct (ReplicatedProperty.dataPtr p) as [addr|] eqn:Hptr; [|discriminate].
  intros Ht. apply andb_true_iff in Ht. destruct Ht as [Hsz Hlen].
  apply negb_true_iff, Nat.eqb_neq in Hsz. apply Nat.eqb_eq in Hlen.
  destruct (Nat.eqb_spec (length (ReplicatedProperty.lastValue p)) 0); [lia|].
  destruct (Memory.load mem addr (ReplicatedProperty.size p)) as [cur|] eqn:Hload;
    [|discriminate].
  intros H. injection H as <-.
  cbn [ReplicatedProperty.dataPtr ReplicatedProperty.lastValue
       ReplicatedProperty.size].
  pose proof (PropertyFacts.load_length _ _ _ _ Hload) as Hcur.
  rewrite skipn_all2 by lia. rewrite app_nil_r, Hcur, Hload.
  destruct (Nat.eqb_spec (ReplicatedProperty.size p) 0); [lia|].
  rewrite <- Hcur at 1. rewrite firstn_all, bytes_eqb_refl.
  split; [reflexivity|]. cbn [negb andb]. apply Nat.eqb_refl.
Qed.

Lemma any_changed_false (props : list (string * ReplicatedProperty.t))
    (mem : list byte) :
  (forall k q, In (k, q) props ->
               ReplicatedProperty.HasChanged q mem = Some false) ->
  any_changed props mem = Some false.
Proof.
  induction props as [|[k q] props IH]; intros H; [reflexivity|].
  cbn [any_changed]. rewrite (H k q) by now left. cbn.
  apply IH. intros k' q' Hin. apply (H k' q'). now right.
Qed.

(** The third loop of [SendActorUpdate] leaves every property with a
    cache equal to its memory. *)
Lemma serialize_changed_clean (props : list (string * ReplicatedProperty.t)) :
  forall (a : Actor.t) (payload : BitStream.t) (r : Actor.t * BitStream.t),
    serialize_changed props a payload = Some r ->
    (forall k p, In (k, p) props -> tracked p = true) ->
    (forall k q, Actor.m_replicatedProperties a !! k = Some q ->
       (ReplicatedProperty.HasChanged q (Actor.storage a) = Some false /\
        tracked q = true) \/
       In (k, q) props) ->
    Actor.storage (fst r) = Actor.storage a /\
    Actor.m_netId (fst r) = Actor.m_netId a /\
    Actor.typeName (fst r) = Actor.typeName a /\
    (forall k q, Actor.m_replicatedProperties (fst r) !! k = Some q ->
       ReplicatedProperty.HasChanged q (Actor.storage a) = Some false /\
       tracked q = true).
Proof.
  induction props as [|[key prop] props IH]; intros a payload r H Ht Hinv;
    cbn [serialize_changed] in H.
  - injection H as <-. cbn [fst]. repeat split;
      destruct (Hinv k q H) as [Hg|[]]; apply Hg.
  - destruct (ReplicatedProperty.HasChanged prop (Actor.storage a))
      as [[|]|] eqn:Hch; cbn in H; [| |discriminate].
    + destruct (ReplicatedProperty.Serialize prop (Actor.storage a) payload)
        as [payload'|]; cbn in H; [|discriminate].
      destruct (ReplicatedProperty.UpdateLastValue prop (Actor.storage a))
        as [prop'|] eqn:Hup; cbn in H; [|discriminate].
      pose proof (UpdateLastValue_clean prop prop' (Actor.storage a)
                    (Ht key prop (or_introl eq_refl)) Hup) as Hclean.
      apply IH in H.
      * cbn [Actor.with_properties Actor.storage Actor.m_netId Actor.typeName] in H.
        exact H.
      * intros k p Hin. apply (Ht k p). now right.
      * cbn [Actor.with_properties Actor.storage Actor.m_replicatedProperties].
        intros k q Hq. destruct (decide (k = key)) as [->|Hne].
        -- rewrite lookup_insert_eq in Hq. injection Hq as <-. now left.
        -- rewrite lookup_insert_ne in Hq by congruence.
           destruct (Hinv k q Hq) as [Hg|[Heq|Hin]]; [now left| |now right].
           congruence.
    + apply IH in H.
      * exact H.
      * intros k p Hin. apply (Ht k p). now right.
      * intros k q Hq.
        destruct (Hinv k q Hq) as [Hg|[Heq|Hin]]; [now left| |now right].
        injection Heq as <- <-. left. split; [exact Hch|].
        apply (Ht key prop). now left.
Qed.

(** What [SendActorUpdate] leaves behind. *)
Lemma SendActorUpdate_spec (a a' : Actor.t) (packet : option Packet.t) :
  ReplicationServer.all_tracked a ->
  SendActorUpdate a = Some (a', packet) ->
  ReplicationServer.clean a' /\
  ReplicationServer.all_tracked a' /\
  Actor.storage a' = Actor.storage a /\
  Actor.m_netId a' = Actor.m_netId a /\
  Actor.typeName a' = Actor.typeName a /\
  (packet = None -> a' = a) /\
  (forall p, packet = Some p -> Packet.GetType p = PacketType.ActorReplication).
Proof.
  intros Ht H. unfold SendActorUpdate in H.
  destruct (any_changed (GetReplicatedProperties a) (Actor.storage a))
    as [[|]|] eqn:Hany; cbn in H; [| |discriminate].
  - destruct (count_changed _ _) as [n|]; cbn in H; [|discriminate].
    destruct (serialize_changed _ _ _) as [r|] eqn:Hser;
      cbn in H; [|discriminate].
    injection H as <- <-.
    destruct (serialize_changed_clean _ _ _ _ Hser)
      as (Hmem & Hid & Hty & Hclean).
    + intros k p Hin. apply (Ht k p).
      unfold GetReplicatedProperties in Hin.
      apply list_elem_of_In, elem_of_map_to_list in Hin. exact Hin.
    + intros k q Hq. right. unfold GetReplicatedProperties.
      apply list_elem_of_In, elem_of_map_to_list. exact Hq.
    + split; [|split; [|split; [exact Hmem|split; [exact Hid|split;
        [exact Hty|split; [discriminate|]]]]]].
      * unfold ReplicationServer.clean, SendActorUpdate.
        rewrite (any_changed_false _ (Actor.storage (fst r)));
          [reflexivity|].
        intros k q Hin. rewrite Hmem. apply (Hclean k q).
        unfold GetReplicatedProperties in Hin.
        apply list_elem_of_In, elem_of_map_to_list in Hin. exact Hin.
      * intros k q Hq. now apply (Hclean k q).
      * intros p Hp. injection Hp as <-. reflexivity.
  - injection H as <- <-.
    split; [unfold ReplicationServer.clean, SendActorUpdate; now rewrite Hany|].
    split; [exact Ht|]. repeat split. discriminate.
Qed.

End TrackingFacts.

Module ReplicableFacts.
Import ReplicationManager.

Lemma tracked_bound (p : ReplicatedProperty.t) :
  tracked p = true ->
  exists addr,
    ReplicatedProperty.dataPtr p = Some addr /\
    ReplicatedProperty.size p <> 0%nat /\
    length (ReplicatedProperty.lastValue p) = ReplicatedProperty.size p.
Proof.
  unfold tracked. destruct (ReplicatedProperty.dataPtr p) as [addr|];
    [|discriminate].
  intros H. apply andb_true_iff in H. destruct H as [Hsz Hlen].
  apply negb_true_iff, Nat.eqb_neq in Hsz. apply Nat.eqb_eq in Hlen.
  now exists addr.
Qed.

Lemma load_total (mem : list byte) (addr n : nat) :
  (addr + n <= length mem)%nat ->
  Memory.load mem addr n = Some (firstn n (skipn addr mem)).
Proof.
  intros H. unfold Memory.load.
  now destruct (Nat.leb_spec (addr + n) (length mem)); [|lia].
Qed.

Lemma HasChanged_total (mem : list byte) (p : ReplicatedProperty.t) :
  ReplicationServer.replicable_property mem p ->
  exists b, ReplicatedProperty.HasChanged p mem = Some b.
Proof.
  intros (Ht & _ & Hb).
  destruct (tracked_bound p Ht) as (addr & Hptr & Hsz & Hlen).
  destruct (Hb addr Hptr) as [Hin _].
  unfold ReplicatedProperty.HasChanged. rewrite Hptr.
  destruct (Nat.eqb_spec (length (ReplicatedProperty.lastValue p)) 0); [lia|].
  rewrite (load_total _ _ _ Hin). eexists. reflexivity.
Qed.

Lemma UpdateLastValue_total (mem : list byte) (p : ReplicatedProperty.t) :
  ReplicationServer.replicable_property mem p ->
  exists p',
    ReplicatedProperty.UpdateLastValue p mem = Some p' /\
    ReplicationServer.replicable_property mem p'.
Proof.
  intros (Ht & Hty & Hb).
  destruct (tracked_bound p Ht) as (addr & Hptr & Hsz & Hlen).
  destruct (Hb addr Hptr) as [Hin Hk].
  destruct (ReplicatedProperty.UpdateLastValue p mem) as [p'|] eqn:E.
  - exists p'. split; [reflexivity|].
    destruct (TrackingFacts.UpdateLastValue_clean p p' mem Ht E) as [_ Ht'].
    unfold ReplicatedProperty.UpdateLastValue in E. rewrite Hptr in E.
    destruct (Nat.eqb_spec (length (ReplicatedProperty.lastValue p)) 0); [lia|].
    rewrite (load_total _ _ _ Hin) in E. injection E as <-.
    split; [exact Ht'|]. split; [exact Hty|].
    cbn [ReplicatedProperty.dataPtr ReplicatedProperty.size
         ReplicatedProperty.type].
    intros addr' E. injection E as <-. now split.
  - exfalso. unfold ReplicatedProperty.UpdateLastValue in E. rewrite Hptr in E.
    destruct (Nat.eqb_spec (length (ReplicatedProperty.lastValue p)) 0); [lia|].
    rewrite (load_total _ _ _ Hin) in E. discriminate.
Qed.

Lemma Serialize_total (mem : list byte) (p : ReplicatedProperty.t)
    (stream : BitStream.t) :
  ReplicationServer.replicable_property mem p ->
  exists stream', ReplicatedProperty.Serialize p mem stream = Some stream'.
Proof.
  intros (Ht & Hty & Hb).
  destruct (tracked_bound p Ht) as (addr & Hptr & _).
  destruct (Hb addr Hptr) as [_ Hk].
  unfold ReplicatedProperty.Serialize. rewrite Hptr.
  destruct (ReplicatedProperty.type p) eqn:Ety; try contradiction;
    cbn [Actor.sizeof] in Hk;
    unfold ReplicatedProperty.load_value;
    rewrite ?(load_total _ _ _ Hk); cbn [fmap option_fmap option_map];
    eexists; reflexivity.
Qed.

Lemma any_changed_total (mem : list byte)
    (props : list (string * ReplicatedProperty.t)) :
  (forall k p, In (k, p) props ->
               ReplicationServer.replicable_property mem p) ->
  exists b, any_changed props mem = Some b.
Proof.
  induction props as [|[k p] props IH]; intros H; [now exists false|].
  cbn [any_changed].
  destruct (HasChanged_total mem p (H k p (or_introl eq_refl))) as [b ->].
  cbn. destruct b; [now exists true|].
  apply IH. intros k' p' Hin. apply (H k' p'). now right.
Qed.

Lemma count_changed_total (mem : list byte)
    (props : list (string * ReplicatedProperty.t)) :
  (forall k p, In (k, p) props ->
               ReplicationServer.replicable_property mem p) ->
  exists n, count_changed props mem = Some n.
Proof.
  induction props as [|[k p] props IH]; intros H; [now exists 0|].
  cbn [count_changed].
  destruct (HasChanged_total mem p (H k p (or_introl eq_refl))) as [b ->].
  destruct IH as [n ->]; [intros k' p' Hin; apply (H k' p'); now right|].
  cbn. eexists. reflexivity.
Qed.

(** The third loop returns, and the actor it leaves has replicable
    properties only. *)
Lemma serialize_changed_total (props : list (string * ReplicatedProperty.t)) :
  forall (a : Actor.t) (payload : BitStream.t),
    (forall k p, In (k, p) props ->
                 ReplicationServer.replicable_property (Actor.storage a) p) ->
    ReplicationServer.replicable a ->
    exists r,
      serialize_changed props a payload = Some r /\
      ReplicationServer.replicable (fst r).
Proof.
  induction props as [|[key prop] props IH]; intros a payload H Ha;
    cbn [serialize_changed].
  - eexists. split; [reflexivity|exact Ha].
  - pose proof (H key prop (or_introl eq_refl)) as Hp.
    destruct (HasChanged_total _ _ Hp) as [b ->]. cbn.
    destruct b.
    + destruct (Serialize_total _ _ payload Hp) as [payload' ->]. cbn.
      destruct (UpdateLastValue_total _ _ Hp) as (prop' & -> & Hp'). cbn.
      apply IH.
      * cbn [Actor.with_properties Actor.storage].
        intros k p Hin. apply (H k p). now right.
      * intros k q Hq.
        cbn [Actor.with_properties Actor.storage Actor.m_replicatedProperties]
          in Hq |- *.
        destruct (decide (k = key)) as [->|Hne].
        -- rewrite lookup_insert_eq in Hq. injection Hq as <-. exact Hp'.
        -- rewrite lookup_insert_ne in Hq by congruence. now apply (Ha k q).
    + apply IH; [|exact Ha].
      intros k p Hin. apply (H k p). now right.
Qed.

Lemma replicable_tracked (a : Actor.t) :
  ReplicationServer.replicable a -> ReplicationServer.all_tracked a.
Proof. intros H k p Hk. apply (H k p Hk). Qed.

(** [SendActorUpdate] returns on a replicable actor and leaves a
    replicable actor. *)
Lemma SendActorUpdate_total (a : Actor.t) :
  ReplicationServer.replicable a ->
  exists a' packet,
    SendActorUpdate a = Some (a', packet) /\
    ReplicationServer.replicable a'.
Proof.
  intros Ha.
  assert (Hprops : forall k p, In (k, p) (GetReplicatedProperties a) ->
             ReplicationServer.replicable_property (Actor.storage a) p).
  { intros k p Hin. unfold GetReplicatedProperties in Hin.
    apply list_elem_of_In, elem_of_map_to_list in Hin. now apply (Ha k p). }
  unfold SendActorUpdate.
  destruct (any_changed_total _ _ Hprops) as [b ->]. cbn [mbind option_bind].
  destruct b; cbn [negb]; [|now exists a, None].
  destruct (count_changed_total _ _ Hprops) as [n ->]. cbn [mbind option_bind].
  destruct (serialize_changed_total (GetReplicatedProperties a) a
              (Packet.m_payload
                 (Packet.WriteU32
                    (Packet.WriteU32
                       (Packet.of_type PacketType.ActorReplication)
                       (Actor.m_netId a)) n)) Hprops Ha)
    as (r & -> & Hr).
  cbn [mbind option_bind]. eexists _, _. split; [reflexivity|exact Hr].
Qed.

End ReplicableFacts.

(** X18. An update is sent once. Let every registered property of an
    actor be of a kind other than [String], be bound to memory inside
    the actor's storage and have a cache of its non-zero size. Then
    [SendActorUpdate] returns, and after it has run (whether it built a
    packet or not) every cache equals the property's memory, so that a
    second call on the actor, for whatever connection, builds no packet
    and changes nothing, as long as the actor's memory is not written.
    The call does not touch the actor's memory, NetId or type name; a
    packet it builds is an [ActorReplication] packet, and when it builds
    none it leaves the actor as it was. *)
Theorem update_sent_once (a : Actor.t) :
  ReplicationServer.replicable a ->
  exists a' packet,
    ReplicationManager.SendActorUpdate a = Some (a', packet) /\
    ReplicationManager.SendActorUpdate a' = Some (a', None) /\
    ReplicationServer.replicable a' /\
    Actor.storage a' = Actor.storage a /\
    Actor.m_netId a' = Actor.m_netId a /\
    Actor.typeName a' = Actor.typeName a /\
    (packet = None -> a' = a) /\
    (forall p, packet = Some p ->
               Packet.GetType p = PacketType.ActorReplication).
Proof.
  intros Ha.
  destruct (ReplicableFacts.SendActorUpdate_total a Ha) as (a' & packet & H & Ha').
  exists a', packet.
  destruct (TrackingFacts.SendActorUpdate_spec a a' packet
              (ReplicableFacts.replicable_tracked a Ha) H)
    as (Hclean & _ & Hmem & Hid & Hty & Hnone & Hkind).
  split; [exact H|]. split; [exact Hclean|]. split; [exact Ha'|].
  split; [exact Hmem|]. split; [exact Hid|]. split; [exact Hty|].
  split; [exact Hnone|exact Hkind].
Qed.

Module ReplicableExample.

(** An actor with the properties of the sample player and four bytes of
    storage. *)
Lemma player_replicable (a : Actor.t) (health : Z) :
  Actor.m_replicatedProperties a
  = Actor.m_replicatedProperties (Scenario.PlayerActor health) ->
  length (Actor.storage a) = 4%nat ->
  ReplicationServer.replicable a.
Proof.
  intros E Hlen k p Hk. rewrite E in Hk.
  unfold Scenario.PlayerActor, Actor.RegisterProperty,
    Actor.RegisterReplicatedProperty in Hk.
  cbn [Actor.with_properties Actor.m_replicatedProperties Actor.create] in Hk.
  destruct (decide (k = "Health"%string)) as [->|Hne].
  - rewrite lookup_insert_eq in Hk. injection Hk as <-.
    split; [reflexivity|]. split; [discriminate|].
    intros addr Ha. injection Ha as <-. rewrite Hlen. cbn. lia.
  - rewrite lookup_insert_ne in Hk by congruence.
    now rewrite lookup_empty in Hk.
Qed.

End ReplicableExample.

(** An instance: the server's player of the example. *)
Lemma update_sent_once_witness :
  exists a' packet,
    ReplicationManager.SendActorUpdate Scenario.server_player
    = Some (a', Some packet) /\
    ReplicationManager.SendActorUpdate a' = Some (a', None).
Proof.
  destruct (update_sent_once Scenario.server_player)
    as (a' & packet & H1 & H2 & _).
  - now apply (ReplicableExample.player_replicable _ 57).
  - destruct packet as [packet|].
    + exists a', packet. split; [exact H1|exact H2].
    + exfalso. vm_compute in H1. discriminate.
Defined.

(** ** Property values, from memory to memory *)

Module ValueFacts.
Import ReplicatedProperty.

Lemma store_spec (mem : list byte) (addr : nat) (bs : list byte) :
  (addr + length bs <= length mem)%nat ->
  exists mem',
    Memory.store mem addr bs = Some mem' /\
    length mem' = length mem /\
    Memory.load mem' addr (length bs) = Some bs /\
    firstn addr mem' = firstn addr mem /\
    skipn (addr + length bs) mem' = skipn (addr + length bs) mem.
Proof.
  intros H. unfold Memory.store, Memory.load.
  destruct (Nat.leb_spec (addr + length bs) (length mem)); [|lia].
  eexists. split; [reflexivity|].
  assert (Hl : length (firstn addr mem) = addr)
    by (rewrite length_take; lia).
  set (pre := firstn addr mem) in *.
  assert (D : forall Y : list byte, skipn addr (pre ++ Y) = Y)
    by (intros Y; rewrite <- Hl; apply drop_app_length).
  assert (T : forall Y : list byte, firstn addr (pre ++ Y) = pre)
    by (intros Y; rewrite <- Hl; apply take_app_length).
  split; [rewrite !length_app, Hl, length_drop; lia|].
  split.
  - rewrite !length_app, Hl, length_drop.
    destruct (Nat.leb_spec (addr + length bs)
                (addr + (length bs + (length mem - (addr + length bs)))));
      [|lia].
    f_equal. rewrite D. apply take_app_length.
  - split; [apply T|].
    rewrite <- drop_drop, D. apply drop_app_length.
Qed.

Lemma to_signed_range (bits z : Z) :
  0 < bits -> 0 <= z < 2 ^ bits -> in_signed bits (to_signed bits z).
Proof.
  intros Hb Hz. unfold in_signed, to_signed.
  assert (Hp : 2 ^ bits = 2 * 2 ^ (bits - 1)).
  { rewrite <- Z.pow_succ_r by lia. f_equal. lia. }
  destruct (Z.ltb_spec z (2 ^ (bits - 1))); lia.
Qed.

Lemma le_combine_range (bs : list byte) (n : nat) :
  length bs = n -> 0 <= le_combine bs < 2 ^ (Z.of_nat n * 8).
Proof.
  intros <-. pose proof (le_combine_bound bs) as H.
  now rewrite Z.mul_comm.
Qed.

Lemma load_part (bs : list byte) (k n total : nat) :
  length bs = total -> (k + n <= total)%nat ->
  length (firstn n (skipn k bs)) = n.
Proof. intros H Hk. rewrite length_take, length_drop. lia. Qed.

Lemma part_range (bs : list byte) (k total : nat) :
  length bs = total -> (k + 4 <= total)%nat ->
  in_unsigned 32 (le_combine (firstn 4 (skipn k bs))).
Proof.
  intros H Hk. unfold in_unsigned. change 32 with (Z.of_nat 4 * 8).
  apply le_combine_range, (load_part bs k 4 total); assumption.
Qed.

(** What [load_value] reads is a value of the kind, representable in its
    type. *)
Lemma load_value_kind (mem : list byte) (addr : nat) (ty : PropertyType)
    (v : Prim) :
  load_value mem addr ty = Some v -> kind_of v = ty /\ in_range v.
Proof.
  unfold load_value. intros H.
  destruct ty; try discriminate;
    try (destruct (Memory.load mem addr _) as [bs|] eqn:Hl; [|discriminate];
         cbn in H; injection H as <-;
         apply PropertyFacts.load_length in Hl;
         split; [reflexivity|]; cbn [in_range]).
  - exact I.
  - apply (to_signed_range 8); [lia|]. now apply (le_combine_range bs 1).
  - now apply (le_combine_range bs 1).
  - apply (to_signed_range 16); [lia|]. now apply (le_combine_range bs 2).
  - now apply (le_combine_range bs 2).
  - apply (to_signed_range 32); [lia|]. now apply (le_combine_range bs 4).
  - now apply (le_combine_range bs 4).
  - apply (to_signed_range 64); [lia|]. now apply (le_combine_range bs 8).
  - now apply (le_combine_range bs 8).
  - now apply (le_combine_range bs 4).
  - now apply (le_combine_range bs 8).
  - cbn [v_x v_y v_z]. split; [|split].
    + apply (part_range bs 0 12); [assumption|lia].
    + apply (part_range bs 4 12); [assumption|lia].
    + apply (part_range bs 8 12); [assumption|lia].
  - cbn [q_w q_x q_y q_z]. split; [|split; [|split]].
    + apply (part_range bs 12 16); [assumption|lia].
    + apply (part_range bs 0 16); [assumption|lia].
    + apply (part_range bs 4 16); [assumption|lia].
    + apply (part_range bs 8 16); [assumption|lia].
Qed.

Lemma kind_byte (ty : PropertyType) (v : Prim) :
  kind_of v = ty -> ty <> PString ->
  wrap 8 (PropertyType_to_Z ty) = PropertyType_to_Z ty /\
  PropertyType_of_Z (PropertyType_to_Z ty mod 2 ^ (Z.of_nat 1 * 8)) = ty.
Proof.
  intros <- Hs. destruct v; try congruence; split; reflexivity.
Qed.

Lemma split4 (a b : list byte) :
  length a = 4%nat -> firstn 4 (a ++ b) = a /\ skipn 4 (a ++ b) = b.
Proof.
  intros Ha. rewrite <- Ha.
  split; [apply take_app_length|apply drop_app_length].
Qed.

Lemma skip8 (a b c : list byte) :
  length a = 4%nat -> length b = 4%nat -> skipn 8 (a ++ b ++ c) = c.
Proof.
  intros Ha Hb. change 8%nat with (4 + 4)%nat. rewrite <- drop_drop.
  rewrite (proj2 (split4 a _ Ha)). apply (proj2 (split4 b c Hb)).
Qed.

Lemma skip12 (a b c d : list byte) :
  length a = 4%nat -> length b = 4%nat -> length c = 4%nat ->
  skipn 12 (a ++ b ++ c ++ d) = d.
Proof.
  intros Ha Hb Hc. change 12%nat with (8 + 4)%nat. rewrite <- drop_drop.
  rewrite (skip8 a b _ Ha Hb). apply (proj2 (split4 c d Hc)).
Qed.

Lemma take4 (a : list byte) : length a = 4%nat -> firstn 4 a = a.
Proof. intros Ha. apply firstn_all2. lia. Qed.

Ltac scalar_stored n Hl :=
  rewrite Hl; cbn [fmap option_fmap option_map]; do 2 f_equal;
  rewrite le_combine_split.

(** A value stored with its object representation is what [load_value]
    reads there. *)
Lemma representation_spec (v : Prim) :
  in_range v -> kind_of v <> PString ->
  exists bs,
    representation v = Some bs /\
    length bs = Actor.sizeof (kind_of v) /\
    forall mem addr,
      Memory.load mem addr (length bs) = Some bs ->
      load_value mem addr (kind_of v) = Some v.
Proof.
  intros Hv Hk.
  destruct v as [b|z|z|z|z|z|z|z|z|z|z|x|[x y z]|[w x y z]];
    cbn [representation kind_of in_range] in *; try congruence;
    eexists; (split; [reflexivity|]);
    (split; [rewrite ?length_app, ?length_le_split; reflexivity|]);
    intros mem addr Hl; rewrite ?length_app, ?length_le_split in Hl;
    unfold load_value; cbn [Nat.add] in Hl.
  - scalar_stored 1%nat Hl. now destruct b.
  - scalar_stored 1%nat Hl. now apply (PrimFacts.signed_small 1); [lia|].
  - scalar_stored 1%nat Hl. now apply (PrimFacts.unsigned_small 1).
  - scalar_stored 2%nat Hl. now apply (PrimFacts.signed_small 2); [lia|].
  - scalar_stored 2%nat Hl. now apply (PrimFacts.unsigned_small 2).
  - scalar_stored 4%nat Hl. now apply (PrimFacts.signed_small 4); [lia|].
  - scalar_stored 4%nat Hl. now apply (PrimFacts.unsigned_small 4).
  - scalar_stored 8%nat Hl. now apply (PrimFacts.signed_small 8); [lia|].
  - scalar_stored 8%nat Hl. now apply (PrimFacts.unsigned_small 8).
  - scalar_stored 4%nat Hl. now apply (PrimFacts.unsigned_small 4).
  - scalar_stored 8%nat Hl. now apply (PrimFacts.unsigned_small 8).
  - cbn [v_x v_y v_z] in *. rewrite Hl.
    cbn [fmap option_fmap option_map]. destruct Hv as (Hx & Hy & Hz).
    rewrite (skip8 _ _ _ (length_le_split 4 x) (length_le_split 4 y)).
    rewrite (proj2 (split4 _ _ (length_le_split 4 x))).
    rewrite (proj1 (split4 _ _ (length_le_split 4 x))).
    rewrite (proj1 (split4 _ _ (length_le_split 4 y))).
    rewrite (take4 _ (length_le_split 4 z)).
    rewrite !le_combine_split.
    rewrite !(PrimFacts.unsigned_small 4) by assumption. reflexivity.
  - cbn [q_w q_x q_y q_z] in *. rewrite Hl.
    cbn [fmap option_fmap option_map]. destruct Hv as (Hw & Hx & Hy & Hz).
    rewrite (skip12 _ _ _ _ (length_le_split 4 x) (length_le_split 4 y)
               (length_le_split 4 z)).
    rewrite (skip8 _ _ _ (length_le_split 4 x) (length_le_split 4 y)).
    rewrite (proj2 (split4 _ _ (length_le_split 4 x))).
    rewrite (proj1 (split4 _ _ (length_le_split 4 x))).
    rewrite (proj1 (split4 _ _ (length_le_split 4 y))).
    rewrite (proj1 (split4 _ _ (length_le_split 4 z))).
    rewrite (take4 _ (length_le_split 4 w)).
    rewrite !le_combine_split.
    rewrite !(PrimFacts.unsigned_small 4) by assumption. reflexivity.
Qed.

End ValueFacts.

Module PropertyCodec.
Import ReplicatedProperty.

(** The bytes [Serialize] appends for a property of value [v]. *)
Lemma Serialize_spec (p : t) (mem : list byte) (addr : nat) (v : Prim)
    (s : BitStream.t) (l : list byte) :
  dataPtr p = Some addr ->
  load_value mem addr (type p) = Some v ->
  Z.of_nat (String.length (name p)) < 2 ^ 32 ->
  BitStream.holds s l ->
  exists s',
    Serialize p mem s = Some s' /\
    BitStream.holds s'
      (l ++ encode (VString (name p))
         ++ le_split 1 (PropertyType_to_Z (type p)) ++ encode v).
Proof.
  intros Hptr Hload Hname Hs.
  destruct (ValueFacts.load_value_kind _ _ _ _ Hload) as [Hk Hv].
  assert (Hns : type p <> PString).
  { intros E. rewrite E in Hload. discriminate. }
  destruct (ValueFacts.kind_byte _ _ Hk Hns) as [Hw _].
  apply (FieldFacts.write_prim_holds _ _ (VString (name p)) Hname) in Hs.
  apply (BitStreamFacts.Write_holds _ _
           (le_split 1 (PropertyType_to_Z (type p)))) in Hs.
  apply (FieldFacts.write_prim_holds _ _ v Hv) in Hs.
  rewrite <- !app_assoc in Hs. cbn [write_prim] in Hs.
  unfold Serialize, BitStream.WriteUInt8. rewrite Hptr, Hw.
  destruct (type p) eqn:Ety; try (cbn in Hload; congruence);
    rewrite Hload; cbn [fmap option_fmap option_map];
    (eexists; split; [reflexivity|exact Hs]).
Qed.

(** [Deserialize] where the bytes of [Serialize] start. *)
Lemma Deserialize_spec (q : t) (memq : list byte) (addrq : nat)
    (nm : string) (ty : PropertyType) (v : Prim)
    (r : BitStream.t) (rest : list byte) :
  dataPtr q = Some addrq ->
  kind_of v = ty -> ty <> PString -> in_range v ->
  Z.of_nat (String.length nm) < 2 ^ 32 ->
  (addrq + Actor.sizeof ty <= length memq)%nat ->
  (addrq + size q <= length memq)%nat ->
  BitStream.holds r
    (encode (VString nm) ++ le_split 1 (PropertyType_to_Z ty)
       ++ encode v ++ rest) ->
  exists q' memq' r',
    Deserialize q memq r = Some (q', memq', r') /\
    BitStream.holds r' rest /\
    name q' = nm /\ type q' = ty /\
    dataPtr q' = Some addrq /\ size q' = size q /\
    load_value memq' addrq ty = Some v /\
    length memq' = length memq /\
    firstn addrq memq' = firstn addrq memq /\
    skipn (addrq + Actor.sizeof ty) memq'
    = skipn (addrq + Actor.sizeof ty) memq.
Proof.
  intros Hptr Hk Hns Hv Hname Hfit Hfitq Hr. subst ty.
  destruct (ValueFacts.kind_byte _ v eq_refl Hns) as [_ Hof].
  destruct (ValueFacts.representation_spec v Hv Hns)
    as (bs & Hrep & Hlen & Hback).
  destruct (ValueFacts.store_spec memq addrq bs)
    as (memq' & Hst & Hl' & Hld & Hpre & Hpost); [lia|].
  unfold Deserialize. rewrite Hptr.
  destruct (FieldFacts.ReadString_holds _ _ _ Hname Hr) as (s1 & R1 & H1).
  rewrite R1. unfold BitStream.ReadUInt8.
  destruct (BitStreamFacts.read_scalar_holds _ _ _ _ H1) as [R2 H2].
  rewrite R2, Hof. cbn [type].
  destruct (FieldFacts.read_prim_holds _ _ _ Hv H2) as (s3 & R3 & H3).
  assert (Hup : exists q',
            UpdateLastValue
              (mk nm (kind_of v) (Some addrq) (size q) (lastValue q) (dirty q))
              memq' = Some q' /\
            name q' = nm /\ type q' = kind_of v /\
            dataPtr q' = Some addrq /\ size q' = size q).
  { unfold UpdateLastValue. cbn [dataPtr lastValue size name type dirty].
    destruct (length (lastValue q) =? 0)%nat; [eexists; now repeat split|].
    unfold Memory.load.
    destruct (Nat.leb_spec (addrq + size q) (length memq')); [|lia].
    eexists. now repeat split. }
  destruct Hup as (q' & Hup & Hn' & Ht' & Hp' & Hs').
  exists q', memq', s3.
  split.
  - destruct v; cbn [kind_of] in *; try congruence;
      rewrite R3, Hrep; cbn [mbind option_bind]; rewrite Hst;
      cbn [mbind option_bind]; rewrite Hup; reflexivity.
  - rewrite Hlen in *.
    split; [exact H3|]. split; [exact Hn'|]. split; [exact Ht'|].
    split; [exact Hp'|]. split; [exact Hs'|].
    split; [now apply Hback|]. split; [exact Hl'|].
    split; [exact Hpre|exact Hpost].
Qed.

End PropertyCodec.

(** X19. A property value travels from memory to memory. When the
    sender's property is bound to memory that holds a value of its kind
    (any kind but string and custom), [ReplicatedProperty::Serialize]
    appends the name, the kind byte and the value to the stream; and
    wherever those bytes stand at the read position of a stream,
    [ReplicatedProperty::Deserialize] on a property bound to memory with
    room for the value consumes exactly them, takes over the name and the
    kind, and stores the value, so that the receiver's memory then holds
    the value the sender's memory held. The receiver's memory keeps its
    length and is unchanged outside the bytes of the value. *)
Theorem property_round_trip
    (p q : ReplicatedProperty.t) (mem memq : list byte) (addr addrq : nat)
    (v : Prim) (s : BitStream.t) (l : list byte) :
  ReplicatedProperty.dataPtr p = Some addr ->
  ReplicatedProperty.load_value mem addr (ReplicatedProperty.type p) = Some v ->
  Z.of_nat (String.length (ReplicatedProperty.name p)) < 2 ^ 32 ->
  BitStream.holds s l ->
  ReplicatedProperty.dataPtr q = Some addrq ->
  (addrq + Actor.sizeof (ReplicatedProperty.type p) <= length memq)%nat ->
  (addrq + ReplicatedProperty.size q <= length memq)%nat ->
  exists s' sent,
    ReplicatedProperty.Serialize p mem s = Some s' /\
    BitStream.holds s' (l ++ sent) /\
    forall (r : BitStream.t) (rest : list byte),
      BitStream.holds r (sent ++ rest) ->
      exists q' memq' r',
        ReplicatedProperty.Deserialize q memq r = Some (q', memq', r') /\
        BitStream.holds r' rest /\
        ReplicatedProperty.name q' = ReplicatedProperty.name p /\
        ReplicatedProperty.type q' = ReplicatedProperty.type p /\
        ReplicatedProperty.load_value memq' addrq (ReplicatedProperty.type p)
        = Some v /\
        length memq' = length memq /\
        firstn addrq memq' = firstn addrq memq /\
        skipn (addrq + Actor.sizeof (ReplicatedProperty.type p)) memq'
        = skipn (addrq + Actor.sizeof (ReplicatedProperty.type p)) memq.
Proof.
  intros Hptr Hload Hname Hs Hptrq Hfit Hfitq.
  destruct (PropertyCodec.Serialize_spec p mem addr v s l Hptr Hload Hname Hs)
    as (s' & HS & Hs').
  destruct (ValueFacts.load_value_kind _ _ _ _ Hload) as [Hk Hv].
  assert (Hns : ReplicatedProperty.type p <> PString).
  { intros E. rewrite E in Hload. discriminate. }
  exists s', (encode (VString (ReplicatedProperty.name p))
                ++ le_split 1 (PropertyType_to_Z (ReplicatedProperty.type p))
                ++ encode v).
  split; [exact HS|]. split; [exact Hs'|].
  intros r rest Hr. rewrite <- !app_assoc in Hr.
  destruct (PropertyCodec.Deserialize_spec q memq addrq
              (ReplicatedProperty.name p) (ReplicatedProperty.type p) v r rest
              Hptrq Hk Hns Hv Hname Hfit Hfitq Hr)
    as (q' & memq' & r' & HD & Hr' & Hn & Ht & _ & _ & Hval & Hlen & Hpre & Hpost).
  exists q', memq', r'.
  exact (conj HD (conj Hr' (conj Hn (conj Ht (conj Hval
           (conj Hlen (conj Hpre Hpost))))))).
Qed.

(** An instance: the server's [Health = 57] reaches a client whose
    [Health] is 100. *)
Lemma property_round_trip_witness :
  exists s' q' r',
    ReplicatedProperty.Serialize
      (ReplicatedProperty.create "Health" PInt32 (Some 0%nat) 4)
      (le_split 4 57) BitStream.create = Some s' /\
    ReplicatedProperty.Deserialize
      (ReplicatedProperty.create "Health" PInt32 (Some 0%nat) 4)
      (le_split 4 100) s' = Some (q', le_split 4 57, r').
Proof.
  destruct (property_round_trip
              (ReplicatedProperty.create "Health" PInt32 (Some 0%nat) 4)
              (ReplicatedProperty.create "Health" PInt32 (Some 0%nat) 4)
              (le_split 4 57) (le_split 4 100) 0%nat 0%nat (VInt32 57)
              BitStream.create [])
    as (s' & sent & HS & Hs' & HD).
  - reflexivity.
  - vm_compute. reflexivity.
  - vm_compute. reflexivity.
  - split; [split; simpl; lia|reflexivity].
  - reflexivity.
  - vm_compute. lia.
  - vm_compute. lia.
  - cbn [app] in Hs'. rewrite <- (app_nil_r sent) in Hs'.
    destruct (HD s' [] Hs') as (q' & memq' & r' & E & _).
    exists s', q', r'. split; [exact HS|].
    rewrite E. vm_compute in HS. injection HS as <-.
    vm_compute in E. injection E as <- <- <-. reflexivity.
Defined.

Module BroadcastFacts.
Import NetDriver.

Lemma find_app_notin (pre l : list (conn_ptr * NetConnection.t)) (p : conn_ptr) :
  ~ In p (map fst pre) ->
  List.find (fun e => Nat.eqb (fst e) p) (pre ++ l)
  = List.find (fun e => Nat.eqb (fst e) p) l.
Proof.
  induction pre as [|[q c] pre IH]; intros H; [reflexivity|].
  cbn [app List.find fst map In] in *.
  destruct (Nat.eqb_spec q p) as [->|Hne]; [tauto|]. apply IH. tauto.
Qed.

Lemma update_notin (l : list (conn_ptr * NetConnection.t)) (p : conn_ptr)
    (f : NetConnection.t -> NetConnection.t) :
  ~ In p (map fst l) ->
  map (fun e => if Nat.eqb (fst e) p then (fst e, f (snd e)) else e) l = l.
Proof.
  induction l as [|[q c] l IH]; intros H; [reflexivity|].
  cbn [map fst snd In] in *.
  destruct (Nat.eqb_spec q p) as [->|Hne]; [tauto|]. rewrite IH; tauto.
Qed.

Lemma NoDup_middle (pre rest : list (conn_ptr * NetConnection.t))
    (e : conn_ptr * NetConnection.t) :
  List.NoDup (map fst (pre ++ e :: rest)) ->
  ~ In (fst e) (map fst pre) /\ ~ In (fst e) (map fst rest).
Proof.
  rewrite map_app. cbn [map]. intros H.
  apply List.NoDup_remove_2 in H. rewrite List.in_app_iff in H. tauto.
Qed.

(** The broadcast loop over the part of the pointer list still to do. *)
Lemma broadcast_loop (packet : Packet.t) (reliable : bool)
    (todo : list (conn_ptr * NetConnection.t)) :
  forall (pre : list (conn_ptr * NetConnection.t)) (d : t),
    m_connections d = pre ++ todo ->
    List.NoDup (map fst (pre ++ todo)) ->
    fold_left
      (fun d p =>
         match deref d p with
         | Some c =>
             match NetConnection.m_state c with
             | Connected => SendPacket d p packet reliable
             | _ => d
             end
         | None => d
         end)
      (map fst todo) d
    = with_connections d (pre ++ map (broadcast_entry packet reliable) todo)
        (m_connectionList d) (m_serverConnection d) (next_conn d).
Proof.
  induction todo as [|[p c] rest IH]; intros pre d Hd Hnd.
  - cbn [map fold_left]. rewrite <- Hd. now destruct d.
  - cbn [map fold_left fst].
    destruct (NoDup_middle pre rest (p, c) Hnd) as [Hpre Hrest].
    cbn [fst] in Hpre, Hrest.
    assert (Hderef : deref d p = Some c).
    { unfold deref. rewrite Hd, (find_app_notin _ _ _ Hpre).
      cbn [List.find fst]. now rewrite Nat.eqb_refl. }
    rewrite Hderef.
    assert (Hstep : forall d1 x,
              m_connections d1 = pre ++ (p, x) :: rest ->
              m_connectionList d1 = m_connectionList d ->
              m_serverConnection d1 = m_serverConnection d ->
              next_conn d1 = next_conn d ->
              with_connections d1 [] [] None 0%nat
              = with_connections d [] [] None 0%nat ->
              (p, x) = broadcast_entry packet reliable (p, c) ->
              fold_left
                (fun d p =>
                   match deref d p with
                   | Some c =>
                       match NetConnection.m_state c with
                       | Connected => SendPacket d p packet reliable
                       | _ => d
                       end
                   | None => d
                   end)
                (map fst rest) d1
              = with_connections d
                  (pre ++ broadcast_entry packet reliable (p, c)
                     :: map (broadcast_entry packet reliable) rest)
                  (m_connectionList d) (m_serverConnection d) (next_conn d)).
    { intros d1 x H1 H2 H3 H4 H5 H6.
      rewrite (IH (pre ++ [(p, x)]) d1).
      - rewrite H2, H3, H4, <- H6, <- app_assoc. cbn [app].
        unfold with_connections in *. injection H5 as -> -> -> -> ->.
        reflexivity.
      - now rewrite <- app_assoc.
      - rewrite <- app_assoc. cbn [app].
        rewrite map_app in *. exact Hnd. }
    unfold broadcast_entry in *. cbn [fst snd] in *.
    destruct (NetConnection.m_state c) eqn:Hst;
      try (apply (Hstep d c); [exact Hd|reflexivity..]).
    apply (Hstep _ (NetConnection.SendPacket c packet reliable));
      try reflexivity.
    unfold SendPacket, update, with_connections. cbn [m_connections].
    rewrite Hd, map_app. cbn [map fst snd]. rewrite Nat.eqb_refl.
    now rewrite (update_notin pre p
                   (fun c => NetConnection.SendPacket c packet reliable) Hpre),
      (update_notin rest p
         (fun c => NetConnection.SendPacket c packet reliable) Hrest).
Qed.

End BroadcastFacts.

(** X20. A broadcast reaches exactly the connected peers. On a driver
    whose owned connections lie at distinct addresses and whose pointer
    list names exactly them, [BroadcastPacket] hands the packet to
    [NetConnection::SendPacket] of every connection in state [Connected]
    (which stamps it with that connection's own sequence counter, queues
    it and retains it when reliable) and leaves every other connection as
    it is; the set and order of connections, the pointer list and the
    server connection are unchanged. *)
Theorem broadcast_reaches_connected
    (d : NetDriver.t) (packet : Packet.t) (reliable : bool) :
  NetDriverOps.well_formed d ->
  let d' := NetDriverOps.BroadcastPacket d packet reliable in
  NetDriver.m_connections d'
  = map (broadcast_entry packet reliable) (NetDriver.m_connections d) /\
  (forall p c,
     In (p, c) (NetDriver.m_connections d) ->
     NetDriver.deref d' p
     = Some (match NetConnection.m_state c with
             | Connected => NetConnection.SendPacket c packet reliable
             | _ => c
             end)) /\
  NetDriver.m_connectionList d' = NetDriver.m_connectionList d /\
  NetDriver.m_serverConnection d' = NetDriver.m_serverConnection d /\
  NetDriverOps.well_formed d'.
Proof.
  intros [Hnd Hlist] d'. pose proof Hnd as Hnd'.
  apply NoDup_ListNoDup in Hnd'.
  assert (E : d' = NetDriver.with_connections d
                     (map (broadcast_entry packet reliable)
                        (NetDriver.m_connections d))
                     (NetDriver.m_connectionList d)
                     (NetDriver.m_serverConnection d) (NetDriver.next_conn d)).
  { pose proof (BroadcastFacts.broadcast_loop packet reliable
                  (NetDriver.m_connections d) [] d eq_refl Hnd') as L.
    cbn [app] in L. subst d'. unfold NetDriverOps.BroadcastPacket.
    rewrite Hlist at 1. exact L. }
  assert (Hfst : map fst (map (broadcast_entry packet reliable)
                            (NetDriver.m_connections d))
                 = map fst (NetDriver.m_connections d)).
  { rewrite map_map. now apply map_ext. }
  rewrite E. cbn [NetDriver.with_connections NetDriver.m_connections
    NetDriver.m_connectionList NetDriver.m_serverConnection].
  split; [reflexivity|]. split.
  - intros p c Hin.
    assert (Hin' : In (broadcast_entry packet reliable (p, c))
                     (map (broadcast_entry packet reliable)
                        (NetDriver.m_connections d)))
      by now apply List.in_map.
    apply (TimeoutFacts.deref_owned
             (NetDriver.with_connections d
                (map (broadcast_entry packet reliable) (NetDriver.m_connections d))
                (NetDriver.m_connectionList d)
                (NetDriver.m_serverConnection d) (NetDriver.next_conn d))
             (broadcast_entry packet reliable (p, c))).
    + cbn [NetDriver.with_connections NetDriver.m_connections].
      now rewrite Hfst.
    + exact Hin'.
  - split; [reflexivity|]. split; [reflexivity|].
    split; cbn [NetDriver.with_connections NetDriver.m_connections
                NetDriver.m_connectionList];
      now rewrite Hfst.
Qed.

(** An instance: of the two peers of the example, both connected, each
    gets the heartbeat behind the packet it has queued already. *)
Lemma broadcast_reaches_connected_witness :
  map (fun e => length (NetConnection.m_outgoingQueue (snd e)))
    (NetDriver.m_connections
       (NetDriverOps.BroadcastPacket Scenario.quiet_server
          (Packet.of_type PacketType.Heartbeat) false))
  = [2%nat; 2%nat].
Proof.
  destruct (broadcast_reaches_connected Scenario.quiet_server
              (Packet.of_type PacketType.Heartbeat) false) as [H _].
  - split; [|vm_compute; reflexivity].
    apply NoDup_ListNoDup. vm_compute.
    repeat constructor; cbn; intuition congruence.
  - rewrite H. vm_compute. reflexivity.
Defined.

Module DestroyFacts.
Import World.

Lemma destroys_live_only_same (hook : TickHook) (w w1 : t) :
  m_actors w1 = m_actors w ->
  destroys_live_only hook w -> destroys_live_only hook w1.
Proof.
  intros A H dt a w' p Hsame Hin. unfold is_live. rewrite A.
  apply (H dt a w' p); [now rewrite <- A|exact Hin].
Qed.

End DestroyFacts.

(** X21. A destroy message takes effect at the end of the next tick. On
    a World that arose through its own operations, the [ActorDestroy]
    packet [SendActorDestroy] builds for a NetId, stamped, serialised,
    carried as a datagram and deserialised, makes [HandleActorDestroy]
    do what [DestroyActorById] does: when the id belongs to a live actor,
    that actor is put on the pending list and stays alive and findable;
    the next [Tick] returns, runs the destroy hook of the actor, and
    afterwards the actor's address no longer dereferences and the id is
    no longer in the id-map. When the id belongs to no actor, the World
    is unchanged. *)
Theorem destroy_round_trip
    (w : World.t) (netId sequence : Z) (hook : World.TickHook)
    (deltaTime : float32) :
  WorldOps.reachable w ->
  in_unsigned 32 netId ->
  in_unsigned 32 sequence ->
  World.destroys_live_only hook w ->
  let w1 := ReplicationManager.HandleActorDestroy w
              (over_the_wire (Packet.SetSequence (destroy_packet netId) sequence)) in
  w1 = World.DestroyActorById w netId /\
  (World.GetActorByNetId w netId = None -> w1 = w) /\
  (forall p,
     World.GetActorByNetId w netId = Some p ->
     In p (World.m_pendingDestroy w1) /\
     World.deref w1 p = World.deref w p /\
     World.GetActorByNetId w1 netId = Some p /\
     exists w2 ev,
       World.Tick hook deltaTime w1 = Some (w2, ev) /\
       In (World.OnDestroy p) ev /\
       World.deref w2 p = None /\
       World.GetActorByNetId w2 netId = None).
Proof.
  intros Hr Hid Hseq Hhook w1.
  assert (Hh : BitStream.holds (Packet.m_payload (destroy_packet netId))
                 (le_split 4 netId)).
  { unfold destroy_packet, Packet.WriteU32.
    cbn [Packet.with_payload Packet.m_payload].
    apply (BitStreamFacts.Write_holds _ [] (le_split 4 netId)
             DeliveryFacts.holds_create). }
  destruct (DeliveryFacts.delivered (destroy_packet netId) sequence
              (le_split 4 netId)) as (Epl & _ & _);
    [reflexivity|split; vm_compute; (reflexivity || congruence)|exact Hseq
    |exact Hh|reflexivity|rewrite length_le_split; lia
    |rewrite length_le_split; unfold MAX_PACKET_SIZE; lia|].
  assert (E1 : w1 = World.DestroyActorById w netId).
  { subst w1. unfold ReplicationManager.HandleActorDestroy. rewrite Epl.
    pose proof (PacketFacts.of_data_holds (le_split 4 netId)) as Hb.
    rewrite <- (app_nil_r (le_split 4 netId)) in Hb at 2.
    destruct (FieldFacts.ReadUInt32_holds _ _ _ Hid Hb) as [R1 _].
    now rewrite R1. }
  split; [exact E1|]. rewrite E1. clear E1 w1.
  split; [intros Hnone; unfold World.DestroyActorById; now rewrite Hnone|].
  intros p Hp.
  destruct (ReachFacts.reachable_invariant w Hr)
    as [Hv (Hu & Hb & Hn & Hc & Hl)].
  assert (Hlive : World.is_live w p).
  { destruct Hv as (_ & Hcons & _). destruct (Hcons _ _ Hp) as (x & Hx & _).
    now apply TickFacts.deref_Some_live in Hx. }
  set (w1 := World.DestroyActorById w netId).
  assert (Ew1 : w1 = World.DestroyActor w (Some p))
    by (subst w1; unfold World.DestroyActorById; now rewrite Hp).
  destruct (TickFacts.DestroyActor_frame w (Some p)) as (A & B & C).
  rewrite <- Ew1 in A, B, C.
  assert (Hpend : In p (World.m_pendingDestroy w1))
    by (rewrite Ew1; apply TickFacts.DestroyActor_In).
  split; [exact Hpend|].
  split; [unfold World.deref; now rewrite A|].
  split; [unfold World.GetActorByNetId in *; now rewrite C|].
  assert (Hr1 : WorldOps.reachable w1).
  { apply (WorldOps.reach_step w (WorldOps.DestroyById netId) w1 Hr I).
    reflexivity. }
  destruct (ReachFacts.reachable_invariant w1 Hr1) as [Hv1 Hi1].
  assert (Hhook1 : World.destroys_live_only hook w1)
    by now apply (DestroyFacts.destroys_live_only_same hook w w1 A).
  destruct (ReachFacts.Tick_returns hook deltaTime w1 Hv1 Hhook1)
    as (w2 & ev & ET).
  exists w2, ev. split; [exact ET|].
  assert (Hr2 : WorldOps.reachable w2).
  { apply (WorldOps.reach_step w1 (WorldOps.Tick hook deltaTime) w2 Hr1 Hhook1).
    cbn [WorldOps.step]. now rewrite ET. }
  (* the two loops of the tick *)
  unfold World.Tick in ET.
  destruct Hv1 as (Hf1 & Hc1 & Hnd1 & Hlive1).
  assert (Hinv : World.tick_invariant w1 w1)
    by (split; [apply TickFacts.same_actors_refl|now split]).
  destruct (TickFacts.tick_actors_spec hook deltaTime w1 Hhook1 Hc1
              (World.m_actorList w1) w1 Hinv)
    as (_ & (Hsame & Hnd' & Hlive') & Hgrow & _).
  destruct (World.tick_actors hook deltaTime (World.m_actorList w1) w1)
    as [wa eva].
  cbn [fst] in *.
  assert (Hlivea : Forall (World.is_live wa) (World.m_pendingDestroy wa)).
  { rewrite List.Forall_forall in *. intros b Hb'.
    apply (TickFacts.same_actors_live w1 wa b Hsame). now apply Hlive'. }
  destruct (TickFacts.destroy_pending_spec (World.m_pendingDestroy wa) wa Hnd'
              Hlivea (TickFacts.same_actors_consistent w1 wa Hsame Hc1))
    as (wb & EP & Hlb & _ & Hdb & _).
  rewrite EP in ET. injection ET as <- <-.
  assert (Hgone : World.deref (World.clear_pending wb) p = None).
  { apply TickFacts.not_live_deref. unfold World.is_live.
    cbn [World.clear_pending World.m_actors].
    intros Hl2. apply Hlb in Hl2. destruct Hl2 as [_ Hnot].
    apply Hnot. now apply Hgrow. }
  split; [apply List.in_or_app; right; apply List.in_map; now apply Hgrow|].
  split; [exact Hgone|].
  destruct (World.GetActorByNetId (World.clear_pending wb) netId) as [q|] eqn:Eq;
    [exfalso|reflexivity].
  destruct (ReachFacts.reachable_invariant _ Hr2) as [(_ & Hc2 & _) _].
  destruct (Hc2 _ _ Eq) as (x & Hx & Hxid).
  assert (Hqp : q <> p) by (intros ->; congruence).
  assert (Hq1 : World.deref w q = Some x).
  { assert (Hql : World.is_live (World.clear_pending wb) q)
      by now apply (TickFacts.deref_Some_live _ _ x).
    apply Hlb in Hql. destruct Hql as [_ Hnot].
    change (World.deref (World.clear_pending wb) q) with (World.deref wb q) in Hx.
    rewrite (Hdb q Hnot) in Hx.
    destruct Hsame as (Aa & _). unfold World.deref in Hx |- *.
    now rewrite Aa, A in Hx. }
  apply ReachFacts.deref_In, Hc in Hq1. rewrite Hxid in Hq1.
  unfold World.GetActorByNetId in Hp. congruence.
Qed.

(** An instance: the destroy message for NetId 1 on the World with two
    players, followed by a tick in which no actor asks for anything. *)
Lemma destroy_round_trip_witness :
  exists w2 ev,
    World.Tick Scenario.idle (FLit "0.016f")
      (ReplicationManager.HandleActorDestroy Scenario.two_players
         (over_the_wire (Packet.SetSequence (destroy_packet 1) 9)))
    = Some (w2, ev) /\
    World.deref w2 0%nat = None.
Proof.
  destruct (destroy_round_trip Scenario.two_players 1 9 Scenario.idle
              (FLit "0.016f")) as (_ & _ & H).
  - exact ReachFacts.two_players_reachable.
  - split; vm_compute; (reflexivity || congruence).
  - split; vm_compute; (reflexivity || congruence).
  - intros dt a w' p _ [].
  - destruct (H 0%nat) as (_ & _ & _ & w2 & ev & ET & _ & Hd & _).
    + vm_compute. reflexivity.
    + exists w2, ev. split; [exact ET|exact Hd].
Defined.

Module BatchFacts.
Import NetDriver.

Lemma buffer_nonempty (data : list byte) :
  data <> [] -> (length (firstn (MAX_PACKET_SIZE * 2) data) =? 0)%nat = false.
Proof.
  intros H. apply Nat.eqb_neq. rewrite length_take.
  destruct data; [congruence|]. cbn [length]. unfold MAX_PACKET_SIZE. lia.
Qed.

Lemma receive_loop_full (budget : nat) :
  forall (d : t) (socket : list (Address * list byte)),
    Forall (fun e => snd e <> []) socket ->
    receive_loop budget d socket
    = (fst (receive_all d (firstn budget socket)),
       snd (receive_all d (firstn budget socket)),
       skipn budget socket).
Proof.
  induction budget as [|budget IH]; intros d socket Hne.
  - reflexivity.
  - destruct socket as [|[from data] rest]; [reflexivity|].
    apply List.Forall_cons_iff in Hne. destruct Hne as [Hd Hrest].
    cbn [receive_loop firstn skipn receive_all].
    rewrite (buffer_nonempty data Hd).
    destruct (receive_datagram d from (firstn (MAX_PACKET_SIZE * 2) data))
      as [d1 ev1].
    rewrite (IH d1 rest Hrest).
    now destruct (receive_all d1 (firstn budget rest)).
Qed.

Lemma receive_loop_stop (pre : list (Address * list byte)) :
  forall (budget : nat) (d : t) (from : Address)
         (post : list (Address * list byte)),
    (length pre < budget)%nat ->
    Forall (fun e => snd e <> []) pre ->
    receive_loop budget d (pre ++ (from, []) :: post)
    = (fst (receive_all d pre), snd (receive_all d pre), post).
Proof.
  induction pre as [|[a data] pre IH]; intros budget d from post Hlen Hne.
  - destruct budget; [cbn in Hlen; lia|]. reflexivity.
  - destruct budget; [cbn in Hlen; lia|].
    apply List.Forall_cons_iff in Hne. destruct Hne as [Hd Hrest].
    cbn [app receive_loop receive_all].
    rewrite (buffer_nonempty data Hd).
    destruct (receive_datagram d a (firstn (MAX_PACKET_SIZE * 2) data))
      as [d1 ev1].
    rewrite (IH budget d1 from post); [|cbn [length] in Hlen; lia|exact Hrest].
    now destruct (receive_all d1 pre).
Qed.

End BatchFacts.

(** X22. The receive batch of a tick. [ReceivePackets] handles the
    datagrams waiting at the socket in arrival order, each cut to the
    2048-byte receive buffer, and stops after 100 of them: the others
    stay at the socket, in order, for the next tick. A datagram of length
    zero ends the batch early: it is taken from the socket and dropped,
    the datagrams before it are handled, and those behind it stay at the
    socket. *)
Theorem receive_batch (d : NetDriver.t) :
  (forall socket,
     Forall (fun e => snd e <> []) socket ->
     NetDriver.ReceivePackets d socket
     = (fst (receive_all d (firstn 100 socket)),
        snd (receive_all d (firstn 100 socket)),
        skipn 100 socket)) /\
  (forall pre from post,
     Forall (fun e => snd e <> []) pre ->
     (length pre < 100)%nat ->
     NetDriver.ReceivePackets d (pre ++ (from, []) :: post)
     = (fst (receive_all d pre), snd (receive_all d pre), post)).
Proof.
  split.
  - intros socket H. now apply BatchFacts.receive_loop_full.
  - intros pre from post H Hlen. now apply BatchFacts.receive_loop_stop.
Qed.

(** ** The replication pass of the server *)

Module PassFacts.
Import ReplicationServer.







End PassFacts.

Module TickPassFacts.
Import ReplicationServer.



End TickPassFacts.

Module PassTotal.
Import ReplicationServer.




End PassTotal.



Module PassExample.




End PassExample.



Module TickFlow.
Import NetDriver.

Lemma length_wire_bytes (P : Packet.t) :
  BitStream.wf (Packet.m_payload P) ->
  length (Packet.wire_bytes P)
  = (12 + BitStream.GetSize (Packet.m_payload P))%nat.
Proof.
  intros Hwf. unfold Packet.wire_bytes.
  rewrite !length_app, !length_le_split, (PacketFacts.length_contents _ Hwf).
  reflexivity.
Qed.

(** A data packet from the peer of the only connection. *)
Lemma receive_data (d : t) (p : conn_ptr) (c : NetConnection.t) (P : Packet.t) :
  m_connections d = [(p, c)] ->
  Packet.well_formed P ->
  Packet.GetType P <> PacketType.ConnectionRequest ->
  Packet.GetType P <> PacketType.ConnectionAccept ->
  Packet.GetType P <> PacketType.Disconnect ->
  receive_datagram d (NetConnection.m_address c) (Packet.wire_bytes P)
  = (update d p
       (fun _ => fst (NetConnection.ReceivePacket c (received P Packet.create))),
     callback (m_onPacket d)
       (OnPacket p
          (snd (NetConnection.ReceivePacket c (received P Packet.create))))).
Proof.
  intros Hd HP H1 H2 H3. unfold receive_datagram.
  destruct (DriverMore.Deserialize_of_wire P HP) as [rest ->]. cbn [negb].
  change (Packet.GetType (received P Packet.create)) with (Packet.GetType P).
  destruct (Z.eqb_spec (Packet.GetType P) PacketType.ConnectionRequest);
    [contradiction|].
  destruct (Z.eqb_spec (Packet.GetType P) PacketType.ConnectionAccept);
    [contradiction|].
  destruct (Z.eqb_spec (Packet.GetType P) PacketType.Disconnect);
    [contradiction|].
  unfold FindConnection, deref. rewrite Hd.
  cbn [find_by_address List.find fst snd].
  rewrite bool_decide_eq_true_2 by reflexivity.
  rewrite Nat.eqb_refl. cbn [fmap option_fmap option_map snd].
  now destruct (NetConnection.ReceivePacket c (received P Packet.create)).
Qed.

End TickFlow.

(** X25. A packet is acknowledged in the tick that receives it. A driver
    with one connection, whose outgoing queue is empty, receives in a
    [Tick] one datagram from that peer: a well-formed data packet (not a
    connection request, accept, disconnect, acknowledgement or
    heartbeat) that fits the receive buffer. With a socket that takes
    the next datagram, the same [Tick] hands the packet to the packet
    callback and transmits exactly one datagram, the acknowledgement of
    the packet's sequence number stamped with the connection's sequence
    counter, to the peer; no datagram stays at the socket. *)
Theorem tick_acknowledges
    (gt : float32 -> float32 -> bool) (d : NetDriver.t)
    (p : NetDriver.conn_ptr) (c : NetConnection.t) (P : Packet.t)
    (deltaTime : float32) (b : Z) (rs : list Z) :
  NetDriver.m_connections d = [(p, c)] ->
  NetConnection.m_outgoingQueue c = [] ->
  Packet.well_formed P ->
  (12 + BitStream.GetSize (Packet.m_payload P) <= MAX_PACKET_SIZE * 2)%nat ->
  Packet.GetType P <> PacketType.ConnectionRequest ->
  Packet.GetType P <> PacketType.ConnectionAccept ->
  Packet.GetType P <> PacketType.Disconnect ->
  Packet.GetType P <> PacketType.Acknowledgement ->
  Packet.GetType P <> PacketType.Heartbeat ->
  0 < b ->
  let r := NetDriverOps.Tick gt d deltaTime (Socket.mk true (b :: rs))
             [(NetConnection.m_address c, Packet.wire_bytes P)] in
  let ack := Packet.SetSequence
               (NetConnection.ack_packet (Packet.GetSequence P))
               (NetConnection.m_outgoingSequence c) in
  snd (fst r) = [(Packet.wire_bytes ack, NetConnection.m_address c)] /\
  snd r = [] /\
  snd (fst (fst (fst r))) = Socket.mk true rs /\
  exists timeouts,
    snd (fst (fst r))
    = NetDriver.callback (NetDriver.m_onPacket d)
        (NetDriver.OnPacket p (received P Packet.create)) ++ timeouts.
Proof.
  intros Hd Hq HP Hfit H1 H2 H3 H4 H5 Hb r ack.
  assert (Hwf : BitStream.wf (Packet.m_payload P)) by apply HP.
  assert (Hlen : length (Packet.wire_bytes P)
                 = (12 + BitStream.GetSize (Packet.m_payload P))%nat)
    by now apply TickFlow.length_wire_bytes.
  destruct (NetConnectionFacts.ReceivePacket_acks c
              (received P Packet.create) H4 H5) as (Q1 & _ & Q3).
  change (Packet.GetSequence (received P Packet.create))
    with (Packet.GetSequence P) in Q1.
  rewrite Hq in Q1. cbn [app] in Q1. fold ack in Q1.
  set (c1 := fst (NetConnection.ReceivePacket c (received P Packet.create))) in *.
  assert (Ha1 : NetConnection.m_address c1 = NetConnection.m_address c).
  { subst c1. unfold NetConnection.ReceivePacket.
    destruct (Z.eqb_spec (Packet.GetType (received P Packet.create))
                PacketType.Acknowledgement) as [E|_]; [contradiction|].
    destruct (Z.eqb_spec (Packet.GetType (received P Packet.create))
                PacketType.Heartbeat) as [E|_]; [contradiction|].
    reflexivity. }
  subst r. unfold NetDriverOps.Tick. cbn [Socket.IsValid negb].
  unfold NetDriver.ReceivePackets.
  change 100%nat with (S 99). cbn [NetDriver.receive_loop].
  rewrite (firstn_all2 (Packet.wire_bytes P)) by lia.
  destruct (Nat.eqb_spec (length (Packet.wire_bytes P)) 0); [lia|].
  rewrite (TickFlow.receive_data d p c P Hd HP H1 H2 H3), Q3.
  fold c1. cbn [NetDriver.receive_loop].
  unfold NetDriverOps.tick_connections, NetDriver.update,
    NetDriver.with_connections.
  cbn [NetDriver.m_connections NetDriver.m_connectionList
       NetDriver.m_serverConnection NetDriver.next_conn
       NetDriver.m_mode NetDriver.m_maxConnections NetDriver.m_onConnection
       NetDriver.m_onDisconnection NetDriver.m_onPacket].
  rewrite Hd. cbn [map fst snd]. rewrite Nat.eqb_refl. cbn [fst snd].
  set (c2 := NetConnection.Tick c1 deltaTime).
  assert (Q2 : NetConnection.m_outgoingQueue c2 = [ack]) by exact Q1.
  rewrite (DriverMore.FlushOutgoingPackets_single _ p c2) by reflexivity.
  destruct (DriverMore.FlushOutgoing_one c2 ack b rs Q2 Hb)
    as (F1 & F2 & _).
  destruct (NetDriverOps.CheckTimeouts gt _) as [d4 ev2].
  cbn [fst snd]. rewrite F1, F2.
  change (NetConnection.m_address c2) with (NetConnection.m_address c1).
  rewrite Ha1, app_nil_r.
  split; [reflexivity|]. split; [reflexivity|]. split; [reflexivity|].
  now exists ev2.
Qed.

(** An instance: the server of the example with one peer, its accept
    already flushed, receives an [ActorDestroy] packet. *)
Lemma tick_acknowledges_witness :
  snd (fst (NetDriverOps.Tick Scenario.gt
              (fst (fst (NetDriverOps.FlushOutgoingPackets
                           (Scenario.server_with_peer 2)
                           (Socket.mk true [12]))))
              (FLit "0.016f") (Socket.mk true [16])
              [(Scenario.peer_addr,
                Packet.wire_bytes
                  (Packet.SetSequence (destroy_packet 1) 5))]))
  = [(Packet.wire_bytes
        (Packet.SetSequence (NetConnection.ack_packet 5) 1),
      Scenario.peer_addr)].
Proof.
  set (d := fst (fst (NetDriverOps.FlushOutgoingPackets
                        (Scenario.server_with_peer 2) (Socket.mk true [12])))).
  destruct (NetDriver.m_connections d) as [|[p c] [|e l]] eqn:Ec;
    try (vm_compute in Ec; discriminate).
  assert (Hc : (fun l => match l with
                         | [(p, c)] =>
                             (p = 0%nat /\
                              NetConnection.m_address c = Scenario.peer_addr /\
                              NetConnection.m_outgoingQueue c = [] /\
                              NetConnection.m_outgoingSequence c = 1)
                         | _ => False
                         end) (NetDriver.m_connections d))
    by (vm_compute; repeat split; reflexivity).
  rewrite Ec in Hc. destruct Hc as (-> & Ha & Hq & Hs).
  destruct (tick_acknowledges Scenario.gt d 0%nat c
              (Packet.SetSequence (destroy_packet 1) 5)
              (FLit "0.016f") 16 []) as [H _];
    try discriminate.
  - exact Ec.
  - exact Hq.
  - unfold Packet.well_formed, in_unsigned, BitStream.wf.
    repeat split; vm_compute; (reflexivity || congruence || lia).
  - vm_compute. lia.
  - lia.
  - rewrite Ha, Hs in H. exact H.
Defined.

(** X26. Registration for replication. [RegisterActor] on a live actor
    returns; it appends the actor when the actor replicates and is not
    registered yet and changes nothing otherwise, so that registering
    again (as every tick of the manager does) has no effect and no actor
    is listed twice. [UnregisterActor] removes the actor and no other.
    Neither touches the per-connection spawn records: what has been
    spawned on a connection stays recorded after the actor is
    unregistered. *)
Theorem registration_idempotent
    (rm : ReplicationServer.t) (w : World.t)
    (p : World.actor_ptr) (a : Actor.t) :
  World.deref w p = Some a ->
  NoDup (ReplicationServer.m_replicatedActors rm) ->
  exists rm1,
    ReplicationServer.RegisterActor rm w (Some p) = Some rm1 /\
    ReplicationServer.RegisterActor rm1 w (Some p) = Some rm1 /\
    NoDup (ReplicationServer.m_replicatedActors rm1) /\
    (forall q, In q (ReplicationServer.m_replicatedActors rm1) <->
               In q (ReplicationServer.m_replicatedActors rm) \/
               (q = p /\ Actor.m_replicates a = true)) /\
    ReplicationServer.m_connectionStates rm1
    = ReplicationServer.m_connectionStates rm /\
    let rm2 := ReplicationServer.UnregisterActor rm1 (Some p) in
    NoDup (ReplicationServer.m_replicatedActors rm2) /\
    (forall q, In q (ReplicationServer.m_replicatedActors rm2) <->
               In q (ReplicationServer.m_replicatedActors rm) /\ q <> p) /\
    ReplicationServer.m_connectionStates rm2
    = ReplicationServer.m_connectionStates rm.
Proof.
  intros Hd Hnd.
  assert (Hun : forall l : list World.actor_ptr,
            NoDup l ->
            NoDup (List.filter (fun q => negb (Nat.eqb q p)) l) /\
            forall q, In q (List.filter (fun q => negb (Nat.eqb q p)) l)
                      <-> In q l /\ q <> p).
  { intros l Hl. split.
    - apply NoDup_ListNoDup, List.NoDup_filter. now apply NoDup_ListNoDup.
    - intros q. rewrite List.filter_In.
      destruct (Nat.eqb_spec q p); cbn [negb]; intuition congruence. }
  unfold ReplicationServer.RegisterActor. rewrite Hd. cbn [mbind option_bind].
  destruct (Actor.m_replicates a) eqn:Hrep; cbn [negb].
  - destruct (existsb (Nat.eqb p) (ReplicationServer.m_replicatedActors rm))
      eqn:Hex.
    + exists rm. rewrite Hex.
      apply TickFacts.existsb_eqb_In in Hex.
      split; [reflexivity|]. split; [reflexivity|]. split; [exact Hnd|].
      split; [intros q; intuition congruence|]. split; [reflexivity|].
      cbn zeta. destruct (Hun _ Hnd) as [U1 U2].
      split; [exact U1|]. split; [exact U2|reflexivity].
    + eexists. split; [reflexivity|].
      cbn [ReplicationServer.with_actors ReplicationServer.m_replicatedActors
           ReplicationServer.m_connectionStates].
      assert (Hnot : ~ In p (ReplicationServer.m_replicatedActors rm)).
      { intros Hin. apply TickFacts.existsb_eqb_In in Hin. congruence. }
      assert (Hin' : existsb (Nat.eqb p)
                       (ReplicationServer.m_replicatedActors rm ++ [p]) = true).
      { apply TickFacts.existsb_eqb_In, List.in_or_app. right. now left. }
      rewrite Hin'.
      assert (Hnd' : NoDup (ReplicationServer.m_replicatedActors rm ++ [p])).
      { apply NoDup_app. split; [exact Hnd|]. split; [|apply NoDup_singleton].
        intros x Hx Hx'. apply list_elem_of_In in Hx, Hx'.
        destruct Hx' as [<-|[]]. contradiction. }
      split; [reflexivity|]. split; [exact Hnd'|].
      split.
      { intros q. rewrite List.in_app_iff. cbn [In]. intuition congruence. }
      split; [reflexivity|].
      cbn zeta. unfold ReplicationServer.UnregisterActor.
      cbn [ReplicationServer.with_actors ReplicationServer.m_replicatedActors
           ReplicationServer.m_connectionStates].
      destruct (Hun _ Hnd') as [U1 U2].
      split; [exact U1|]. split; [|reflexivity].
      intros q. rewrite U2, List.in_app_iff. cbn [In]. intuition congruence.
  - exists rm.
    split; [reflexivity|]. split; [reflexivity|]. split; [exact Hnd|].
    split; [intros q; intuition congruence|]. split; [reflexivity|].
    cbn zeta. destruct (Hun _ Hnd) as [U1 U2].
    split; [exact U1|]. split; [exact U2|reflexivity].
Qed.

(** An instance: the manager of the example. *)
Lemma registration_idempotent_witness :
  ReplicationServer.RegisterActor Scenario.manager Scenario.server_world
    (Some 0%nat) = Some Scenario.manager.
Proof.
  destruct (registration_idempotent ReplicationServer.create
              Scenario.server_world 0%nat
              (Actor.SetWorld
                 (Actor.SetNetId
                    (Actor.SetReplicates (Scenario.PlayerActor 57) true) 1)
                 true))
    as (rm1 & H1 & H2 & _).
  - reflexivity.
  - constructor.
  - unfold Scenario.manager. rewrite H1. exact H2.
Defined.

Module ShutdownFacts.
Import NetDriver.

(** The fields of the driver that queueing packets does not touch. *)
Lemma queueing_frame (packet : Packet.t) (reliable : bool)
    (l : list (conn_ptr * NetConnection.t)) :
  forall d : t,
    let d1 :=
      fold_left
        (fun d e =>
           match deref d (fst e) with
           | Some c =>
               match NetConnection.m_state c with
               | Connected => SendPacket d (fst e) packet reliable
               | _ => d
               end
           | None => d
           end) l d in
    m_mode d1 = m_mode d /\ m_maxConnections d1 = m_maxConnections d /\
    m_onConnection d1 = m_onConnection d /\
    m_onDisconnection d1 = m_onDisconnection d /\
    m_onPacket d1 = m_onPacket d /\ next_conn d1 = next_conn d.
Proof.
  induction l as [|e l IH]; intros d; cbn [fold_left]; [now repeat split|].
  cbn zeta in IH. destruct (deref d (fst e)) as [c|]; [|apply IH].
  destruct (NetConnection.m_state c); try apply IH.
  destruct (IH (SendPacket d (fst e) packet reliable))
    as (-> & -> & -> & -> & -> & ->).
  now repeat split.
Qed.

End ShutdownFacts.

(** X27. Shutdown is silent. [Shutdown] queues a [Disconnect] packet on
    every connected connection and then destroys all connections
    without a flush and without running the on-disconnect callback: the
    driver afterwards has no connections and no server connection, is in
    mode [Standalone] and keeps only its limit and callbacks, whatever
    the connections held (queued and retained packets included); the
    socket is closed, so that every later [SendTo] fails and a [Tick]
    does nothing, leaving waiting datagrams where they are. *)
Theorem shutdown_is_silent (d : NetDriver.t) (socket : Socket.t) :
  let r := NetDriverOps.Shutdown d socket in
  fst r
  = NetDriver.mk NetworkMode.Standalone (NetDriver.m_maxConnections d) [] []
      None (NetDriver.m_onConnection d) (NetDriver.m_onDisconnection d)
      (NetDriver.m_onPacket d) (NetDriver.next_conn d) /\
  Socket.IsValid (snd r) = false /\
  (forall data dest, Socket.SendTo (snd r) data dest = (-1, snd r)) /\
  (forall gt deltaTime incoming,
     NetDriverOps.Tick gt (fst r) deltaTime (snd r) incoming
     = (fst r, snd r, [], [], incoming)).
Proof.
  intros r. subst r. unfold NetDriverOps.Shutdown.
  destruct (ShutdownFacts.queueing_frame
              (Packet.of_type PacketType.Disconnect) false
              (NetDriver.m_connections d) d) as (_ & H2 & H3 & H4 & H5 & H6).
  cbn zeta in *. cbn [fst snd].
  unfold NetDriverOps.with_mode, NetDriver.with_connections.
  cbn [NetDriver.m_mode NetDriver.m_maxConnections NetDriver.m_connections
       NetDriver.m_connectionList NetDriver.m_serverConnection
       NetDriver.m_onConnection NetDriver.m_onDisconnection
       NetDriver.m_onPacket NetDriver.next_conn].
  rewrite H2, H3, H4, H5, H6.
  split; [reflexivity|]. split; [reflexivity|]. split; reflexivity.
Qed.

(** ** The driver between operations *)

Module DriverInvariant.
Import NetDriver.

Lemma sound_update (d : t) (p : conn_ptr)
    (f : NetConnection.t -> NetConnection.t) :
  sound_driver d -> sound_driver (update d p f).
Proof.
  intros [[Hnd Hl] Hf]. split; [|now apply HandshakeFacts.fresh_update].
  assert (E : map fst (m_connections (update d p f))
              = map fst (m_connections d)).
  { unfold update, with_connections. cbn [m_connections]. rewrite map_map.
    apply map_ext. intros [q c]. cbn [fst snd]. now destruct (Nat.eqb q p). }
  split; [now rewrite E|]. rewrite E. exact Hl.
Qed.

Lemma sound_CreateConnection (d : t) (a : Address) :
  sound_driver d -> sound_driver (fst (CreateConnection d a)).
Proof.
  intros [[Hnd Hl] Hf].
  split; [|now apply HandshakeFacts.fresh_CreateConnection].
  unfold CreateConnection, with_connections, NetDriverOps.well_formed.
  cbn [fst m_connections m_connectionList]. rewrite map_app. cbn [map fst].
  split; [|now rewrite Hl].
  apply NoDup_app. split; [exact Hnd|]. split; [|apply NoDup_singleton].
  intros x Hx Hx'. apply list_elem_of_In in Hx, Hx'.
  destruct Hx' as [<-|[]]. apply List.in_map_iff in Hx.
  destruct Hx as (e & He & Hin). unfold fresh in Hf.
  rewrite List.Forall_forall in Hf. specialize (Hf e Hin). lia.
Qed.

Lemma sound_RemoveConnection (d : t) (p : conn_ptr) :
  sound_driver d -> sound_driver (RemoveConnection d p).
Proof.
  intros [[Hnd Hl] Hf].
  split; [|now apply HandshakeFacts.fresh_RemoveConnection].
  unfold RemoveConnection, with_connections, NetDriverOps.well_formed.
  cbn [m_connections m_connectionList].
  split; [now apply ReachFacts.NoDup_map_filter|].
  rewrite Hl. apply (TimeoutFacts.filter_map_fst (fun q => negb (Nat.eqb q p))).
Qed.

Lemma sound_with_server (d : t) (s : option conn_ptr) :
  sound_driver d ->
  sound_driver (with_connections d (m_connections d) (m_connectionList d) s
                  (next_conn d)).
Proof. intros H. exact H. Qed.

Lemma sound_receive_datagram (d : t) (from : Address) (buffer : list byte) :
  sound_driver d -> sound_driver (fst (receive_datagram d from buffer)).
Proof.
  intros H. unfold receive_datagram.
  destruct (Packet.Deserialize Packet.create (BitStream.of_data buffer))
    as [[ok packet] rest].
  destruct ok; cbn [negb]; [|exact H].
  destruct (Packet.GetType packet =? PacketType.ConnectionRequest).
  { destruct (IsServer d); [|exact H].
    unfold HandleConnectionRequest.
    destruct (FindConnection d from); [exact H|].
    destruct (_ <=? _); [exact H|].
    pose proof (sound_CreateConnection d from H) as Hc.
    destruct (CreateConnection d from) as [d1 q]. cbn [fst] in *.
    unfold SendPacket. now apply sound_update, sound_update. }
  destruct (Packet.GetType packet =? PacketType.ConnectionAccept).
  { destruct (IsClient d), (m_serverConnection d); try exact H.
    now apply sound_update. }
  destruct (Packet.GetType packet =? PacketType.Disconnect).
  { destruct (FindConnection d from); [|exact H].
    now apply sound_RemoveConnection. }
  destruct (FindConnection d from) as [p|]; [|exact H].
  destruct (deref d p) as [c|]; [|exact H].
  destruct (NetConnection.ReceivePacket c packet) as [c' packet'].
  now apply sound_update.
Qed.

Lemma sound_receive_loop (budget : nat) :
  forall (d : t) (socket : list (Address * list byte)),
    sound_driver d -> sound_driver (fst (fst (receive_loop budget d socket))).
Proof.
  induction budget as [|budget IH]; intros d socket H; [exact H|].
  cbn [receive_loop]. destruct socket as [|[from data] rest]; [exact H|].
  destruct (length _ =? 0)%nat; [exact H|].
  pose proof (sound_receive_datagram d from
                (firstn (MAX_PACKET_SIZE * 2) data) H) as H1.
  destruct (receive_datagram d from _) as [d1 ev1]. cbn [fst] in H1.
  specialize (IH d1 rest H1).
  now destruct (receive_loop budget d1 rest) as [[d2 ev2] rest'].
Qed.

Lemma flush_connections_pointers
    (cs : list (conn_ptr * NetConnection.t)) :
  forall socket : Socket.t,
    map fst (fst (fst (NetDriverOps.flush_connections cs socket)))
    = map fst cs.
Proof.
  induction cs as [|[p c] cs IH]; intros socket; [reflexivity|].
  cbn [NetDriverOps.flush_connections].
  destruct (NetConnectionIO.FlushOutgoing c socket) as [[c' socket'] sent].
  specialize (IH socket').
  destruct (NetDriverOps.flush_connections cs socket')
    as [[rest' socket''] sent'].
  cbn [fst map] in *. now rewrite IH.
Qed.

(** Any change of the owned connections that keeps their addresses. *)
Lemma sound_same_pointers (d : t) (cs : list (conn_ptr * NetConnection.t)) :
  map fst cs = map fst (m_connections d) ->
  sound_driver d ->
  sound_driver (with_connections d cs (m_connectionList d)
                  (m_serverConnection d) (next_conn d)).
Proof.
  intros E [[Hnd Hl] Hf]. unfold sound_driver, NetDriverOps.well_formed, fresh.
  cbn [with_connections m_connections m_connectionList next_conn].
  rewrite E. split; [now split|].
  unfold fresh in Hf. rewrite List.Forall_forall in *.
  intros e He. apply (List.in_map fst) in He. rewrite E in He.
  apply List.in_map_iff in He. destruct He as (e' & <- & He').
  now apply Hf.
Qed.

Lemma sound_FlushOutgoingPackets (d : t) (socket : Socket.t) :
  sound_driver d ->
  sound_driver (fst (fst (NetDriverOps.FlushOutgoingPackets d socket))).
Proof.
  intros H. unfold NetDriverOps.FlushOutgoingPackets.
  pose proof (flush_connections_pointers (m_connections d) socket) as E.
  destruct (NetDriverOps.flush_connections (m_connections d) socket)
    as [[cs socket'] sent].
  cbn [fst] in *. now apply sound_same_pointers.
Qed.

Lemma sound_tick_connections (d : t) (deltaTime : float32) :
  sound_driver d -> sound_driver (NetDriverOps.tick_connections d deltaTime).
Proof.
  intros H. unfold NetDriverOps.tick_connections.
  apply sound_same_pointers; [|exact H].
  rewrite map_map. now apply map_ext.
Qed.

Lemma sound_DisconnectClient (d : t) (connection : option conn_ptr) :
  sound_driver d ->
  sound_driver (fst (NetDriverOps.DisconnectClient d connection)).
Proof.
  intros H. destruct connection as [p|]; [|exact H].
  rewrite TimeoutFacts.DisconnectClient_spec.
  now apply sound_RemoveConnection.
Qed.

Lemma sound_CheckTimeouts (gt : float32 -> float32 -> bool) (d : t) :
  sound_driver d -> sound_driver (fst (NetDriverOps.CheckTimeouts gt d)).
Proof.
  intros H. unfold NetDriverOps.CheckTimeouts.
  destruct (IsServer d); cbn [negb]; [|exact H].
  rewrite TimeoutFacts.sweep_spec. cbn [fst].
  generalize (List.filter
                (fun p => match deref d p with
                          | Some c => NetConnectionIO.IsTimedOut gt c
                                        NetDriverOps.m_connectionTimeout
                          | None => false
                          end) (m_connectionList d)).
  intros l. revert d H. induction l as [|p l IH]; intros d H; [exact H|].
  cbn [fold_left]. now apply IH, sound_RemoveConnection.
Qed.

Lemma sound_BroadcastPacket (d : t) (packet : Packet.t) (reliable : bool) :
  sound_driver d ->
  sound_driver (NetDriverOps.BroadcastPacket d packet reliable).
Proof.
  unfold NetDriverOps.BroadcastPacket.
  generalize (m_connectionList d). intros l. revert d.
  induction l as [|p l IH]; intros d H; [exact H|].
  cbn [fold_left]. apply IH.
  destruct (deref d p) as [c|]; [|exact H].
  destruct (NetConnection.m_state c); try exact H.
  now apply sound_update.
Qed.

Lemma sound_ConnectToServer (d : t) (serverAddr : option Address) :
  sound_driver d ->
  sound_driver (fst (NetDriverOps.ConnectToServer d serverAddr)).
Proof.
  intros H. unfold NetDriverOps.ConnectToServer.
  destruct (m_mode d); try exact H.
  destruct serverAddr as [a|]; [|exact H].
  pose proof (sound_CreateConnection d a H) as Hc.
  destruct (CreateConnection d a) as [d1 p]. cbn [fst] in *.
  unfold SendPacket. apply sound_update.
  now apply (sound_with_server d1 (Some p)).
Qed.

End DriverInvariant.

(** X28. The driver stays sound. When the owned connections of a driver
    lie at distinct addresses below the allocator's next address and the
    pointer list names exactly them, the same holds after a received
    datagram of any content, after a whole [Tick] (receive, clocks,
    flush, timeout sweep) with any socket behaviour, after
    [ConnectToServer], [SendPacket], [BroadcastPacket] and
    [DisconnectClient]; it holds for a new driver. No operation leaves a
    pointer in the list to a connection that has been destroyed, and no
    two connections share an address of memory. *)
Theorem driver_stays_sound (d : NetDriver.t) :
  sound_driver d ->
  (forall from buffer,
     sound_driver (fst (NetDriver.receive_datagram d from buffer))) /\
  (forall gt deltaTime socket incoming,
     sound_driver
       (fst (fst (fst (fst (NetDriverOps.Tick gt d deltaTime socket incoming)))))) /\
  (forall serverAddr,
     sound_driver (fst (NetDriverOps.ConnectToServer d serverAddr))) /\
  (forall connection packet reliable,
     sound_driver (NetDriver.SendPacket d connection packet reliable)) /\
  (forall packet reliable,
     sound_driver (NetDriverOps.BroadcastPacket d packet reliable)) /\
  (forall connection,
     sound_driver (fst (NetDriverOps.DisconnectClient d connection))) /\
  sound_driver NetDriver.create.
Proof.
  intros H.
  split; [intros; now apply DriverInvariant.sound_receive_datagram|].
  split.
  { intros gt dt socket incoming. unfold NetDriverOps.Tick.
    destruct (Socket.IsValid socket); cbn [negb]; [|exact H].
    unfold NetDriver.ReceivePackets.
    pose proof (DriverInvariant.sound_receive_loop 100 d incoming H) as H1.
    destruct (NetDriver.receive_loop 100 d incoming) as [[d1 ev1] incoming'].
    cbn [fst] in H1.
    apply (DriverInvariant.sound_tick_connections d1 dt) in H1.
    apply (DriverInvariant.sound_FlushOutgoingPackets _ socket) in H1.
    destruct (NetDriverOps.FlushOutgoingPackets _ socket)
      as [[d3 socket'] sent].
    cbn [fst] in H1.
    apply (DriverInvariant.sound_CheckTimeouts gt) in H1.
    destruct (NetDriverOps.CheckTimeouts gt d3) as [d4 ev2].
    exact H1. }
  split; [intros; now apply DriverInvariant.sound_ConnectToServer|].
  split; [intros; now apply DriverInvariant.sound_update|].
  split; [intros; now apply DriverInvariant.sound_BroadcastPacket|].
  split; [intros; now apply DriverInvariant.sound_DisconnectClient|].
  split; [split; [constructor|reflexivity]|constructor].
Qed.

(** An instance: the server of the example with two peers, through a
    tick in which the silent peer times out. *)
Lemma driver_stays_sound_witness :
  sound_driver
    (fst (fst (fst (fst (NetDriverOps.Tick Scenario.gt Scenario.quiet_server
                           (FLit "0.016f") (Socket.mk true [12; 12]) []))))).
Proof.
  destruct (driver_stays_sound Scenario.quiet_server) as (_ & H & _).
  - split.
    + split; [|vm_compute; reflexivity].
      apply NoDup_ListNoDup. vm_compute.
      repeat constructor; cbn; intuition congruence.
    + assert (E : map fst (NetDriver.m_connections Scenario.quiet_server)
                  = [0%nat; 1%nat]) by (vm_compute; reflexivity).
      assert (N : NetDriver.next_conn Scenario.quiet_server = 2%nat)
        by (vm_compute; reflexivity).
      unfold NetDriver.fresh. rewrite N. apply List.Forall_forall.
      intros e He. apply (List.in_map fst) in He. rewrite E in He.
      cbn in He. lia.
  - apply H.
Defined.
(** ** Acknowledgements between two drivers *)

Module AckFacts.
Import NetDriver.

Lemma find_update (cs : list (conn_ptr * NetConnection.t)) (p : conn_ptr)
    (f : NetConnection.t -> NetConnection.t) (address : Address) :
  (forall c, NetConnection.m_address (f c) = NetConnection.m_address c) ->
  find_by_address
    (map (fun e => if Nat.eqb (fst e) p then (fst e, f (snd e)) else e) cs)
    address
  = find_by_address cs address.
Proof.
  intros Hf. induction cs as [|[q c] cs IH]; [reflexivity|].
  cbn [map find_by_address fst snd].
  destruct (Nat.eqb q p); cbn [find_by_address]; rewrite ?Hf, IH; reflexivity.
Qed.

Lemma FindConnection_SendPacket (d : t) (p : conn_ptr) (P : Packet.t)
    (reliable : bool) (address : Address) :
  FindConnection (SendPacket d p P reliable) address = FindConnection d address.
Proof.
  unfold FindConnection, SendPacket, update, with_connections.
  cbn [m_connections].
  now apply (find_update _ p (fun c => NetConnection.SendPacket c P reliable)).
Qed.

(** One datagram at the socket that holds a data packet of a known peer
    and fits the receive buffer. *)
Lemma receive_found (d : t) (from : Address) (p : conn_ptr)
    (c : NetConnection.t) (P : Packet.t) :
  FindConnection d from = Some p -> deref d p = Some c ->
  Packet.well_formed P -> fits_buffer P ->
  Packet.GetType P <> PacketType.ConnectionRequest ->
  Packet.GetType P <> PacketType.ConnectionAccept ->
  Packet.GetType P <> PacketType.Disconnect ->
  ReceivePackets d [(from, Packet.wire_bytes P)]
  = (update d p
       (fun _ => fst (NetConnection.ReceivePacket c (received P Packet.create))),
     callback (m_onPacket d)
       (OnPacket p
          (snd (NetConnection.ReceivePacket c (received P Packet.create)))),
     []).
Proof.
  intros Hfind Hderef HP Hfit H1 H2 H3.
  assert (Hwf : BitStream.wf (Packet.m_payload P)) by apply HP.
  unfold ReceivePackets. change 100%nat with (S 99). cbn [receive_loop].
  rewrite (WireFacts.buffer_fits P Hwf Hfit).
  destruct (Nat.eqb_spec (length (Packet.wire_bytes P)) 0) as [E|_];
    [rewrite (WireFacts.wire_length P Hwf) in E; lia|].
  unfold receive_datagram.
  destruct (DriverMore.Deserialize_of_wire P HP) as [rest ->]. cbn [negb].
  change (Packet.GetType (received P Packet.create)) with (Packet.GetType P).
  destruct (Z.eqb_spec (Packet.GetType P) PacketType.ConnectionRequest);
    [contradiction|].
  destruct (Z.eqb_spec (Packet.GetType P) PacketType.ConnectionAccept);
    [contradiction|].
  destruct (Z.eqb_spec (Packet.GetType P) PacketType.Disconnect);
    [contradiction|].
  rewrite Hfind, Hderef.
  destruct (NetConnection.ReceivePacket c (received P Packet.create)).
  cbn [fst snd receive_loop]. now rewrite app_nil_r.
Qed.

Lemma fits_ack (s q : Z) :
  fits_buffer (Packet.SetSequence (NetConnection.ack_packet s) q).
Proof.
  unfold fits_buffer, NetConnection.ack_packet, Packet.WriteU32,
    BitStream.WriteUInt32, BitStream.GetSize.
  cbn [Packet.SetSequence Packet.with_payload Packet.m_payload].
  rewrite (proj1 (BitStreamFacts.Write_positions _ _)), length_le_split.
  unfold MAX_PACKET_SIZE. cbn. lia.
Qed.

(** The acknowledgement of sequence [s], received on a connection that
    retains a packet under [s]. *)
Lemma ack_received (c : NetConnection.t) (s q : Z) :
  in_unsigned 32 s ->
  let A := Packet.SetSequence (NetConnection.ack_packet s) q in
  NetConnection.m_reliableBuffer c !! s <> None ->
  NetConnection.m_reliableBuffer
    (fst (NetConnection.ReceivePacket c (received A Packet.create)))
  = delete s (NetConnection.m_reliableBuffer c) /\
  NetConnection.m_outgoingQueue
    (fst (NetConnection.ReceivePacket c (received A Packet.create)))
  = NetConnection.m_outgoingQueue c.
Proof.
  intros Hs A Hin.
  assert (Hread : fst (BitStream.ReadUInt32
                         (Packet.m_payload (received A Packet.create))) = s).
  { unfold received. cbn [Packet.m_payload].
    change (BitStream.contents (Packet.m_payload A))
      with (BitStream.contents
              (BitStream.Write BitStream.create (le_split 4 s))).
    change (BitStream.GetSize (Packet.m_payload A))
      with (BitStream.GetSize (BitStream.Write BitStream.create (le_split 4 s))).
    assert (Hc : BitStream.contents
                   (BitStream.Write BitStream.create (le_split 4 s))
                 = le_split 4 s).
    { rewrite CodecFacts.contents_Write by (split; simpl; lia). reflexivity. }
    assert (Hsz : BitStream.GetSize
                    (BitStream.Write BitStream.create (le_split 4 s)) = 4%nat).
    { unfold BitStream.GetSize.
      rewrite (proj1 (BitStreamFacts.Write_positions _ _)).
      now rewrite length_le_split. }
    rewrite Hc, Hsz. cbn [Nat.ltb Nat.leb].
    unfold BitStream.ReadUInt32.
    rewrite PacketMore.read_scalar_of_data by (rewrite length_le_split; lia).
    cbn [fst]. rewrite <- (length_le_split 4 s) at 1. rewrite firstn_all.
    rewrite le_combine_split. apply Z.mod_small. exact Hs. }
  unfold NetConnection.ReceivePacket.
  replace (Packet.GetType (received A Packet.create))
    with PacketType.Acknowledgement by reflexivity.
  cbn [Z.eqb negb andb PacketType.Acknowledgement Pos.eqb].
  unfold NetConnection.ProcessAcknowledgement.
  destruct (BitStream.ReadUInt32 (Packet.m_payload (received A Packet.create)))
    as [acked pl]. cbn [fst] in Hread. subst acked.
  cbn [NetConnection.m_reliableBuffer].
  destruct (NetConnection.m_reliableBuffer c !! s) eqn:E; [|contradiction].
  cbn [fst NetConnection.m_reliableBuffer NetConnection.m_outgoingQueue].
  split; reflexivity.
Qed.

End AckFacts.

(** X8. Reliable retention and the acknowledgement loop between two
    drivers. The sending driver holds the connection [c] to its peer and
    the receiving driver holds the connection [r] for the sender's
    address. A well-formed packet that is none of [ConnectionRequest],
    [ConnectionAccept], [Disconnect], [Acknowledgement], [Heartbeat] and
    whose datagram fits the receive buffer of [MAX_PACKET_SIZE * 2]
    bytes is sent reliably: it is queued on [c] and retained under its
    sequence number [s]. [ReceivePackets] of the peer takes the datagram
    from the socket, hands the packet to the packet callback and queues
    on [r] an acknowledgement for [s], which is not retained. When
    [ReceivePackets] of the sender takes the datagram of that
    acknowledgement, the entry for [s] is removed from the retention
    map of [c], all other entries stay, and [c] queues nothing in
    return. *)
Theorem acknowledgement_loop
    (ds dr : NetDriver.t) (ps pr : NetDriver.conn_ptr)
    (c r : NetConnection.t) (sender receiver : Address) (P : Packet.t) :
  NetDriver.FindConnection ds receiver = Some ps ->
  NetDriver.deref ds ps = Some c ->
  NetDriver.FindConnection dr sender = Some pr ->
  NetDriver.deref dr pr = Some r ->
  Packet.well_formed P ->
  fits_buffer P ->
  Packet.GetType P <> PacketType.ConnectionRequest ->
  Packet.GetType P <> PacketType.ConnectionAccept ->
  Packet.GetType P <> PacketType.Disconnect ->
  Packet.GetType P <> PacketType.Acknowledgement ->
  Packet.GetType P <> PacketType.Heartbeat ->
  in_unsigned 32 (NetConnection.m_outgoingSequence c) ->
  in_unsigned 32 (NetConnection.m_outgoingSequence r) ->
  let s := NetConnection.m_outgoingSequence c in
  let sent := Packet.SetSequence P s in
  let ack := Packet.SetSequence (NetConnection.ack_packet s)
               (NetConnection.m_outgoingSequence r) in
  let ds1 := NetDriver.SendPacket ds ps P true in
  let at_receiver :=
    NetDriver.ReceivePackets dr [(sender, Packet.wire_bytes sent)] in
  let at_sender :=
    NetDriver.ReceivePackets ds1 [(receiver, Packet.wire_bytes ack)] in
  (exists c1,
     NetDriver.deref ds1 ps = Some c1 /\
     NetConnection.m_outgoingQueue c1 = NetConnection.m_outgoingQueue c ++ [sent] /\
     NetConnection.m_reliableBuffer c1 !! s = Some sent) /\
  snd (fst at_receiver)
  = NetDriver.callback (NetDriver.m_onPacket dr)
      (NetDriver.OnPacket pr (received sent Packet.create)) /\
  (exists r1,
     NetDriver.deref (fst (fst at_receiver)) pr = Some r1 /\
     NetConnection.m_outgoingQueue r1 = NetConnection.m_outgoingQueue r ++ [ack] /\
     NetConnection.m_reliableBuffer r1 = NetConnection.m_reliableBuffer r) /\
  (exists c2,
     NetDriver.deref (fst (fst at_sender)) ps = Some c2 /\
     NetConnection.m_reliableBuffer c2
     = delete s (NetConnection.m_reliableBuffer c) /\
     NetConnection.m_reliableBuffer c2 !! s = None /\
     NetConnection.m_outgoingQueue c2
     = NetConnection.m_outgoingQueue c ++ [sent]).
Proof.
  intros Hfs Hds Hfr Hdr HP Hfit H1 H2 H3 H4 H5 Hs Hr s sent ack ds1
    at_receiver at_sender.
  assert (HP' : Packet.well_formed sent)
    by now apply WireFacts.well_formed_SetSequence.
  assert (HA : Packet.well_formed ack)
    by (apply WireFacts.well_formed_SetSequence;
        [apply WireFacts.well_formed_ack|exact Hr]).
  set (c1 := NetConnection.SendPacket c P true).
  assert (Hd1 : NetDriver.deref ds1 ps = Some c1).
  { subst ds1. unfold NetDriver.SendPacket.
    rewrite NetDriverFacts.deref_update, Hds. reflexivity. }
  assert (Hin : NetConnection.m_reliableBuffer c1 !! s = Some sent)
    by (subst c1; cbn [NetConnection.SendPacket NetConnection.m_reliableBuffer];
        apply lookup_insert_eq).
  split.
  { exists c1. split; [exact Hd1|]. split; [reflexivity|exact Hin]. }
  subst at_receiver.
  rewrite (AckFacts.receive_found dr sender pr r sent Hfr Hdr HP' Hfit H1 H2 H3).
  cbn [fst snd].
  destruct (NetConnectionFacts.ReceivePacket_acks r (received sent Packet.create))
    as (Hq & Hb & Hsame); [exact H4|exact H5|].
  split; [now rewrite Hsame|].
  split.
  { eexists. rewrite NetDriverFacts.deref_update, Hdr. cbn [fmap option_fmap option_map].
    split; [reflexivity|]. split; [exact Hq|exact Hb]. }
  subst at_sender.
  rewrite (AckFacts.receive_found ds1 receiver ps c1 ack);
    [|subst ds1; rewrite AckFacts.FindConnection_SendPacket; exact Hfs
     |exact Hd1|exact HA|apply AckFacts.fits_ack
     |discriminate|discriminate|discriminate].
  cbn [fst snd].
  destruct (AckFacts.ack_received c1 s (NetConnection.m_outgoingSequence r) Hs)
    as [Hbuf Hqueue]; [rewrite Hin; discriminate|].
  fold ack in Hbuf, Hqueue.
  eexists. rewrite NetDriverFacts.deref_update, Hd1.
  cbn [fmap option_fmap option_map].
  split; [reflexivity|]. rewrite Hbuf, Hqueue.
  assert (Hdel : delete s (NetConnection.m_reliableBuffer c1)
                 = delete s (NetConnection.m_reliableBuffer c)).
  { subst c1. cbn [NetConnection.SendPacket NetConnection.m_reliableBuffer].
    change (Packet.GetSequence (Packet.SetSequence P s)) with s.
    apply delete_insert_eq. }
  rewrite Hdel.
  split; [reflexivity|]. split; [apply lookup_delete_eq|reflexivity].
Qed.

(** An instance: the server of the example sends an [ActorDestroy] packet
    to its peer, a client whose server connection is connected; the
    client's acknowledgement clears the server's retention map. *)
Lemma acknowledgement_loop_witness :
  let server := fst (fst (NetDriverOps.FlushOutgoingPackets
                            (Scenario.server_with_peer 2)
                            (Socket.mk true [12]))) in
  let client := fst (fst (NetDriver.ReceivePackets Scenario.client
                            [(Scenario.server_addr,
                              Packet.wire_bytes
                                (Packet.SetSequence
                                   (Packet.of_type PacketType.ConnectionAccept)
                                   0))])) in
  exists c2,
    NetDriver.deref
      (fst (fst (NetDriver.ReceivePackets
                   (NetDriver.SendPacket server 0%nat (destroy_packet 1) true)
                   [(Scenario.peer_addr,
                     Packet.wire_bytes
                       (Packet.SetSequence (NetConnection.ack_packet 1) 1))])))
      0%nat
    = Some c2 /\
    NetConnection.m_reliableBuffer c2 !! 1 = None.
Proof.
  intros server client.
  destruct (NetDriver.deref server 0%nat) as [c|] eqn:Hc;
    [|vm_compute in Hc; discriminate].
  destruct (NetDriver.deref client 0%nat) as [r|] eqn:Hr;
    [|vm_compute in Hr; discriminate].
  assert (Hcs : NetConnection.m_outgoingSequence
                  <$> NetDriver.deref server 0%nat = Some 1)
    by (vm_compute; reflexivity).
  assert (Hrs : NetConnection.m_outgoingSequence
                  <$> NetDriver.deref client 0%nat = Some 1)
    by (vm_compute; reflexivity).
  rewrite Hc in Hcs. rewrite Hr in Hrs.
  injection Hcs as Hcs. injection Hrs as Hrs.
  destruct (acknowledgement_loop server client 0%nat 0%nat c r
              Scenario.server_addr Scenario.peer_addr (destroy_packet 1))
    as (_ & _ & _ & c2 & Hd2 & _ & Hgone & _);
    try discriminate.
  - vm_compute. reflexivity.
  - exact Hc.
  - vm_compute. reflexivity.
  - exact Hr.
  - unfold Packet.well_formed, in_unsigned, BitStream.wf.
    repeat split; vm_compute; (reflexivity || congruence || lia).
  - unfold fits_buffer. vm_compute. lia.
  - rewrite Hcs. split; vm_compute; (reflexivity || congruence).
  - rewrite Hrs. split; vm_compute; (reflexivity || congruence).
  - rewrite Hcs, Hrs in Hd2. rewrite Hcs in Hgone.
    exists c2. split; [exact Hd2|exact Hgone].
Defined.
